(* ===== verification/_CoqProject ===== *)
-Q . S2P
Prelude.v
PySeq.v
PyBytes.v
PyStr.v
Json.v
Logging.v
Sockets.v
Encodings.v
Sha256.v
RdpConstants.v
Stream.v
Tpkt.v
X224.v
CredSsp.v
Mcs.v
ProxyProtocol.v
Redis.v
Keys.v
LoginLimiter.v
Csrf.v
Encryption.v
Sessions.v
Plugins.v
Quality.v
Relay.v
RelayServer.v
PyUuid.v
Database.v
Models.v
Migrations.v
Tracker.v
PyIp.v
Config.v
Dns.v
Settings.v
Ldap.v
AdminSettings.v
Handler.v
Limits.v
RdpFile.v
Http.v
Portal.v
Accounts.v
AdminSessions.v
AdminActivity.v
AdminCatalog.v
PyUrl.v
AdminWeb.v
WebApps.v
Sha1.v
AdGroups.v
Certificates.v
Acme.v
Renewal.v
Processes.v
Services.v
Metrics.v
AdminOverview.v
EndToEnd.v
