(* ===== verification/Prelude.v ===== *)
(** * rdpproxy, verified

    rdpproxy is a gateway for remote desktops. A user signs in at a web portal
    with his directory account and downloads an [.rdp] file that carries a token;
    his client presents the token to a relay, which looks the session up, signs in
    to the server with the user's own password and passes the bytes on. An
    administration manages the servers, the file templates, the settings and the
    sessions. The services are separate processes that share Redis and PostgreSQL
    and nothing else.

    ** How the code is translated

    The code under [src/src/] is translated by hand, one file here per module or
    group of modules there, and every definition keeps the name of the function,
    method or record it models. Pure code is a function. Code with effects is a
    computation [io S A], a function from a state to a result and the state it
    leaves: an exception keeps the effects that came before it, as it does in
    Python, and [io_try], [io_finally] and [io_transaction] are [try], [finally] and
    a database transaction. Exceptions are the constructors of one type, and the
    places where the code tells them apart are [match]es on it. Text is a list of
    code points, bytes are bytes, integers of the wire have their width, Python's
    integers are [Z]; a dict whose order is visible is the list of its items.
    Time is an argument, in milliseconds unless a file says otherwise; random bytes
    are arguments. A file that models a client of something outside the repository
    takes it as a typeclass of operations and a typeclass of its documented laws,
    and instantiates both by a concrete function for its witnesses.

    ** The parts

    - The language and its library: [PySeq], [PyBytes], [PyStr], [Json],
      [Encodings], [Sha256], [Sha1], [PyUuid], [PyIp], [PyUrl], [Stream].
    - The wire: [RdpConstants], [Tpkt], [X224], [Mcs], [CredSsp] ([libs/rdp/]) and
      [ProxyProtocol] ([libs/proxy_protocol/]).
    - Redis: [Redis] is the interface (the commands, the live keys, other clients
      that run between any two commands, WATCH/MULTI/EXEC); [Keys],
      [Encryption], [Sessions] are [libs/redis_store/]; [LoginLimiter] and [Csrf]
      are [libs/security/].
    - PostgreSQL: [Database] is the interface (tables with keys, constraints and
      transactions), [Models] are the rows of [libs/db/models/], [Migrations] is the
      schema that the models declare and the one that the migration creates.
    - Settings: [Config] ([libs/config/loader.py]), [Settings]
      ([libs/config/settings_manager.py] and its routes), [Processes] (what each
      service does with them when it starts and when they change), [Services] (the
      entry points, from the configuration file to the first request).
    - The relay ([services/rdp_relay/]): [Handler] is the life of a connection,
      [Relay] the two pipes as a step relation over their interleavings,
      [RelayServer] the admission of connections, [Plugins] and [Quality] the
      plugins, [Limits] the time limits as they come out, [Tracker] ([libs/redis_store/active_tracker.py]) the record of
      connections, [Dns] the resolver, [Sockets] ([tcp_utils.py]) the socket options.
    - The portal ([services/portal/]): [Http] requests and responses, [Ldap]
      ([libs/identity/]), [RdpFile] ([libs/rdp/rdp_file.py]), [Portal] the routes.
    - The administration ([services/admin/]): [Accounts], [AdminSessions],
      [AdminSettings], [AdminCatalog], [AdGroups], [AdminOverview] are routes,
      [AdminWeb] the middlewares around them, [WebApps] the tables of the routes of
      both applications and the stack in front of them.
    - [Metrics] ([services/metrics/]); [Certificates], [Acme] and [Renewal]
      ([libs/acme_client/], and the tasks of the administration that use it).
    - [Logging] ([libs/common/logging.py], [health.py]): the log and the probe.
    - [EndToEnd] composes the portal and the relay, [AdminActivity] the relay and
      the administration, [Processes] the settings and the three services.

    A client is proved against interfaces and not against their instances: the
    portal against [Authenticator], which [Ldap] implements; everything against
    [RedisLaws], [TableLaws], [LogLaws] and [AESGCMLaws].

    ** What the theorems show

    Safety: what opens a session, a file, the relay's door or an administrator's
    route, what follows from a client that shows no valid token, and what no
    network and no exception can undo (a handler returns with its connection
    closed in the records, or, when the servers do not answer, left to the next
    start; an administrator remains; secrets are sealed in the table and travel
    encrypted). Invariants: the tables under every operation of the
    administration, the accounting of the relay under every interleaving.
    Refinement: the update of a token under interference is atomic, the file of a
    download opens the relay's door, a setting that is stored is in force in every
    process, also after a restart, what the collector measured is what the administrator sees.
    Equivalence: the test of the directory tries what storing the form puts in
    force. Round trips: frames, messages, headers, settings, the migration, the
    events of a connection, the lines of the log. Errors: which exceptions leave a
    parser, that a plugin's failure stays its own. Liveness: a kill reaches the relay,
    the certificate expires only after thirty days of failures. Where the code does not do what it says, a theorem or an example shows
    the run.

    ** Faults and other clients

    Redis and PostgreSQL can fail in the middle of an operation where its promise
    depends on it. The state of [Tracker] has a script of faults, one entry per
    exchange: a refused one raises and nothing is done, an unanswered one raises and
    what was asked is done. [Handler] runs under any such script, also one that
    fails every write of its clean-up, as does the reconciliation at a start.
    [Portal] has an [outage] that says which reads of a download raise. Elsewhere
    both servers answer, and what raises is a constraint, a conversion or a library.
    Other clients of Redis run between any two commands, unless a statement says
    that nobody else writes. The requests of the administration come one after the
    other and each is one transaction: two that overlap are modelled only in
    [Accounts.last_admin_race], so that two simultaneous creations of a default
    template, for one, are outside of the model.

    ** Fuel

    A recursion that is not structural takes its fuel from its input: a parser
    of a message gets the length of the message, and every recursive call is on a
    strictly shorter rest ([CredSsp.ts_request_terminates], the readers of
    [ProxyProtocol] and [Json]); the retry loop on a token gets the number of
    batches other clients still run, since each retry consumes one.

    ** What is not modelled

    Third-party libraries are parameters ([ldap3], [impacket], [cryptography],
    [argon2], [acme], [dnspython], SQLAlchemy, pydantic, Starlette). Floating-point
    numbers in JSON are kept as text, and the averages of [Quality] are exact where
    the code has floats ([Metrics] has binary64). A message about a settings change
    that cannot be published, which [save] only logs, does not occur. [JSONB] does not keep the order of keys and
    refuses NUL, which the tables of settings ignore. The Unicode case tables are a
    parameter. The cancellation of a coroutine by its event loop, the HTML
    templates, Alembic's runner, and the signals, listening sockets and shutdown of the
    processes are not modelled. *)

From stdpp Require Import prelude gmap list.
From Stdlib Require Import ZArith Lia.

(** * Exceptions and results *)

(** The exceptions the modelled code raises or lets through. Messages are not
    modelled; the HTTP status of an [HTTPException] is. *)
Inductive exn : Type :=
  | ValueError
  | IndexError
  | KeyError
  | TypeError
  | StructError
  | UnicodeError
  | IncompleteReadError
  | ConnectionError
  | TimeoutError
  | RedisError
  | WatchError
  | InvalidTag
  | IntegrityError
  | DataError
  | OtherError
  | HTTPException (status : Z).

#[export] Instance exn_eq_dec : EqDecision exn.
Proof. solve_decision. Defined.

(** A Python call either returns or raises. *)
Inductive res (A : Type) : Type :=
  | Ok (a : A)
  | Err (e : exn).
Arguments Ok {A} a.
Arguments Err {A} e.

#[export] Instance res_eq_dec {A} `{EqDecision A} : EqDecision (res A).
Proof. solve_decision. Defined.

#[export] Instance res_ret : MRet res := @Ok.
#[export] Instance res_bind : MBind res := λ A B f m,
  match m with Ok a => f a | Err e => Err e end.
#[export] Instance res_fmap : FMap res := λ A B f m,
  match m with Ok a => Ok (f a) | Err e => Err e end.

Declare Scope py_scope.
Delimit Scope py_scope with py.
Open Scope py_scope.

(** [o ?? e]: the value of [o], or raise [e]. *)
Definition or_raise {A} (o : option A) (e : exn) : res A :=
  match o with Some a => Ok a | None => Err e end.
Notation "o ?? e" := (or_raise o e) (at level 55, no associativity) : py_scope.

(** [guard_raise b e]: [if b: raise e]. *)
Definition raise_if (b : bool) (e : exn) : res unit :=
  if b then Err e else Ok tt.

(** [try: m except Exception: h]. *)
Definition try_except {A} (m : res A) (h : exn → res A) : res A :=
  match m with Ok a => Ok a | Err e => h e end.

Definition is_ok {A} (m : res A) : bool :=
  match m with Ok _ => true | Err _ => false end.

(** A computation that threads a state and may raise: the state changes made
    before a [raise] stay. *)
Definition io (S A : Type) : Type := S → res A * S.

#[export] Instance io_ret {S} : MRet (io S) := λ A a s, (Ok a, s).
#[export] Instance io_bind {S} : MBind (io S) := λ A B f m s,
  match m s with
  | (Ok a, s') => f a s'
  | (Err e, s') => (Err e, s')
  end.
Definition io_raise {S A} (e : exn) : io S A := λ s, (Err e, s).
Definition io_lift {S A} (m : res A) : io S A := λ s, (m, s).
Definition io_get {S} : io S S := λ s, (Ok s, s).
Definition io_modify {S} (f : S → S) : io S unit := λ s, (Ok tt, f s).
Definition io_try {S A} (m : io S A) (h : exn → io S A) : io S A := λ s,
  match m s with
  | (Ok a, s') => (Ok a, s')
  | (Err e, s') => h e s'
  end.

(** [try: m finally: f]: an exception of [f] replaces the outcome. *)
Definition io_finally {S A} (m : io S A) (f : io S unit) : io S A := λ s,
  let '(r, s') := m s in
  match f s' with (Ok _, s'') => (r, s'') | (Err e, s'') => (Err e, s'') end.

(** Run on a part of the state. *)
Definition io_zoom {S D A} (get : S → D) (set : D → S → S) (m : io D A) : io S A := λ s,
  let '(a, d) := m (get s) in (a, set d s).

(** A transaction: what it changed is undone when it raises. *)
Definition io_transaction {S A} (m : io S A) : io S A := λ s,
  match m s with
  | (Ok a, s') => (Ok a, s')
  | (Err e, _) => (Err e, s)
  end.

(** [int(time.time())]: the clock is read in milliseconds. *)
Definition int_time (now_ms : Z) : Z := Z.div now_ms 1000.

(** * Tactics shared by the development *)

(** Case analysis on the matches of the goal over results, options and
    booleans, in the order the code makes them. *)
Ltac res_case :=
  match goal with
  | |- context [match ?x with Ok _ => _ | Err _ => _ end] =>
      destruct x eqn:?
  | |- context [match ?x with Some _ => _ | None => _ end] =>
      destruct x eqn:?
  | |- context [if ?b then _ else _] => destruct b eqn:?
  end.

Ltac res_case_in H :=
  match type of H with
  | context [match ?x with Ok _ => _ | Err _ => _ end] => destruct x eqn:?
  | context [match ?x with Some _ => _ | None => _ end] => destruct x eqn:?
  | context [if ?b then _ else _] => destruct b eqn:?
  end.

(** Unfold the monad operations, so that [simpl] sees the matches. *)
Ltac unfold_res :=
  unfold mbind, mret, fmap, res_bind, res_ret, res_fmap, or_raise, raise_if in *.
Ltac unfold_io :=
  unfold mbind, mret, io_bind, io_ret, io_raise, io_lift, io_get, io_modify in *.

(** * Hint databases *)

(** [py]: facts closed by resolution; [py_len]: lengths, by rewriting. *)
Create HintDb py discriminated.
Create Rewrite HintDb py_len.
#[export] Hint Rewrite @length_app @length_take @length_drop @length_replicate
  @length_fmap @length_cons : py_len.

(** Goals about lengths of concatenations, prefixes and suffixes. *)
Ltac len :=
  simpl length in *; autorewrite with py_len in *; simpl length in *; try lia.

(** * Generic lemmas *)

Lemma bind_Ok {A B} (m : res A) (f : A → res B) (b : B) :
  m ≫= f = Ok b → ∃ a, m = Ok a ∧ f a = Ok b.
Proof. destruct m as [a|e]; simpl; [eauto | discriminate]. Qed.

Lemma or_raise_Ok {A} (o : option A) (e : exn) (a : A) :
  o ?? e = Ok a ↔ o = Some a.
Proof. destruct o; simpl; split; congruence. Qed.

Lemma io_bind_run {S A B} (m : io S A) (f : A → io S B) (s : S) :
  (m ≫= f) s = match m s with (Ok a, s') => f a s' | (Err e, s') => (Err e, s') end.
Proof. reflexivity. Qed.

Lemma io_ret_run {S A} (a : A) (s : S) : (mret a : io S A) s = (Ok a, s).
Proof. reflexivity. Qed.

(** ** Invariants of computations *)

(** [I] survives the computation, whether it returns or raises. *)
Definition keeps {S A} (I : S → Prop) (m : io S A) : Prop := ∀ s, I s → I (m s).2.

Section Keeps.
Context {S : Type} (I : S → Prop).

Lemma keeps_ret {A} (a : A) : keeps I (mret a : io S A).
Proof. by intros s. Qed.

Lemma keeps_raise {A} e : keeps I (io_raise e : io S A).
Proof. by intros s. Qed.

Lemma keeps_lift {A} (r : res A) : keeps I (io_lift r : io S A).
Proof. by intros s. Qed.

Lemma keeps_bind {A B} (m : io S A) (f : A → io S B) :
  keeps I m → (∀ a, keeps I (f a)) → keeps I (m ≫= f).
Proof.
  intros Hm Hf s Hs. rewrite io_bind_run. specialize (Hm s Hs).
  destruct (m s) as [[a|e] s']; [by apply Hf | done].
Qed.

(** After reading the state, which satisfies [I]. *)
Lemma keeps_get {B} (f : S → io S B) : (∀ s, I s → I (f s s).2) → keeps I (io_get ≫= f).
Proof. intros Hf s Hs. by apply Hf. Qed.

Lemma keeps_read : keeps I (io_get : io S S).
Proof. by intros s. Qed.

Lemma keeps_modify (f : S → S) : (∀ s, I s → I (f s)) → keeps I (io_modify f).
Proof. intros Hf s Hs. by apply Hf. Qed.

Lemma keeps_try {A} (m : io S A) (h : exn → io S A) :
  keeps I m → (∀ e, keeps I (h e)) → keeps I (io_try m h).
Proof.
  intros Hm Hh s Hs. unfold io_try. specialize (Hm s Hs).
  destruct (m s) as [[a|e] s']; [done | by apply Hh].
Qed.

Lemma keeps_finally {A} (m : io S A) (f : io S unit) : keeps I m → keeps I f → keeps I (io_finally m f).
Proof.
  intros Hm Hf s Hs. unfold io_finally. specialize (Hm s Hs). destruct (m s) as [r s'].
  specialize (Hf s' Hm). by destruct (f s') as [[x|e] s''].
Qed.

Lemma keeps_if {A} (b : bool) (m n : io S A) : keeps I m → keeps I n → keeps I (if b then m else n).
Proof. by destruct b. Qed.
End Keeps.

(** What a computation returns, when it returns. *)
Definition yields {S A} (P : A → Prop) (m : io S A) : Prop := ∀ s a s', m s = (Ok a, s') → P a.

Lemma yields_bind {S A B} (P : B → Prop) (m : io S A) (f : A → io S B) : (∀ a, yields P (f a)) → yields P (m ≫= f).
Proof.
  intros Hf s b s'. rewrite io_bind_run. destruct (m s) as [[a|e] s1]; [apply Hf | discriminate].
Qed.

(** Pre- and postconditions: [Q] for a return, [E] for an exception. *)
Definition hoare {S A} (P : S → Prop) (m : io S A) (Q : A → S → Prop) (E : S → Prop) : Prop :=
  ∀ s, P s → match m s with (Ok a, s') => Q a s' | (Err _, s') => E s' end.

Section Hoare.
Context {S : Type}.
Implicit Types (P E : S → Prop).

Lemma hoare_bind {A B} P (m : io S A) (f : A → io S B) Q R E :
  hoare P m Q E → (∀ a, hoare (Q a) (f a) R E) → hoare P (m ≫= f) R E.
Proof.
  intros Hm Hf s Hs. rewrite io_bind_run. specialize (Hm s Hs).
  destruct (m s) as [[a|e] s']; [by apply Hf | done].
Qed.

Lemma hoare_keeps {A} P (m : io S A) : keeps P m → hoare P m (λ _, P) P.
Proof. intros Hm s Hs. specialize (Hm s Hs). by destruct (m s) as [[a|e] s']. Qed.

Lemma keeps_hoare {A} P (m : io S A) : hoare P m (λ _, P) P → keeps P m.
Proof. intros Hm s Hs. specialize (Hm s Hs). by destruct (m s) as [[a|e] s']. Qed.

Lemma hoare_ret {A} (a : A) P (Q : A → S → Prop) E : (∀ s, P s → Q a s) → hoare P (mret a) Q E.
Proof. intros HQ s Hs. by apply HQ. Qed.

Lemma hoare_raise {A} e P (Q : A → S → Prop) E : (∀ s, P s → E s) → hoare P (io_raise e) Q E.
Proof. intros HE s Hs. by apply HE. Qed.

Lemma hoare_weaken {A} P P' (m : io S A) (Q Q' : A → S → Prop) E E' :
  hoare P m Q E → (∀ s, P' s → P s) → (∀ a s, Q a s → Q' a s) → (∀ s, E s → E' s) → hoare P' m Q' E'.
Proof.
  intros Hm HP HQ HE s Hs. specialize (Hm s (HP s Hs)). destruct (m s) as [[a|e] s']; auto.
Qed.

(** A fact in the precondition. *)
Lemma hoare_fact {A} P (F : Prop) (m : io S A) (Q : A → S → Prop) E :
  (F → hoare P m Q E) → hoare (λ s, P s ∧ F) m Q E.
Proof. intros Hm s [Hs HF]. by apply Hm. Qed.

Lemma hoare_finally {A} P (m : io S A) (f : io S unit) (Q Q' : A → S → Prop) E E' :
  hoare P m Q E → (∀ a, hoare (Q a) f (λ _, Q' a) E') → hoare E f (λ _, E') E' → hoare P (io_finally m f) Q' E'.
Proof.
  intros Hm Hf He s Hs. unfold io_finally. specialize (Hm s Hs). destruct (m s) as [[a|e] s'].
  - specialize (Hf a s' Hm). by destruct (f s') as [[x|e] s''].
  - specialize (He s' Hm). by destruct (f s') as [[x|e'] s''].
Qed.

(** After a step that keeps the precondition. *)
Lemma hoare_step {A B} P (m : io S A) (f : A → io S B) Q :
  keeps P m → (∀ a, hoare P (f a) Q P) → hoare P (m ≫= f) Q P.
Proof. intros Hm Hf. eapply hoare_bind; [by apply hoare_keeps | exact Hf]. Qed.
End Hoare.

(** *** Transactions, and computations on a part of the state *)

Lemma transaction_keeps {S A} (I : S → Prop) (m : io S A) :
  hoare I m (λ _, I) (λ _, True) → keeps I (io_transaction m).
Proof. intros Hm s Hs. specialize (Hm s Hs). unfold io_transaction. by destruct (m s) as [[a|e] s']. Qed.

Lemma zoom_hoare {S D A} (get : S → D) (set : D → S → S) (m : io D A) I (Q : A → D → Prop) E :
  (∀ d s, get (set d s) = d) → hoare I m Q E →
  hoare (λ s, I (get s)) (io_zoom get set m) (λ a s, Q a (get s)) (λ s, E (get s)).
Proof.
  intros Hset Hm s Hs. specialize (Hm (get s) Hs). unfold io_zoom.
  destruct (m (get s)) as [[a|e] d]; by rewrite Hset.
Qed.

Lemma zoom_keeps {S D A} (get : S → D) (set : D → S → S) (m : io D A) I :
  (∀ d s, get (set d s) = d) → keeps I m → keeps (λ s, I (get s)) (io_zoom get set m).
Proof.
  intros Hset Hm s Hs. specialize (Hm (get s) Hs). unfold io_zoom. destruct (m (get s)) as [a d]. cbn. by rewrite Hset.
Qed.

Lemma zoom_other {S D A} (get : S → D) (set : D → S → S) (m : io D A) (J : S → Prop) :
  (∀ d s, J s → J (set d s)) → keeps J (io_zoom get set m).
Proof. intros Hset s Hs. unfold io_zoom. destruct (m (get s)) as [a d]. by apply Hset. Qed.

Lemma keeps_transaction {S A} (I : S → Prop) (m : io S A) : keeps I m → keeps I (io_transaction m).
Proof. intros Hm s Hs. specialize (Hm s Hs). unfold io_transaction. by destruct (m s) as [[a|e] s']. Qed.

#[export] Hint Resolve keeps_ret keeps_raise keeps_lift keeps_bind keeps_modify keeps_try keeps_finally keeps_if keeps_read : py.

Lemma take_app_exact {A} (l k : list A) n : n = length l → take n (l ++ k) = l.
Proof. intros ->. apply take_app_length. Qed.

Lemma drop_app_exact {A} (l k : list A) n : n = length l → drop n (l ++ k) = k.
Proof. intros ->. apply drop_app_length. Qed.

Lemma lookup_app_at {A} (l k : list A) x n :
  n = length l → (l ++ x :: k) !! n = Some x.
Proof. intros ->. rewrite lookup_app_r by lia. by rewrite Nat.sub_diag. Qed.

Lemma elem_of_drop {A} (x : A) (l : list A) n : x ∈ drop n l → x ∈ l.
Proof. intros H. rewrite <- (take_drop n l). apply elem_of_app. by right. Qed.

Lemma elem_of_take_l {A} (x : A) (l : list A) n : x ∈ take n l → x ∈ l.
Proof. intros H. rewrite <- (take_drop n l). apply elem_of_app. by left. Qed.

Lemma Forall_take_drop {A} (P : A → Prop) (l : list A) i j :
  Forall P l → Forall P (take j (drop i l)).
Proof. intros H. by apply Forall_take, Forall_drop. Qed.
