(* ===== verification/PySeq.v ===== *)
(** Python sequence operations shared by [bytes] and [str]: prefix test,
    [find], slicing, [replace], [split] on one separator and [join], with the
    lemmas the protocol parsers need about them. *)

From stdpp Require Import prelude list.
From Stdlib Require Import ZArith Lia.
From S2P Require Import Prelude.

Section Seq.
Context {A : Type} `{EqDecision A}.
Implicit Types (l k p : list A) (x : A).

(** [l.startswith(p)] *)
Fixpoint starts_with p l : bool :=
  match p, l with
  | [], _ => true
  | x :: p', y :: l' => bool_decide (x = y) && starts_with p' l'
  | _ :: _, [] => false
  end.

Fixpoint find_at p l (i : nat) : option nat :=
  if starts_with p l then Some i
  else match l with [] => None | _ :: l' => find_at p l' (S i) end.

(** [l.find(p, start)]; [None] is Python's [-1]. *)
Definition find p l (start : nat) : option nat :=
  if (start <=? length l)%nat then find_at p (drop start l) start else None.

(** [p in l] *)
Definition contains p l : bool :=
  match find p l 0 with Some _ => true | None => false end.

(** [l[i:j]] for non-negative [i] and [j]. *)
Definition slice l (i j : nat) : list A := take (j - i) (drop i l).

(** [l.replace(old, new)] *)
Fixpoint replace_go (old new l : list A) (skip : nat) : list A :=
  match l with
  | [] => []
  | x :: l' =>
      match skip with
      | S k => replace_go old new l' k
      | O => if starts_with old l
             then new ++ replace_go old new l' (pred (length old))
             else x :: replace_go old new l' 0
      end
  end.
Definition replace (old new l : list A) : list A :=
  match old with
  | [] => foldr (λ x acc, new ++ x :: acc) new l
  | _ => replace_go old new l 0
  end.

(** [l.split(sep)] for a separator of one element. *)
Fixpoint split_on (sep : A) l : list (list A) :=
  match l with
  | [] => [[]]
  | x :: l' =>
      if bool_decide (x = sep) then [] :: split_on sep l'
      else match split_on sep l' with
           | [] => [[x]]
           | w :: ws => (x :: w) :: ws
           end
  end.

(** [l.split(sep, 1)] when [sep] occurs in [l]: the parts around its first
    occurrence. *)
Fixpoint split_first (sep : A) l : option (list A * list A) :=
  match l with
  | [] => None
  | x :: l' =>
      if bool_decide (x = sep) then Some ([], l')
      else match split_first sep l' with
           | Some (a, b) => Some (x :: a, b)
           | None => None
           end
  end.

(** [sep.join(ls)] *)
Fixpoint join_with (sep : list A) (ls : list (list A)) : list A :=
  match ls with
  | [] => []
  | [w] => w
  | w :: ws => w ++ sep ++ join_with sep ws
  end.

(** ** Prefixes *)

Lemma starts_with_spec p l : starts_with p l = true ↔ ∃ k, l = p ++ k.
Proof.
  revert l; induction p as [|x p IH]; intros l; simpl.
  - split; eauto.
  - destruct l as [|y l]; simpl.
    + split; [discriminate | intros [k [=]]].
    + rewrite andb_true_iff, bool_decide_eq_true, IH. split.
      * intros [-> [k ->]]. eauto.
      * intros [k [= -> ->]]. eauto.
Qed.

Lemma starts_with_app p l : starts_with p (p ++ l) = true.
Proof. apply starts_with_spec; eauto. Qed.

Lemma starts_with_false p l :
  starts_with p l = false ↔ ¬ ∃ k, l = p ++ k.
Proof. rewrite <- starts_with_spec. destruct (starts_with p l); naive_solver. Qed.

Lemma starts_with_length p l : starts_with p l = true → length p ≤ length l.
Proof. rewrite starts_with_spec. intros [k ->]. len. Qed.

(** ** [find] *)

Lemma find_at_shift p l i :
  find_at p l i = Nat.add i <$> find_at p l 0.
Proof.
  revert i; induction l as [|x l IH]; intros i; simpl.
  - destruct (starts_with p []); simpl; [f_equal; lia | done].
  - destruct (starts_with p (x :: l)); simpl; [f_equal; lia |].
    rewrite (IH (S i)), (IH 1). destruct (find_at p l 0); simpl; [f_equal; lia | done].
Qed.

(** [find] returns the first position at which [p] occurs. *)
Lemma find_Some p l i :
  find p l 0 = Some i ↔
    (∃ k, drop i l = p ++ k) ∧ i ≤ length l ∧
    ∀ j, j < i → ¬ ∃ k, drop j l = p ++ k.
Proof.
  unfold find. simpl. rewrite drop_0. revert i; induction l as [|x l IH]; intros i; simpl.
  - destruct (starts_with p []) eqn:E.
    + apply starts_with_spec in E as [k E]. split.
      * intros [= <-]. split; [by exists k | split; [lia | intros j ?; lia]].
      * intros (_ & Hi & _). f_equal. lia.
    + split; [discriminate|]. intros ([k Hk] & Hi & _).
      apply starts_with_false in E. destruct E. exists k.
      rewrite drop_nil in Hk. done.
  - destruct (starts_with p (x :: l)) eqn:E.
    + apply starts_with_spec in E as [k E]. split.
      * intros [= <-]. split; [by exists k | split; [lia | intros j ?; lia]].
      * intros (_ & _ & H). destruct i as [|i]; [done|].
        destruct (H 0 ltac:(lia)). by exists k.
    + rewrite find_at_shift. destruct i as [|i].
      * split; [destruct (find_at p l 0); simpl; congruence|].
        intros ([k Hk] & _). apply starts_with_false in E. destruct E. by exists k.
      * transitivity (find_at p l 0 = Some i).
        { destruct (find_at p l 0); simpl; split; congruence. }
        rewrite IH. simpl. split.
        -- intros (Hk & Hi & Hj). split; [done|]. split; [lia|].
           intros [|j] Hlt; [by apply starts_with_false in E | apply Hj; lia].
        -- intros (Hk & Hi & Hj). split; [done|]. split; [lia|].
           intros j Hlt. apply (Hj (S j)). lia.
Qed.

Lemma find_None p l :
  find p l 0 = None ↔ ∀ j, j ≤ length l → ¬ ∃ k, drop j l = p ++ k.
Proof.
  unfold find. simpl. rewrite drop_0. induction l as [|x l IH]; simpl.
  - destruct (starts_with p []) eqn:E.
    + split; [discriminate|]. intros H. destruct (H 0 ltac:(lia)).
      by apply starts_with_spec.
    + split; [|done]. intros _ j Hj. rewrite drop_nil. by apply starts_with_false.
  - destruct (starts_with p (x :: l)) eqn:E.
    + split; [discriminate|]. intros H. destruct (H 0 ltac:(lia)).
      by apply starts_with_spec.
    + rewrite find_at_shift.
      transitivity (find_at p l 0 = None).
      { destruct (find_at p l 0); simpl; split; congruence. }
      rewrite IH. split.
      * intros H [|j] Hj; [by apply starts_with_false | apply H; lia].
      * intros H j Hj. apply (H (S j)). lia.
Qed.

Lemma find_bound p l i : find p l 0 = Some i → i + length p ≤ length l.
Proof.
  rewrite find_Some. intros ([k Hk] & Hi & _).
  apply (f_equal length) in Hk. len.
Qed.

(** Searching from [start] is searching the rest of the sequence. *)
Lemma find_from p l start :
  start ≤ length l →
  find p l start = Nat.add start <$> find p (drop start l) 0.
Proof.
  intros H. unfold find. rewrite (proj2 (Nat.leb_le _ _) H). simpl.
  rewrite drop_0. apply find_at_shift.
Qed.

Lemma find_from_beyond p l start : length l < start → find p l start = None.
Proof. intros H. unfold find. by rewrite (proj2 (Nat.leb_gt _ _) H). Qed.

(** A separator is found right after a prefix that lacks its first element. *)
Lemma find_after x p l k :
  x ∉ l → find (x :: p) (l ++ (x :: p) ++ k) 0 = Some (length l).
Proof.
  intros Hx. apply find_Some. split; [|split].
  - exists k. by rewrite drop_app_length.
  - len.
  - intros j Hj [k' Hk]. rewrite drop_app_le in Hk by lia.
    destruct (drop j l) as [|y d] eqn:Ed.
    + apply (f_equal length) in Ed. len.
    + simpl in Hk. injection Hk as -> _. apply Hx.
      apply (elem_of_drop x l j). rewrite Ed. left.
Qed.

Lemma find_absent x p l : x ∉ l → find (x :: p) l 0 = None.
Proof.
  intros Hx. apply find_None. intros j _ [k Hk]. apply Hx.
  apply (elem_of_drop x l j). rewrite Hk. left.
Qed.

Lemma find_here p l : find p (p ++ l) 0 = Some 0.
Proof.
  apply find_Some. split; [by exists l|]. split; [lia|]. intros j ?; lia.
Qed.

(** ** Splitting and joining *)

Lemma split_on_nonempty sep l : split_on sep l ≠ [].
Proof.
  destruct l; simpl; [done|]. case_bool_decide; [done|].
  by destruct (split_on sep l).
Qed.

Lemma split_on_absent sep l : sep ∉ l → split_on sep l = [l].
Proof.
  induction l as [|x l IH]; [done|]. intros H. simpl.
  rewrite bool_decide_eq_false_2 by (intros ->; apply H; left).
  rewrite IH; [done|]. intros ?; apply H; by right.
Qed.

(** [split] after [join]: the parts come back when none holds the
    separator. *)
Lemma split_on_app sep l k :
  sep ∉ l → split_on sep (l ++ sep :: k) = l :: split_on sep k.
Proof.
  induction l as [|x l IH]; intros H; simpl.
  - by rewrite bool_decide_eq_true_2.
  - rewrite bool_decide_eq_false_2 by (intros ->; apply H; left).
    rewrite IH; [done|]. intros ?; apply H; by right.
Qed.

Lemma join_split_on sep l : join_with [sep] (split_on sep l) = l.
Proof.
  induction l as [|x l IH]; [done|]. simpl. case_bool_decide as E.
  - subst. pose proof (split_on_nonempty sep l).
    destruct (split_on sep l) as [|w ws]; [done|]. simpl in *. by rewrite IH.
  - pose proof (split_on_nonempty sep l).
    destruct (split_on sep l) as [|w [|w' ws]]; simpl in *; by rewrite <- IH.
Qed.

Lemma split_on_no_sep sep l w : w ∈ split_on sep l → sep ∉ w.
Proof.
  revert w; induction l as [|x l IH]; intros w; simpl.
  - rewrite list_elem_of_singleton. intros ->. apply not_elem_of_nil.
  - case_bool_decide as E.
    + rewrite elem_of_cons. intros [->|?]; [apply not_elem_of_nil | by apply IH].
    + destruct (split_on sep l) as [|w0 ws].
      * rewrite list_elem_of_singleton. intros ->.
        rewrite list_elem_of_singleton. congruence.
      * rewrite elem_of_cons. intros [->|?].
        -- rewrite not_elem_of_cons. split; [congruence|]. apply IH. left.
        -- apply IH. by right.
Qed.

Lemma split_first_Some sep l a b :
  split_first sep l = Some (a, b) ↔ l = a ++ sep :: b ∧ sep ∉ a.
Proof.
  revert a b; induction l as [|x l IH]; intros a b; simpl.
  - split; [discriminate|]. intros [H _]. by destruct a.
  - case_bool_decide as E.
    + subst. split.
      * intros [= <- <-]. split; [done | apply not_elem_of_nil].
      * intros [H Ha]. destruct a as [|y a]; simpl in H; [congruence|].
        injection H as -> _. destruct Ha. left.
    + destruct (split_first sep l) as [[a' b']|] eqn:F.
      * split.
        -- intros [= <- <-]. destruct (proj1 (IH a' b') eq_refl) as [-> Ha].
           split; [done|]. rewrite not_elem_of_cons. split; congruence.
        -- intros [H Ha]. destruct a as [|y a]; simpl in H; [congruence|].
           injection H as <- H. apply not_elem_of_cons in Ha as [_ Ha].
           by injection (proj2 (IH a b) (conj H Ha)) as -> ->.
      * split; [discriminate|]. intros [H Ha].
        destruct a as [|y a]; simpl in H; [congruence|].
        injection H as <- H. apply not_elem_of_cons in Ha as [_ Ha].
        discriminate (proj2 (IH a b) (conj H Ha)).
Qed.

Lemma split_first_None sep l : split_first sep l = None ↔ sep ∉ l.
Proof.
  induction l as [|x l IH]; simpl.
  - split; [intros _; apply not_elem_of_nil | done].
  - rewrite not_elem_of_cons. case_bool_decide as E.
    + split; [discriminate | intros [? _]; congruence].
    + destruct (split_first sep l) as [[a b]|].
      * split; [discriminate|]. intros [_ H]. by apply IH in H.
      * split; [|done]. intros _. split; [congruence | by apply IH].
Qed.

Lemma length_slice l i j : i ≤ j → j ≤ length l → length (slice l i j) = j - i.
Proof. intros. unfold slice. len. Qed.

Lemma slice_app_mid l k p :
  slice (l ++ k ++ p) (length l) (length l + length k) = k.
Proof.
  unfold slice. rewrite drop_app_length.
  replace (length l + length k - length l) with (length k) by lia.
  apply take_app_length.
Qed.
End Seq.

(** ** Sorting *)

(** [sorted(l, key=...)]: stable, for a total preorder given by [le]. *)
Section Sort.
Context {A : Type} (le : A → A → bool).

Fixpoint insert_sorted (x : A) (l : list A) : list A :=
  match l with
  | [] => [x]
  | y :: l' => if le x y then x :: y :: l' else y :: insert_sorted x l'
  end.
Definition sorted_by (l : list A) : list A := foldr insert_sorted [] l.

Lemma insert_sorted_perm x l : insert_sorted x l ≡ₚ x :: l.
Proof.
  induction l as [|y l IH]; simpl; [done|]. destruct (le x y); [done|].
  rewrite IH. apply Permutation_swap.
Qed.

Lemma sorted_by_perm l : sorted_by l ≡ₚ l.
Proof. induction l as [|x l IH]; simpl; [done|]. by rewrite insert_sorted_perm, IH. Qed.

Lemma elem_of_sorted_by x l : x ∈ sorted_by l ↔ x ∈ l.
Proof. by rewrite sorted_by_perm. Qed.

(** Every element is below those after it. *)
Fixpoint ordered (l : list A) : Prop :=
  match l with [] => True | x :: l' => Forall (λ y, le x y = true) l' ∧ ordered l' end.

Context (le_total : ∀ x y, le x y = false → le y x = true).
Context (le_trans : ∀ x y z, le x y = true → le y z = true → le x z = true).

Lemma insert_sorted_ordered x l : ordered l → ordered (insert_sorted x l).
Proof using le_total le_trans.
  induction l as [|y l IH]; simpl; [done|]. intros [Hy Hl]. destruct (le x y) eqn:E; simpl.
  - split; [|done]. constructor; [done|]. eapply Forall_impl; [exact Hy|]. intros z Hz. by apply (le_trans x y z).
  - split; [|by apply IH]. rewrite insert_sorted_perm. constructor; [by apply le_total | done].
Qed.

Lemma sorted_by_ordered l : ordered (sorted_by l).
Proof using le_total le_trans. induction l; simpl; [done|]. by apply insert_sorted_ordered. Qed.
End Sort.

(** [split] undoes [join]. *)
Lemma split_on_join {A} `{EqDecision A} (sep : A) (ls : list (list A)) :
  ls ≠ [] → Forall (λ l, sep ∉ l) ls → split_on sep (join_with [sep] ls) = ls.
Proof.
  induction ls as [|l ls IH]; [done|]. intros _ [Hl Hls]%Forall_cons. destruct ls as [|l' ls]; simpl.
  - by apply split_on_absent.
  - simpl in IH. rewrite split_on_app by done. by rewrite IH.
Qed.

#[export] Hint Rewrite @length_slice using lia : py_len.
#[export] Hint Resolve starts_with_app find_here : core.

(** ** Pages *)

(** The first [n] pages of [k] elements. *)
Definition pages_of {A} (n k : nat) (l : list A) : list (list A) := map (λ i, take k (drop (i * k) l)) (seq 0 n).

Lemma length_pages {A} n k (l : list A) : length (pages_of n k l) = n.
Proof. unfold pages_of. by rewrite length_map, length_seq. Qed.

Lemma lookup_pages {A} n k (l : list A) i page :
  pages_of n k l !! i = Some page → i < n ∧ page = take k (drop (i * k) l).
Proof.
  unfold pages_of. change (map ?f ?x) with (f <$> x). rewrite list_lookup_fmap_Some.
  intros (j & -> & [-> Hj]%lookup_seq). done.
Qed.

Lemma concat_pages_take {A} n k (l : list A) : concat (pages_of n k l) = take (n * k) l.
Proof.
  unfold pages_of. induction n as [|n IH]; [done|].
  rewrite seq_S, map_app, concat_app, IH. simpl. rewrite app_nil_r, (Nat.add_comm k), Nat.mul_comm.
  symmetry. rewrite Nat.mul_comm. rewrite <- (take_drop (n * k) l) at 1.
  rewrite take_app, length_take. rewrite take_take, Nat.min_r by lia.
  destruct (Nat.le_gt_cases (n * k) (length l)).
  - rewrite Nat.min_l by done. by rewrite Nat.add_comm, Nat.add_sub.
  - rewrite (drop_ge l) by lia. by rewrite !take_nil.
Qed.

Lemma concat_pages {A} n k (l : list A) : length l ≤ n * k → concat (pages_of n k l) = l.
Proof. intros Hl. rewrite concat_pages_take. by apply take_ge. Qed.
