(* ===== verification/PyBytes.v ===== *)
(** Python [bytes]: the integers 0..255 they hold, [struct.pack]/[unpack] and
    [int.from_bytes]/[to_bytes] at fixed widths in both byte orders, with the
    round trips between numbers and bytes. *)

From stdpp Require Import prelude list strings.
From Stdlib Require Import ZArith Lia.
From Stdlib Require Strings.Byte Strings.String.
From S2P Require Import Prelude PySeq.
Export Strings.String.StringSyntax.

Abbreviation byte := Byte.byte.
Abbreviation bytes := (list Byte.byte).

#[export] Instance byte_eq_dec : EqDecision byte := Byte.byte_eq_dec.

(** The byte string an ASCII literal denotes. *)
Definition bl (s : String.string) : bytes := String.list_byte_of_string s.
Arguments bl _%_string.

Open Scope Z_scope.

(** ** Bytes as integers *)

(** [b[i]] is an integer. *)
Definition b2z (b : byte) : Z := Z.of_N (Byte.to_N b).

Definition z2b (z : Z) : byte :=
  match Byte.of_N (Z.to_N (z mod 256)) with Some b => b | None => Byte.x00 end.

(** A byte string written as its integers. *)
Definition bz (l : list Z) : bytes := map z2b l.

Lemma b2z_range b : 0 <= b2z b < 256.
Proof.
  unfold b2z. pose proof (Byte.to_N_bounded b). lia.
Qed.

Lemma z2b_b2z b : z2b (b2z b) = b.
Proof.
  unfold z2b. rewrite Z.mod_small by apply b2z_range.
  unfold b2z. rewrite N2Z.id. by rewrite Byte.of_to_N.
Qed.

Lemma b2z_z2b z : b2z (z2b z) = z mod 256.
Proof.
  unfold z2b, b2z. pose proof (Z.mod_pos_bound z 256 ltac:(lia)) as Hb.
  destruct (Byte.of_N (Z.to_N (z mod 256))) as [b|] eqn:E.
  - apply Byte.to_of_N in E. rewrite E. lia.
  - apply Byte.of_N_None_iff in E. lia.
Qed.

Lemma b2z_inj a b : b2z a = b2z b → a = b.
Proof. intros H. by rewrite <- (z2b_b2z a), <- (z2b_b2z b), H. Qed.

Lemma b2z_z2b_small z : 0 <= z < 256 → b2z (z2b z) = z.
Proof. intros. rewrite b2z_z2b. by apply Z.mod_small. Qed.

#[export] Hint Resolve b2z_range : py.

(** ** Fixed-width integers *)

(** [int.from_bytes(l, "big")] *)
Fixpoint be_acc (acc : Z) (l : bytes) : Z :=
  match l with [] => acc | b :: l' => be_acc (acc * 256 + b2z b) l' end.
Definition be_decode (l : bytes) : Z := be_acc 0 l.

(** The [n] low bytes of [z], the most significant first. *)
Fixpoint be_encode (n : nat) (z : Z) : bytes :=
  match n with
  | O => []
  | S n' => be_encode n' (z / 256) ++ [z2b z]
  end.

(** [int.from_bytes(l, "little")] *)
Fixpoint le_decode (l : bytes) : Z :=
  match l with [] => 0 | b :: l' => b2z b + 256 * le_decode l' end.

Fixpoint le_encode (n : nat) (z : Z) : bytes :=
  match n with
  | O => []
  | S n' => z2b z :: le_encode n' (z / 256)
  end.

(** [struct.pack(">H", z)] and [struct.pack("<I", z)]: a value out of the
    field's range raises [struct.error]. *)
Definition pack_be (n : nat) (z : Z) : res bytes :=
  if (0 <=? z) && (z <? 256 ^ Z.of_nat n) then Ok (be_encode n z) else Err StructError.
Definition pack_le (n : nat) (z : Z) : res bytes :=
  if (0 <=? z) && (z <? 256 ^ Z.of_nat n) then Ok (le_encode n z) else Err StructError.

(** [struct.unpack(">H", l)]: the buffer must have the field's size. *)
Definition unpack_be (n : nat) (l : bytes) : res Z :=
  if (length l =? n)%nat then Ok (be_decode l) else Err StructError.

(** [struct.unpack_from("<I", l, off)] for a non-negative offset. *)
Definition unpack_le_from (n : nat) (l : bytes) (off : nat) : res Z :=
  if (off + n <=? length l)%nat then Ok (le_decode (slice l off (off + n)))
  else Err StructError.

(** [struct.pack_into("<I", l, off, z)] on a [bytearray]. *)
Definition pack_le_into (n : nat) (l : bytes) (off : nat) (z : Z) : res bytes :=
  if (off + n <=? length l)%nat then
    b ← pack_le n z; Ok (take off l ++ b ++ drop (off + n) l)
  else Err StructError.

Lemma be_acc_snoc acc l b : be_acc acc (l ++ [b]) = be_acc acc l * 256 + b2z b.
Proof. revert acc; induction l as [|c l IH]; intros acc; simpl; [done|]. apply IH. Qed.

Lemma length_be_encode n z : length (be_encode n z) = n.
Proof. revert z; induction n as [|n IH]; intros z; simpl; [done|]. rewrite length_app, IH. simpl. lia. Qed.

Lemma length_le_encode n z : length (le_encode n z) = n.
Proof. revert z; induction n as [|n IH]; intros z; simpl; [done|]. by rewrite IH. Qed.

#[export] Hint Rewrite length_be_encode length_le_encode : py_len.

Lemma pow256_succ n : 256 ^ Z.of_nat (S n) = 256 * 256 ^ Z.of_nat n.
Proof. rewrite Nat2Z.inj_succ, Z.pow_succ_r by lia. done. Qed.

Lemma pow256_pos n : 0 < 256 ^ Z.of_nat n.
Proof. apply Z.pow_pos_nonneg; lia. Qed.

Lemma div256_range n z :
  0 <= z < 256 ^ Z.of_nat (S n) → 0 <= z / 256 < 256 ^ Z.of_nat n.
Proof.
  rewrite pow256_succ. intros [H1 H2]. split; [by apply Z.div_pos; lia|].
  apply Z.div_lt_upper_bound; lia.
Qed.

Lemma be_decode_encode n z :
  0 <= z < 256 ^ Z.of_nat n → be_decode (be_encode n z) = z.
Proof.
  revert z; induction n as [|n IH]; intros z Hz; simpl.
  - unfold be_decode; simpl. simpl in Hz. lia.
  - unfold be_decode. rewrite be_acc_snoc. fold (be_decode (be_encode n (z / 256))).
    rewrite IH by by apply div256_range. rewrite b2z_z2b.
    pose proof (Z.div_mod z 256 ltac:(lia)). lia.
Qed.

Lemma le_decode_encode n z :
  0 <= z < 256 ^ Z.of_nat n → le_decode (le_encode n z) = z.
Proof.
  revert z; induction n as [|n IH]; intros z Hz; simpl.
  - simpl in Hz. lia.
  - rewrite IH by by apply div256_range. rewrite b2z_z2b.
    pose proof (Z.div_mod z 256 ltac:(lia)). lia.
Qed.

Lemma le_encode_decode l : le_encode (length l) (le_decode l) = l.
Proof.
  induction l as [|b l IH]; simpl; [done|].
  pose proof (b2z_range b) as Hb. f_equal.
  - apply b2z_inj. rewrite b2z_z2b.
    rewrite Z.mul_comm, Z_mod_plus_full. by apply Z.mod_small.
  - replace ((b2z b + 256 * le_decode l) / 256) with (le_decode l); [done|].
    rewrite Z.mul_comm, Z.div_add, Z.div_small by lia. lia.
Qed.

Lemma le_decode_range l : 0 <= le_decode l < 256 ^ Z.of_nat (length l).
Proof.
  induction l as [|b l IH]; simpl length; [simpl; lia|].
  rewrite pow256_succ. simpl. pose proof (b2z_range b). lia.
Qed.

Lemma be_acc_range acc l :
  0 <= acc → 0 <= be_acc acc l < (acc + 1) * 256 ^ Z.of_nat (length l).
Proof.
  revert acc; induction l as [|b l IH]; intros acc Ha; simpl be_acc.
  - simpl length. rewrite Z.pow_0_r. lia.
  - pose proof (b2z_range b) as Hb.
    destruct (IH (acc * 256 + b2z b) ltac:(lia)) as [H1 H2]. split; [lia|].
    simpl length. rewrite pow256_succ. pose proof (pow256_pos (length l)). nia.
Qed.

Lemma be_decode_range l : 0 <= be_decode l < 256 ^ Z.of_nat (length l).
Proof. pose proof (be_acc_range 0 l ltac:(lia)). unfold be_decode. lia. Qed.

Lemma pack_be_Ok n z b :
  pack_be n z = Ok b ↔ 0 <= z < 256 ^ Z.of_nat n ∧ b = be_encode n z.
Proof.
  unfold pack_be. destruct ((0 <=? z) && (z <? 256 ^ Z.of_nat n)) eqn:E.
  - apply andb_true_iff in E. split; [intros [= <-]; split; [lia | done] | by intros [_ ->]].
  - apply andb_false_iff in E. split; [discriminate | lia].
Qed.

Lemma pack_be_in n z : 0 <= z < 256 ^ Z.of_nat n → pack_be n z = Ok (be_encode n z).
Proof. intros H. by apply pack_be_Ok. Qed.

Lemma pack_be_out n z : 256 ^ Z.of_nat n <= z → pack_be n z = Err StructError.
Proof. intros H. unfold pack_be. rewrite (proj2 (Z.ltb_ge _ _) H). by rewrite andb_false_r. Qed.

Lemma pack_le_in n z : 0 <= z < 256 ^ Z.of_nat n → pack_le n z = Ok (le_encode n z).
Proof.
  intros [H1 H2]. unfold pack_le.
  by rewrite (proj2 (Z.leb_le _ _) H1), (proj2 (Z.ltb_lt _ _) H2).
Qed.

Lemma unpack_be_exact n l : length l = n → unpack_be n l = Ok (be_decode l).
Proof. intros H. unfold unpack_be. by rewrite (proj2 (Nat.eqb_eq _ _) H). Qed.

Lemma unpack_be_encode n z :
  0 <= z < 256 ^ Z.of_nat n → unpack_be n (be_encode n z) = Ok z.
Proof.
  intros H. rewrite unpack_be_exact by apply length_be_encode.
  by rewrite be_decode_encode.
Qed.

Lemma unpack_le_from_in n l off :
  (off + n <= length l)%nat →
  unpack_le_from n l off = Ok (le_decode (slice l off (off + n))).
Proof. intros H. unfold unpack_le_from. by rewrite (proj2 (Nat.leb_le _ _) H). Qed.

(** A field read where it was written. *)
Lemma unpack_le_from_app n l z k :
  0 <= z < 256 ^ Z.of_nat n →
  unpack_le_from n (l ++ le_encode n z ++ k) (length l) = Ok z.
Proof.
  intros H. rewrite unpack_le_from_in by len.
  rewrite <- (length_le_encode n z) at 2.
  by rewrite slice_app_mid, le_decode_encode.
Qed.

Close Scope Z_scope.
