(* ===== verification/PyStr.v ===== *)
(** Python [str] as a sequence of code points: literals, whitespace and
    [strip]/[split], UTF-8 and ASCII codecs, [str(int)] and [int(str)], and the
    case mapping as an interface. *)

From stdpp Require Import prelude list strings.
From Stdlib Require Import ZArith Lia.
From Stdlib Require Strings.Byte Strings.String.
From S2P Require Import Prelude PySeq PyBytes.

(** A [str] is the list of its Unicode code points. *)
Abbreviation str := (list N).

Open Scope N_scope.

(** ** UTF-8 *)

Definition byte_n (b : byte) : N := Byte.to_N b.
Definition n_byte (n : N) : byte :=
  match Byte.of_N n with Some b => b | None => Byte.x00 end.

(** A continuation byte carries six bits. *)
Definition is_cont (b : byte) : bool := (128 <=? byte_n b) && (byte_n b <? 192).
Definition cont (b : byte) : N := byte_n b - 128.

(** [c.encode("utf-8")] of one code point; a surrogate raises
    [UnicodeEncodeError]. *)
Definition utf8_char (c : N) : res bytes :=
  if c <? 128 then Ok [n_byte c]
  else if c <? 2048 then Ok [n_byte (192 + c / 64); n_byte (128 + c mod 64)]
  else if (55296 <=? c) && (c <? 57344) then Err UnicodeError
  else if c <? 65536 then
    Ok [n_byte (224 + c / 4096); n_byte (128 + (c / 64) mod 64); n_byte (128 + c mod 64)]
  else
    Ok [n_byte (240 + c / 262144); n_byte (128 + (c / 4096) mod 64);
        n_byte (128 + (c / 64) mod 64); n_byte (128 + c mod 64)].

Fixpoint utf8_encode (s : str) : res bytes :=
  match s with
  | [] => Ok []
  | c :: s' => b ← utf8_char c; r ← utf8_encode s'; Ok (b ++ r)
  end.

(** [b.decode("utf-8", errors="ignore")]: a byte that starts no well-formed
    sequence is skipped. *)
Fixpoint utf8_decode_ignore (l : bytes) : str :=
  match l with
  | [] => []
  | b0 :: l1 =>
      let n0 := byte_n b0 in
      if n0 <? 128 then n0 :: utf8_decode_ignore l1
      else if n0 <? 194 then utf8_decode_ignore l1
      else if n0 <? 224 then
        match l1 with
        | b1 :: l2 =>
            if is_cont b1 then ((n0 - 192) * 64 + cont b1) :: utf8_decode_ignore l2
            else utf8_decode_ignore l1
        | [] => []
        end
      else if n0 <? 240 then
        match l1 with
        | b1 :: b2 :: l3 =>
            let c := (n0 - 224) * 4096 + cont b1 * 64 + cont b2 in
            if is_cont b1 && is_cont b2 && (2048 <=? c)
               && negb ((55296 <=? c) && (c <? 57344))
            then c :: utf8_decode_ignore l3
            else utf8_decode_ignore l1
        | _ => utf8_decode_ignore l1
        end
      else if n0 <? 245 then
        match l1 with
        | b1 :: b2 :: b3 :: l4 =>
            let c := (n0 - 240) * 262144 + cont b1 * 4096 + cont b2 * 64 + cont b3 in
            if is_cont b1 && is_cont b2 && is_cont b3 && (65536 <=? c) && (c <? 1114112)
            then c :: utf8_decode_ignore l4
            else utf8_decode_ignore l1
        | _ => utf8_decode_ignore l1
        end
      else utf8_decode_ignore l1
  end.

(** [b.decode("utf-8")] *)
Fixpoint utf8_decode (l : bytes) : res str :=
  match l with
  | [] => Ok []
  | b0 :: l1 =>
      let n0 := byte_n b0 in
      if n0 <? 128 then s ← utf8_decode l1; Ok (n0 :: s)
      else if n0 <? 194 then Err UnicodeError
      else if n0 <? 224 then
        match l1 with
        | b1 :: l2 =>
            if is_cont b1 then s ← utf8_decode l2; Ok ((n0 - 192) * 64 + cont b1 :: s)
            else Err UnicodeError
        | [] => Err UnicodeError
        end
      else if n0 <? 240 then
        match l1 with
        | b1 :: b2 :: l3 =>
            let c := (n0 - 224) * 4096 + cont b1 * 64 + cont b2 in
            if is_cont b1 && is_cont b2 && (2048 <=? c)
               && negb ((55296 <=? c) && (c <? 57344))
            then s ← utf8_decode l3; Ok (c :: s)
            else Err UnicodeError
        | _ => Err UnicodeError
        end
      else if n0 <? 245 then
        match l1 with
        | b1 :: b2 :: b3 :: l4 =>
            let c := (n0 - 240) * 262144 + cont b1 * 4096 + cont b2 * 64 + cont b3 in
            if is_cont b1 && is_cont b2 && is_cont b3 && (65536 <=? c) && (c <? 1114112)
            then s ← utf8_decode l4; Ok (c :: s)
            else Err UnicodeError
        | _ => Err UnicodeError
        end
      else Err UnicodeError
  end.

(** [b.decode("ascii")] *)
Fixpoint ascii_decode (l : bytes) : res str :=
  match l with
  | [] => Ok []
  | b :: l' =>
      if byte_n b <? 128 then s ← ascii_decode l'; Ok (byte_n b :: s)
      else Err UnicodeError
  end.

(** A string literal. *)
Definition u (s : String.string) : str := utf8_decode_ignore (bl s).
Arguments u _%_string.

(** ** Whitespace *)

(** [str.isspace] of one code point. *)
Definition is_space (c : N) : bool :=
  ((9 <=? c) && (c <=? 13)) || ((28 <=? c) && (c <=? 32)) || (c =? 133) || (c =? 160)
  || (c =? 5760) || ((8192 <=? c) && (c <=? 8202)) || (c =? 8232) || (c =? 8233)
  || (c =? 8239) || (c =? 8287) || (c =? 12288).

Fixpoint drop_while {A} (f : A → bool) (l : list A) : list A :=
  match l with
  | [] => []
  | x :: l' => if f x then drop_while f l' else l
  end.

(** [s.strip()] *)
Definition strip_by (f : N → bool) (s : str) : str :=
  reverse (drop_while f (reverse (drop_while f s))).
Definition strip (s : str) : str := strip_by is_space s.

(** [s.split()]: the maximal runs of non-space code points. *)
Fixpoint split_ws_go (word s : str) : list str :=
  match s with
  | [] => match word with [] => [] | _ => [reverse word] end
  | c :: s' =>
      if is_space c then
        match word with
        | [] => split_ws_go [] s'
        | _ => reverse word :: split_ws_go [] s'
        end
      else split_ws_go (c :: word) s'
  end.
Definition split_ws (s : str) : list str := split_ws_go [] s.

(** ** Decimal numbers *)

(** The zeros of the decimal digit blocks of Unicode 15. *)
Definition decimal_zeros : list N :=
  [0x30; 0x660; 0x6f0; 0x7c0; 0x966; 0x9e6; 0xa66; 0xae6; 0xb66; 0xbe6; 0xc66; 0xce6;
   0xd66; 0xde6; 0xe50; 0xed0; 0xf20; 0x1040; 0x1090; 0x17e0; 0x1810; 0x1946; 0x19d0;
   0x1a80; 0x1a90; 0x1b50; 0x1bb0; 0x1c40; 0x1c50; 0xa620; 0xa8d0; 0xa900; 0xa9d0;
   0xa9f0; 0xaa50; 0xabf0; 0xff10; 0x104a0; 0x10d30; 0x11066; 0x110f0; 0x11136;
   0x111d0; 0x112f0; 0x11450; 0x114d0; 0x11650; 0x116c0; 0x11730; 0x118e0; 0x11950;
   0x11c50; 0x11d50; 0x11da0; 0x11f50; 0x16a60; 0x16ac0; 0x16b50; 0x1d7ce; 0x1d7d8;
   0x1d7e2; 0x1d7ec; 0x1d7f6; 0x1e140; 0x1e2f0; 0x1e4f0; 0x1e950; 0x1fbf0].

Definition digit_value (c : N) : option Z :=
  match List.find (λ z, (z <=? c) && (c <? z + 10)) decimal_zeros with
  | Some z => Some (Z.of_N (c - z))
  | None => None
  end.

(** The space characters [int] skips: an ASCII information separator is not
    one of them. *)
Definition int_space (c : N) : bool := is_space c && negb ((28 <=? c) && (c <=? 31)).

(** Digits with single underscores between them. *)
Fixpoint int_go (acc : Z) (after_digit : bool) (s : str) : option Z :=
  match s with
  | [] => if after_digit then Some acc else None
  | c :: s' =>
      match digit_value c with
      | Some d => int_go (acc * 10 + d)%Z true s'
      | None => if (c =? 95) && after_digit then int_go acc false s' else None
      end
  end.

(** The interpreter refuses to convert more than 4300 digits. *)
Definition count_digits (s : str) : nat :=
  length (List.filter (λ c, match digit_value c with Some _ => true | None => false end) s).

(** [int(s)]; [None] is [ValueError]. *)
Definition int_of_str (s : str) : option Z :=
  let t := strip_by int_space s in
  let '(neg, t) :=
    match t with
    | c :: r => if c =? 45 then (true, r) else if c =? 43 then (false, r) else (false, t)
    | [] => (false, t)
    end in
  if (4300 <? count_digits t)%nat then None
  else (if neg then Z.opp else id) <$> int_go 0 false t.

Fixpoint dec_digits (fuel : nat) (n : N) : str :=
  match fuel with
  | O => []
  | S f => if n <? 10 then [48 + n] else dec_digits f (n / 10) ++ [48 + n mod 10]
  end.

(** [str(z)] *)
Definition str_of_N (n : N) : str := dec_digits (S (N.size_nat n)) n.
Definition str_of_Z (z : Z) : str :=
  if (z <? 0)%Z then 45 :: str_of_N (Z.to_N (- z)) else str_of_N (Z.to_N z).

(** ** Case mapping *)

(** [str.lower] follows the Unicode case tables, which are data this library
    does not carry: what depends on it takes the mapping as an argument. *)
Class CaseMap : Type := lower : str → str.

(** The mapping of the ASCII letters. *)
Definition ascii_lower : CaseMap :=
  map (λ c, if (65 <=? c) && (c <=? 90) then c + 32 else c).

(** [str.upper], in the same way. *)
Class UpperMap : Type := upper : str → str.
Definition ascii_upper : UpperMap :=
  map (λ c, if (97 <=? c) && (c <=? 122) then c - 32 else c).

(** ** UTF-16 *)

(** [s.encode("utf-16-le")]: a surrogate raises. *)
Definition unit_le (v : N) : bytes := [n_byte (v mod 256); n_byte (v / 256)].
Fixpoint utf16_le_encode (s : str) : res bytes :=
  match s with
  | [] => Ok []
  | c :: s' =>
      b ← (if (55296 <=? c) && (c <? 57344) then Err UnicodeError
           else if c <? 65536 then Ok (unit_le c)
           else Ok (unit_le (55296 + (c - 65536) / 1024) ++ unit_le (56320 + (c - 65536) mod 1024)));
      r ← utf16_le_encode s';
      Ok (b ++ r)
  end.

(** ** Lemmas *)

Lemma byte_n_range b : byte_n b < 256.
Proof. unfold byte_n. pose proof (Byte.to_N_bounded b). lia. Qed.

Lemma byte_n_of n : n < 256 → byte_n (n_byte n) = n.
Proof.
  intros H. unfold byte_n, n_byte. destruct (Byte.of_N n) eqn:E.
  - by apply Byte.to_of_N.
  - apply Byte.of_N_None_iff in E. lia.
Qed.

Lemma n_byte_of b : n_byte (byte_n b) = b.
Proof. unfold n_byte, byte_n. by rewrite Byte.of_to_N. Qed.

Lemma ascii_decode_Ok l :
  Forall (λ b, byte_n b < 128) l → ascii_decode l = Ok (map byte_n l).
Proof.
  induction 1 as [|b l Hb _ IH]; simpl; [done|].
  apply N.ltb_lt in Hb. by rewrite Hb, IH.
Qed.

Lemma utf8_decode_ascii l :
  Forall (λ b, byte_n b < 128) l → utf8_decode_ignore l = map byte_n l.
Proof.
  induction 1 as [|b l Hb _ IH]; simpl; [done|].
  apply N.ltb_lt in Hb. by rewrite Hb, IH.
Qed.

Lemma utf8_encode_app s t :
  utf8_encode (s ++ t) = (b ← utf8_encode s; c ← utf8_encode t; Ok (b ++ c)).
Proof.
  induction s as [|c s IH]; simpl.
  - by destruct (utf8_encode t).
  - unfold_res. rewrite IH. destruct (utf8_char c), (utf8_encode s), (utf8_encode t); simpl;
      by rewrite ?app_assoc.
Qed.

(** *** Stripping *)

Lemma drop_while_id {A} (f : A → bool) l :
  (∀ x, head l = Some x → f x = false) → drop_while f l = l.
Proof. destruct l as [|x l]; [done|]. intros H. simpl. by rewrite (H x eq_refl). Qed.

Lemma drop_while_none {A} (f : A → bool) l :
  Forall (λ x, f x = false) l → drop_while f l = l.
Proof. intros H. apply drop_while_id. intros x. destruct H; simpl; congruence. Qed.

Lemma drop_while_head {A} (f : A → bool) l x :
  head (drop_while f l) = Some x → f x = false.
Proof.
  induction l as [|y l IH]; simpl; [done|]. destruct (f y) eqn:E; [done|].
  simpl. congruence.
Qed.

Lemma drop_while_suffix {A} (f : A → bool) l : ∃ k, l = k ++ drop_while f l.
Proof.
  induction l as [|y l [k IH]]; simpl; [by exists []|]. destruct (f y).
  - exists (y :: k). simpl. by f_equal.
  - by exists [].
Qed.

Lemma strip_by_id f s : Forall (λ c, f c = false) s → strip_by f s = s.
Proof.
  intros H. unfold strip_by. rewrite (drop_while_none f s) by done.
  rewrite drop_while_none by by apply Forall_reverse. apply reverse_involutive.
Qed.

Lemma drop_while_nil {A} (f : A → bool) l : drop_while f l = [] → Forall (λ x, f x = true) l.
Proof. induction l as [|x l IH]; simpl; [constructor|]. destruct (f x) eqn:E; [|done]. intros Hl. constructor; auto. Qed.

(** What is left begins with something that stays, and nothing is left only of
    what goes. *)
Lemma strip_by_head f s c r : strip_by f s = c :: r → f c = false.
Proof.
  unfold strip_by. intros E. set (t := drop_while f s) in *.
  destruct (drop_while_suffix f (reverse t)) as [k Ek].
  apply (f_equal reverse) in Ek. rewrite reverse_involutive, reverse_app, E in Ek.
  apply (drop_while_head f s). fold t. by rewrite Ek.
Qed.

Lemma strip_by_ne f s : (∃ c, c ∈ s ∧ f c = false) → strip_by f s ≠ [].
Proof.
  intros (c & Hc & Hf) E. unfold strip_by in E. apply (f_equal reverse) in E. rewrite reverse_involutive in E.
  apply drop_while_nil in E. apply Forall_reverse in E. rewrite reverse_involutive in E.
  destruct (drop_while f s) as [|x l] eqn:El.
  - apply drop_while_nil in El. rewrite Forall_forall in El. specialize (El c Hc). simpl in El. congruence.
  - pose proof (drop_while_head f s x) as Hx. rewrite El in Hx. specialize (Hx eq_refl).
    apply Forall_cons in E as [E _]. congruence.
Qed.

Lemma strip_by_sub f s c : c ∈ strip_by f s → c ∈ s.
Proof.
  unfold strip_by. rewrite elem_of_reverse. intros H.
  destruct (drop_while_suffix f (reverse (drop_while f s))) as [k1 E1].
  destruct (drop_while_suffix f s) as [k2 E2].
  rewrite E2. apply elem_of_app; right. apply elem_of_reverse. rewrite E1.
  apply elem_of_app; by right.
Qed.

(** *** Printing and reading numbers *)

Lemma digit_value_ascii d : d < 10 → digit_value (48 + d) = Some (Z.of_N d).
Proof.
  intros H. rewrite <- (N2Nat.id d). remember (N.to_nat d) as k eqn:E.
  assert (k < 10)%nat as Hk by lia. clear E H d.
  do 10 (destruct k as [|k]; [reflexivity|]). lia.
Qed.

Lemma int_go_app s t acc b :
  Forall (λ c, ∃ d, digit_value c = Some d) s → s ≠ [] →
  int_go acc b (s ++ t) = int_go (foldl (λ a c, a * 10 + default 0 (digit_value c)) acc s)%Z true t.
Proof.
  intros H. revert acc b. induction H as [|c s [d Hd] Hs IH]; intros acc b Hne; [done|].
  simpl. rewrite Hd. simpl. destruct s as [|c' s]; [done|]. by apply IH.
Qed.

Lemma dec_digits_range fuel n : Forall (λ c, 48 <= c < 58) (dec_digits fuel n).
Proof.
  revert n; induction fuel as [|f IH]; intros n; simpl; [constructor|].
  destruct (N.ltb_spec n 10).
  - constructor; [lia | constructor].
  - apply Forall_app; split; [apply IH|]. constructor; [|constructor].
    pose proof (N.mod_lt n 10 ltac:(lia)) as Hm. cbv beta. revert Hm. generalize (n mod 10). lia.
Qed.

Lemma str_of_N_range n : Forall (λ c, 48 <= c < 58) (str_of_N n).
Proof. apply dec_digits_range. Qed.

Lemma str_of_N_ne n : str_of_N n ≠ [].
Proof.
  unfold str_of_N. simpl. destruct (n <? 10); [done|].
  intros H. by apply app_eq_nil in H as [_ ?].
Qed.

Lemma dec_range_digit s :
  Forall (λ c, 48 <= c < 58) s → Forall (λ c, ∃ d, digit_value c = Some d) s.
Proof.
  intros H. eapply Forall_impl; [exact H|]. intros c Hc. simpl in Hc. exists (Z.of_N (c - 48)).
  rewrite <- (digit_value_ascii (c - 48)) by lia. f_equal. lia.
Qed.

Lemma dec_digits_value fuel n acc :
  n < 10 ^ N.of_nat fuel → (0 < fuel)%nat →
  foldl (λ a c, a * 10 + default 0 (digit_value c))%Z acc (dec_digits fuel n)
  = (acc * 10 ^ Z.of_nat (length (dec_digits fuel n)) + Z.of_N n)%Z.
Proof.
  revert n acc; induction fuel as [|f IH]; intros n acc Hn Hf; [lia|].
  simpl. destruct (N.ltb_spec n 10) as [H|H].
  - simpl foldl. rewrite digit_value_ascii by done. simpl. lia.
  - rewrite foldl_app, length_app. simpl foldl.
    assert (n / 10 < 10 ^ N.of_nat f) as Hdiv.
    { apply N.Div0.div_lt_upper_bound.
      rewrite Nat2N.inj_succ, N.pow_succ_r in Hn by lia. lia. }
    assert (0 < f)%nat as Hf'.
    { destruct f; [|lia]. simpl in Hdiv. pose proof (N.Div0.div_le_mono 10 n 10 H) as Hm.
      rewrite N.div_same in Hm by lia. lia. }
    rewrite IH by done.
    rewrite digit_value_ascii by (apply N.mod_lt; lia). simpl default.
    rewrite Nat2Z.inj_add, Z.pow_add_r by lia. simpl Z.of_nat. rewrite Z.pow_1_r.
    pose proof (N.div_mod n 10 ltac:(lia)). lia.
Qed.

Lemma size_pow10 n : n < 10 ^ N.of_nat (S (N.size_nat n)).
Proof.
  assert (n < 2 ^ N.of_nat (N.size_nat n)) as H1.
  { destruct n as [|p]; [done|]. simpl N.size_nat.
    induction p as [p IH|p IH|]; simpl Pos.size_nat; [| |done];
      rewrite Nat2N.inj_succ, N.pow_succ_r by lia; lia. }
  eapply N.lt_le_trans; [exact H1|].
  etransitivity; [apply (N.pow_le_mono_l 2 10); lia|].
  apply N.pow_le_mono_r; lia.
Qed.

Lemma dec_digits_length fuel n : (length (dec_digits fuel n) <= fuel)%nat.
Proof.
  revert n; induction fuel as [|f IH]; intros n; simpl; [lia|].
  destruct (n <? 10); simpl; [lia|]. rewrite length_app. simpl.
  specialize (IH (n / 10)). lia.
Qed.

Lemma digit_not_space c : 48 <= c < 58 → is_space c = false.
Proof.
  intros H. apply not_true_iff_false. unfold is_space.
  rewrite ?orb_true_iff, ?andb_true_iff, ?N.leb_le, ?N.eqb_eq. lia.
Qed.

Lemma digits_no_int_space s :
  Forall (λ c, 48 <= c < 58) s → Forall (λ c, int_space c = false) s.
Proof.
  intros H. eapply Forall_impl; [exact H|]. intros c Hc.
  unfold int_space. by rewrite digit_not_space.
Qed.

Lemma size_nat_le n k : n < 2 ^ N.of_nat k → (N.size_nat n <= k)%nat.
Proof.
  destruct n as [|p]; simpl N.size_nat; [lia|].
  revert k; induction p as [p IH|p IH|]; intros k H; simpl Pos.size_nat;
    (destruct k as [|k]; [simpl in H; lia|]);
    rewrite Nat2N.inj_succ, N.pow_succ_r in H by lia; [| |lia];
    apply le_n_S, IH; lia.
Qed.

(** [int(str(n)) == n]. *)
Lemma int_of_str_of_N n :
  (N.size_nat n < 4300)%nat → int_of_str (str_of_N n) = Some (Z.of_N n).
Proof.
  intros Hsz. pose proof (str_of_N_range n) as Hr. unfold int_of_str.
  rewrite strip_by_id by by apply digits_no_int_space.
  pose proof (str_of_N_ne n) as Hne.
  assert (count_digits (str_of_N n) <= S (N.size_nat n))%nat as Hc.
  { unfold count_digits. etransitivity; [apply List.filter_length_le|].
    apply dec_digits_length. }
  destruct (str_of_N n) as [|c r] eqn:E; [done|].
  assert (48 <= c < 58) as Hcr by by apply Forall_inv in Hr.
  destruct (N.eqb_spec c 45); [lia|]. destruct (N.eqb_spec c 43); [lia|].
  rewrite (proj2 (Nat.ltb_ge _ _)) by lia. rewrite <- E in *.
  rewrite <- (app_nil_r (str_of_N n)), int_go_app by (by apply dec_range_digit || done).
  simpl. unfold str_of_N at 1. rewrite dec_digits_value by (apply size_pow10 || lia).
  unfold id. f_equal.
Qed.

(** Reading the digits of a number. *)
Lemma int_go_of_N n acc_ok :
  acc_ok = false → int_go 0 acc_ok (str_of_N n) = Some (Z.of_N n).
Proof.
  intros ->. rewrite <- (app_nil_r (str_of_N n)), int_go_app
    by (apply dec_range_digit, str_of_N_range || apply str_of_N_ne).
  simpl. unfold str_of_N at 1. rewrite dec_digits_value by (apply size_pow10 || lia). done.
Qed.

Lemma count_digits_of_N n : (count_digits (str_of_N n) <= S (N.size_nat n))%nat.
Proof.
  unfold count_digits. etransitivity; [apply List.filter_length_le|]. apply dec_digits_length.
Qed.

(** [int(str(z)) == z]. *)
Lemma int_of_str_of_Z z :
  (N.size_nat (Z.abs_N z) < 4300)%nat → int_of_str (str_of_Z z) = Some z.
Proof.
  intros Hsz. unfold str_of_Z. destruct (Z.ltb_spec z 0) as [Hz|Hz].
  - assert (Z.to_N (- z) = Z.abs_N z) as -> by lia.
    unfold int_of_str. rewrite strip_by_id.
    2: { constructor; [done|]. apply digits_no_int_space, str_of_N_range. }
    cbn [N.eqb Pos.eqb]. pose proof (count_digits_of_N (Z.abs_N z)).
    rewrite (proj2 (Nat.ltb_ge _ _)) by lia. rewrite int_go_of_N by done.
    cbn [fmap option_fmap option_map]. f_equal. lia.
  - assert (Z.to_N z = Z.abs_N z) as -> by lia. rewrite int_of_str_of_N by done. f_equal. lia.
Qed.

(** A number other than zero is written without a leading zero. *)
Lemma dec_digits_head fuel n :
  0 < n → n < 10 ^ N.of_nat fuel →
  ∃ c r, dec_digits fuel n = c :: r ∧ 48 < c < 58.
Proof.
  revert n; induction fuel as [|f IH]; intros n H0 Hn; [simpl in Hn; lia|]. simpl.
  destruct (N.ltb_spec n 10).
  - exists (48 + n), []. split; [done | lia].
  - destruct (IH (n / 10)) as (c & r & -> & Hc).
    + apply N.div_str_pos. lia.
    + apply N.Div0.div_lt_upper_bound. rewrite Nat2N.inj_succ, N.pow_succ_r in Hn by lia. lia.
    + exists c, (r ++ [48 + n mod 10]). split; [done | lia].
Qed.

Lemma str_of_N_cases n :
  (n = 0 ∧ str_of_N n = [48]) ∨ ∃ c r, str_of_N n = c :: r ∧ 48 < c < 58.
Proof.
  destruct (N.eq_dec n 0) as [->|Hn]; [by left|]. right.
  apply dec_digits_head; [lia | apply size_pow10].
Qed.

(** *** UTF-8 round trip *)

(** A Unicode scalar value. *)
Definition scalar (c : N) : Prop := c < 55296 ∨ (57344 <= c /\ c < 1114112).

Definition scalar_b (s : str) : bool :=
  forallb (λ c, (c <? 55296) || ((57344 <=? c) && (c <? 1114112))) s.

Lemma scalar_b_spec s : scalar_b s = true → Forall scalar s.
Proof.
  unfold scalar_b. rewrite forallb_forall, List.Forall_forall. intros H c Hc.
  specialize (H c Hc). rewrite orb_true_iff, andb_true_iff, !N.ltb_lt, N.leb_le in H. exact H.
Qed.

(** What decoding leaves are characters. *)
Lemma utf8_decode_ignore_scalar l : Forall scalar (utf8_decode_ignore l).
Proof.
  remember (length l) as n eqn:En. revert l En. induction (lt_wf n) as [n _ IH]. intros l ->.
  assert (∀ l', (length l' < length l)%nat → Forall scalar (utf8_decode_ignore l')) as IH' by (intros l' Hl; by eapply IH). clear IH.
  assert (∀ b, is_cont b = true → cont b < 64) as Hc.
  { intros b. unfold is_cont, cont. rewrite andb_true_iff, N.leb_le, N.ltb_lt. lia. }
  destruct l as [|b0 l1]; [constructor|]. cbn [utf8_decode_ignore]. pose proof (byte_n_range b0) as Hb.
  assert (Forall scalar (utf8_decode_ignore l1)) as Hl1 by (apply IH'; cbn; lia).
  destruct (N.ltb_spec (byte_n b0) 128); [constructor; [left; lia | exact Hl1]|].
  destruct (N.ltb_spec (byte_n b0) 194); [exact Hl1|].
  destruct (N.ltb_spec (byte_n b0) 224).
  { destruct l1 as [|b1 l2]; [constructor|]. destruct (is_cont b1) eqn:E1; [|exact Hl1].
    constructor; [left; specialize (Hc b1 E1); lia | apply IH'; cbn; lia]. }
  destruct (N.ltb_spec (byte_n b0) 240).
  { destruct l1 as [|b1 [|b2 l3]]; [exact Hl1..|]. set (c := _ + cont b2).
    destruct (_ && _) eqn:E; [|exact Hl1]. rewrite !andb_true_iff, negb_true_iff, andb_false_iff, N.leb_gt, N.ltb_ge, N.leb_le in E.
    destruct E as [[[E1%Hc E2%Hc] _] E]. constructor; [|apply IH'; cbn; lia]. unfold scalar, c in *. lia. }
  destruct (N.ltb_spec (byte_n b0) 245); [|exact Hl1].
  destruct l1 as [|b1 [|b2 [|b3 l4]]]; [exact Hl1..|]. set (c := _ + cont b3).
  destruct (_ && _) eqn:E; [|exact Hl1]. rewrite !andb_true_iff, N.ltb_lt, N.leb_le in E.
  constructor; [|apply IH'; cbn; lia]. unfold scalar. lia.
Qed.

Lemma cont_byte v : v < 64 → is_cont (n_byte (128 + v)) = true ∧ cont (n_byte (128 + v)) = v.
Proof.
  intros H. unfold is_cont, cont. rewrite byte_n_of by lia.
  rewrite andb_true_iff, N.leb_le, N.ltb_lt. lia.
Qed.

(** The six-bit digits of a code point. *)
Lemma six_bits c :
  c = c / 64 * 64 + c mod 64 ∧ c mod 64 < 64
  ∧ c / 64 = c / 4096 * 64 + (c / 64) mod 64 ∧ (c / 64) mod 64 < 64
  ∧ c / 4096 = c / 262144 * 64 + (c / 4096) mod 64 ∧ (c / 4096) mod 64 < 64.
Proof.
  pose proof (N.div_mod c 64 ltac:(lia)). pose proof (N.div_mod (c / 64) 64 ltac:(lia)) as H1.
  pose proof (N.div_mod (c / 4096) 64 ltac:(lia)) as H2. rewrite !N.Div0.div_div in *.
  change (64 * 64) with 4096 in *. change (4096 * 64) with 262144 in *.
  pose proof (N.mod_lt c 64 ltac:(lia)). pose proof (N.mod_lt (c / 64) 64 ltac:(lia)).
  pose proof (N.mod_lt (c / 4096) 64 ltac:(lia)). lia.
Qed.

Lemma utf8_decode_char c b l :
  utf8_char c = Ok b → c < 1114112 →
  utf8_decode (b ++ l) = (s ← utf8_decode l; Ok (c :: s)).
Proof.
  intros Hb Hc. pose proof (six_bits c) as Hs. unfold utf8_char in Hb.
  revert Hs Hb. generalize (c mod 64) ((c / 64) mod 64) ((c / 4096) mod 64).
  generalize (c / 64) (c / 4096) (c / 262144). intros q0 q1 q2 r0 r1 r2.
  intros (E0 & H0 & E1 & H1 & E2 & H2) Hb.
  destruct (N.ltb_spec c 128) as [L1|L1].
  { injection Hb as <-. cbn [app utf8_decode]. rewrite byte_n_of by lia.
    by rewrite (proj2 (N.ltb_lt c 128)). }
  destruct (N.ltb_spec c 2048) as [L2|L2].
  { injection Hb as <-. cbn [app utf8_decode]. rewrite byte_n_of by lia.
    rewrite (proj2 (N.ltb_ge (192 + q0) 128)), (proj2 (N.ltb_ge _ 194)),
      (proj2 (N.ltb_lt _ 224)) by lia.
    destruct (cont_byte r0 H0) as [-> ->].
    replace ((192 + q0 - 192) * 64 + r0) with c by lia. done. }
  destruct (N.ltb_spec c 65536) as [L3|L3].
  { destruct ((55296 <=? c) && (c <? 57344)) eqn:Es; [discriminate|].
    injection Hb as <-. cbn [app utf8_decode]. rewrite byte_n_of by lia.
    rewrite (proj2 (N.ltb_ge (224 + q1) 128)), (proj2 (N.ltb_ge _ 194)),
      (proj2 (N.ltb_ge _ 224)), (proj2 (N.ltb_lt _ 240)) by lia.
    destruct (cont_byte (r1) H1) as [-> ->]. destruct (cont_byte r0 H0) as [-> ->].
    replace ((224 + q1 - 224) * 4096 + r1 * 64 + r0) with c by lia.
    rewrite Es. by rewrite (proj2 (N.leb_le 2048 c)). }
  rewrite (proj2 (N.ltb_ge c 57344)), andb_false_r in Hb by lia.
  injection Hb as <-. cbn [app utf8_decode]. rewrite byte_n_of by lia.
  rewrite (proj2 (N.ltb_ge (240 + q2) 128)), (proj2 (N.ltb_ge _ 194)),
    (proj2 (N.ltb_ge _ 224)), (proj2 (N.ltb_ge _ 240)), (proj2 (N.ltb_lt _ 245)) by lia.
  destruct (cont_byte (r2) H2) as [-> ->].
  destruct (cont_byte (r1) H1) as [-> ->]. destruct (cont_byte r0 H0) as [-> ->].
  replace ((240 + q2 - 240) * 262144 + r2 * 4096
           + r1 * 64 + r0) with c by lia.
  by rewrite (proj2 (N.leb_le 65536 c)), (proj2 (N.ltb_lt c 1114112)).
Qed.

Lemma utf8_encode_scalar s : Forall scalar s → ∃ b, utf8_encode s = Ok b ∧ utf8_decode b = Ok s.
Proof.
  induction 1 as [|c s Hc _ (b & Eb & Db)]; [by exists []|].
  assert (∃ bc, utf8_char c = Ok bc) as [bc Ec].
  { unfold utf8_char, scalar in *. repeat (res_case; eauto).
    destruct (N.leb_spec 55296 c), (N.ltb_spec c 57344); try discriminate. lia. }
  exists (bc ++ b). simpl. rewrite Ec, Eb. split; [done|].
  rewrite (utf8_decode_char c) by (done || unfold scalar in Hc; lia). by rewrite Db.
Qed.

(** ** Words *)

(** Words separated by single spaces. *)
Definition word (s : str) : Prop := s ≠ [] ∧ Forall (λ c, is_space c = false ∧ (c < 128)%N) s.

Definition word_b (s : str) : bool :=
  negb (bool_decide (s = [])) && forallb (λ c, negb (is_space c) && (c <? 128)%N) s.

Lemma word_b_spec s : word_b s = true → word s.
Proof.
  unfold word_b, word. rewrite andb_true_iff, negb_true_iff, bool_decide_eq_false, forallb_forall.
  intros [H1 H2]. split; [done|]. apply List.Forall_forall. intros c Hc.
  specialize (H2 c Hc). by rewrite andb_true_iff, negb_true_iff, N.ltb_lt in H2.
Qed.

Lemma split_ws_go_word s w t :
  Forall (λ c, is_space c = false ∧ (c < 128)%N) s →
  split_ws_go w (s ++ t) = split_ws_go (reverse s ++ w) t.
Proof.
  intros H. revert w. induction H as [|c s [Hc _] _ IH]; intros w; [done|].
  simpl. by rewrite Hc, IH, reverse_cons, <- app_assoc.
Qed.

Lemma split_ws_words s t :
  word s → split_ws (s ++ u " " ++ t) = s :: split_ws t.
Proof.
  intros [Hne Hs]. unfold split_ws. rewrite split_ws_go_word, app_nil_r by done.
  destruct (reverse s) as [|x r] eqn:E.
  { apply (f_equal length) in E. rewrite length_reverse in E. by destruct s. }
  change (u " " ++ t) with (32%N :: t). cbn [split_ws_go]. change (is_space 32) with true.
  cbv iota. by rewrite <- E, reverse_involutive.
Qed.

Lemma split_ws_last s : word s → split_ws s = [s].
Proof.
  intros [Hne Hs]. unfold split_ws. rewrite <- (app_nil_r s) at 1.
  rewrite split_ws_go_word, app_nil_r by done. simpl. destruct (reverse s) as [|x r] eqn:E.
  { apply (f_equal length) in E. rewrite length_reverse in E. by destruct s. }
  by rewrite <- E, reverse_involutive.
Qed.
Close Scope N_scope.
