(* ===== verification/Json.v ===== *)
(** The [json] module of the standard library, as far as the program uses it:
    [dumps] with the default separators (with and without [ensure_ascii]) and
    [loads], over Python's dynamic values; and [dict] as a sequence of items in
    insertion order. *)

From stdpp Require Import prelude list strings.
From Stdlib Require Import ZArith Lia.
From Stdlib Require Strings.String.
From S2P Require Import Prelude PySeq PyBytes PyStr.

Open Scope N_scope.
Set Warnings "-register-all".

(** ** Values

    A float is kept as the text of its literal: the program never computes with
    one that it read from JSON. *)
Inductive json : Type :=
  | JNull
  | JBool (b : bool)
  | JInt (z : Z)
  | JFloat (lexeme : str)
  | JStr (s : str)
  | JList (l : list json)
  | JObj (items : list (str * json)).

Section Induction.
Context (P : json → Prop).
Context (Hnull : P JNull) (Hbool : ∀ b, P (JBool b)) (Hint : ∀ z, P (JInt z))
  (Hfloat : ∀ s, P (JFloat s)) (Hstr : ∀ s, P (JStr s))
  (Hlist : ∀ l, Forall P l → P (JList l))
  (Hobj : ∀ l, Forall (λ kv, P kv.2) l → P (JObj l)).

Fixpoint json_rect_nested (j : json) : P j :=
  match j with
  | JNull => Hnull
  | JBool b => Hbool b
  | JInt z => Hint z
  | JFloat s => Hfloat s
  | JStr s => Hstr s
  | JList l =>
      Hlist l ((fix go l : Forall P l :=
        match l with
        | [] => Forall_nil_2 P
        | x :: l' => Forall_cons_2 P x l' (json_rect_nested x) (go l')
        end) l)
  | JObj l =>
      Hobj l ((fix go l : Forall (λ kv, P kv.2) l :=
        match l with
        | [] => Forall_nil_2 _
        | x :: l' => Forall_cons_2 _ x l' (json_rect_nested x.2) (go l')
        end) l)
  end.
End Induction.

(** ** Dictionaries *)

Abbreviation dict := (list (str * json)).

Fixpoint dict_get (k : str) (d : dict) : option json :=
  match d with
  | [] => None
  | (k', v) :: d' => if bool_decide (k = k') then Some v else dict_get k d'
  end.

(** [d[k] = v]: a key that exists keeps its place. *)
Fixpoint dict_set (k : str) (v : json) (d : dict) : dict :=
  match d with
  | [] => [(k, v)]
  | (k', v') :: d' =>
      if bool_decide (k = k') then (k', v) :: d' else (k', v') :: dict_set k v d'
  end.

(** [d.get(k, default)] *)
Definition dict_get_or (k : str) (default_ : json) (d : dict) : json :=
  default default_ (dict_get k d).

(** The truth value of an object: a float is false when all the digits before
    its exponent are zeros. *)
Fixpoint mantissa (s : str) : str :=
  match s with
  | [] => []
  | c :: s' => if (c =? 101) || (c =? 69) then [] else c :: mantissa s'
  end.
Definition truthy (j : json) : bool :=
  match j with
  | JNull => false
  | JBool b => b
  | JInt z => negb (z =? 0)%Z
  | JFloat s => existsb (λ c, (49 <=? c) && (c <=? 57) || (c =? 73) || (c =? 78)) (mantissa s)
  | JStr s => negb (bool_decide (s = []))
  | JList l => match l with [] => false | _ => true end
  | JObj l => match l with [] => false | _ => true end
  end.

(** ** [dumps] *)

Definition hex_lower (n : N) : N := if n <? 10 then 48 + n else 87 + n.
Definition u_escape (c : N) : str :=
  [92; 117; hex_lower (c / 4096); hex_lower ((c / 256) mod 16);
   hex_lower ((c / 16) mod 16); hex_lower (c mod 16)].

Definition escape_char (ensure_ascii : bool) (c : N) : str :=
  if c =? 34 then [92; 34]
  else if c =? 92 then [92; 92]
  else if c =? 10 then [92; 110]
  else if c =? 13 then [92; 114]
  else if c =? 9 then [92; 116]
  else if c =? 12 then [92; 102]
  else if c =? 8 then [92; 98]
  else if c <? 32 then u_escape c
  else if ensure_ascii && (126 <? c) then
    if c <? 65536 then u_escape c
    else
      let n := c - 65536 in
      u_escape (55296 + (n / 1024) mod 1024) ++ u_escape (56320 + n mod 1024)
  else [c].

Definition dump_str (ensure_ascii : bool) (s : str) : str :=
  [34] ++ concat (map (escape_char ensure_ascii) s) ++ [34].

Fixpoint json_dumps (ensure_ascii : bool) (j : json) : str :=
  match j with
  | JNull => u "null"
  | JBool true => u "true"
  | JBool false => u "false"
  | JInt z => str_of_Z z
  | JFloat s => s
  | JStr s => dump_str ensure_ascii s
  | JList l => [91] ++ join_with [44; 32] (map (json_dumps ensure_ascii) l) ++ [93]
  | JObj l =>
      [123] ++ join_with [44; 32]
        (map (λ kv, dump_str ensure_ascii kv.1 ++ [58; 32] ++ json_dumps ensure_ascii kv.2) l)
      ++ [125]
  end.

(** ** [loads]; [None] is [JSONDecodeError], a [ValueError] *)

Definition json_space (c : N) : bool := (c =? 32) || (c =? 9) || (c =? 10) || (c =? 13).
Definition skip_ws (s : str) : str := drop_while json_space s.

Definition hex_value (c : N) : option N :=
  if (48 <=? c) && (c <=? 57) then Some (c - 48)
  else if (97 <=? c) && (c <=? 102) then Some (c - 87)
  else if (65 <=? c) && (c <=? 70) then Some (c - 55)
  else None.

Definition hex4 (a b c d : N) : option N :=
  a ← hex_value a; b ← hex_value b; c ← hex_value c; d ← hex_value d;
  Some (((a * 16 + b) * 16 + c) * 16 + d).

Definition is_high (c : N) : bool := (55296 <=? c) && (c <? 56320).
Definition is_low (c : N) : bool := (56320 <=? c) && (c <? 57344).

Definition simple_escape (c : N) : option N :=
  if c =? 34 then Some 34 else if c =? 92 then Some 92 else if c =? 47 then Some 47
  else if c =? 98 then Some 8 else if c =? 102 then Some 12 else if c =? 110 then Some 10
  else if c =? 114 then Some 13 else if c =? 116 then Some 9 else None.

Definition cons_fst (c : N) (r : option (str * str)) : option (str * str) :=
  match r with Some (s, rest) => Some (c :: s, rest) | None => None end.

(** The characters after the opening quote: the string and what follows the
    closing one. A high surrogate takes the low one that follows it. *)
Fixpoint scan_string (s : str) : option (str * str) :=
  match s with
  | [] => None
  | c :: s1 =>
      if c =? 34 then Some ([], s1)
      else if c =? 92 then
        match s1 with
        | [] => None
        | e :: s2 =>
            if e =? 117 then
              match s2 with
              | h1 :: h2 :: h3 :: h4 :: s3 =>
                  match hex4 h1 h2 h3 h4 with
                  | None => None
                  | Some n =>
                      match s3 with
                      | b :: v :: l1 :: l2 :: l3 :: l4 :: s4 =>
                          if is_high n && (b =? 92) && (v =? 117) then
                            match hex4 l1 l2 l3 l4 with
                            | None => None
                            | Some m =>
                                if is_low m
                                then cons_fst (65536 + (n - 55296) * 1024 + (m - 56320))
                                       (scan_string s4)
                                else cons_fst n (scan_string s3)
                            end
                          else cons_fst n (scan_string s3)
                      | _ => cons_fst n (scan_string s3)
                      end
                  end
              | _ => None
              end
            else match simple_escape e with
                 | Some x => cons_fst x (scan_string s2)
                 | None => None
                 end
        end
      else if c <? 32 then None
      else cons_fst c (scan_string s1)
  end.

Definition is_dec (c : N) : bool := (48 <=? c) && (c <=? 57).

Fixpoint span_dec (s : str) : str * str :=
  match s with
  | c :: s' => if is_dec c then let '(d, r) := span_dec s' in (c :: d, r) else ([], s)
  | [] => ([], [])
  end.

(** The fraction and the exponent, when a digit follows. *)
Definition scan_frac (s : str) : str * str :=
  match s with
  | c :: s' =>
      if c =? 46 then
        match span_dec s' with ([], _) => ([], s) | (d, r) => (46 :: d, r) end
      else ([], s)
  | [] => ([], [])
  end.

Definition scan_exp (s : str) : str * str :=
  match s with
  | c :: s1 =>
      if (c =? 101) || (c =? 69) then
        let '(sign, s2) := match s1 with
                           | g :: s2 => if (g =? 43) || (g =? 45) then ([g], s2) else ([], s1)
                           | [] => ([], [])
                           end in
        match span_dec s2 with ([], _) => ([], s) | (d, r) => (c :: sign ++ d, r) end
      else ([], s)
  | [] => ([], [])
  end.

Definition scan_number (s : str) : option (json * str) :=
  let '(minus, s1) := match s with
                      | c :: s' => if c =? 45 then ([45], s') else ([], s)
                      | [] => ([], [])
                      end in
  let '(int_part, s2) := match s1 with
                         | c :: s' => if c =? 48 then ([48], s') else span_dec s1
                         | [] => ([], [])
                         end in
  match int_part with
  | [] => None
  | _ =>
      let '(frac, s3) := scan_frac s2 in
      let '(exp, s4) := scan_exp s3 in
      match frac, exp with
      | [], [] => z ← int_of_str (minus ++ int_part); Some (JInt z, s4)
      | _, _ => Some (JFloat (minus ++ int_part ++ frac ++ exp), s4)
      end
  end.

Fixpoint strip_literal (p s : str) : option str :=
  match p, s with
  | [], _ => Some s
  | x :: p', y :: s' => if x =? y then strip_literal p' s' else None
  | _ :: _, [] => None
  end.

(** A value, and the items of an array or an object after their opening
    bracket. [json_loads] gives as much fuel as the text has characters, and
    every call consumes one. *)
Fixpoint scan_value (fuel : nat) (s : str) : option (json * str) :=
  match fuel with
  | O => None
  | S f =>
      match s with
      | [] => None
      | c :: s1 =>
          if c =? 34 then
            match scan_string s1 with Some (t, r) => Some (JStr t, r) | None => None end
          else if c =? 123 then
            match skip_ws s1 with
            | [] => None
            | d :: r =>
                if d =? 125 then Some (JObj [], r)
                else match scan_items f (d :: r) [] with
                     | Some (items, r') => Some (JObj items, r')
                     | None => None
                     end
            end
          else if c =? 91 then
            match skip_ws s1 with
            | [] => None
            | d :: r =>
                if d =? 93 then Some (JList [], r)
                else match scan_elems f (d :: r) with
                     | Some (l, r') => Some (JList l, r')
                     | None => None
                     end
            end
          else
            match strip_literal (u "null") s, strip_literal (u "true") s,
                  strip_literal (u "false") s, scan_number s with
            | Some r, _, _, _ => Some (JNull, r)
            | _, Some r, _, _ => Some (JBool true, r)
            | _, _, Some r, _ => Some (JBool false, r)
            | _, _, _, Some v => Some v
            | _, _, _, None =>
                match strip_literal (u "NaN") s, strip_literal (u "Infinity") s,
                      strip_literal (u "-Infinity") s with
                | Some r, _, _ => Some (JFloat (u "NaN"), r)
                | _, Some r, _ => Some (JFloat (u "Infinity"), r)
                | _, _, Some r => Some (JFloat (u "-Infinity"), r)
                | _, _, _ => None
                end
            end
      end
  end
with scan_elems (fuel : nat) (s : str) : option (list json * str) :=
  match fuel with
  | O => None
  | S f =>
      match scan_value f s with
      | None => None
      | Some (v, r) =>
          match skip_ws r with
          | [] => None
          | d :: r' =>
              if d =? 93 then Some ([v], r')
              else if d =? 44 then
                match scan_elems f (skip_ws r') with
                | Some (l, r'') => Some (v :: l, r'')
                | None => None
                end
              else None
          end
      end
  end
with scan_items (fuel : nat) (s : str) (acc : dict) : option (dict * str) :=
  match fuel with
  | O => None
  | S f =>
      match s with
      | [] => None
      | q :: s1 =>
          if negb (q =? 34) then None
          else
            match scan_string s1 with
            | None => None
            | Some (k, r) =>
                match skip_ws r with
                | [] => None
                | d :: r1 =>
                    if negb (d =? 58) then None
                    else
                      match scan_value f (skip_ws r1) with
                      | None => None
                      | Some (v, r2) =>
                          let acc' := dict_set k v acc in
                          match skip_ws r2 with
                          | [] => None
                          | e :: r3 =>
                              if e =? 125 then Some (acc', r3)
                              else if e =? 44 then scan_items f (skip_ws r3) acc'
                              else None
                          end
                      end
                end
            end
      end
  end.

Definition json_loads (s : str) : res json :=
  if bool_decide (head s = Some 0xfeff) then Err ValueError
  else
    match scan_value (S (length s)) (skip_ws s) with
    | Some (j, r) => match skip_ws r with [] => Ok j | _ => Err ValueError end
    | None => Err ValueError
    end.

(** A literal with apostrophes for the quotes of JSON. *)
Definition jq (s : String.string) : str := map (λ c, if c =? 39 then 34 else c) (u s).
Arguments jq _%_string.

Example json_run :
  json_loads (jq "{ 'a': [1, -20, null, true, 'x\u0416\ud83d\ude00\/'], 'b': {} , 'a' :1.5e3}")
  = Ok (JObj [(u "a", JFloat (u "1.5e3")); (u "b", JObj [])])
  ∧ json_loads (jq "['x\u0416\ud83d\ude00\/\n']") = Ok (JList [JStr [120; 0x416; 0x1f600; 47; 10]])
  ∧ json_loads (jq "[01]") = Err ValueError ∧ json_loads (jq "[1,]") = Err ValueError.
Proof. vm_compute. auto. Qed.

(** ** Round trip *)

(** A float as [repr] writes a finite one: digits with a fraction, an exponent or
    both. *)
Definition digits (d : str) : Prop := Forall (λ c, 48 <= c < 58) d.
Definition int_lexeme (s : str) : Prop := s = [48] ∨ ∃ c d, s = c :: d ∧ 49 <= c < 58 ∧ digits d.
Definition frac_lexeme (s : str) : Prop := s = [] ∨ ∃ c d, s = 46 :: c :: d ∧ digits (c :: d).
Definition exp_lexeme (s : str) : Prop :=
  s = [] ∨ ∃ e sign c d, s = e :: sign ++ c :: d ∧ (e = 101 ∨ e = 69) ∧ (sign = [] ∨ sign = [43] ∨ sign = [45]) ∧ digits (c :: d).
Definition float_lexeme (s : str) : Prop :=
  ∃ minus int_part frac exp, s = minus ++ int_part ++ frac ++ exp ∧ (minus = [] ∨ minus = [45])
    ∧ int_lexeme int_part ∧ frac_lexeme frac ∧ exp_lexeme exp ∧ (frac ≠ [] ∨ exp ≠ []).

(** The values [loads] gives back: finite floats, text without lone surrogates,
    numbers below the interpreter's digit limit, and [dict]s, whose keys are
    distinct. *)
Fixpoint json_ok (j : json) : Prop :=
  match j with
  | JNull | JBool _ => True
  | JInt z => (N.size_nat (Z.abs_N z) < 4300)%nat
  | JFloat s => float_lexeme s
  | JStr s => Forall scalar s
  | JList l => fold_right and True (map json_ok l)
  | JObj l => NoDup (map fst l) ∧ fold_right and True (map (λ kv, Forall scalar kv.1 ∧ json_ok kv.2) l)
  end.

Lemma hex_value_lower n : n < 16 → hex_value (hex_lower n) = Some n.
Proof.
  intros H. rewrite <- (N2Nat.id n). remember (N.to_nat n) as k eqn:E.
  assert (k < 16)%nat as Hk by lia. clear E H n.
  do 16 (destruct k as [|k]; [reflexivity|]). lia.
Qed.

Lemma hex4_escape c :
  c < 65536 →
  hex4 (hex_lower (c / 4096)) (hex_lower ((c / 256) mod 16))
    (hex_lower ((c / 16) mod 16)) (hex_lower (c mod 16)) = Some c.
Proof.
  intros H. unfold hex4.
  assert (c / 4096 < 16) by (apply N.Div0.div_lt_upper_bound; lia).
  rewrite !hex_value_lower by (done || (apply N.mod_lt; lia)). simpl. f_equal.
  pose proof (N.div_mod c 16 ltac:(lia)). pose proof (N.div_mod (c / 16) 16 ltac:(lia)).
  pose proof (N.div_mod (c / 256) 16 ltac:(lia)).
  rewrite !N.Div0.div_div in *. change (16 * 16) with 256 in *.
  change (256 * 16) with 4096 in *.
  revert H0 H1 H2 H3. generalize (c / 16) (c / 256) (c / 4096) (c mod 16).
  generalize ((c / 16) mod 16) ((c / 256) mod 16). lia.
Qed.

Lemma scan_u_escape c s :
  c < 65536 → is_high c = false →
  scan_string (u_escape c ++ s) = cons_fst c (scan_string s).
Proof.
  intros Hc Hh. unfold u_escape. cbn [app]. cbn [scan_string].
  change (92 =? 34) with false. change (92 =? 92) with true. change (117 =? 117) with true.
  cbv iota. rewrite hex4_escape by done. rewrite Hh.
  by destruct s as [|? [|? [|? [|? [|? [|? ?]]]]]].
Qed.

Lemma scan_surrogates n s :
  n < 1048576 →
  scan_string (u_escape (55296 + (n / 1024) mod 1024) ++ u_escape (56320 + n mod 1024) ++ s)
  = cons_fst (65536 + n) (scan_string s).
Proof.
  intros Hn. assert (n / 1024 < 1024) as Hq by (apply N.Div0.div_lt_upper_bound; lia).
  rewrite (N.mod_small (n / 1024)) by done.
  pose proof (N.mod_lt n 1024 ltac:(lia)) as Hr. pose proof (N.div_mod n 1024 ltac:(lia)) as Hd.
  set (q := n / 1024) in *. set (r := n mod 1024) in *.
  unfold u_escape at 1. cbn [app]. cbn [scan_string].
  change (92 =? 34) with false. change (92 =? 92) with true. change (117 =? 117) with true.
  cbv iota. rewrite hex4_escape by lia. unfold u_escape at 1. cbn [app].
  change (92 =? 92) with true. change (117 =? 117) with true. rewrite !andb_true_r.
  replace (is_high (55296 + q)) with true
    by (symmetry; unfold is_high; apply andb_true_iff; rewrite N.leb_le, N.ltb_lt; lia).
  cbv iota. rewrite hex4_escape by lia.
  replace (is_low (56320 + r)) with true
    by (symmetry; unfold is_low; apply andb_true_iff; rewrite N.leb_le, N.ltb_lt; lia).
  f_equal. lia.
Qed.

Lemma scan_escape_char ea c s :
  scalar c → scan_string (escape_char ea c ++ s) = cons_fst c (scan_string s).
Proof.
  intros Hc. unfold escape_char.
  repeat match goal with
  | |- context [if ?c =? ?n then _ else _] =>
      destruct (N.eqb_spec c n) as [->|]; [reflexivity|]
  end.
  assert (∀ x, scalar x → is_high x = false) as Hnh.
  { intros x Hx. unfold is_high, scalar in *. apply andb_false_iff.
    rewrite N.leb_gt, N.ltb_ge. lia. }
  destruct (N.ltb_spec c 32) as [H32|H32].
  { apply scan_u_escape; [lia | by apply Hnh]. }
  destruct (ea && (126 <? c)).
  - destruct (N.ltb_spec c 65536); [apply scan_u_escape; [done | by apply Hnh]|].
    cbv zeta. rewrite <- app_assoc, scan_surrogates by (unfold scalar in Hc; lia).
    f_equal. lia.
  - cbn [app scan_string]. rewrite (proj2 (N.eqb_neq c 34)) by done.
    rewrite (proj2 (N.eqb_neq c 92)) by done. by rewrite (proj2 (N.ltb_ge c 32)).
Qed.

Lemma scan_dump_str ea s rest :
  Forall scalar s →
  scan_string (concat (map (escape_char ea) s) ++ 34 :: rest) = Some (s, rest).
Proof.
  induction 1 as [|c s Hc _ IH]; [done|]. simpl.
  by rewrite <- app_assoc, scan_escape_char, IH.
Qed.

(** What may follow a value in a text that [dumps] wrote. *)
Definition ends_value (rest : str) : Prop :=
  match rest with [] => True | c :: _ => c = 44 ∨ c = 93 ∨ c = 125 end.

Lemma span_dec_app d rest :
  Forall (λ c, 48 <= c < 58) d → ends_value rest → span_dec (d ++ rest) = (d, rest).
Proof.
  intros Hd Hr. induction Hd as [|c d Hc _ IH]; simpl.
  - destruct rest as [|c r]; [done|]. simpl in *. unfold is_dec.
    by destruct Hr as [->|[->| ->]].
  - rewrite IH. unfold is_dec. cbv beta in Hc.
    rewrite (proj2 (N.leb_le 48 c)), (proj2 (N.leb_le c 57)) by lia. done.
Qed.

(** A text that does not go on with a digit. *)
Definition no_digit (s : str) : Prop := match s with [] => True | c :: _ => is_dec c = false end.

Lemma span_digits d rest : digits d → no_digit rest → span_dec (d ++ rest) = (d, rest).
Proof.
  intros Hd Hr. induction Hd as [|c d Hc _ IH]; simpl.
  - destruct rest as [|c r]; [done|]. simpl in *. by rewrite Hr.
  - rewrite IH. unfold is_dec. cbv beta in Hc.
    by rewrite (proj2 (N.leb_le 48 c)), (proj2 (N.leb_le c 57)) by lia.
Qed.

Lemma ends_no_digit rest : ends_value rest → no_digit rest.
Proof. destruct rest as [|c r]; [done|]. by intros [->|[->| ->]]. Qed.

Lemma scan_exp_lexeme exp rest : exp_lexeme exp → ends_value rest → scan_exp (exp ++ rest) = (exp, rest) ∧ no_digit (exp ++ rest).
Proof.
  intros [->|(e & sign & c & d & -> & He & Hs & Hd)] Hr.
  - split; [|by apply ends_no_digit]. destruct rest as [|c r]; [done|]. by destruct Hr as [->|[->| ->]].
  - pose proof (span_digits (c :: d) rest Hd (ends_no_digit _ Hr)) as Hspan. apply Forall_cons in Hd as [Hc _]. cbn [app] in *.
    split; [|by destruct He as [-> | ->]]. unfold scan_exp.
    assert ((e =? 101) || (e =? 69) = true) as -> by by destruct He as [-> | ->].
    destruct Hs as [->|[->| ->]]; cbn [app].
    + rewrite (proj2 (N.eqb_neq c 43)), (proj2 (N.eqb_neq c 45)) by lia. cbn [orb]. by rewrite Hspan.
    + change ((43 =? 43) || (43 =? 45)) with true. cbv iota. by rewrite Hspan.
    + change ((45 =? 43) || (45 =? 45)) with true. cbv iota. by rewrite Hspan.
Qed.

Lemma scan_frac_lexeme frac rest :
  frac_lexeme frac → no_digit rest → head rest ≠ Some 46 → scan_frac (frac ++ rest) = (frac, rest).
Proof.
  intros [->|(c & d & -> & Hd)] Hr Hdot.
  - destruct rest as [|c r]; [done|]. cbn [app scan_frac]. rewrite (proj2 (N.eqb_neq c 46)); [done|]. intros ->. by apply Hdot.
  - pose proof (span_digits (c :: d) rest Hd Hr) as Hspan. cbn [app scan_frac] in *. change (46 =? 46) with true. cbv iota. by rewrite Hspan.
Qed.

Lemma scan_number_float s rest : float_lexeme s → ends_value rest → scan_number (s ++ rest) = Some (JFloat s, rest).
Proof.
  intros (minus & int_part & frac & exp & -> & Hm & Hi & Hf & He & Hne) Hr. rewrite <- !app_assoc.
  destruct (scan_exp_lexeme exp rest He Hr) as [Hexp Hnd].
  assert (head (exp ++ rest) ≠ Some 46) as Hdot.
  { destruct He as [->|(e & sign & c & d & -> & [->| ->] & _)]; [|done..].
    destruct rest as [|c r]; [done|]. by destruct Hr as [->|[->| ->]]. }
  pose proof (scan_frac_lexeme frac (exp ++ rest) Hf Hnd Hdot) as Hfrac.
  assert (no_digit (frac ++ exp ++ rest)) as Hnf by by destruct Hf as [->|(c & d & -> & _)].
  assert (∃ c d, int_part = c :: d ∧ 48 <= c < 58) as (c & d & Ei & Hc)
    by (destruct Hi as [->|(c & d & -> & Hc & _)]; eexists _, _; (split; [reflexivity | lia])).
  assert ((let '(int_part, s2) := match int_part ++ frac ++ exp ++ rest with
            | c :: s' => if c =? 48 then ([48], s') else span_dec (int_part ++ frac ++ exp ++ rest)
            | [] => ([], []) end in (int_part, s2)) = (int_part, frac ++ exp ++ rest)) as Hint.
  { destruct Hi as [->|(c' & d' & -> & Hc' & Hd')]; [done|]. cbn [app]. rewrite (proj2 (N.eqb_neq c' 48)) by lia.
    rewrite app_comm_cons, span_digits; [done | | exact Hnf]. apply Forall_cons. split; [lia | exact Hd']. }
  assert (scan_number (minus ++ int_part ++ frac ++ exp ++ rest)
    = (let '(int_part, s2) := match int_part ++ frac ++ exp ++ rest with
            | c :: s' => if c =? 48 then ([48], s') else span_dec (int_part ++ frac ++ exp ++ rest)
            | [] => ([], []) end in
       match int_part with
       | [] => None
       | _ => let '(frac, s3) := scan_frac s2 in
              let '(exp, s4) := scan_exp s3 in
              match frac, exp with
              | [], [] => z ← int_of_str (minus ++ int_part); Some (JInt z, s4)
              | _, _ => Some (JFloat (minus ++ int_part ++ frac ++ exp), s4)
              end
       end)) as ->.
  { unfold scan_number. destruct Hm as [->| ->]; [|done]. rewrite Ei. cbn [app]. by rewrite (proj2 (N.eqb_neq c 45)) by lia. }
  revert Hint. destruct (match int_part ++ frac ++ exp ++ rest with [] => _ | _ => _ end) as [i s2]. intros [= -> ->].
  rewrite Ei at 1. cbv iota. rewrite Hfrac, Hexp. destruct frac as [|f frac]; [|done]. destruct exp as [|e exp]; [by destruct Hne|]. done.
Qed.

Lemma float_lexeme_head s : float_lexeme s → ∃ c r, s = c :: r ∧ (c = 45 ∨ 48 <= c < 58).
Proof.
  intros (minus & int_part & frac & exp & -> & [->| ->] & Hi & _); [|eexists _, _; by split; [reflexivity | left]].
  destruct Hi as [->|(c & d & -> & Hc & _)]; eexists _, _; (split; [reflexivity|right; lia]).
Qed.

Lemma scan_number_of_Z z rest :
  (N.size_nat (Z.abs_N z) < 4300)%nat → ends_value rest →
  scan_number (str_of_Z z ++ rest) = Some (JInt z, rest).
Proof.
  intros Hz Hr.
  assert (scan_frac rest = ([], rest) ∧ scan_exp rest = ([], rest)) as [Hf He].
  { destruct rest as [|c r]; [done|]. by destruct Hr as [->|[->| ->]]. }
  pose proof (int_of_str_of_Z z Hz) as Hi. unfold str_of_Z in *. unfold scan_number.
  set (n := Z.abs_N z) in *.
  assert (∀ k, (match str_of_N k ++ rest with
           | c :: s' => if c =? 48 then ([48], s') else span_dec (str_of_N k ++ rest)
           | [] => ([], [])
           end) = (str_of_N k, rest)) as Hs.
  { intros k. destruct (str_of_N_cases k) as [[_ ->]|(c & r & E & Hc)]; [done|].
    rewrite E. cbn [app]. rewrite (proj2 (N.eqb_neq c 48)) by lia.
    rewrite app_comm_cons, <- E. apply span_dec_app; [apply str_of_N_range | done]. }
  destruct (z <? 0)%Z; cbn [app].
  - change (45 =? 45) with true. cbv iota. rewrite Hs.
    destruct (str_of_N _) as [|c r] eqn:E; [by apply str_of_N_ne in E|].
    rewrite Hf, He. cbn [app]. by rewrite Hi.
  - destruct (str_of_N (Z.to_N z)) as [|c r] eqn:E; [by apply str_of_N_ne in E|].
    assert ((c =? 45) = false) as Hc.
    { apply N.eqb_neq. intros ->. pose proof (str_of_N_range (Z.to_N z)) as Hd.
      rewrite E in Hd. apply Forall_inv in Hd. simpl in Hd. lia. }
    cbn [app]. rewrite Hc. specialize (Hs (Z.to_N z)). rewrite E in Hs. cbn [app] in Hs.
    rewrite Hs, Hf, He. cbn [app]. by rewrite Hi.
Qed.

(** Items are collected into a dictionary of their own when the keys differ. *)
Lemma dict_set_fresh k v d : k ∉ map fst d → dict_set k v d = d ++ [(k, v)].
Proof.
  induction d as [|[k' v'] d IH]; intros Hk; [done|]. simpl in *.
  rewrite not_elem_of_cons in Hk. destruct Hk as [Hn Hk].
  rewrite bool_decide_eq_false_2 by done. by rewrite IH.
Qed.

(** The first character of a value is neither space nor a closing bracket. *)
Definition starts_value (s : str) : Prop :=
  match s with
  | [] => False
  | c :: _ => json_space c = false ∧ c <> 93 ∧ c <> 125
  end.

Lemma dumps_starts ea j rest : json_ok j → starts_value (json_dumps ea j ++ rest).
Proof.
  destruct j as [|[]|z|s|s|l|l]; intros H; try done; try (by repeat split).
  2: { destruct (float_lexeme_head s H) as (c & r & -> & Hc). simpl. unfold json_space.
       repeat split; [|lia|lia]. rewrite !orb_false_iff, !N.eqb_neq. lia. }
  simpl. unfold str_of_Z. destruct (z <? 0)%Z; [by repeat split|].
  pose proof (str_of_N_range (Z.to_N z)) as Hr.
  destruct (str_of_N (Z.to_N z)) as [|c r] eqn:E; [by apply str_of_N_ne in E|].
  apply Forall_inv in Hr. simpl in *. unfold json_space.
  repeat split; [|lia|lia]. rewrite !orb_false_iff, !N.eqb_neq. lia.
Qed.

Lemma skip_ws_value s : starts_value s → skip_ws s = s.
Proof. destruct s as [|c s]; [done|]. intros [H _]. unfold skip_ws. simpl. by rewrite H. Qed.

(** Opening the text of a list or a dictionary of at least one item. *)
Lemma starts_value_match {A} s d (x : A) (y f : str → A) :
  starts_value s → d = 93 ∨ d = 125 →
  match skip_ws s with [] => x | e :: r => if e =? d then y r else f (e :: r) end = f s.
Proof.
  intros H Hd. rewrite skip_ws_value by done. destruct s as [|c s]; [done|].
  destruct H as (_ & H1 & H2). rewrite (proj2 (N.eqb_neq c d)); [done|].
  by destruct Hd as [->| ->].
Qed.

Lemma scan_elems_step f s :
  scan_elems (S f) s =
  match scan_value f s with
  | None => None
  | Some (v, r) =>
      match skip_ws r with
      | [] => None
      | d :: r' =>
          if d =? 93 then Some ([v], r')
          else if d =? 44 then
            match scan_elems f (skip_ws r') with
            | Some (l, r'') => Some (v :: l, r'')
            | None => None
            end
          else None
      end
  end.
Proof. reflexivity. Qed.

Section Roundtrip.
Context (ea : bool).

Definition scans (j : json) : Prop :=
  ∀ fuel rest, json_ok j → ends_value rest → (length (json_dumps ea j) <= fuel)%nat →
  scan_value (S fuel) (json_dumps ea j ++ rest) = Some (j, rest).

Definition item_text (kv : str * json) : str :=
  dump_str ea kv.1 ++ [58; 32] ++ json_dumps ea kv.2.

Lemma scan_elems_dump l rest fuel :
  l ≠ [] → Forall scans l → Forall json_ok l →
  (length (join_with [44%N; 32%N] (map (json_dumps ea) l)) < fuel)%nat →
  scan_elems (S fuel) (join_with [44; 32] (map (json_dumps ea) l) ++ 93 :: rest)
  = Some (l, rest).
Proof.
  intros Hne Hs. revert fuel Hne. induction Hs as [|j l Hj Hl IH]; intros fuel Hne Hok Hlen; [done|].
  apply Forall_cons in Hok as [Hoj Hol]. destruct fuel as [|fuel]; [lia|].
  destruct l as [|j' l].
  - cbn [map join_with] in *. rewrite scan_elems_step. rewrite Hj by (done || (simpl; auto) || lia). done.
  - cbn [map join_with] in *. rewrite !length_app in Hlen.
    change (length [44%N; 32%N]) with 2%nat in Hlen. rewrite <- !app_assoc.
    rewrite scan_elems_step. rewrite Hj by (done || (simpl; auto) || lia).
    cbn [app skip_ws drop_while]. change (json_space 44) with false. cbv iota.
    change (44 =? 93) with false. change (44 =? 44) with true. cbv iota.
    match goal with |- context [skip_ws (32 :: ?x)] => change (skip_ws (32 :: x)) with (skip_ws x) end.
    rewrite skip_ws_value.
    + by rewrite IH by (done || lia).
    + apply Forall_cons in Hol as [Ho' _].
      destruct l; [by apply dumps_starts|]. cbn [map join_with]. rewrite <- app_assoc.
      by apply dumps_starts.
Qed.

Lemma scan_items_step f s1 acc k r r1 v r2 d r3 :
  scan_string s1 = Some (k, 58 :: r) → skip_ws r = r1 → scan_value f r1 = Some (v, r2) →
  skip_ws r2 = d :: r3 →
  scan_items (S f) (34 :: s1) acc
  = if d =? 125 then Some (dict_set k v acc, r3)
    else if d =? 44 then scan_items f (skip_ws r3) (dict_set k v acc) else None.
Proof.
  intros H1 H2 H3 H4. cbn [scan_items]. change (negb (34 =? 34)) with false. cbv iota.
  rewrite H1. change (skip_ws (58 :: r)) with (58 :: r).
  change (negb (58 =? 58)) with false. cbv iota. by rewrite H2, H3, H4.
Qed.

Lemma item_text_scan kv rest :
  Forall scalar kv.1 →
  ∃ s1, item_text kv ++ rest = 34 :: s1
    ∧ scan_string s1 = Some (kv.1, 58 :: 32 :: json_dumps ea kv.2 ++ rest).
Proof.
  intros Hk. exists (concat (map (escape_char ea) kv.1) ++ 34 :: 58 :: 32 :: json_dumps ea kv.2 ++ rest).
  split; [|by apply scan_dump_str].
  unfold item_text, dump_str. rewrite <- !app_assoc. done.
Qed.

Lemma skip_ws_items kv l rest :
  Forall scalar kv.1 →
  let s := join_with [44; 32] (map item_text (kv :: l)) ++ rest in skip_ws s = s.
Proof.
  intros Hk. destruct l as [|kv' l]; cbn [map join_with]; rewrite <- ?app_assoc;
    match goal with |- context [item_text kv ++ ?r] =>
      by destruct (item_text_scan kv r Hk) as (? & -> & _) end.
Qed.

Lemma scan_items_dump l rest fuel acc :
  l ≠ [] → Forall (λ kv, scans kv.2) l → Forall (λ kv, Forall scalar kv.1 ∧ json_ok kv.2) l →
  NoDup (map fst (acc ++ l)) →
  (length (join_with [44%N; 32%N] (map item_text l)) < fuel)%nat →
  scan_items (S fuel) (join_with [44; 32] (map item_text l) ++ 125 :: rest) acc
  = Some (acc ++ l, rest).
Proof.
  intros Hne Hs. revert fuel acc Hne.
  induction Hs as [|[k v] l Hj Hl IH]; intros fuel acc Hne Hok Hnd Hlen; [done|].
  apply Forall_cons in Hok as [[Hok1 Hok2] Hol]. simpl in Hj, Hok1, Hok2.
  destruct fuel as [|fuel]; [lia|].
  assert (k ∉ map fst acc) as Hfresh.
  { rewrite map_app in Hnd. apply NoDup_app in Hnd as (_ & Hd & _).
    intros Hin. apply (Hd k Hin). left. }
  assert (length (json_dumps ea v) <= length (item_text (k, v)))%nat as Hlt
    by (unfold item_text; rewrite !length_app; simpl; lia).
  destruct l as [|kv' l].
  - cbn [map join_with] in *.
    destruct (item_text_scan (k, v) (125 :: rest) Hok1) as (s1 & -> & H1).
    rewrite (scan_items_step _ _ _ k _ (json_dumps ea v ++ 125 :: rest) v (125 :: rest) 125 rest H1);
      [by rewrite dict_set_fresh | | | done].
    + cbn [skip_ws drop_while]. change (json_space 32) with true. cbv iota.
      by apply skip_ws_value, dumps_starts.
    + apply Hj; [done | simpl; auto | lia].
  - change (join_with [44; 32] (map item_text ((k, v) :: kv' :: l)))
      with (item_text (k, v) ++ [44; 32] ++ join_with [44; 32] (map item_text (kv' :: l))) in *.
    rewrite !length_app in Hlen. change (length [44; 32]) with 2%nat in Hlen.
    rewrite <- !app_assoc. set (tail := join_with [44; 32] (map item_text (kv' :: l)) ++ 125 :: rest).
    destruct (item_text_scan (k, v) ([44; 32] ++ tail) Hok1) as (s1 & -> & H1).
    rewrite (scan_items_step _ _ _ k _ (json_dumps ea v ++ [44; 32] ++ tail) v
               ([44; 32] ++ tail) 44 (32 :: tail) H1); [| | | done].
    + change (44 =? 125) with false. change (44 =? 44) with true. cbv iota.
      assert (skip_ws (32 :: tail) = tail) as ->.
      { change (skip_ws (32 :: tail)) with (skip_ws tail). unfold tail.
        apply Forall_cons in Hol as [[Hk' _] _]. by apply skip_ws_items. }
      rewrite dict_set_fresh by done. unfold tail. rewrite IH; [|done|done| |lia].
      * by rewrite <- app_assoc.
      * by rewrite <- app_assoc.
    + cbn [skip_ws drop_while]. change (json_space 32) with true. cbv iota.
      by apply skip_ws_value, dumps_starts.
    + apply Hj; [done | simpl; auto | lia].
Qed.
End Roundtrip.

Lemma Forall_all {A} (P : A → Prop) l : fold_right and True (map P l) ↔ Forall P l.
Proof. induction l as [|x l IH]; simpl; [by split|]. by rewrite IH, Forall_cons. Qed.

(** A text that starts as a number is read as one. *)
Lemma scan_value_number fuel c r : c = 45 ∨ 48 <= c < 58 → ∀ v, scan_number (c :: r) = Some v → scan_value (S fuel) (c :: r) = Some v.
Proof.
  intros Hc v Hn. cbn [scan_value].
  rewrite (proj2 (N.eqb_neq c 34)), (proj2 (N.eqb_neq c 123)), (proj2 (N.eqb_neq c 91)) by lia.
  assert (∀ x p, (57 < x)%N → strip_literal (x :: p) (c :: r) = None) as Hl.
  { intros x p Hx. cbn [strip_literal]. by rewrite (proj2 (N.eqb_neq x c)) by lia. }
  change (u "null") with (110 :: u "ull"). change (u "true") with (116 :: u "rue").
  change (u "false") with (102 :: u "alse"). by rewrite !Hl, Hn by lia.
Qed.

Lemma scans_all ea j : scans ea j.
Proof.
  induction j as [|b|z|s|s|l IH|l IH] using json_rect_nested; intros fuel rest Hok Hr Hlen.
  - reflexivity.
  - by destruct b.
  - cbn [json_dumps]. pose proof (scan_number_of_Z z rest Hok Hr) as Hn.
    assert (∃ c r, str_of_Z z = c :: r ∧ (c = 45 ∨ 48 <= c < 58)) as (c & r & E & Hc).
    { unfold str_of_Z. destruct (z <? 0)%Z; [by exists 45, (str_of_N (Z.to_N (- z))); auto|].
      pose proof (str_of_N_range (Z.to_N z)) as Hd.
      destruct (str_of_N (Z.to_N z)) as [|c r] eqn:E; [by apply str_of_N_ne in E|].
      apply Forall_inv in Hd. exists c, r. auto. }
    rewrite E in *. cbn [app] in *. by apply scan_value_number.
  - cbn [json_dumps json_ok] in *. destruct (float_lexeme_head s Hok) as (c & r & E & Hc).
    pose proof (scan_number_float s rest Hok Hr) as Hn. rewrite E in *. cbn [app] in *. by apply scan_value_number.
  - cbn [json_dumps]. unfold dump_str. rewrite <- !app_assoc. cbn [app scan_value].
    change (34 =? 34) with true. cbv iota. by rewrite scan_dump_str.
  - cbn [json_ok] in Hok. apply Forall_all in Hok. cbn [json_dumps] in *.
    rewrite !length_app in Hlen. cbn [length] in Hlen. rewrite <- !app_assoc.
    destruct l as [|j l]; [reflexivity|]. cbn [app scan_value].
    change (91 =? 34) with false. change (91 =? 123) with false. change (91 =? 91) with true.
    cbv iota. destruct fuel as [|fuel]; [lia|].
    rewrite (starts_value_match _ 93) with (y := λ r, Some (JList [], r)) (f := λ s, match scan_elems (S fuel) s with
      Some (l, r') => Some (JList l, r') | None => None end); [| | by left].
    + by rewrite scan_elems_dump by (done || lia).
    + apply Forall_cons in Hok as [Hj _]. destruct l; [by apply dumps_starts|].
      cbn [map join_with]. rewrite <- app_assoc. by apply dumps_starts.
  - destruct Hok as [Hnd Hok]. apply Forall_all in Hok. cbn [json_dumps] in *.
    change (map _ l) with (map (item_text ea) l) in Hlen |- *.
    rewrite !length_app in Hlen. cbn [length] in Hlen. rewrite <- !app_assoc.
    destruct l as [|kv l]; [reflexivity|]. cbn [app scan_value].
    change (123 =? 34) with false. change (123 =? 123) with true. cbv iota.
    destruct fuel as [|fuel]; [lia|].
    pose proof Hok as [[Hk _] _]%Forall_cons.
    assert (starts_value (join_with [44; 32] (map (item_text ea) (kv :: l)) ++ 125 :: rest)) as Hst.
    { destruct l as [|kv' l]; cbn [map join_with]; rewrite <- ?app_assoc;
      match goal with |- context [item_text ea kv ++ ?r] =>
        by destruct (item_text_scan ea kv r Hk) as (? & -> & _) end. }
    rewrite (starts_value_match _ 125) with (y := λ r, Some (JObj [], r)) (f := λ s, match scan_items (S fuel) s [] with
      Some (l, r') => Some (JObj l, r') | None => None end); [|done | by right].
    by rewrite scan_items_dump by (done || lia).
Qed.

(** [json.loads(json.dumps(j)) == j], in both encodings. *)
Lemma json_loads_dumps ea j : json_ok j → json_loads (json_dumps ea j) = Ok j.
Proof.
  intros Hok. unfold json_loads.
  assert (starts_value (json_dumps ea j)) as Hst
    by (rewrite <- (app_nil_r (json_dumps ea j)); by apply dumps_starts).
  assert (head (json_dumps ea j) ≠ Some 0xfeff) as Hbom.
  { revert Hok. destruct j as [|[]|z|s|s|l|l]; try discriminate; intros Hok.
    2: { destruct (float_lexeme_head s Hok) as (c & r & -> & Hc). simpl. intros [= ->]. lia. }
    simpl. unfold str_of_Z. destruct (z <? 0)%Z; [discriminate|].
    pose proof (str_of_N_range (Z.to_N z)) as Hr. intros E.
    destruct (str_of_N (Z.to_N z)) as [|c r]; [done|]. injection E as ->.
    apply Forall_inv in Hr. lia. }
  rewrite skip_ws_value, bool_decide_eq_false_2 by done.
  pose proof (scans_all ea j (length (json_dumps ea j)) [] Hok I (Nat.le_refl _)) as Hs.
  rewrite app_nil_r in Hs. by rewrite Hs.
Qed.
(** ** Fields of a dict *)

Lemma dict_get_set_eq k v d : dict_get k (dict_set k v d) = Some v.
Proof.
  induction d as [|[k0 v0] d IH]; simpl; [by rewrite bool_decide_eq_true_2|].
  case_bool_decide as E; simpl.
  - by rewrite bool_decide_eq_true_2.
  - by rewrite bool_decide_eq_false_2.
Qed.
Lemma dict_get_set_ne k k' v d : k' ≠ k → dict_get k' (dict_set k v d) = dict_get k' d.
Proof.
  intros Hne. induction d as [|[k0 v0] d IH]; simpl; [by rewrite bool_decide_eq_false_2|].
  case_bool_decide as E; simpl.
  - subst. by rewrite bool_decide_eq_false_2.
  - by rewrite IH.
Qed.

Lemma elem_dict_set k k' v d : k' ∈ (dict_set k v d).*1 ↔ k' = k ∨ k' ∈ d.*1.
Proof.
  induction d as [|[k0 v0] d IH]; simpl; [rewrite elem_of_cons; set_solver|].
  case_bool_decide as E; simpl; rewrite !elem_of_cons.
  - subst. tauto.
  - rewrite IH. tauto.
Qed.
Lemma NoDup_dict_set k v d : NoDup d.*1 → NoDup (dict_set k v d).*1.
Proof.
  induction d as [|[k0 v0] d IH]; simpl; intros Hn.
  { apply NoDup_singleton. }
  case_bool_decide as E; [done|]. simpl. apply NoDup_cons in Hn as [Hk Hn]. constructor; [|by apply IH].
  rewrite elem_dict_set. naive_solver.
Qed.

Lemma json_ok_set k v d : Forall scalar k → json_ok v → json_ok (JObj d) → json_ok (JObj (dict_set k v d)).
Proof.
  intros Hk Hv [Hn Hd]. apply Forall_all in Hd. split; [exact (NoDup_dict_set k v d Hn)|]. apply Forall_all. clear Hn.
  induction d as [|[k0 v0] d IH]; cbn [dict_set]; [by repeat constructor|]. apply Forall_cons in Hd as [[H0 H1] Hd].
  case_bool_decide; apply Forall_cons_2; [by split | done | by split | by apply IH].
Qed.
Close Scope N_scope.
