(* ===== verification/Logging.v ===== *)
(** What the services say of themselves: the log, [libs/common/logging.py], one
    JSON object per line on the standard error, and the health probe,
    [libs/common/health.py] and [services/portal/routes/health.py]. *)

From stdpp Require Import prelude list strings.
From Stdlib Require Import ZArith Lia.
From Stdlib Require Strings.String.
From S2P Require Import Prelude PySeq PyBytes PyStr Json.

Open Scope N_scope.

(** ** The log *)

(** A [LogRecord]: the message with its arguments put in, the traceback when there
    is an exception, and the attributes that a factory or a caller added. *)
Record LogRecord : Type := {
  lr_levelname : str;
  lr_name : str;
  lr_message : str;
  lr_exception : option str;
  lr_attribute : str → option json;
}.

Definition is_none (v : json) : bool := match v with JNull => true | _ => false end.

(** The attributes that are copied; they are a Python set, walked in the order
    [extra_keys]. *)
Definition EXTRA_KEYS : list str := [u "correlation_id"; u "instance_id"; u "service"].
Definition extra_items (extra_keys : list str) (r : LogRecord) : dict :=
  omap (λ key, match lr_attribute r key with
               | Some v => if is_none v then None else Some (key, v)
               | None => None
               end) extra_keys.

(** [JSONFormatter.format]; [ts]: the time it is called at. *)
Definition log_payload (ts : str) (extra_keys : list str) (r : LogRecord) : dict :=
  [(u "ts", JStr ts); (u "level", JStr (lr_levelname r)); (u "logger", JStr (lr_name r)); (u "msg", JStr (lr_message r))]
  ++ match lr_exception r with Some text => [(u "exception", JStr text)] | None => [] end
  ++ extra_items extra_keys r.
Definition format (ts : str) (extra_keys : list str) (r : LogRecord) : str :=
  json_dumps false (JObj (log_payload ts extra_keys r)).

(** [s.encode("utf-8", errors="replace")]: a lone surrogate becomes a question
    mark. *)
Definition utf8_encode_replace (s : str) : bytes :=
  concat (map (λ c, match utf8_char c with Ok b => b | Err _ => [n_byte 63] end) s).

(** [FD2Handler.emit], on what file descriptor 2 has received. *)
Definition emit (ts : str) (extra_keys : list str) (r : LogRecord) : io bytes unit :=
  io_modify (λ fd, fd ++ utf8_encode_replace (format ts extra_keys r ++ [10])).

(** The factory that [setup_logging] installs: every record says its service. *)
Definition with_service (service : str) (r : LogRecord) : LogRecord := {|
  lr_levelname := lr_levelname r; lr_name := lr_name r; lr_message := lr_message r; lr_exception := lr_exception r;
  lr_attribute k := if bool_decide (k = u "service") then Some (JStr service) else lr_attribute r k |}.

(** A service that logs, one record after the other. *)
Fixpoint emit_all (extra_keys : list str) (service : str) (records : list (str * LogRecord)) : io bytes unit :=
  match records with
  | [] => mret tt
  | (ts, r) :: rest => _ ← emit ts extra_keys (with_service service r); emit_all extra_keys service rest
  end.

(** ** The probe *)

(** What the two checks say, when there is a database and a Redis: nothing, or the
    text of the exception. *)
Definition check_health (db redis : option (option str)) : dict :=
  let part (name : str) (c : option (option str)) : dict :=
    match c with
    | None => []
    | Some None => [(name, JStr (u "ok"))]
    | Some (Some _) => [(name, JStr (u "error"))]
    end in
  let error (name : str) (c : option (option str)) : list json :=
    match c with Some (Some text) => [JStr (name ++ u ": " ++ text)] | _ => [] end in
  let errors := error (u "db") db ++ error (u "redis") redis in
  let status := match errors with [] => u "ok" | _ => u "degraded" end in
  [(u "status", JStr status)] ++ part (u "db") db ++ part (u "redis") redis
  ++ match errors with [] => [] | _ => [(u "errors", JList errors)] end.

(** The route of the portal: its status does not depend on what the probe says. *)
Definition health (db redis : option (option str)) : Z * dict := (200%Z, check_health db redis).

(** ** Lemmas *)

(** Text that is written has no control character and no surrogate in it. *)
Definition printable (s : str) : Prop := Forall (λ c, 32 <= c ∧ scalar c) s.
Definition ascii_char (c : N) : Prop := 32 <= c < 128.

Lemma ascii_printable s : Forall ascii_char s → printable s.
Proof. intros Hs. eapply Forall_impl; [exact Hs|]. unfold ascii_char, scalar. cbn. lia. Qed.
Lemma printable_app s t : printable s → printable t → printable (s ++ t).
Proof. apply Forall_app_2. Qed.
Lemma ascii_b_printable s : forallb (λ c, (32 <=? c) && (c <? 128)) s = true → printable s.
Proof.
  intros Hs. apply ascii_printable, Forall_forall. intros c Hc%list_elem_of_In. rewrite forallb_forall in Hs. specialize (Hs c Hc).
  apply andb_true_iff in Hs as [H1 H2]. apply N.leb_le in H1. apply N.ltb_lt in H2. by split.
Qed.
Ltac ascii_text := apply ascii_b_printable; vm_compute; reflexivity.

Lemma hex_lower_ascii n : n < 16 → ascii_char (hex_lower n).
Proof. unfold hex_lower, ascii_char. destruct (N.ltb_spec n 10); lia. Qed.
Lemma escape_printable c : scalar c → printable (escape_char false c).
Proof.
  intros Hc. unfold escape_char. repeat (res_case; [ascii_text|]). destruct (N.ltb_spec c 32).
  - unfold u_escape. apply ascii_printable. repeat (apply Forall_cons_2; [first [apply hex_lower_ascii | unfold ascii_char; lia]|]);
      [..|apply Forall_nil_2]; try apply N.mod_lt; try lia. apply N.Div0.div_lt_upper_bound. lia.
  - cbn [andb]. apply Forall_cons_2; [by split | apply Forall_nil_2].
Qed.
Lemma concat_printable ls : Forall printable ls → printable (concat ls).
Proof. induction 1 as [|l ls Hl _ IH]; [constructor | by apply printable_app]. Qed.
Lemma dump_str_printable s : Forall scalar s → printable (dump_str false s).
Proof.
  intros Hs. unfold dump_str. apply printable_app; [ascii_text|]. apply printable_app; [|ascii_text].
  apply concat_printable, Forall_fmap. eapply Forall_impl; [exact Hs | exact escape_printable].
Qed.
Lemma join_printable ls : Forall printable ls → printable (join_with [44; 32] ls).
Proof.
  induction 1 as [|l ls Hl Hls IH]; [constructor|]. destruct ls; [exact Hl|]. cbn [join_with].
  apply printable_app; [exact Hl|]. apply printable_app; [ascii_text | exact IH].
Qed.
Lemma digits_printable s : Forall (λ c, 48 <= c < 58) s → printable s.
Proof. intros Hs. apply ascii_printable. eapply Forall_impl; [exact Hs|]. unfold ascii_char. cbn. lia. Qed.
Lemma str_of_Z_printable z : printable (str_of_Z z).
Proof.
  unfold str_of_Z. destruct (z <? 0)%Z; [apply (printable_app [45]); [ascii_text|]|]; apply digits_printable, str_of_N_range.
Qed.
Lemma float_printable s : float_lexeme s → printable s.
Proof.
  intros (minus & ip & frac & exp & -> & Hm & Hi & Hf & He & _). repeat apply printable_app.
  - destruct Hm as [->| ->]; ascii_text.
  - destruct Hi as [->|(c & d & -> & Hc & Hd)]; [ascii_text|]. apply digits_printable. constructor; [lia | exact Hd].
  - destruct Hf as [->|(c & d & -> & Hd)]; [constructor|]. apply (printable_app [46]); [ascii_text | by apply digits_printable].
  - destruct He as [->|(e & sign & c & d & -> & He & Hs & Hd)]; [constructor|].
    apply (printable_app [e]); [destruct He as [->| ->]; ascii_text|].
    apply printable_app; [|by apply digits_printable]. destruct Hs as [->|[->| ->]]; ascii_text.
Qed.

(** A dump holds no line break, whatever text is in it. *)
Lemma dumps_printable j : json_ok j → printable (json_dumps false j).
Proof.
  induction j as [|b|z|s|s|l IH|l IH] using json_rect_nested; intros Hok.
  - ascii_text.
  - destruct b; ascii_text.
  - apply str_of_Z_printable.
  - by apply float_printable.
  - by apply dump_str_printable.
  - cbn [json_ok] in Hok. apply Forall_all in Hok. cbn [json_dumps].
    apply printable_app; [ascii_text|]. apply printable_app; [|ascii_text]. apply join_printable, Forall_fmap.
    clear -IH Hok. induction IH as [|x l Hx _ IHl]; [constructor|]. apply Forall_cons in Hok as [Hok Hl]. constructor; auto.
  - destruct Hok as [_ Hok]. apply Forall_all in Hok. cbn [json_dumps].
    apply printable_app; [ascii_text|]. apply printable_app; [|ascii_text]. apply join_printable, Forall_fmap.
    clear -IH Hok. induction IH as [|x l Hx _ IHl]; [constructor|]. apply Forall_cons in Hok as [[Hk Hok] Hl].
    constructor; [|by apply IHl]. apply printable_app; [by apply dump_str_printable|].
    apply printable_app; [ascii_text | by apply Hx].
Qed.

(** The newline byte is in no other character. *)
Lemma newline_byte a x : 128 <= a → n_byte 10 ≠ n_byte (a + x).
Proof.
  intros Ha. assert (128 <= a + x) as Hk by lia. generalize dependent (a + x). intros k Hk E. destruct (N.lt_ge_cases k 256) as [Hb|Hb].
  - apply (f_equal byte_n) in E. rewrite !byte_n_of in E by lia. lia.
  - unfold n_byte at 2 in E. destruct (Byte.of_N k) eqn:Ek; [|discriminate].
    apply Byte.to_of_N in Ek. pose proof (byte_n_range b) as Hr. unfold byte_n in Hr. lia.
Qed.
Lemma newline_char c b : utf8_char c = Ok b → n_byte 10 ∈ b → c = 10.
Proof.
  intros Hb Hin. unfold utf8_char in Hb. destruct (N.ltb_spec c 128).
  { injection Hb as <-. apply list_elem_of_singleton in Hin. apply (f_equal byte_n) in Hin. rewrite !byte_n_of in Hin by lia. done. }
  exfalso. enough (Forall (λ x, n_byte 10 ≠ x) b) as Hall by (rewrite Forall_forall in Hall; by apply (Hall _ Hin)).
  repeat res_case_in Hb; try discriminate; injection Hb as <-;
    rewrite ?Forall_cons; repeat split; try (apply newline_byte; lia); apply Forall_nil_2.
Qed.

Lemma encode_replace_scalar s : Forall scalar s → utf8_encode s = Ok (utf8_encode_replace s).
Proof.
  induction s as [|c s IH]; intros Hs; [done|]. pose proof Hs as [Hc Hs']%Forall_cons. cbn [utf8_encode]. rewrite IH by done.
  destruct (utf8_encode_scalar [c]) as (b & Eb & _); [by constructor|]. cbn [utf8_encode] in Eb. unfold utf8_encode_replace.
  cbn [map concat]. destruct (utf8_char c); [done | discriminate].
Qed.
Lemma encode_replace_newline s : 10 ∉ s → n_byte 10 ∉ utf8_encode_replace s.
Proof.
  intros Hs Hin. unfold utf8_encode_replace in Hin. apply list_elem_of_In, in_concat in Hin as (b & Hb & Hin).
  apply in_map_iff in Hb as (c & <- & Hc). apply Hs. apply list_elem_of_In. apply list_elem_of_In in Hin.
  destruct (utf8_char c) as [b|e] eqn:E.
  - by rewrite <- (newline_char c b E Hin).
  - apply list_elem_of_singleton in Hin. apply (f_equal byte_n) in Hin. rewrite !byte_n_of in Hin by lia. discriminate.
Qed.

(** ** Properties *)

(** What a service logs: text without lone surrogates, and values that JSON has. *)
Definition log_ok (r : LogRecord) : Prop :=
  Forall scalar (lr_levelname r) ∧ Forall scalar (lr_name r) ∧ Forall scalar (lr_message r)
  ∧ from_option (Forall scalar) True (lr_exception r) ∧ ∀ k v, lr_attribute r k = Some v → json_ok v.

Lemma extra_names keys r : (extra_items keys r).*1 ⊆ keys.
Proof.
  intros k ([k' v] & -> & Hin)%list_elem_of_fmap. apply list_elem_of_omap in Hin as (key & Hin & E).
  destruct (lr_attribute r key) as [w|]; [|discriminate]. destruct (is_none w); [discriminate|]. by injection E as <- <-.
Qed.
Lemma extra_NoDup keys r : NoDup keys → NoDup (extra_items keys r).*1.
Proof.
  induction 1 as [|k keys Hk _ IH]; [constructor|]. cbn [extra_items omap list_omap]. fold (extra_items keys r).
  destruct (lr_attribute r k) as [v|]; [|exact IH]. destruct (is_none v); [exact IH|]. cbn [fmap list_fmap fst].
  constructor; [|exact IH]. intros Hin. by apply extra_names in Hin.
Qed.

Definition own_names : list str := [u "ts"; u "level"; u "logger"; u "msg"; u "exception"].

Lemma own_apart k : k ∈ own_names → k ∉ EXTRA_KEYS.
Proof.
  intros Hk. assert (Forall (λ k, k ∉ EXTRA_KEYS) own_names) as Hall by (apply (bool_decide_eq_true_1 (Forall _ _)); vm_compute; reflexivity).
  rewrite Forall_forall in Hall. by apply Hall.
Qed.

(** The names of the fields that are always there, and of the exception. *)
Definition base_items (ts : str) (r : LogRecord) : dict :=
  [(u "ts", JStr ts); (u "level", JStr (lr_levelname r)); (u "logger", JStr (lr_name r)); (u "msg", JStr (lr_message r))]
  ++ match lr_exception r with Some text => [(u "exception", JStr text)] | None => [] end.
Lemma base_names ts r : (base_items ts r).*1 ⊆ own_names ∧ NoDup (base_items ts r).*1.
Proof.
  unfold base_items. destruct (lr_exception r); cbn [app fmap list_fmap fst]; split.
  - done.
  - apply (bool_decide_eq_true_1 (NoDup _)). vm_compute. reflexivity.
  - intros k Hk. change own_names with ([u "ts"; u "level"; u "logger"; u "msg"] ++ [u "exception"]).
    apply elem_of_app. left. exact Hk.
  - apply (bool_decide_eq_true_1 (NoDup _)). vm_compute. reflexivity.
Qed.

Lemma name_scalar (s : str) : scalar_b s = true → Forall scalar s.
Proof. apply scalar_b_spec. Qed.

Lemma text_item k s : scalar_b k = true → Forall scalar s → Forall scalar (k, JStr s).1 ∧ json_ok (k, JStr s).2.
Proof. intros Hk Hs. split; [exact (name_scalar k Hk) | exact Hs]. Qed.

Lemma payload_ok ts keys r : Forall scalar ts → (keys ≡ₚ EXTRA_KEYS) → log_ok r → json_ok (JObj (log_payload ts keys r)).
Proof.
  intros Hts Hkeys (H1 & H2 & H3 & H4 & H5). cbn [json_ok].
  unfold log_payload. rewrite app_assoc. fold (base_items ts r). destruct (base_names ts r) as [Hsub Hnd]. split.
  - rewrite map_app. apply NoDup_app. split; [exact Hnd|]. split.
    + intros k Hk Hin. apply Hsub, own_apart in Hk. apply Hk. rewrite <- Hkeys. by apply extra_names in Hin.
    + apply extra_NoDup. rewrite Hkeys. apply (bool_decide_eq_true_1 (NoDup _)). vm_compute. reflexivity.
  - apply Forall_all, Forall_app_2.
    + unfold base_items. apply Forall_app_2.
      * apply Forall_cons_2; [exact (text_item (u "ts") _ eq_refl Hts)|]. apply Forall_cons_2; [exact (text_item (u "level") _ eq_refl H1)|].
        apply Forall_cons_2; [exact (text_item (u "logger") _ eq_refl H2)|]. apply Forall_cons_2; [exact (text_item (u "msg") _ eq_refl H3)|].
        apply Forall_nil_2.
      * destruct (lr_exception r); [|apply Forall_nil_2].
        apply Forall_cons_2; [exact (text_item (u "exception") _ eq_refl H4) | apply Forall_nil_2].
    + apply Forall_forall. intros [k v] Hin. apply list_elem_of_omap in Hin as (key & Hin & E).
      destruct (lr_attribute r key) as [w|] eqn:Ew; [|discriminate]. destruct (is_none w); [discriminate|]. injection E as <- <-.
      split; [|by eapply H5]. rewrite Hkeys in Hin.
      assert (Forall (λ k, scalar_b k = true) EXTRA_KEYS) as Hall by (apply (bool_decide_eq_true_1 (Forall _ _)); vm_compute; reflexivity).
      rewrite Forall_forall in Hall. by apply name_scalar, Hall.
Qed.

Lemma log_ok_service service r : Forall scalar service → log_ok r → log_ok (with_service service r).
Proof.
  intros Hs (H1 & H2 & H3 & H4 & H5). repeat split; try assumption. intros k v. cbn [lr_attribute with_service].
  destruct (bool_decide (k = u "service")); [intros [= <-]; exact Hs | apply H5].
Qed.

(** Fields by name: the fixed ones come first, the service is among the others. *)
Lemma dict_get_app k (a b : dict) :
  dict_get k (a ++ b) = match dict_get k a with Some v => Some v | None => dict_get k b end.
Proof. induction a as [|[k0 v0] a IH]; [done|]. cbn [app dict_get]. by destruct (bool_decide (k = k0)). Qed.
Lemma payload_service ts keys service r :
  u "service" ∈ keys → dict_get (u "service") (log_payload ts keys (with_service service r)) = Some (JStr service).
Proof.
  intros Hin. unfold log_payload. rewrite app_assoc, dict_get_app.
  assert (dict_get (u "service") (base_items ts (with_service service r)) = None) as Hbase.
  { unfold base_items. cbn [lr_exception with_service]. destruct (lr_exception r); vm_compute; reflexivity. }
  fold (base_items ts (with_service service r)). rewrite Hbase. clear Hbase.
  induction keys as [|k keys IH]; [by apply elem_of_nil in Hin|].
  cbn [extra_items omap list_omap]. fold (extra_items keys (with_service service r)). cbn [lr_attribute with_service].
  destruct (bool_decide (k = u "service")) eqn:E.
  - apply bool_decide_eq_true in E as ->. cbn [is_none dict_get]. by rewrite bool_decide_eq_true_2.
  - apply bool_decide_eq_false in E. apply elem_of_cons in Hin as [Hin|Hin]; [by symmetry in Hin|]. specialize (IH Hin).
    destruct (lr_attribute r k) as [v|]; [|exact IH]. destruct (is_none v); [exact IH|]. cbn [dict_get].
    rewrite bool_decide_eq_false_2; [exact IH|]. intros Hk. by apply E.
Qed.

Lemma line_read keys service ts r :
  (keys ≡ₚ EXTRA_KEYS) → Forall scalar service → Forall scalar ts → log_ok r →
  let line := utf8_encode_replace (format ts keys (with_service service r)) in
  n_byte 10 ∉ line ∧ ∃ text d, utf8_decode line = Ok text ∧ json_loads text = Ok (JObj d)
    ∧ dict_get (u "msg") d = Some (JStr (lr_message r)) ∧ dict_get (u "service") d = Some (JStr service).
Proof.
  intros Hkeys Hservice Hts Hr line.
  pose proof (payload_ok ts keys _ Hts Hkeys (log_ok_service service r Hservice Hr)) as Hok.
  pose proof (dumps_printable _ Hok) as Hp. fold (format ts keys (with_service service r)) in Hp. split.
  - apply encode_replace_newline. intros Hin. unfold printable in Hp. rewrite Forall_forall in Hp. destruct (Hp _ Hin). lia.
  - assert (Forall scalar (format ts keys (with_service service r))) as Hs by (eapply Forall_impl; [exact Hp|]; by intros c []).
    destruct (utf8_encode_scalar _ Hs) as (b & Eb & Ed). rewrite (encode_replace_scalar _ Hs) in Eb. injection Eb as <-.
    eexists _, _. split; [exact Ed|]. split; [by apply json_loads_dumps|]. split.
    + unfold log_payload. cbn [app dict_get]. vm_compute. reflexivity.
    + apply payload_service. rewrite Hkeys. unfold EXTRA_KEYS. rewrite !elem_of_cons. auto.
Qed.

Lemma encode_line s : utf8_encode_replace (s ++ [10]) = utf8_encode_replace s ++ [n_byte 10].
Proof. unfold utf8_encode_replace. by rewrite map_app, concat_app. Qed.

Lemma split_lines (ls : list bytes) :
  Forall (λ l, n_byte 10 ∉ l) ls → split_on (n_byte 10) (concat (map (λ l, l ++ [n_byte 10]) ls)) = ls ++ [[]].
Proof.
  induction 1 as [|l ls Hl _ IH]; [done|]. cbn [map concat]. rewrite <- app_assoc. cbn [app]. by rewrite split_on_app, IH.
Qed.

(** The log is one record per line, whatever text the records carry. What a
    service writes to its standard error splits at the newlines into as many lines
    as it logged records, and each line is read back as the JSON object of its
    record, with the message as it was and the name of the service: no message can
    forge a record or hide one. *)
Theorem log_stream_readable (extra_keys : list str) (service : str) (records : list (str * LogRecord)) :
  (extra_keys ≡ₚ EXTRA_KEYS) → Forall scalar service → Forall (λ r, Forall scalar r.1 ∧ log_ok r.2) records →
  ∃ lines, split_on (n_byte 10) (emit_all extra_keys service records []).2 = lines ++ [[]]
    ∧ Forall2 (λ line r, ∃ text d, utf8_decode line = Ok text ∧ json_loads text = Ok (JObj d)
        ∧ dict_get (u "msg") d = Some (JStr (lr_message r.2)) ∧ dict_get (u "service") d = Some (JStr service)) lines records.
Proof.
  intros Hkeys Hservice Hall.
  enough (∃ lines, (∀ fd, (emit_all extra_keys service records fd).2 = fd ++ concat (map (λ l, l ++ [n_byte 10]) lines))
    ∧ Forall (λ l, n_byte 10 ∉ l) lines ∧ Forall2 (λ line r, ∃ text d, utf8_decode line = Ok text ∧ json_loads text = Ok (JObj d)
        ∧ dict_get (u "msg") d = Some (JStr (lr_message r.2)) ∧ dict_get (u "service") d = Some (JStr service)) lines records)
    as (lines & Hout & Hno & Hread).
  { exists lines. split; [|exact Hread]. rewrite Hout. cbn [app]. by apply split_lines. }
  induction Hall as [|[ts r] rest [Hts Hr] _ (lines & Hout & Hno & Hread)]; [exists []; split; [intros fd; by rewrite app_nil_r | by repeat constructor]|].
  destruct (line_read extra_keys service ts r Hkeys Hservice Hts Hr) as (Hnl & text & d & Hd).
  exists (utf8_encode_replace (format ts extra_keys (with_service service r)) :: lines). split; [|split].
  - intros fd. cbn [emit_all]. rewrite io_bind_run. unfold emit, io_modify at 1. rewrite Hout. rewrite encode_line. cbn [map concat].
    by rewrite !app_assoc.
  - by constructor.
  - constructor; [by exists text, d | exact Hread].
Qed.

(** A message with a line break and the beginning of another record in it. *)
Definition forged : LogRecord := {|
  lr_levelname := u "WARNING"; lr_name := u "rdpproxy.portal"; lr_message := u "no such user" ++ [10] ++ u "{ts: 0}";
  lr_exception := None; lr_attribute := λ _, None |}.
Lemma log_stream_readable_witness :
  ∃ lines, split_on (n_byte 10) (emit_all EXTRA_KEYS (u "portal") [(u "2026-03-30T11:38:36", forged)] []).2 = lines ++ [[]]
    ∧ Forall2 (λ line r, ∃ text d, utf8_decode line = Ok text ∧ json_loads text = Ok (JObj d)
        ∧ dict_get (u "msg") d = Some (JStr (lr_message r.2)) ∧ dict_get (u "service") d = Some (JStr (u "portal")))
      lines [(u "2026-03-30T11:38:36", forged)].
Proof.
  apply (log_stream_readable EXTRA_KEYS (u "portal") [(u "2026-03-30T11:38:36", forged)]).
  - reflexivity.
  - apply scalar_b_spec. vm_compute. reflexivity.
  - apply Forall_singleton. split; [apply scalar_b_spec; vm_compute; reflexivity|].
    repeat split; try (apply scalar_b_spec; vm_compute; reflexivity). discriminate.
Defined.
Close Scope N_scope.
