(* ===== verification/Sockets.v ===== *)
(** The socket helpers of the relay, [services/rdp_relay/tcp_utils.py]: the options
    of keep-alive and of the buffers, the marks of the write buffer, and the abort
    that ends a connection. *)

From stdpp Require Import prelude gmap list strings.
From Stdlib Require Import ZArith Lia.
From S2P Require Import Prelude.

Open Scope Z_scope.

Inductive sockopt : Type :=
  SO_KEEPALIVE | TCP_KEEPIDLE | TCP_KEEPINTVL | TCP_KEEPCNT | TCP_USER_TIMEOUT | SO_SNDBUF | SO_RCVBUF | TCP_NODELAY.
#[export] Instance sockopt_eq_dec : EqDecision sockopt.
Proof. solve_decision. Defined.

Definition SOCK_BUF_SIZE : Z := 512 * 1024.

(** A writer over its transport. [platform]: [hasattr(socket, name)]; setting an
    option, the marks and the abort are calls that may raise. *)
Class Transport (S : Type) : Type := {
  platform : sockopt → bool;
  has_socket : S → bool;
  setsockopt : sockopt → Z → io S unit;
  set_write_buffer_limits : Z → Z → io S unit;
  transport_abort : io S unit;
  writer_close : io S unit;
}.

Section Helpers.
Context {S : Type} `{Transport S}.

Definition if_platform (o : sockopt) (v : Z) : io S unit := if platform o then setsockopt o v else mret tt.

Definition keepalive_options : io S unit :=
  _ ← setsockopt SO_KEEPALIVE 1;
  _ ← if_platform TCP_KEEPIDLE 30;
  _ ← if_platform TCP_KEEPINTVL 10;
  _ ← if_platform TCP_KEEPCNT 3;
  if_platform TCP_USER_TIMEOUT 45000.
Definition buffer_options : io S unit :=
  _ ← setsockopt SO_SNDBUF SOCK_BUF_SIZE;
  _ ← setsockopt SO_RCVBUF SOCK_BUF_SIZE;
  if_platform TCP_NODELAY 1.

(** What raises is logged. *)
Definition logged (m : io S unit) : io S unit := io_try m (λ _, mret tt).

Definition configure_tcp_keepalive : io S unit :=
  s ← io_get;
  if negb (has_socket s) then mret tt else _ ← logged keepalive_options; logged buffer_options.

Definition tune_writer_buffers (high_water low_water : Z) : io S unit := logged (set_write_buffer_limits high_water low_water).

Definition abort_writer : io S unit := io_try transport_abort (λ _, logged writer_close).
End Helpers.

(** A socket: an option is set, or refused with nothing changed; the one that has
    been aborted or closed is gone. *)
Class TransportLaws (S : Type) `{Transport S} : Type := {
  option_of : S → sockopt → option Z;
  gone : S → bool;
  setsockopt_law o v s :
    (∃ s', setsockopt o v s = (Ok tt, s') ∧ option_of s' o = Some v ∧ (∀ o', o' ≠ o → option_of s' o' = option_of s o')
       ∧ has_socket s' = has_socket s)
    ∨ ∃ e, setsockopt o v s = (Err e, s);
  abort_law s : (∃ s', transport_abort s = (Ok tt, s') ∧ gone s' = true) ∨ ∃ e, transport_abort s = (Err e, s);
  close_law s : (∃ s', writer_close s = (Ok tt, s') ∧ gone s' = true) ∨ ∃ e, writer_close s = (Err e, s);
}.

(** ** Lemmas *)

(** What a sequence of settings leaves: a run up to the first refusal. *)
Section OptionLaws.
Context {S : Type} `{TransportLaws S}.
Implicit Types (s : S).

(** The options a helper asks for, in their order. *)
Fixpoint set_all (l : list (sockopt * Z)) : io S unit :=
  match l with [] => mret tt | (o, v) :: l' => _ ← setsockopt o v; set_all l' end.
Definition asked (l : list (sockopt * Z * bool)) : list (sockopt * Z) :=
  omap (λ x, if x.2 || platform x.1.1 then Some x.1 else None) l.

Definition keepalive_list : list (sockopt * Z * bool) := [
  (SO_KEEPALIVE, 1, true); (TCP_KEEPIDLE, 30, false); (TCP_KEEPINTVL, 10, false); (TCP_KEEPCNT, 3, false); (TCP_USER_TIMEOUT, 45000, false)].
Definition buffer_list : list (sockopt * Z * bool) := [
  (SO_SNDBUF, SOCK_BUF_SIZE, true); (SO_RCVBUF, SOCK_BUF_SIZE, true); (TCP_NODELAY, 1, false)].

Lemma bind_last (m : io S unit) s : (_ ← m; mret tt) s = m s.
Proof. rewrite io_bind_run. destruct (m s) as [[[]|e] s']; done. Qed.

Lemma asked_cons x l s : set_all (asked (x :: l)) s = (_ ← (if x.2 then setsockopt x.1.1 x.1.2 else if_platform x.1.1 x.1.2); set_all (asked l)) s.
Proof.
  destruct x as [[o v] b]. unfold asked, if_platform. cbn [omap list_omap fst snd].
  destruct b; [done|]. cbn [orb]. by destruct (platform o).
Qed.

Lemma io_bind_ext {A B} (m : io S A) (f g : A → io S B) s : (∀ a s, f a s = g a s) → (a ← m; f a) s = (a ← m; g a) s.
Proof. intros E. rewrite !io_bind_run. destruct (m s) as [[a|e] s']; [apply E | done]. Qed.

Lemma asked_last x s : set_all (asked [x]) s = (if x.2 then setsockopt x.1.1 x.1.2 else if_platform x.1.1 x.1.2) s.
Proof. rewrite asked_cons. exact (bind_last _ s). Qed.

Lemma keepalive_set_all s : keepalive_options s = set_all (asked keepalive_list) s.
Proof.
  unfold keepalive_options, keepalive_list. symmetry.
  do 4 (rewrite asked_cons; apply io_bind_ext; clear s; intros [] s). apply asked_last.
Qed.
Lemma buffer_set_all s : buffer_options s = set_all (asked buffer_list) s.
Proof.
  unfold buffer_options, buffer_list. symmetry.
  do 2 (rewrite asked_cons; apply io_bind_ext; clear s; intros [] s). apply asked_last.
Qed.

(** On a socket that takes every option, all of them hold in the end, and
    what was set before and is not asked for again still does. *)
Definition accepting : Prop := ∀ o v s, is_ok (setsockopt o v s).1 = true.

Lemma set_all_run (l : list (sockopt * Z)) s :
  accepting → NoDup l.*1 →
  ∃ s', set_all l s = (Ok tt, s') ∧ (∀ o v, (o, v) ∈ l → option_of s' o = Some v)
    ∧ (∀ o, o ∉ l.*1 → option_of s' o = option_of s o) ∧ has_socket s' = has_socket s.
Proof.
  intros Hacc. revert s. induction l as [|[o v] l IH]; intros s Hn.
  { exists s. split; [done|]. split; [intros o v Hin; by apply not_elem_of_nil in Hin | done]. }
  cbn [fmap list_fmap fst] in Hn. apply NoDup_cons in Hn as [Ho Hn].
  destruct (setsockopt_law o v s) as [(s1 & E & Hv & Hrest & Hs)|[e E]].
  2: { specialize (Hacc o v s). by rewrite E in Hacc. }
  destruct (IH s1 Hn) as (s' & E' & Hin & Hout & Hs'). exists s'. split; [cbn [set_all]; by rewrite io_bind_run, E|].
  split; [|split; [|by rewrite Hs']].
  - intros o' v' [[= -> ->]|Hl]%elem_of_cons; [by rewrite Hout | by apply Hin].
  - intros o'. cbn [fmap list_fmap fst]. rewrite not_elem_of_cons. intros [Hne Hl]. rewrite Hout by exact Hl. by apply Hrest.
Qed.

Lemma asked_fst l o : o ∈ (asked l).*1 → o ∈ (map fst l).*1.
Proof.
  unfold asked. intros (p & -> & Hp)%list_elem_of_fmap. apply list_elem_of_omap in Hp as (x & Hx & E).
  destruct (_ || _); [|done]. injection E as <-. apply list_elem_of_fmap. exists x.1. split; [done|].
  apply list_elem_of_In, in_map, list_elem_of_In, Hx.
Qed.
Lemma NoDup_asked l : NoDup (map fst l).*1 → NoDup (asked l).*1.
Proof.
  induction l as [|x l IH]; intros Hn; [constructor|]. cbn [map fmap list_fmap] in Hn. apply NoDup_cons in Hn as [Hx Hn].
  unfold asked. cbn [omap list_omap]. fold (asked l). destruct (_ || _); [|by apply IH].
  cbn [fmap list_fmap]. apply NoDup_cons. split; [|by apply IH]. intros Hin. by apply Hx, asked_fst.
Qed.

Lemma logged_ok (m : io S unit) s : ∃ s', logged m s = (Ok tt, s').
Proof. unfold logged, io_try. destruct (m s) as [[[]|e] s']; by eexists. Qed.
End OptionLaws.

(** ** Properties *)

(** Tuning a connection never stops it: no helper raises, whatever the
    socket refuses. A socket that takes its options has all of them in the end -
    keep-alive every 10 s after 30 s, a limit of 45 s for what is not
    acknowledged, buffers of 512 KiB, and no delay - as far as the platform knows
    them; a refusal among the keep-alive options does not keep the buffers from
    being set. The abort ends the connection unless both the transport and the
    writer refuse. *)
Theorem sockets_tuned {S : Type} `{TransportLaws S} (high low : Z) (s : S) :
  (∃ s1 s2 s3, configure_tcp_keepalive s = (Ok tt, s1) ∧ tune_writer_buffers high low s = (Ok tt, s2) ∧ abort_writer s = (Ok tt, s3)
     ∧ (gone s3 = true ∨ ∃ e e', transport_abort s = (Err e, s) ∧ writer_close s = (Err e', s)))
  ∧ (has_socket s = true → accepting → ∃ s', configure_tcp_keepalive s = (Ok tt, s')
       ∧ ∀ o v b, (o, v, b) ∈ keepalive_list ++ buffer_list → b || platform o = true → option_of s' o = Some v)
  ∧ (has_socket s = true → ∀ e, keepalive_options s = (Err e, s) → configure_tcp_keepalive s = logged buffer_options s).
Proof.
  split; [|split].
  - assert (∃ s1, configure_tcp_keepalive s = (Ok tt, s1)) as [s1 E1].
    { unfold configure_tcp_keepalive. rewrite io_bind_run. unfold io_get. destruct (negb _); [by eexists|].
      rewrite io_bind_run. destruct (logged_ok keepalive_options s) as [s1 ->]. apply logged_ok. }
    destruct (logged_ok (set_write_buffer_limits high low) s) as [s2 E2].
    assert (∃ s3, abort_writer s = (Ok tt, s3) ∧ (gone s3 = true ∨ ∃ e e', transport_abort s = (Err e, s) ∧ writer_close s = (Err e', s))) as (s3 & E3 & G).
    { unfold abort_writer, io_try. destruct (abort_law s) as [(s3 & E & Hg)|[e E]]; rewrite E; [exists s3; split; [done | by left]|].
      unfold logged, io_try. destruct (close_law s) as [(s3 & Ec & Hg)|[e' Ec]]; rewrite Ec; [exists s3; split; [done | by left]|].
      exists s. split; [done|]. right. by exists e, e'. }
    exists s1, s2, s3. done.
  - intros Hs Hacc.
    destruct (set_all_run (asked keepalive_list) s Hacc) as (s1 & E1 & Hin1 & _ & _).
    { apply NoDup_asked. apply (bool_decide_eq_true_1 (NoDup _)). vm_compute. reflexivity. }
    destruct (set_all_run (asked buffer_list) s1 Hacc) as (s2 & E2 & Hin2 & Hout2 & _).
    { apply NoDup_asked. apply (bool_decide_eq_true_1 (NoDup _)). vm_compute. reflexivity. }
    exists s2. split.
    { unfold configure_tcp_keepalive. rewrite io_bind_run. unfold io_get. rewrite Hs. cbn [negb]. rewrite io_bind_run.
      unfold logged, io_try. rewrite keepalive_set_all, E1. cbv beta iota. by rewrite buffer_set_all, E2. }
    intros o v b Hl Hb.
    assert (∀ l, (o, v, b) ∈ l → (o, v) ∈ asked l) as Hask.
    { intros l Hin. apply list_elem_of_omap. exists (o, v, b). split; [exact Hin|]. cbn [fst snd]. by rewrite Hb. }
    apply elem_of_app in Hl as [Hl|Hl]; [|by apply Hin2, Hask].
    rewrite Hout2; [by apply Hin1, Hask|]. intros Hbuf%asked_fst.
    assert (o ∈ (map fst keepalive_list).*1) as Hk.
    { apply (list_elem_of_fmap_2 fst _ (o, v)). apply list_elem_of_In. apply (in_map fst _ (o, v, b)). by apply list_elem_of_In. }
    assert (Forall (λ o, o ∉ (map fst buffer_list).*1) (map fst keepalive_list).*1) as Hd by (apply (bool_decide_eq_true_1 (Forall _ _)); vm_compute; reflexivity).
    rewrite Forall_forall in Hd. by apply (Hd o Hk).
  - intros Hs e E. unfold configure_tcp_keepalive. rewrite io_bind_run. unfold io_get. rewrite Hs. cbn [negb].
    rewrite io_bind_run. unfold logged at 1, io_try. by rewrite E.
Qed.
Close Scope Z_scope.
