(* ===== verification/Encodings.v ===== *)
(** The text encodings of the standard library that the program uses: [base64]
    (standard and URL-safe), hexadecimal, and [secrets.token_urlsafe] and
    [token_hex] over the random bytes they draw. *)

From stdpp Require Import prelude list.
From Stdlib Require Import ZArith Lia.
From S2P Require Import Prelude PySeq PyBytes PyStr.

Open Scope N_scope.

(** ** Base64 *)

Definition b64_char (v : N) : N :=
  if v <? 26 then 65 + v else if v <? 52 then 71 + v else if v <? 62 then v - 4
  else if v =? 62 then 43 else 47.

Definition b64_value (c : N) : option N :=
  if (65 <=? c) && (c <=? 90) then Some (c - 65)
  else if (97 <=? c) && (c <=? 122) then Some (c - 71)
  else if (48 <=? c) && (c <=? 57) then Some (c + 4)
  else if c =? 43 then Some 62 else if c =? 47 then Some 63 else None.

(** The sextets of the input, in groups of four; a short group is padded. *)
Fixpoint b64_groups (l : bytes) : str * nat :=
  match l with
  | a :: b :: c :: l' =>
      let a := byte_n a in let b := byte_n b in let c := byte_n c in
      let '(r, pad) := b64_groups l' in
      (a / 4 :: (a mod 4) * 16 + b / 16 :: (b mod 16) * 4 + c / 64 :: c mod 64 :: r, pad)
  | [a; b] =>
      let a := byte_n a in let b := byte_n b in
      ([a / 4; (a mod 4) * 16 + b / 16; (b mod 16) * 4], 1%nat)
  | [a] => let a := byte_n a in ([a / 4; (a mod 4) * 16], 2%nat)
  | [] => ([], 0%nat)
  end.

(** [base64.b64encode(l).decode("ascii")] *)
Definition b64_encode (l : bytes) : str :=
  let '(g, pad) := b64_groups l in map b64_char g ++ replicate pad 61.

(** [base64.b64decode(s)] over the characters of [s]: characters outside the
    alphabet are skipped, and padding ends the data; [None] is
    [binascii.Error], a [ValueError]. *)
Fixpoint b64_decode_go (s : str) (quad left pads : N) : option bytes :=
  match s with
  | [] => if quad =? 0 then Some [] else None
  | c :: s' =>
      if c =? 61 then
        if 2 <=? quad then
          if 4 <=? quad + (pads + 1) then Some [] else b64_decode_go s' quad left (pads + 1)
        else b64_decode_go s' quad left pads
      else
        match b64_value c with
        | None => b64_decode_go s' quad left pads
        | Some v =>
            if quad =? 0 then b64_decode_go s' 1 v 0
            else if quad =? 1 then
              cons (n_byte (left * 4 + v / 16)) <$> b64_decode_go s' 2 (v mod 16) 0
            else if quad =? 2 then
              cons (n_byte (left * 16 + v / 4)) <$> b64_decode_go s' 3 (v mod 4) 0
            else cons (n_byte (left * 64 + v)) <$> b64_decode_go s' 0 0 0
        end
  end.

(** [base64.b64decode(s.encode("ascii"))] *)
Definition b64_decode (s : str) : res bytes :=
  if forallb (λ c, c <? 128) s then b64_decode_go s 0 0 0 ?? ValueError
  else Err UnicodeError.

Definition urlsafe_char (v : N) : N :=
  if v =? 62 then 45 else if v =? 63 then 95 else b64_char v.

(** [secrets.token_urlsafe(n)], from the [n] bytes it draws. *)
Definition token_urlsafe (random : bytes) : str := map urlsafe_char (b64_groups random).1.

(** ** Hexadecimal *)

Definition hex_char (v : N) : N := if v <? 10 then 48 + v else 87 + v.

(** [l.hex()] *)
Definition hex_of (l : bytes) : str :=
  concat (map (λ b, [hex_char (byte_n b / 16); hex_char (byte_n b mod 16)]) l).

(** [secrets.token_hex(n)], from the [n] bytes it draws. *)
Definition token_hex (random : bytes) : str := hex_of random.

Definition hex_digit_value (c : N) : option N :=
  if (48 <=? c) && (c <=? 57) then Some (c - 48)
  else if (97 <=? c) && (c <=? 102) then Some (c - 87)
  else if (65 <=? c) && (c <=? 70) then Some (c - 55)
  else None.

(** [bytes.fromhex(s)]: ASCII space may separate the pairs. *)
Fixpoint bytes_fromhex (s : str) : res bytes :=
  match s with
  | [] => Ok []
  | c :: s1 =>
      if ((9 <=? c) && (c <=? 13)) || (c =? 32) then bytes_fromhex s1
      else
        match s1 with
        | [] => Err ValueError
        | d :: s2 =>
            match hex_digit_value c, hex_digit_value d with
            | Some h, Some l => r ← bytes_fromhex s2; Ok (n_byte (h * 16 + l) :: r)
            | _, _ => Err ValueError
            end
        end
  end.

(** ** Lemmas *)

Lemma small_cases (n : N) (k : nat) (P : N → Prop) :
  n < N.of_nat k → Forall P (map N.of_nat (seq 0 k)) → P n.
Proof.
  intros Hn HF. rewrite Forall_forall in HF. apply HF.
  rewrite <- (N2Nat.id n). apply list_elem_of_fmap_2. apply elem_of_seq. lia.
Qed.

Lemma b64_value_char v : v < 64 → b64_value (b64_char v) = Some v ∧ (b64_char v =? 61) = false.
Proof.
  intros H. apply (small_cases v 64 (λ v, b64_value (b64_char v) = Some v ∧ _ = false) H).
  repeat constructor.
Qed.

Lemma b64_go_char v s quad left pads :
  v < 64 →
  b64_decode_go (b64_char v :: s) quad left pads
  = if quad =? 0 then b64_decode_go s 1 v 0
    else if quad =? 1 then cons (n_byte (left * 4 + v / 16)) <$> b64_decode_go s 2 (v mod 16) 0
    else if quad =? 2 then cons (n_byte (left * 16 + v / 4)) <$> b64_decode_go s 3 (v mod 4) 0
    else cons (n_byte (left * 64 + v)) <$> b64_decode_go s 0 0 0.
Proof. intros H. destruct (b64_value_char v H) as [E1 E2]. cbn [b64_decode_go]. by rewrite E2, E1. Qed.

Lemma n_byte_eq b n : byte_n b = n → n_byte n = b.
Proof. intros <-. apply n_byte_of. Qed.

(** The sextets of three bytes, and the bytes of four sextets. *)
Lemma sextets a b :
  a < 256 → b < 256 →
  a / 4 < 64 ∧ (a mod 4) * 16 + b / 16 < 64 ∧ (b mod 16) * 4 < 61 ∧ b / 64 < 4 ∧ b mod 64 < 64
  ∧ a / 4 * 4 + ((a mod 4) * 16 + b / 16) / 16 = a
  ∧ ((a mod 4) * 16 + b / 16) mod 16 = b / 16
  ∧ b / 16 * 16 + b mod 16 = b ∧ b / 64 * 64 + b mod 64 = b
  ∧ ∀ c, c < 4 → ((b mod 16) * 4 + c) / 4 = b mod 16 ∧ ((b mod 16) * 4 + c) mod 4 = c.
Proof.
  intros Ha Hb.
  pose proof (N.div_mod a 4 ltac:(lia)). pose proof (N.mod_lt a 4 ltac:(lia)).
  pose proof (N.div_mod b 16 ltac:(lia)). pose proof (N.mod_lt b 16 ltac:(lia)).
  pose proof (N.div_mod b 64 ltac:(lia)). pose proof (N.mod_lt b 64 ltac:(lia)).
  assert (b / 16 < 16) as Hb16 by by apply N.Div0.div_lt_upper_bound.
  assert (b / 64 < 4) by by apply N.Div0.div_lt_upper_bound.
  assert (a / 4 < 64) by by apply N.Div0.div_lt_upper_bound.
  rewrite !(N.add_comm (_ * 16)), N.div_add, N.Div0.mod_add by lia.
  rewrite (N.div_small (b / 16)), (N.mod_small (b / 16)) by done.
  repeat (split; [lia|]). intros c Hc.
  rewrite !(N.add_comm (_ * 4)), N.div_add, N.Div0.mod_add by lia.
  rewrite (N.div_small c), (N.mod_small c) by done. done.
Qed.

Lemma b64_decode_encode_go l : b64_decode_go (b64_encode l) 0 0 0 = Some l.
Proof.
  unfold b64_encode. revert l. fix IH 1. intros [|a [|b [|c l]]].
  - reflexivity.
  - pose proof (byte_n_range a) as Ha. pose proof (n_byte_eq a) as Ea.
    destruct (sextets (byte_n a) 0 Ha ltac:(lia)) as (H1 & H2 & _ & _ & _ & H3 & _).
    change (0 / 16) with 0 in *. rewrite N.add_0_r in *.
    cbn [b64_groups map app replicate]. rewrite !b64_go_char by done. cbn [N.eqb Pos.eqb].
    rewrite H3, Ea by done. reflexivity.
  - pose proof (byte_n_range a) as Ha. pose proof (byte_n_range b) as Hb.
    pose proof (n_byte_eq a) as Ea. pose proof (n_byte_eq b) as Eb.
    destruct (sextets (byte_n a) (byte_n b) Ha Hb)
      as (H1 & H2 & H3 & _ & _ & H4 & H5 & H6 & _ & H7).
    destruct (H7 0 ltac:(lia)) as [H8 _]. rewrite N.add_0_r in H8.
    cbn [b64_groups map app replicate]. rewrite !b64_go_char by lia. cbn [N.eqb Pos.eqb].
    rewrite H4, H5, H8, H6, Ea, Eb by done. reflexivity.
  - pose proof (byte_n_range a) as Ha. pose proof (byte_n_range b) as Hb.
    pose proof (byte_n_range c) as Hc.
    pose proof (n_byte_eq a) as Ea. pose proof (n_byte_eq b) as Eb. pose proof (n_byte_eq c) as Ec.
    destruct (sextets (byte_n a) (byte_n b) Ha Hb)
      as (H1 & H2 & H3 & _ & _ & H4 & H5 & H6 & _ & H7).
    destruct (sextets (byte_n b) (byte_n c) Hb Hc) as (_ & _ & _ & G1 & G2 & _ & _ & _ & G3 & _).
    destruct (H7 (byte_n c / 64) G1) as [H8 H9].
    cbn [b64_groups]. specialize (IH l). destruct (b64_groups l) as [g pad].
    cbn [map app]. rewrite !b64_go_char by lia. cbn [N.eqb Pos.eqb].
    rewrite H4, H5, H8, H9, H6, G3, Ea, Eb, Ec, IH by done. reflexivity.
Qed.

Lemma b64_groups_range l : Forall (λ v, v < 64) (b64_groups l).1.
Proof.
  revert l. fix IH 1. intros [|a [|b [|c l]]]; cbn [b64_groups].
  - constructor.
  - destruct (sextets (byte_n a) 0 (byte_n_range a) ltac:(lia)) as (H1 & H2 & _).
    change (0 / 16) with 0 in *. rewrite N.add_0_r in *. by repeat constructor.
  - destruct (sextets (byte_n a) (byte_n b) (byte_n_range a) (byte_n_range b)) as (H1 & H2 & H3 & _).
    repeat constructor; lia.
  - destruct (sextets (byte_n a) (byte_n b) (byte_n_range a) (byte_n_range b)) as (H1 & H2 & H3 & _).
    destruct (sextets (byte_n b) (byte_n c) (byte_n_range b) (byte_n_range c)) as (_ & _ & _ & G1 & G2 & _).
    specialize (IH l). destruct (b64_groups l) as [g pad]. simpl in *.
    repeat (constructor; [lia|]). exact IH.
Qed.

Lemma b64_encode_ascii l : Forall (λ c, c < 128) (b64_encode l).
Proof.
  unfold b64_encode. pose proof (b64_groups_range l) as Hr.
  destruct (b64_groups l) as [g pad]. simpl in Hr. apply Forall_app. split.
  - apply Forall_fmap. eapply Forall_impl; [exact Hr|]. intros v Hv.
    apply (small_cases v 64 (λ v, b64_char v < 128) Hv). by repeat constructor.
  - by apply Forall_replicate.
Qed.

(** [b64decode(b64encode(l)) == l]. *)
Lemma b64_decode_encode l : b64_decode (b64_encode l) = Ok l.
Proof.
  unfold b64_decode.
  replace (forallb (λ c, c <? 128) (b64_encode l)) with true.
  - by rewrite b64_decode_encode_go.
  - symmetry. apply forallb_forall. intros c Hc. apply N.ltb_lt.
    pose proof (b64_encode_ascii l) as Ha. rewrite List.Forall_forall in Ha. by apply Ha.
Qed.

(** The alphabet of [token_urlsafe]. *)
Definition is_token_char (c : N) : bool :=
  ((48 <=? c) && (c <=? 57)) || ((65 <=? c) && (c <=? 90)) || ((97 <=? c) && (c <=? 122))
  || (c =? 95) || (c =? 45).

Lemma token_urlsafe_chars random :
  Forall (λ c, is_token_char c = true) (token_urlsafe random).
Proof.
  apply Forall_fmap. eapply Forall_impl; [apply b64_groups_range|]. intros v Hv.
  apply (small_cases v 64 (λ v, is_token_char (urlsafe_char v) = true) Hv).
  by repeat constructor.
Qed.

Lemma token_urlsafe_length random :
  length random = 32%nat → length (token_urlsafe random) = 43%nat.
Proof.
  intros H. unfold token_urlsafe. rewrite length_map.
  do 33 (destruct random as [|? random]; try (simpl in H; lia)). reflexivity.
Qed.

Lemma token_char_spec c : is_token_char c = true → 45 <= c < 123 ∧ c ≠ 58.
Proof.
  unfold is_token_char.
  rewrite !orb_true_iff, !andb_true_iff, !N.leb_le, !N.eqb_eq. lia.
Qed.
Close Scope N_scope.
