(* ===== verification/Sha256.v ===== *)
(** [hashlib.sha256] and [hmac.new(.., hashlib.sha256)] of the standard
    library, computed: the program compares digests, so witnesses can evaluate
    them. *)

From stdpp Require Import prelude list strings.
From Stdlib Require Import ZArith Lia.
From Stdlib Require Strings.String.
From S2P Require Import Prelude PySeq PyBytes PyStr Encodings.

Open Scope Z_scope.

Definition w32 (z : Z) : Z := Z.land z 0xffffffff.
Definition rotr (n x : Z) : Z := w32 (Z.lor (Z.shiftr x n) (Z.shiftl x (32 - n))).

(** The largest [k]-bit number whose cube is at most [z]. *)
Fixpoint cube_root (bits : nat) (z root : Z) : Z :=
  match bits with
  | O => root
  | S b =>
      let r := root + 2 ^ Z.of_nat b in
      cube_root b z (if r * r * r <=? z then r else root)
  end.

Definition is_prime (n : Z) : bool :=
  forallb (λ d, negb (n mod d =? 0)) (map Z.of_nat (seq 2 (Z.to_nat n - 2))).
Definition primes : list Z := List.filter is_prime (map Z.of_nat (seq 2 310)).

(** The first 32 bits of the fractional parts of the cube roots of the first
    sixty-four primes. *)
Definition round_constants : list Z :=
  Eval vm_compute in map (λ p, w32 (cube_root 36 (p * 2 ^ 96) 0)) primes.

Record hash_state := HS { ha : Z; hb : Z; hc : Z; hd : Z; he : Z; hf : Z; hg : Z; hh : Z }.

(** The same bits of the square roots of the first eight. *)
Definition initial_hash : hash_state :=
  Eval vm_compute in
  let h n := w32 (Z.sqrt (nth n primes 0 * 2 ^ 64)) in
  HS (h 0%nat) (h 1%nat) (h 2%nat) (h 3%nat) (h 4%nat) (h 5%nat) (h 6%nat) (h 7%nat).

Definition hash_round (st : hash_state) (k w : Z) : hash_state :=
  let s1 := Z.lxor (Z.lxor (rotr 6 (he st)) (rotr 11 (he st))) (rotr 25 (he st)) in
  let ch := Z.lxor (Z.land (he st) (hf st)) (Z.land (Z.lxor (he st) 0xffffffff) (hg st)) in
  let t1 := hh st + s1 + ch + k + w in
  let s0 := Z.lxor (Z.lxor (rotr 2 (ha st)) (rotr 13 (ha st))) (rotr 22 (ha st)) in
  let maj := Z.lxor (Z.lxor (Z.land (ha st) (hb st)) (Z.land (ha st) (hc st)))
               (Z.land (hb st) (hc st)) in
  HS (w32 (t1 + s0 + maj)) (ha st) (hb st) (hc st) (w32 (hd st + t1)) (he st) (hf st) (hg st).

(** The next word of the message schedule, from the last sixteen. *)
Definition next_word (window : list Z) : Z :=
  let w i := nth i window 0 in
  let s0 := Z.lxor (Z.lxor (rotr 7 (w 1%nat)) (rotr 18 (w 1%nat))) (Z.shiftr (w 1%nat) 3) in
  let s1 := Z.lxor (Z.lxor (rotr 17 (w 14%nat)) (rotr 19 (w 14%nat))) (Z.shiftr (w 14%nat) 10) in
  w32 (w 0%nat + s0 + w 9%nat + s1).

Fixpoint hash_rounds (ks window : list Z) (st : hash_state) : hash_state :=
  match ks with
  | [] => st
  | k :: ks' =>
      hash_rounds ks' (tail window ++ [next_word window]) (hash_round st k (default 0 (hd_error window)))
  end.

Fixpoint words_of (l : bytes) : list Z :=
  match l with
  | a :: b :: c :: d :: l' => be_decode [a; b; c; d] :: words_of l'
  | _ => []
  end.

Definition hash_block (st : hash_state) (block : bytes) : hash_state :=
  let r := hash_rounds round_constants (words_of block) st in
  HS (w32 (ha st + ha r)) (w32 (hb st + hb r)) (w32 (hc st + hc r)) (w32 (hd st + hd r))
     (w32 (he st + he r)) (w32 (hf st + hf r)) (w32 (hg st + hg r)) (w32 (hh st + hh r)).

Fixpoint hash_blocks (n : nat) (st : hash_state) (l : bytes) : hash_state :=
  match n with
  | O => st
  | S n' => hash_blocks n' (hash_block st (take 64 l)) (drop 64 l)
  end.

Definition sha256_pad (l : bytes) : bytes :=
  l ++ bz [0x80] ++ replicate ((119 - length l mod 64) mod 64) (z2b 0)
    ++ be_encode 8 (8 * Z.of_nat (length l)).

(** [sha256(l).digest()] *)
Definition sha256 (l : bytes) : bytes :=
  let p := sha256_pad l in
  let st := hash_blocks (length p / 64) initial_hash p in
  concat (map (be_encode 4) [ha st; hb st; hc st; hd st; he st; hf st; hg st; hh st]).

(** [sha256(l).hexdigest()] *)
Definition sha256_hexdigest (l : bytes) : str := hex_of (sha256 l).

(** [hmac.new(key, msg, sha256).hexdigest()] *)
Definition hmac_sha256 (key msg : bytes) : bytes :=
  let k0 := if (64 <? length key)%nat then sha256 key else key in
  let k := k0 ++ replicate (64 - length k0) (z2b 0) in
  let mask z := map (λ b, z2b (Z.lxor (b2z b) z)) k in
  sha256 (mask 0x5c ++ sha256 (mask 0x36 ++ msg)).
Definition hmac_sha256_hex (key msg : bytes) : str := hex_of (hmac_sha256 key msg).

(** The published test vectors. *)
Example sha256_abc :
  sha256_hexdigest (bl "abc")
  = u "ba7816bf8f01cfea414140de5dae2223b00361a396177a9cb410ff61f20015ad".
Proof. vm_compute. reflexivity. Qed.

Example hmac_jefe :
  hmac_sha256_hex (bl "Jefe") (bl "what do ya want for nothing?")
  = u "5bdcc146bf60754e6a042426089575c75a003f089d2739839dec58b964ec3843".
Proof. vm_compute. reflexivity. Qed.

(** A digest is sixty-four hexadecimal digits: none is a colon. *)
Lemma hex_of_chars l : Forall (λ c, is_token_char c = true) (hex_of l).
Proof.
  unfold hex_of. induction l as [|b l IH]; simpl; [constructor|].
  pose proof (byte_n_range b) as Hb.
  assert (∀ v, (v < 16)%N → is_token_char (hex_char v) = true) as Hc.
  { intros v Hv. apply (small_cases v 16 (λ v, is_token_char (hex_char v) = true) Hv).
    by repeat constructor. }
  repeat constructor; [| |exact IH]; apply Hc.
  - by apply N.Div0.div_lt_upper_bound.
  - by apply N.mod_lt.
Qed.
Close Scope Z_scope.
