(* ===== verification/RdpConstants.v ===== *)
(** The protocol constants of [libs/rdp/constants.py]. *)

From Stdlib Require Import ZArith.
Open Scope Z_scope.

Definition TPKT_VERSION : Z := 3.

Definition PROTOCOL_SSL : Z := 0x00000001.
Definition PROTOCOL_HYBRID : Z := 0x00000002.
Definition REQUESTED_PROTOCOLS_HYBRID : Z := 0x00000003.

Definition MAX_CREDSSP_RECORD_LEN : Z := 64 * 1024.

Definition ASN1_CONTEXT_0 : Z := 0xA0.
Definition ASN1_CONTEXT_1 : Z := 0xA1.
Definition ASN1_CONTEXT_2 : Z := 0xA2.
Definition ASN1_CONTEXT_3 : Z := 0xA3.
Definition ASN1_INTEGER : Z := 0x02.
Definition ASN1_OCTET_STR : Z := 0x04.
Definition ASN1_SEQUENCE : Z := 0x30.

Definition TS_UD_CS_CORE : Z := 0xC001.
Definition TS_UD_SC_CORE : Z := 0x0C01.
Close Scope Z_scope.
