(* ===== verification/Stream.v ===== *)
(** [asyncio.StreamReader]: the bytes the peer sends before it closes, read by
    [readexactly]. A parser is a computation over what is left of them. *)

From stdpp Require Import prelude list.
From Stdlib Require Import ZArith Lia.
From S2P Require Import Prelude PySeq PyBytes.

Open Scope Z_scope.

(** [await reader.readexactly(n)]: a negative size raises [ValueError]; a
    stream that ends early raises [IncompleteReadError], and what was left of
    it is gone. *)
Definition readexactly (n : Z) : io bytes bytes := λ s,
  if n <? 0 then (Err ValueError, s)
  else if n <=? Z.of_nat (length s)
  then (Ok (take (Z.to_nat n) s), drop (Z.to_nat n) s)
  else (Err IncompleteReadError, []).

Lemma readexactly_app n l s :
  n = Z.of_nat (length l) → readexactly n (l ++ s) = (Ok l, s).
Proof.
  intros ->. unfold readexactly.
  rewrite (proj2 (Z.ltb_ge _ _)) by lia.
  rewrite (proj2 (Z.leb_le _ _)) by len.
  by rewrite Nat2Z.id, take_app_length, drop_app_length.
Qed.

Lemma readexactly_one b s : readexactly 1 (b :: s) = (Ok [b], s).
Proof. by apply (readexactly_app 1 [b]). Qed.

Lemma readexactly_short n s :
  Z.of_nat (length s) < n → readexactly n s = (Err IncompleteReadError, []).
Proof.
  intros H. unfold readexactly.
  rewrite (proj2 (Z.ltb_ge _ _)) by lia. by rewrite (proj2 (Z.leb_gt _ _)) by lia.
Qed.

Lemma readexactly_neg n s : n < 0 → readexactly n s = (Err ValueError, s).
Proof. intros H. unfold readexactly. by rewrite (proj2 (Z.ltb_lt _ _)). Qed.

Lemma readexactly_in n s :
  0 <= n <= Z.of_nat (length s) →
  readexactly n s = (Ok (take (Z.to_nat n) s), drop (Z.to_nat n) s).
Proof.
  intros H. unfold readexactly.
  rewrite (proj2 (Z.ltb_ge _ _)) by lia. by rewrite (proj2 (Z.leb_le _ _)) by lia.
Qed.

(** What a parser leaves is a suffix of what it was given. *)
Lemma readexactly_suffix n s : snd (readexactly n s) `suffix_of` s.
Proof.
  unfold readexactly. destruct (n <? 0); simpl; [done|].
  destruct (n <=? _); simpl; [|apply suffix_nil].
  exists (take (Z.to_nat n) s). by rewrite take_drop.
Qed.
Close Scope Z_scope.
