(* ===== verification/Tpkt.v ===== *)
(** TPKT framing, [libs/rdp/tpkt.py]: [build_tpkt] and [read_tpkt] are inverse
    on every payload that fits the 16-bit length, and every malformed frame is
    an exception. *)

From stdpp Require Import prelude list.
From Stdlib Require Import ZArith Lia.
From S2P Require Import Prelude PySeq PyBytes RdpConstants Stream.

Open Scope Z_scope.

Definition build_tpkt (payload : bytes) : res bytes :=
  hdr ← pack_be 2 (Z.of_nat (length payload) + 4);
  Ok (bz [TPKT_VERSION; 0] ++ hdr ++ payload).

Definition read_tpkt (initial_data : bytes) : io bytes bytes :=
  header ← (if (length initial_data <? 4)%nat then
              more ← readexactly (4 - Z.of_nat (length initial_data));
              mret (initial_data ++ more)
            else mret initial_data);
  v ← io_lift (header !! 0%nat ?? IndexError);
  if negb (b2z v =? TPKT_VERSION) then io_raise ValueError
  else
    total_len ← io_lift (unpack_be 2 (slice header 2 4));
    readexactly (total_len - 4).

(** The largest payload a frame can carry. *)
Definition max_payload : Z := 65531.

Lemma build_tpkt_Ok payload :
  Z.of_nat (length payload) <= max_payload →
  build_tpkt payload
  = Ok (bz [TPKT_VERSION; 0] ++ be_encode 2 (Z.of_nat (length payload) + 4) ++ payload).
Proof.
  unfold max_payload. intros H. unfold build_tpkt.
  by rewrite pack_be_in by (change (256 ^ Z.of_nat 2) with 65536; lia).
Qed.

Lemma build_tpkt_inv payload frame :
  build_tpkt payload = Ok frame →
  Z.of_nat (length payload) <= max_payload
  ∧ frame = bz [TPKT_VERSION; 0] ++ be_encode 2 (Z.of_nat (length payload) + 4) ++ payload.
Proof.
  unfold build_tpkt. intros (hdr & Hp & [= <-])%bind_Ok.
  apply pack_be_Ok in Hp as [Hr ->]. change (256 ^ Z.of_nat 2) with 65536 in Hr.
  unfold max_payload. split; [lia | done].
Qed.

(** [read_tpkt] after the four header bytes are known. *)
Lemma read_tpkt_header h0 h1 h2 h3 k s :
  (k ≤ 4)%nat →
  let hdr := [h0; h1; h2; h3] in
  read_tpkt (take k hdr) (drop k hdr ++ s)
  = if negb (b2z h0 =? TPKT_VERSION) then (Err ValueError, s)
    else readexactly (be_decode [h2; h3] - 4) s.
Proof.
  intros Hk hdr. destruct k as [|[|[|[|[|k]]]]]; [..|lia]; unfold hdr, read_tpkt;
    cbn [take drop length Nat.ltb Nat.leb]; unfold_io; cbv beta iota;
    rewrite ?readexactly_app by done; simpl; by destruct (b2z h0 =? TPKT_VERSION).
Qed.

(** A built frame, read back with any part of its header already taken. *)
Lemma read_tpkt_of_build (payload rest frame : bytes) (k : nat) :
  build_tpkt payload = Ok frame → (k ≤ 4)%nat →
  read_tpkt (take k frame) (drop k frame ++ rest) = (Ok payload, rest).
Proof.
  intros Hb Hk. apply build_tpkt_inv in Hb as [Hlen ->].
  unfold max_payload in Hlen.
  set (n := Z.of_nat (length payload) + 4).
  assert (0 <= n < 65536) as Hn by lia.
  destruct (be_encode 2 n) as [|h2 [|h3 [|]]] eqn:E; try by apply (f_equal length) in E.
  change (bz [TPKT_VERSION; 0] ++ [h2; h3] ++ payload)
    with ([z2b 3; z2b 0; h2; h3] ++ payload).
  rewrite take_app_le, drop_app_le by (simpl; lia). rewrite <- app_assoc.
  rewrite read_tpkt_header by done. rewrite b2z_z2b_small by lia. simpl.
  rewrite <- E, be_decode_encode by done. apply readexactly_app. lia.
Qed.

(** ** Properties *)

(** Reading a built frame gives the payload back and leaves exactly what
    follows the frame, however many of the header's bytes the caller had
    already taken from the stream. *)
Theorem read_tpkt_build_tpkt (payload rest frame : bytes) (k : nat) :
  build_tpkt payload = Ok frame → (k ≤ 4)%nat →
  read_tpkt (take k frame) (drop k frame ++ rest) = (Ok payload, rest).
Proof. apply read_tpkt_of_build. Qed.

Lemma read_tpkt_build_tpkt_witness :
  build_tpkt (bl "abc") = Ok (bz [3; 0; 0; 7] ++ bl "abc")
  ∧ read_tpkt (take 2 (bz [3; 0; 0; 7] ++ bl "abc"))
      (drop 2 (bz [3; 0; 0; 7] ++ bl "abc") ++ bl "next") = (Ok (bl "abc"), bl "next").
Proof.
  split; [vm_compute; reflexivity|].
  apply (read_tpkt_build_tpkt (bl "abc") (bl "next")); [vm_compute; reflexivity | lia].
Defined.

(** The 16-bit length never wraps: [build_tpkt] raises [struct.error]
    exactly on the payloads that do not fit, and the frame it returns carries
    its own length. *)
Theorem build_tpkt_bounds (payload : bytes) :
  match build_tpkt payload with
  | Ok frame => Z.of_nat (length payload) <= max_payload
      ∧ Z.of_nat (length frame) = be_decode (slice frame 2 4)
  | Err e => e = StructError ∧ max_payload < Z.of_nat (length payload)
  end.
Proof.
  destruct (Z.le_gt_cases (Z.of_nat (length payload)) max_payload) as [H|H].
  - rewrite build_tpkt_Ok by done. split; [done|]. unfold max_payload in H.
    change (bz [TPKT_VERSION; 0] ++ be_encode 2 (Z.of_nat (length payload) + 4) ++ payload)
      with (bz [TPKT_VERSION; 0] ++ (be_encode 2 (Z.of_nat (length payload) + 4) ++ payload)).
    replace (slice _ 2 4) with (be_encode 2 (Z.of_nat (length payload) + 4)).
    + rewrite be_decode_encode by (change (256 ^ Z.of_nat 2) with 65536; lia). len.
    + symmetry. apply (slice_app_mid (bz [TPKT_VERSION; 0]) (be_encode 2 _) payload).
  - unfold build_tpkt. rewrite pack_be_out; [done|].
    change (256 ^ Z.of_nat 2) with 65536. unfold max_payload in H. lia.
Qed.

(** What [read_tpkt] does with any stream: too few header bytes, a wrong
    version, a length below the header's own size, a truncated payload, or the
    payload. *)
Theorem read_tpkt_total (s : bytes) :
  read_tpkt [] s =
  match s with
  | h0 :: h1 :: h2 :: h3 :: s' =>
      let n := be_decode [h2; h3] - 4 in
      if negb (b2z h0 =? TPKT_VERSION) then (Err ValueError, s')
      else if n <? 0 then (Err ValueError, s')
      else if n <=? Z.of_nat (length s')
      then (Ok (take (Z.to_nat n) s'), drop (Z.to_nat n) s')
      else (Err IncompleteReadError, [])
  | _ => (Err IncompleteReadError, [])
  end.
Proof.
  destruct s as [|h0 [|h1 [|h2 [|h3 s']]]]; try reflexivity.
  exact (read_tpkt_header h0 h1 h2 h3 0 s' ltac:(lia)).
Qed.
Close Scope Z_scope.
