(* ===== verification/X224.v ===== *)
(** X.224 connection requests and confirms, [libs/rdp/x224.py]: the builders,
    the routing-token extraction of the relay, the requested protocols and the
    client fingerprint; and the [selectedProtocol] lookup that
    [libs/rdp/credssp.py] makes in a confirm. *)

From stdpp Require Import prelude list.
From Stdlib Require Import ZArith Lia.
From S2P Require Import Prelude PySeq PyBytes PyStr RdpConstants Stream Tpkt Sha256.

Open Scope Z_scope.

(** ** Builders *)

Definition build_x224_cr (requested_protocols : Z) : res bytes :=
  let x224 := bz [0x0e; 0xe0; 0; 0; 0; 0; 0] in
  p ← pack_le 4 requested_protocols;
  let rdp_neg_req := bz [1; 0; 8; 0] ++ p in
  build_tpkt (x224 ++ rdp_neg_req).

Definition build_x224_cc_ssl : res bytes :=
  let x224_cc := bz [0x0e; 0xd0; 0; 0; 0x12; 0x34; 0] in
  p ← pack_le 4 PROTOCOL_SSL;
  let rdp_neg_rsp := bz [2; 0; 8; 0] ++ p in
  build_tpkt (x224_cc ++ rdp_neg_rsp).

(** ** Cookies *)

Definition msts_markers : list bytes := [bl "Cookie: msts="; bl "cookie: msts="].
Definition mstshash_markers : list bytes := [bl "Cookie: mstshash="; bl "cookie: mstshash="].
Definition crlf : bytes := bz [13; 10].

(** The text after [marker], up to the end of its line; [None] when the marker
    does not occur. *)
Definition cookie_value (marker payload : bytes) : option str :=
  match find marker payload 0 with
  | None => None
  | Some pos =>
      let start := (pos + length marker)%nat in
      let stop := match find crlf payload start with
                  | Some e => e
                  | None => length payload
                  end in
      Some (strip (utf8_decode_ignore (slice payload start stop)))
  end.

(** The first marker with a non-empty value. *)
Fixpoint first_cookie (markers : list bytes) (payload : bytes) : option str :=
  match markers with
  | [] => None
  | m :: ms =>
      match cookie_value m payload with
      | Some (c :: s) => Some (c :: s)
      | _ => first_cookie ms payload
      end
  end.

(** The class [[A-Za-z0-9_-]]. *)
Definition is_digit_b (b : byte) : bool := (48 <=? b2z b) && (b2z b <=? 57).
Definition is_alpha_b (b : byte) : bool :=
  ((65 <=? b2z b) && (b2z b <=? 90)) || ((97 <=? b2z b) && (b2z b <=? 122)).
Definition is_token_b (b : byte) : bool :=
  is_digit_b b || is_alpha_b b || (b2z b =? 95) || (b2z b =? 45).

(** The maximal runs of the class, in order. *)
Fixpoint token_runs_go (run l : bytes) : list bytes :=
  match l with
  | [] => match run with [] => [] | _ => [reverse run] end
  | b :: l' =>
      if is_token_b b then token_runs_go (b :: run) l'
      else match run with
           | [] => token_runs_go [] l'
           | _ => reverse run :: token_runs_go [] l'
           end
  end.

(** [re.findall(rb"[A-Za-z0-9_-]{20,}", l)] *)
Definition findall_tokens (l : bytes) : list bytes :=
  List.filter (λ r, (20 <=? length r)%nat) (token_runs_go [] l).

(** The candidates the fallback accepts. *)
Definition acceptable (candidate : bytes) : bool :=
  existsb (λ b, (b2z b =? 45) || (b2z b =? 95)) candidate
  || ((32 <=? length candidate)%nat && existsb is_digit_b candidate
      && existsb is_alpha_b candidate).

Definition extract_cookie_token (x224_payload : bytes) : res str :=
  match first_cookie (msts_markers ++ mstshash_markers) x224_payload with
  | Some token => Ok token
  | None =>
      match List.find acceptable (findall_tokens x224_payload) with
      | Some candidate => Ok (utf8_decode_ignore candidate)
      | None => Err ValueError
      end
  end.

Definition extract_rdp_client_hint (x224_payload : bytes) : str :=
  match first_cookie mstshash_markers x224_payload with
  | Some value => value
  | None => []
  end.

(** ** Protocols *)

(** The 32-bit flags four bytes after [marker]. *)
Definition flags_after (marker payload : bytes) : option (res Z) :=
  match find marker payload 0 with
  | Some pos =>
      if (pos + 8 <=? length payload)%nat
      then Some (unpack_le_from 4 payload (pos + 4)) else None
  | None => None
  end.

Definition extract_requested_protocols (x224_payload : bytes) : res Z :=
  match flags_after (bz [1; 0; 8; 0]) x224_payload with
  | Some r => r
  | None => Ok REQUESTED_PROTOCOLS_HYBRID
  end.

(** [selected_protocol] of [connect_and_authenticate]. *)
Definition selected_protocol (x224_cc : bytes) : res (option Z) :=
  match flags_after (bz [2; 0; 8; 0]) x224_cc with
  | Some r => Some <$> r
  | None => Ok None
  end.

(** ** Fingerprint *)

Definition build_rdp_client_fingerprint (x224_payload : bytes) (token : str) : res str :=
  let hint := extract_rdp_client_hint x224_payload in
  token_bytes ← utf8_encode token;
  let redacted := replace token_bytes (bl "<TOKEN>") x224_payload in
  Ok (hint ++ u "|" ++ sha256_hexdigest redacted).

(** ** Lemmas *)

Lemma bz_length l : length (bz l) = length l.
Proof. apply length_map. Qed.

(** Flags written behind a marker whose first byte does not occur before. *)
Lemma flags_after_app x m pre p post :
  length (x :: m) = 4%nat → x ∉ pre → 0 <= p < 4294967296 →
  flags_after (x :: m) (pre ++ (x :: m) ++ le_encode 4 p ++ post) = Some (Ok p).
Proof.
  intros Hm Hx Hp. unfold flags_after. rewrite find_after by done. cbv beta iota.
  rewrite (proj2 (Nat.leb_le _ _)) by len. f_equal.
  rewrite (app_assoc pre). replace (length pre + 4)%nat with (length (pre ++ x :: m)) by len.
  by apply unpack_le_from_app.
Qed.

Lemma flags_after_range marker l r z : flags_after marker l = Some r → r = Ok z → 0 <= z < 4294967296.
Proof.
  unfold flags_after. destruct (find marker l 0) as [pos|]; [|discriminate].
  destruct (pos + 8 <=? length l)%nat eqn:E; [|discriminate].
  apply Nat.leb_le in E. intros [= <-]. rewrite unpack_le_from_in by lia.
  intros [= <-]. pose proof (le_decode_range (slice l (pos + 4) (pos + 4 + 4))) as H.
  rewrite length_slice in H by lia.
  by replace (pos + 4 + 4 - (pos + 4))%nat with 4%nat in H by lia.
Qed.

Lemma flags_after_Ok marker l r : flags_after marker l = Some r → ∃ z, r = Ok z.
Proof.
  unfold flags_after. destruct (find marker l 0) as [pos|]; [|discriminate].
  destruct (pos + 8 <=? length l)%nat eqn:E; [|discriminate].
  apply Nat.leb_le in E. intros [= <-]. rewrite unpack_le_from_in by lia. eauto.
Qed.

Lemma token_runs_app run l rest :
  Forall (λ b, is_token_b b = true) l →
  token_runs_go run (l ++ rest) = token_runs_go (reverse l ++ run) rest.
Proof.
  intros H. revert run. induction H as [|b l Hb _ IH]; intros run; [done|].
  simpl. by rewrite Hb, IH, reverse_cons, <- app_assoc.
Qed.

Lemma token_runs_break run l b rest :
  is_token_b b = false →
  token_runs_go run (l ++ b :: rest) = token_runs_go run (l ++ [b]) ++ token_runs_go [] rest.
Proof.
  intros Hb. revert run. induction l as [|x l IH]; intros run; simpl.
  - rewrite Hb. by destruct run.
  - destruct (is_token_b x); [apply IH|]. destruct run; [apply IH|].
    rewrite <- app_comm_cons. f_equal. apply IH.
Qed.

(** A run of token bytes between two others is a candidate of its own. *)
Lemma findall_tokens_between pre b t c post :
  is_token_b b = false → is_token_b c = false →
  Forall (λ x, is_token_b x = true) t → (20 <= length t)%nat →
  findall_tokens (pre ++ b :: t ++ c :: post)
  = findall_tokens (pre ++ [b]) ++ t :: findall_tokens post.
Proof.
  intros Hb Hc Ht Hl. unfold findall_tokens.
  rewrite token_runs_break, List.filter_app by done. f_equal.
  rewrite token_runs_app by done. rewrite app_nil_r.
  destruct (reverse t) as [|x r] eqn:E.
  { apply (f_equal length) in E. rewrite length_reverse in E. simpl in E. lia. }
  cbn [token_runs_go]. rewrite Hc, <- E, reverse_involutive. cbn [List.filter].
  by rewrite (proj2 (Nat.leb_le 20 _) Hl).
Qed.

Lemma token_byte_ascii b : is_token_b b = true → (byte_n b < 128)%N.
Proof.
  unfold is_token_b, is_digit_b, is_alpha_b, b2z, byte_n.
  rewrite ?orb_true_iff, ?andb_true_iff, ?Z.leb_le, ?Z.eqb_eq. lia.
Qed.

Lemma first_cookie_none markers payload :
  Forall (λ m, find m payload 0 = None) markers → first_cookie markers payload = None.
Proof.
  induction 1 as [|m ms Hm _ IH]; simpl; [done|]. unfold cookie_value. by rewrite Hm.
Qed.

Lemma first_cookie_here markers marker markers' pre raw post :
  let payload := pre ++ marker ++ raw ++ crlf ++ post in
  Forall (λ m, find m payload 0 = None) markers →
  find marker payload 0 = Some (length pre) →
  z2b 13 ∉ raw → strip (utf8_decode_ignore raw) ≠ [] →
  first_cookie (markers ++ marker :: markers') payload
  = Some (strip (utf8_decode_ignore raw)).
Proof.
  intros payload Hms Hm Hcr Hne. induction Hms as [|m ms Hnone _ IH]; simpl.
  2: { unfold cookie_value. by rewrite Hnone. }
  unfold cookie_value at 1. rewrite Hm.
  assert (drop (length pre + length marker) payload = raw ++ crlf ++ post) as Hd.
  { unfold payload. rewrite app_assoc. apply drop_app_exact. len. }
  assert (length pre + length marker <= length payload)%nat as Hlen by (unfold payload; len).
  rewrite find_from by done. rewrite Hd.
  rewrite (find_after (z2b 13) [z2b 10] raw post) by done.
  change (Nat.add (length pre + length marker) <$> Some (length raw))
    with (Some (length pre + length marker + length raw)%nat). cbv beta iota zeta.
  replace (slice payload _ _) with raw.
  2: { unfold slice. rewrite Hd.
       replace (_ - _)%nat with (length raw) by lia. by rewrite take_app_length. }
  by destruct (strip (utf8_decode_ignore raw)).
Qed.

(** The frame of a request, and its payload. *)
Lemma build_x224_cr_Ok p :
  0 <= p < 4294967296 →
  ∃ frame, build_x224_cr p = Ok frame
    ∧ build_tpkt (bz [0x0e; 0xe0; 0; 0; 0; 0; 0] ++ bz [1; 0; 8; 0] ++ le_encode 4 p) = Ok frame.
Proof.
  intros Hp. unfold build_x224_cr. rewrite pack_le_in by done.
  change (mbind ?f (Ok ?x)) with (f x). cbv beta zeta.
  rewrite build_tpkt_Ok by (rewrite ?length_app, length_le_encode; done). eauto.
Qed.

Lemma extract_requested_protocols_Ok payload :
  ∃ z, extract_requested_protocols payload = Ok z ∧ 0 <= z < 4294967296.
Proof.
  unfold extract_requested_protocols.
  destruct (flags_after _ payload) as [r|] eqn:E.
  - destruct (flags_after_Ok _ _ _ E) as [z ->]. exists z. split; [done|].
    by eapply flags_after_range.
  - by exists REQUESTED_PROTOCOLS_HYBRID.
Qed.

(** ** Properties *)

(** The protocol flags a request carries are the ones that were asked for:
    building, framing, reading and extracting is the identity on 32-bit flags,
    and any other value is a [struct.error]. *)
Theorem requested_protocols_roundtrip (p : Z) :
  match build_x224_cr p with
  | Ok frame => 0 <= p < 4294967296 ∧
      ∃ payload, read_tpkt [] frame = (Ok payload, []) ∧
        extract_requested_protocols payload = Ok p
  | Err e => e = StructError ∧ ¬ (0 <= p < 4294967296)
  end.
Proof.
  destruct ((0 <=? p) && (p <? 4294967296)) eqn:E.
  - assert (0 <= p < 4294967296) as Hp by lia.
    destruct (build_x224_cr_Ok p Hp) as (frame & Hc & Hb). rewrite Hc. split; [done|].
    eexists. split; [rewrite <- (app_nil_r frame);
                     apply (read_tpkt_of_build _ [] frame 0 Hb); lia|].
    unfold extract_requested_protocols. rewrite <- (app_nil_r (le_encode 4 p)).
    rewrite (flags_after_app (z2b 1) (bz [0; 8; 0])); [done | done | | done].
    apply (bool_decide_unpack _). vm_compute. exact I.
  - unfold build_x224_cr, pack_le. change (256 ^ Z.of_nat 4) with 4294967296.
    rewrite E. split; [done | lia].
Qed.

(** A confirm built for the client selects TLS for whoever parses it the way
    the relay parses the backend's confirm. *)
Theorem x224_cc_selects_ssl :
  ∃ frame payload, build_x224_cc_ssl = Ok frame
    ∧ read_tpkt [] frame = (Ok payload, [])
    ∧ selected_protocol payload = Ok (Some PROTOCOL_SSL).
Proof. eexists _, _. split; [reflexivity|]. split; vm_compute; reflexivity. Qed.

(** The protocol flags are always a 32-bit value: extraction never raises
    and never leaves the range the server-side patch can write. *)
Theorem requested_protocols_bounds (payload : bytes) :
  ∃ z, extract_requested_protocols payload = Ok z ∧ 0 <= z < 4294967296.
Proof. apply extract_requested_protocols_Ok. Qed.

(** The value of the first routing cookie is the token, up to the end of
    its line. *)
Theorem extract_cookie_token_cookie (pre marker raw post : bytes) (earlier later : list bytes) :
  let payload := pre ++ marker ++ raw ++ crlf ++ post in
  msts_markers ++ mstshash_markers = earlier ++ marker :: later →
  Forall (λ m, find m payload 0 = None) earlier →
  find marker payload 0 = Some (length pre) →
  z2b 13 ∉ raw → strip (utf8_decode_ignore raw) ≠ [] →
  extract_cookie_token payload = Ok (strip (utf8_decode_ignore raw)).
Proof.
  intros payload Hm He Hf Hcr Hne. unfold extract_cookie_token. rewrite Hm.
  unfold payload. by rewrite first_cookie_here.
Qed.

Lemma extract_cookie_token_cookie_witness :
  extract_cookie_token (bz [14; 0xe0; 0; 0; 0; 0; 0] ++ bl "Cookie: mstshash=" ++ bl "ivanov "
    ++ crlf ++ bz [1; 0; 8; 0; 3; 0; 0; 0]) = Ok (u "ivanov").
Proof.
  apply (extract_cookie_token_cookie (bz [14; 0xe0; 0; 0; 0; 0; 0]) (bl "Cookie: mstshash=")
           (bl "ivanov ") (bz [1; 0; 8; 0; 3; 0; 0; 0])
           msts_markers [bl "cookie: mstshash="]);
    [reflexivity | repeat constructor | reflexivity
    | apply (bool_decide_unpack _); vm_compute; exact I | vm_compute; discriminate].
Defined.

(** A routing token sent bare, as a client that was given
    [loadbalanceinfo] sends it, is recovered exactly when it is [acceptable]:
    a token with no [-] and no [_] that has no digit is refused although it was
    issued. *)
Theorem extract_cookie_token_bare (pre t post : bytes) (b c : byte) :
  let payload := pre ++ b :: t ++ c :: post in
  Forall (λ m, find m payload 0 = None) (msts_markers ++ mstshash_markers) →
  is_token_b b = false → is_token_b c = false →
  Forall (λ x, is_token_b x = true) t → (20 <= length t)%nat →
  findall_tokens (pre ++ [b]) = [] → findall_tokens post = [] →
  extract_cookie_token payload
  = if acceptable t then Ok (map byte_n t) else Err ValueError.
Proof.
  intros payload Hm Hb Hc Ht Hl Hpre Hpost. unfold extract_cookie_token.
  rewrite first_cookie_none by done. unfold payload.
  rewrite findall_tokens_between, Hpre, Hpost by done. cbn [app List.find].
  destruct (acceptable t); [|done]. f_equal. apply utf8_decode_ascii.
  eapply Forall_impl; [exact Ht|]. intros x Hx. by apply token_byte_ascii.
Qed.

(** The request of a client that sends a 43-letter token bare. *)
Definition letters_request : bytes :=
  bz [59; 0xe0; 0; 0; 0; 0; 0] ++ replicate 43 (z2b 65) ++ crlf
  ++ bz [1; 0; 8; 0; 3; 0; 0; 0].

Lemma extract_cookie_token_bare_witness :
  extract_cookie_token letters_request = Err ValueError.
Proof.
  apply (extract_cookie_token_bare (bz [59; 0xe0; 0; 0; 0; 0]) (replicate 43 (z2b 65))
           (bz [10; 1; 0; 8; 0; 3; 0; 0; 0]) (z2b 0) (z2b 13));
    try reflexivity; try (repeat constructor); simpl; lia.
Defined.
Close Scope Z_scope.
