(* ===== verification/CredSsp.v ===== *)
(** Authentication against the server, [libs/rdp/credssp.py]: the DER structures
    written and read by hand, the records taken off the stream, and the
    handshake. [impacket] and [cryptography] are parameters: [asn1encode] with
    its documented DER encoding, the NTLM messages, the SPNEGO tokens and the
    cipher. *)

From stdpp Require Import prelude list.
From Stdlib Require Import ZArith Lia.
From S2P Require Import Prelude PySeq PyBytes PyStr RdpConstants Stream Tpkt X224.

Open Scope Z_scope.

(** ** DER lengths *)

(** [impacket.spnego.asn1encode]: the length octets and the contents. *)
Class Asn1 : Type := asn1encode : bytes → res bytes.

(** The definite form: one octet below 128, else the count of the octets of the
    length and the length, without leading zeros. *)
Class Asn1Laws `{Asn1} : Prop := {
  asn1encode_short d : Z.of_nat (length d) < 128 →
    asn1encode d = Ok (z2b (Z.of_nat (length d)) :: d);
  asn1encode_long d n : (1 <= n <= 4)%nat → 128 <= Z.of_nat (length d) →
    256 ^ (Z.of_nat n - 1) <= Z.of_nat (length d) < 256 ^ Z.of_nat n →
    asn1encode d = Ok (z2b (128 + Z.of_nat n) :: be_encode n (Z.of_nat (length d)) ++ d);
  asn1encode_huge d : 256 ^ 4 <= Z.of_nat (length d) → asn1encode d = Err OtherError;
}.

(** An implementation. *)
Definition der_octets (len : Z) : option bytes :=
  if len <? 128 then Some [z2b len]
  else
    (λ n, z2b (128 + Z.of_nat n) :: be_encode n len)
    <$> List.find (λ n, len <? 256 ^ Z.of_nat n) [1; 2; 3; 4]%nat.
Definition der_asn1 : Asn1 := λ d,
  h ← der_octets (Z.of_nat (length d)) ?? OtherError;
  Ok (h ++ d).

(** [data[i:j]] for indices that are not negative; the bounds are clamped. *)
Definition clamp (l : bytes) (i : Z) : nat := Z.to_nat (Z.min i (Z.of_nat (length l))).
Definition zslice (l : bytes) (i j : Z) : bytes := slice l (clamp l i) (clamp l j).
Definition zdrop (l : bytes) (i : Z) : bytes := drop (clamp l i) l.

(** The length and the size of its octets. *)
Definition length_octets (data : bytes) (length_byte : Z) : Z * Z :=
  if Z.testbit length_byte 7 then
    let num := Z.land length_byte 0x7f in (be_decode (zslice data 1 (1 + num)), 1 + num)
  else (length_byte, 1).

Definition asn1decode (data : bytes) : bytes * Z :=
  match data with
  | [] => ([], 0)
  | b :: _ =>
      let '(length, offset) := length_octets data (b2z b) in
      (zslice data offset (offset + length), offset + length)
  end.

(** ** [TSRequest] *)

Record TSRequest : Type := {
  NegoData : option bytes;
  authInfo : option bytes;
  pubKeyAuth : option bytes;
}.
#[export] Instance TSRequest_eq_dec : EqDecision TSRequest.
Proof. solve_decision. Defined.

Definition no_fields : TSRequest := {| NegoData := None; authInfo := None; pubKeyAuth := None |}.
Definition set_nego (v : bytes) (t : TSRequest) : TSRequest :=
  {| NegoData := Some v; authInfo := authInfo t; pubKeyAuth := pubKeyAuth t |}.
Definition set_auth (v : bytes) (t : TSRequest) : TSRequest :=
  {| NegoData := NegoData t; authInfo := Some v; pubKeyAuth := pubKeyAuth t |}.
Definition set_pubkey (v : bytes) (t : TSRequest) : TSRequest :=
  {| NegoData := NegoData t; authInfo := authInfo t; pubKeyAuth := Some v |}.

(** [a or b] on byte strings. *)
Definition bytes_or (a b : bytes) : bytes := if bool_decide (a = []) then b else a.

Definition tagged (tag : Z) (data : bytes) : bool :=
  match data with b :: _ => b2z b =? tag | [] => false end.

Definition extract_octet_from_nego_data (raw : bytes) : res bytes :=
  b ← (raw !! 0%nat) ?? IndexError;
  if negb (b2z b =? ASN1_SEQUENCE) then Ok raw
  else
    let inner := (asn1decode (drop 1 raw)).1 in
    if negb (tagged ASN1_SEQUENCE inner) then Ok (bytes_or inner raw)
    else
      let inner2 := (asn1decode (drop 1 inner)).1 in
      if negb (tagged ASN1_CONTEXT_0 inner2) then Ok (bytes_or inner2 inner)
      else
        let inner3 := (asn1decode (drop 1 inner2)).1 in
        if tagged ASN1_OCTET_STR inner3 then Ok (asn1decode (drop 1 inner3)).1 else Ok inner3.

(** The octet string inside a field; anything else is skipped. *)
Definition octet_payload (content : bytes) : res (option bytes) :=
  b ← (content !! 0%nat) ?? IndexError;
  Ok (if b2z b =? ASN1_OCTET_STR then Some (asn1decode (drop 1 content)).1 else None).

Definition read_field (tag : Z) (content : bytes) (t : TSRequest) : res TSRequest :=
  if tag =? ASN1_CONTEXT_0 then Ok t
  else if tag =? ASN1_CONTEXT_1 then
    v ← extract_octet_from_nego_data content; Ok (set_nego v t)
  else if tag =? ASN1_CONTEXT_2 then
    o ← octet_payload content; Ok (from_option (λ v, set_auth v t) t o)
  else if tag =? ASN1_CONTEXT_3 then
    o ← octet_payload content; Ok (from_option (λ v, set_pubkey v t) t o)
  else Ok t.

(** [while data]: [None] when the fuel runs out. *)
Fixpoint read_fields (fuel : nat) (data : bytes) (t : TSRequest) : option (res TSRequest) :=
  match data with
  | [] => Some (Ok t)
  | tag :: data' =>
      match fuel with
      | O => None
      | S f =>
          let '(content, consumed) := asn1decode data' in
          match read_field (b2z tag) content t with
          | Err e => Some (Err e)
          | Ok t' => read_fields f (zdrop data' consumed) t'
          end
      end
  end.

Definition from_string (data : bytes) : res TSRequest :=
  b ← (data !! 0%nat) ?? IndexError;
  if negb (b2z b =? ASN1_SEQUENCE) then Err ValueError
  else
    let inner := (asn1decode (drop 1 data)).1 in
    default (Err OtherError) (read_fields (length inner) inner no_fields).

(** [TSRequest(data)] *)
Definition ts_request (data : bytes) : res TSRequest :=
  match data with [] => Ok no_fields | _ => from_string data end.

#[export] Instance der_laws : @Asn1Laws der_asn1.
Proof.
  assert (∀ len : Z, 128 <= len → (len <? 128) = false) as H128 by (intros; by apply Z.ltb_ge).
  split; unfold asn1encode, der_asn1, der_octets; intros d.
  - intros Hs. by rewrite (proj2 (Z.ltb_lt _ _)) by done.
  - intros n Hn Hl [Hlo Hhi]. rewrite H128 by done.
    assert (List.find (λ n, Z.of_nat (length d) <? 256 ^ Z.of_nat n) [1; 2; 3; 4]%nat = Some n) as ->; [|done].
    assert (n = 1 ∨ n = 2 ∨ n = 3 ∨ n = 4)%nat as [-> | [-> | [-> | ->]]] by lia; cbn [List.find Z.of_nat Pos.of_succ_nat Pos.succ] in *;
      repeat (rewrite (proj2 (Z.ltb_ge _ (256 ^ _))) by lia; cbv beta iota);
      by rewrite (proj2 (Z.ltb_lt _ _)) by lia.
  - intros Hl. rewrite H128 by lia. cbn [List.find Z.of_nat Pos.of_succ_nat Pos.succ].
    by repeat (rewrite (proj2 (Z.ltb_ge _ (256 ^ _))) by lia; cbv beta iota).
Qed.

Section Encoders.
Context `{Asn1}.

(** [pack("B", tag) + asn1encode(content)] *)
Definition tlv (tag : Z) (content : bytes) : res bytes :=
  e ← asn1encode content; Ok (z2b tag :: e).
Definition octets_in (tag : Z) (v : bytes) : res bytes :=
  o ← tlv ASN1_OCTET_STR v; tlv tag o.

Definition optional_field (f : bytes → res bytes) (o : option bytes) : res bytes :=
  match o with Some v => f v | None => Ok [] end.

Definition nego_field (v : bytes) : res bytes :=
  c ← octets_in ASN1_CONTEXT_0 v;
  s1 ← tlv ASN1_SEQUENCE c;
  s2 ← tlv ASN1_SEQUENCE s1;
  tlv ASN1_CONTEXT_1 s2.

Definition version_field : res bytes :=
  i ← tlv ASN1_INTEGER (bz [2]); tlv ASN1_CONTEXT_0 i.

Definition ts_get_data (t : TSRequest) : res bytes :=
  version_blob ← version_field;
  nego_blob ← optional_field nego_field (NegoData t);
  auth_blob ← optional_field (octets_in ASN1_CONTEXT_2) (authInfo t);
  pubkey_blob ← optional_field (octets_in ASN1_CONTEXT_3) (pubKeyAuth t);
  tlv ASN1_SEQUENCE (version_blob ++ nego_blob ++ auth_blob ++ pubkey_blob).

(** ** Credentials *)

Record TSPasswordCreds : Type := {
  domainName : option bytes; userName : option bytes; password : option bytes }.

Definition password_creds_data (c : TSPasswordCreds) : res bytes :=
  let field ctx_tag (o : option bytes) := v ← (o ?? KeyError); octets_in (0xA0 + ctx_tag) v in
  d ← field 0 (domainName c);
  n ← field 1 (userName c);
  p ← field 2 (password c);
  tlv ASN1_SEQUENCE (d ++ n ++ p).

Record TSCredentials : Type := { credType : option Z; credentials : option bytes }.

Definition credentials_data (c : TSCredentials) : res bytes :=
  ty ← credType c ?? KeyError;
  p ← pack_be 1 ty;
  i ← tlv ASN1_INTEGER p;
  cred_type_blob ← tlv 0xA0 i;
  v ← credentials c ?? KeyError;
  creds_blob ← octets_in 0xA1 v;
  tlv ASN1_SEQUENCE (cred_type_blob ++ creds_blob).
End Encoders.

(** ** The public key *)

Definition at_index (l : bytes) (i : Z) : res Z :=
  if i <? Z.of_nat (length l) then b2z <$> (l !! Z.to_nat i ?? IndexError) else Err IndexError.

Definition extract_raw_pubkey (spki_der : bytes) : res bytes :=
  match spki_der with
  | [] => Err ValueError
  | b0 :: _ =>
      if negb (b2z b0 =? 0x30) then Err ValueError
      else
        b1 ← at_index spki_der 1;
        let offset := if Z.testbit b1 7 then 2 + Z.land b1 0x7f else 2 in
        algo ← at_index spki_der offset;
        if negb (algo =? 0x30) then Err ValueError
        else
          algo_len_byte ← at_index spki_der (offset + 1);
          let offset :=
            if Z.testbit algo_len_byte 7 then
              let n := Z.land algo_len_byte 0x7f in
              offset + 2 + n + be_decode (zslice spki_der (offset + 2) (offset + 2 + n))
            else offset + 2 + algo_len_byte in
          bits ← at_index spki_der offset;
          if negb (bits =? 0x03) then Err ValueError
          else
            bit_len_byte ← at_index spki_der (offset + 1);
            let offset := if Z.testbit bit_len_byte 7 then offset + 2 + Z.land bit_len_byte 0x7f else offset + 2 in
            Ok (zdrop spki_der (offset + 1))
  end.

(** ** Records on the stream *)

(** [reader.readexactly] under [wait_for]: [Some k] says that only [k] more
    bytes come before the deadline. A read that would have to wait for longer
    raises [TimeoutError] and takes nothing. *)
Definition readexactly_within (n : Z) : io (bytes * option nat) bytes := λ s,
  match s with
  | (l, None) => let '(r, l') := readexactly n l in (r, (l', None))
  | (l, Some k) =>
      if n <? 0 then (Err ValueError, s)
      else if n <=? Z.of_nat (Nat.min k (length l))
      then (Ok (take (Z.to_nat n) l), (drop (Z.to_nat n) l, Some (k - Z.to_nat n)%nat))
      else (Err TimeoutError, s)
  end.

Definition backend_build_tpkt (payload : bytes) : res bytes :=
  size ← pack_be 2 (Z.of_nat (length payload) + 4);
  Ok (bz [TPKT_VERSION; 0] ++ size ++ payload).

Definition backend_build_x224_cr (requested_protocols : Z) : res bytes :=
  let x224 := bz [0x0e; 0xe0; 0; 0; 0; 0; 0] in
  p ← pack_le 4 requested_protocols;
  let rdp_neg_req := bz [1; 0; 8; 0] ++ p in
  backend_build_tpkt (x224 ++ rdp_neg_req).

Section Reader.
Context {S : Type} (readexactly : Z → io S bytes).

Definition backend_read_tpkt : io S bytes :=
  header ← readexactly 4;
  v ← io_lift (header !! 0%nat ?? IndexError);
  if negb (b2z v =? TPKT_VERSION) then io_raise ValueError
  else
    total_len ← io_lift (unpack_be 2 (slice header 2 4));
    readexactly (total_len - 4).

Definition read_credssp_record : io S bytes :=
  first ← readexactly 1;
  b ← io_lift (first !! 0%nat ?? IndexError);
  if b2z b =? TPKT_VERSION then
    rest ← readexactly 3;
    total_len ← io_lift (unpack_be 2 (slice rest 2 4));
    readexactly (total_len - 4)
  else if negb (b2z b =? 0x30) then io_raise ValueError
  else
    len_b ← readexactly 1;
    l ← io_lift (len_b !! 0%nat ?? IndexError);
    len_ext ← (if Z.testbit (b2z l) 7 then readexactly (Z.land (b2z l) 0x7f) else mret []);
    let plen := if Z.testbit (b2z l) 7 then be_decode len_ext else b2z l in
    if MAX_CREDSSP_RECORD_LEN <? plen then io_raise ValueError
    else
      payload ← readexactly plen;
      mret ((first ++ len_b ++ len_ext) ++ payload).
End Reader.

(** ** The identity *)

Definition split_domain_user `{UpperMap} (username fallback_domain : str) : str * str :=
  match split_first 92%N username with
  | Some (domain, user) => (domain, user)
  | None =>
      match split_first 64%N username with
      | Some (user, domain) => (domain, user)
      | None =>
          let domain := match split_first 46%N fallback_domain with
                        | Some (label, _) => label
                        | None => fallback_domain
                        end in
          (upper domain, username)
      end
  end.

(** ** The handshake *)

(** [impacket.ntlm] and the SPNEGO tokens, for one handshake (its random
    challenges included). *)
Class Ntlm : Type := {
  ntlm_cipher : Type;
  type1_data : bytes;
  getNTLMSSPType3 : bytes → str → str → str → res (bytes * Z * bytes);
  SPNEGOCipher : Z → bytes → ntlm_cipher;
  cipher_encrypt : ntlm_cipher → bytes → bytes * bytes * ntlm_cipher;
  NegTokenInit : bytes → bytes;
  NegTokenResp : bytes → bytes;
  ResponseToken : bytes → res bytes;
}.

(** The connection to the server: what it sends, whether TLS is on, and what
    was written to it, in the clear or not. *)
Record backend : Type := Backend { bk_in : bytes; bk_tls : bool; bk_out : list (bool * bytes) }.

(** The network under one handshake: whether it can be reached, whether the
    writes are drained and TLS is agreed on, the key of its certificate, and how
    much comes before the two deadlines. *)
Record route : Type := {
  open_connection : res unit;
  drain : nat → res unit;
  start_tls : res unit;
  peer_spki : res bytes;
  echo_within : option nat;
  answer_within : option nat;
}.

Definition on_reader {A} (m : io bytes A) : io backend A :=
  io_zoom bk_in (λ l b, Backend l (bk_tls b) (bk_out b)) m.
Definition on_timed {A} (within : option nat) (m : io (bytes * option nat) A) : io backend A :=
  on_reader (λ l, let '(r, s) := m (l, within) in (r, s.1)).
Definition send (r : route) (data : bytes) : io backend unit :=
  _ ← io_modify (λ b, Backend (bk_in b) (bk_tls b) (bk_out b ++ [(bk_tls b, data)]));
  b ← io_get;
  io_lift (drain r (length (bk_out b))).
Definition upgrade (r : route) : io backend unit :=
  _ ← io_lift (start_tls r);
  io_modify (λ b, Backend (bk_in b) true (bk_out b)).

Section Handshake.
Context `{Asn1} `{Ntlm} `{UpperMap}.

Definition extract_ntlm_from_resp (nego_data : bytes) : bytes :=
  if starts_with (bl "NTLMSSP" ++ bz [0]) nego_data then nego_data
  else match ResponseToken nego_data with Ok t => t | Err _ => nego_data end.

(** The X.224 negotiation and TLS. *)
Definition negotiate (r : route) : io backend (option Z) :=
  cr ← io_lift (backend_build_x224_cr REQUESTED_PROTOCOLS_HYBRID);
  _ ← send r cr;
  x224_cc ← on_reader (backend_read_tpkt readexactly);
  selected ← io_lift (selected_protocol x224_cc);
  _ ← upgrade r;
  mret selected.

Definition type1_message : res bytes := ts_get_data (set_nego (NegTokenInit type1_data) no_fields).

(** The answer to the challenge, with the server's key under the new cipher. *)
Definition type3_message (r : route) (domain user password : str) (buff : bytes) : res (bytes * ntlm_cipher) :=
  ts_resp ← ts_request buff;
  nego ← NegoData ts_resp ?? KeyError;
  let challenge_raw := extract_ntlm_from_resp nego in
  t3 ← getNTLMSSPType3 challenge_raw user password domain;
  let '(type3, flags, exported_session_key) := t3 in
  spki_der ← peer_spki r;
  server_pub_key ← extract_raw_pubkey spki_der;
  let '(signature, encrypted_key, cipher) :=
    cipher_encrypt (SPNEGOCipher flags exported_session_key) server_pub_key in
  m3 ← ts_get_data (set_pubkey (signature ++ encrypted_key) (set_nego (NegTokenResp type3) no_fields));
  Ok (m3, cipher).

(** NTLM, up to the proof of the password; the cipher. *)
Definition authenticate (r : route) (domain user password : str) : io backend ntlm_cipher :=
  m1 ← io_lift type1_message;
  _ ← send r m1;
  buff ← on_reader (read_credssp_record readexactly);
  m3 ← io_lift (type3_message r domain user password buff);
  _ ← send r m3.1;
  mret m3.2.

(** The server's answer to the key, for five seconds. *)
Definition read_echo (r : route) : io backend unit :=
  io_try (
    buff ← on_timed (echo_within r) (read_credssp_record readexactly_within);
    _ ← io_lift (ts_request buff);
    mret tt) (λ _, mret tt).

Definition credentials_message (cipher : ntlm_cipher) (domain user password : str) : res bytes :=
  d ← utf16_le_encode domain;
  n ← utf16_le_encode user;
  p ← utf16_le_encode password;
  tsp ← password_creds_data {| domainName := Some d; userName := Some n; password := Some p |};
  tsc ← credentials_data {| credType := Some 1; credentials := Some tsp |};
  let '(sig2, encrypted_creds, _) := cipher_encrypt cipher tsc in
  ts_get_data (set_auth (sig2 ++ encrypted_creds) no_fields).

Definition read_answer (r : route) : io backend unit :=
  io_try (
    _ ← on_timed (answer_within r) (read_credssp_record readexactly_within);
    mret tt) (λ _, mret tt).

(** [connect_and_authenticate] *)
Definition connect_and_authenticate (r : route) (username password fallback_domain : str) : io backend unit :=
  _ ← io_lift (open_connection r);
  _ ← negotiate r;
  let '(domain, user) := split_domain_user username fallback_domain in
  cipher ← authenticate r domain user password;
  _ ← read_echo r;
  m5 ← io_lift (credentials_message cipher domain user password);
  _ ← send r m5;
  read_answer r.
End Handshake.

(** ** Lemmas on DER *)

Section Der.
Context `{Asn1Laws}.

(** The length octets [asn1encode] writes, as the readers take them apart. *)
Definition octets_of (len : Z) (b : byte) (ext : bytes) : Prop :=
  if Z.testbit (b2z b) 7 then Z.land (b2z b) 0x7f = Z.of_nat (length ext) ∧ be_decode ext = len
  else ext = [] ∧ b2z b = len.

Lemma testbit7 z : 0 <= z < 256 → Z.testbit z 7 = (128 <=? z).
Proof.
  intros Hz. rewrite Z.testbit_odd, Z.shiftr_div_pow2 by lia. change (2 ^ 7) with 128.
  destruct (Z.leb_spec 128 z).
  - replace (z / 128) with 1; [done|]. apply (Z.div_unique_pos _ _ _ (z - 128)); lia.
  - by rewrite Z.div_small by lia.
Qed.

Lemma land127 z : 0 <= z < 128 → Z.land (128 + z) 127 = z.
Proof.
  intros Hz. change 127 with (Z.ones 7). rewrite Z.land_ones by lia. change (2 ^ 7) with 128.
  replace (128 + z) with (z + 1 * 128) by lia. rewrite Z.mod_add by lia. by apply Z.mod_small.
Qed.

Lemma asn1encode_inv d e :
  asn1encode d = Ok e →
  ∃ b ext, e = b :: ext ++ d ∧ octets_of (Z.of_nat (length d)) b ext.
Proof.
  intros He. set (len := Z.of_nat (length d)) in *.
  destruct (Z.lt_ge_cases len 128) as [Hs|Hl].
  { rewrite asn1encode_short in He by done. injection He as <-. exists (z2b len), [].
    split; [done|]. unfold octets_of. rewrite b2z_z2b_small by lia.
    rewrite testbit7 by lia. rewrite (proj2 (Z.leb_gt _ _)) by lia. done. }
  assert (∃ n, (1 <= n <= 4)%nat ∧ 256 ^ (Z.of_nat n - 1) <= len < 256 ^ Z.of_nat n) as (n & Hn & Hr).
  { destruct (Z.lt_ge_cases len (256 ^ 4)) as [Hb|Hb].
    2: { rewrite asn1encode_huge in He by done. discriminate. }
    destruct (Z.lt_ge_cases len (256 ^ 1)); [exists 1%nat; split; [lia|]; simpl Z.of_nat; lia|].
    destruct (Z.lt_ge_cases len (256 ^ 2)); [exists 2%nat; split; [lia|]; simpl Z.of_nat; lia|].
    destruct (Z.lt_ge_cases len (256 ^ 3)); [exists 3%nat; split; [lia|]; simpl Z.of_nat; lia|].
    exists 4%nat. split; [lia|]; simpl Z.of_nat; lia. }
  rewrite (asn1encode_long d n Hn Hl Hr) in He. injection He as <-. eexists _, _. split; [done|].
  unfold octets_of. rewrite b2z_z2b_small by lia. rewrite testbit7 by lia.
  rewrite (proj2 (Z.leb_le _ _)) by lia. rewrite land127 by lia. rewrite length_be_encode.
  split; [done|]. apply be_decode_encode. split; [lia | apply Hr].
Qed.

Lemma clamp_nat l n : (n <= length l)%nat → clamp l (Z.of_nat n) = n.
Proof. intros ?. unfold clamp. lia. Qed.

Lemma asn1decode_octets b ext d rest :
  octets_of (Z.of_nat (length d)) b ext →
  asn1decode (b :: ext ++ d ++ rest) = (d, Z.of_nat (length (b :: ext ++ d))).
Proof.
  intros Ho. unfold asn1decode.
  assert (length_octets (b :: ext ++ d ++ rest) (b2z b) = (Z.of_nat (length d), Z.of_nat (length (b :: ext)))) as ->.
  { unfold length_octets. unfold octets_of in Ho. destruct (Z.testbit (b2z b) 7).
    - destruct Ho as [Hn Hd]. rewrite Hn. unfold zslice.
      replace (1 + Z.of_nat (length ext)) with (Z.of_nat (length (b :: ext))) by len.
      rewrite (clamp_nat _ 1) by len. rewrite clamp_nat by len.
      rewrite <- Hd. do 2 f_equal. apply (slice_app_mid [b] ext (d ++ rest)).
    - destruct Ho as [-> Hd]. by rewrite Hd. }
  unfold zslice. f_equal; [|len].
  rewrite <- Nat2Z.inj_add. rewrite !clamp_nat by len.
  apply (slice_app_mid (b :: ext) d rest).
Qed.

Lemma asn1decode_encode d e rest :
  asn1encode d = Ok e → asn1decode (e ++ rest) = (d, Z.of_nat (length e)).
Proof.
  intros (b & ext & -> & Ho)%asn1encode_inv. simpl app at 1. rewrite <- app_assoc.
  by apply asn1decode_octets.
Qed.

Lemma asn1decode_exact d e : asn1encode d = Ok e → (asn1decode e).1 = d.
Proof. intros He. rewrite <- (app_nil_r e). by rewrite (asn1decode_encode d). Qed.

Lemma asn1encode_longer d e : asn1encode d = Ok e → (length d < length e)%nat.
Proof. intros (b & ext & -> & _)%asn1encode_inv. len. Qed.
End Der.

(** ** The field loop *)

Lemma length_zdrop l i : (length (zdrop l i) <= length l)%nat.
Proof. unfold zdrop. len. Qed.

(** Every turn takes the tag, so that the length is enough fuel. *)
Lemma read_fields_total fuel data t : (length data <= fuel)%nat → is_Some (read_fields fuel data t).
Proof.
  revert data t; induction fuel as [|f IH]; intros [|tag data'] t Hl; simpl in Hl |- *; [eauto|lia|eauto|].
  destruct (asn1decode data') as [content consumed].
  destruct (read_field (b2z tag) content t) as [t'|e]; [|eauto].
  apply IH. pose proof (length_zdrop data' consumed). lia.
Qed.

Lemma read_fields_more fuel fuel' data t r :
  read_fields fuel data t = Some r → (fuel <= fuel')%nat → read_fields fuel' data t = Some r.
Proof.
  revert fuel' data t; induction fuel as [|f IH]; intros [|f'] [|tag data'] t Hr Hl; simpl in Hr |- *; try done; try lia.
  destruct (asn1decode data') as [content consumed].
  destruct (read_field (b2z tag) content t) as [t'|e]; [|done].
  apply (IH f'); [done | lia].
Qed.

Lemma read_fields_agree fuel data t r :
  read_fields fuel data t = Some r → read_fields (length data) data t = Some r.
Proof.
  intros Hr. destruct (read_fields_total (length data) data t) as [r' Hr']; [done|].
  destruct (Nat.le_ge_cases fuel (length data)) as [Hl|Hl].
  - by apply (read_fields_more fuel).
  - pose proof (read_fields_more _ _ _ _ _ Hr' Hl). congruence.
Qed.

(** What the readers raise. *)
Definition value_or_index (e : exn) : Prop := e = ValueError ∨ e = IndexError.

Lemma extract_octet_errors raw e : extract_octet_from_nego_data raw = Err e → e = IndexError.
Proof.
  unfold extract_octet_from_nego_data. destruct (raw !! 0%nat) as [b|]; simpl; [|congruence].
  by repeat case_match.
Qed.

Lemma octet_payload_errors content e : octet_payload content = Err e → e = IndexError.
Proof. unfold octet_payload. destruct (content !! 0%nat); simpl; congruence. Qed.

Lemma read_field_errors tag content t e : read_field tag content t = Err e → e = IndexError.
Proof.
  unfold read_field. repeat (case_match; [congruence || idtac|]); try congruence.
  - destruct (extract_octet_from_nego_data content) eqn:E; [done|]. intros [= <-]. by eapply extract_octet_errors.
  - destruct (octet_payload content) eqn:E; [done|]. intros [= <-]. by eapply octet_payload_errors.
  - destruct (octet_payload content) eqn:E; [done|]. intros [= <-]. by eapply octet_payload_errors.
Qed.

Lemma read_fields_errors fuel data t e : read_fields fuel data t = Some (Err e) → e = IndexError.
Proof.
  revert data t; induction fuel as [|f IH]; intros [|tag data'] t; simpl; try discriminate.
  destruct (asn1decode data') as [content consumed].
  destruct (read_field (b2z tag) content t) as [t'|e'] eqn:E; [apply IH|].
  intros [= <-]. by eapply read_field_errors.
Qed.

Lemma ts_request_total data :
  match ts_request data with Ok _ => True | Err e => value_or_index e end.
Proof.
  destruct data as [|b data]; [done|]. unfold ts_request, from_string. simpl.
  destruct (negb _); [by left|]. rewrite drop_0.
  destruct (read_fields_total (length (asn1decode data).1) (asn1decode data).1 no_fields) as [r Hr]; [done|].
  rewrite Hr. simpl. destruct r as [t|e]; [done|]. right. by eapply read_fields_errors.
Qed.

(** ** Round trips *)

Section Roundtrip.
Context `{Asn1Laws}.

Lemma tlv_inv tag c e : tlv tag c = Ok e → ∃ e', e = z2b tag :: e' ∧ asn1encode c = Ok e'.
Proof. unfold tlv. intros (e' & He & [= <-])%bind_Ok. eauto. Qed.

Definition byte_tag (tag : Z) : Prop := 0 <= tag < 256.

Lemma tagged_tlv tag c e : tlv tag c = Ok e → byte_tag tag → tagged tag e = true ∧ (asn1decode (drop 1 e)).1 = c.
Proof.
  intros (e' & -> & He)%tlv_inv Ht. simpl. rewrite b2z_z2b_small, Z.eqb_refl by done.
  split; [done|]. rewrite drop_0. by apply asn1decode_exact.
Qed.

(** The loop over [data] turns [t] into [t']. *)
Definition reads (data : bytes) (t t' : TSRequest) : Prop := ∃ fuel, read_fields fuel data t = Some (Ok t').

Lemma reads_nil t : reads [] t t.
Proof. by exists 0%nat. Qed.

Lemma reads_tlv tag c e rest t t1 t2 :
  tlv tag c = Ok e → byte_tag tag → read_field tag c t = Ok t1 → reads rest t1 t2 → reads (e ++ rest) t t2.
Proof.
  intros (e' & -> & He)%tlv_inv Ht Hf [fuel Hr]. exists (S fuel). simpl.
  rewrite (asn1decode_encode c e') by done. rewrite b2z_z2b_small, Hf by done.
  unfold zdrop. rewrite clamp_nat by len. by rewrite drop_app_length.
Qed.

Lemma octet_payload_tlv v e : tlv ASN1_OCTET_STR v = Ok e → octet_payload e = Ok (Some v).
Proof.
  intros He. destruct (tagged_tlv _ _ _ He ltac:(done)) as [Ht Hd]. destruct e as [|b e]; [done|].
  unfold octet_payload. simpl in *. by rewrite Ht, Hd.
Qed.

Lemma extract_nego v c e1 e2 e3 :
  octets_in ASN1_CONTEXT_0 v = Ok c → tlv ASN1_SEQUENCE c = Ok e1 → tlv ASN1_SEQUENCE e1 = Ok e2 → e3 = e2 →
  extract_octet_from_nego_data e3 = Ok v.
Proof.
  intros (o & Ho & Hc)%bind_Ok H1 H2 ->.
  destruct (tagged_tlv _ _ _ H2 ltac:(done)) as [T2 D2]. destruct (tagged_tlv _ _ _ H1 ltac:(done)) as [T1 D1].
  destruct (tagged_tlv _ _ _ Hc ltac:(done)) as [Tc Dc]. destruct (tagged_tlv _ _ _ Ho ltac:(done)) as [To Do].
  destruct e2 as [|b e2]; [done|]. unfold extract_octet_from_nego_data.
  change ((b :: e2) !! 0%nat ?? IndexError) with (Ok b). cbn [mbind res_bind].
  unfold tagged in T2. rewrite T2. cbn [negb]. by rewrite D2, T1, D1, Tc, Dc, To, Do.
Qed.

Lemma reads_version e rest t t' : version_field = Ok e → reads rest t t' → reads (e ++ rest) t t'.
Proof. intros (i & _ & He)%bind_Ok Hr. eapply reads_tlv; [exact He | done | reflexivity | exact Hr]. Qed.

Lemma reads_nego o e rest t t' :
  optional_field nego_field o = Ok e → reads rest (from_option (λ v, set_nego v t) t o) t' → reads (e ++ rest) t t'.
Proof.
  destruct o as [v|]; simpl; [|by intros [= <-]]. unfold nego_field.
  intros (c & Hc & (s1 & H1 & (s2 & H2 & H3)%bind_Ok)%bind_Ok)%bind_Ok Hr.
  eapply reads_tlv; [exact H3 | done | | exact Hr]. unfold read_field. simpl.
  by rewrite (extract_nego v c s1 s2).
Qed.

Lemma reads_octets tag (set : bytes → TSRequest → TSRequest) o e rest t t' :
  byte_tag tag →
  (∀ c, read_field tag c t = (o ← octet_payload c; Ok (from_option (λ v, set v t) t o))) →
  optional_field (octets_in tag) o = Ok e →
  reads rest (from_option (λ v, set v t) t o) t' → reads (e ++ rest) t t'.
Proof.
  intros Ht Hset. destruct o as [v|]; simpl; [|by intros [= <-]].
  intros (c & Hc & He)%bind_Ok Hr. eapply reads_tlv; [exact He | done | | exact Hr].
  rewrite Hset. by rewrite (octet_payload_tlv v c).
Qed.

Lemma ts_get_data_inv t m :
  ts_get_data t = Ok m → ∃ inner, tlv ASN1_SEQUENCE inner = Ok m ∧ reads inner no_fields t.
Proof.
  unfold ts_get_data.
  intros (v & Hv & (n & Hn & (a & Ha & (p & Hp & Hm)%bind_Ok)%bind_Ok)%bind_Ok)%bind_Ok.
  eexists. split; [exact Hm|].
  eapply reads_version; [exact Hv|]. eapply reads_nego; [exact Hn|].
  eapply (reads_octets ASN1_CONTEXT_2 set_auth); [done | done | exact Ha |].
  rewrite <- (app_nil_r p).
  eapply (reads_octets ASN1_CONTEXT_3 set_pubkey); [done | done | exact Hp |].
  destruct t as [[?|] [?|] [?|]]; apply reads_nil.
Qed.

Lemma ts_request_of_data t m : ts_get_data t = Ok m → ts_request m = Ok t.
Proof.
  intros (inner & (e' & -> & He)%tlv_inv & fuel & Hr)%ts_get_data_inv.
  unfold ts_request, from_string. simpl. rewrite drop_0, (asn1decode_exact inner) by done.
  by rewrite (read_fields_agree _ _ _ _ Hr).
Qed.

(** *** Records *)

#[local] Arguments Z.testbit : simpl never.

Lemma read_record_of_tlv inner m rest :
  tlv 0x30 inner = Ok m → Z.of_nat (length m) <= MAX_CREDSSP_RECORD_LEN →
  read_credssp_record readexactly (m ++ rest) = (Ok m, rest).
Proof.
  intros (e & -> & (b & ext & -> & Ho)%asn1encode_inv)%tlv_inv Hlen.
  assert (Z.of_nat (length inner) <= MAX_CREDSSP_RECORD_LEN) as Hin by (simpl length in Hlen; rewrite length_app in Hlen; lia).
  unfold read_credssp_record. simpl app. unfold_io.
  rewrite readexactly_one. simpl. rewrite readexactly_one. simpl.
  unfold octets_of in Ho. destruct (Z.testbit (b2z b) 7) eqn:E.
  - destruct Ho as [Hn Hd]. rewrite <- app_assoc. rewrite (readexactly_app _ ext) by lia.
    rewrite Hd. rewrite (proj2 (Z.ltb_ge _ _)) by done. by rewrite readexactly_app by done.
  - destruct Ho as [-> Hd]. simpl. rewrite Hd. rewrite (proj2 (Z.ltb_ge _ _)) by done.
    by rewrite readexactly_app by done.
Qed.

(** *** The public key *)

(** A [SubjectPublicKeyInfo]: an algorithm and the key in a bit string. *)
Definition spki (algorithm key : bytes) : res bytes :=
  a ← tlv 0x30 algorithm;
  k ← tlv 0x03 (z2b 0 :: key);
  tlv 0x30 (a ++ k).


Lemma at_index_split m l x r i : m = l ++ x :: r → i = Z.of_nat (length l) → at_index m i = Ok (b2z x).
Proof.
  intros -> ->. unfold at_index. rewrite (proj2 (Z.ltb_lt _ _)) by len.
  by rewrite Nat2Z.id, lookup_app_at by done.
Qed.

Lemma zslice_split m l k r i j :
  m = l ++ k ++ r → i = Z.of_nat (length l) → j = Z.of_nat (length l + length k) → zslice m i j = k.
Proof. intros -> -> ->. unfold zslice. rewrite !clamp_nat by len. apply slice_app_mid. Qed.

Lemma zdrop_split m l r i : m = l ++ r → i = Z.of_nat (length l) → zdrop m i = r.
Proof. intros -> ->. unfold zdrop. rewrite clamp_nat by len. apply drop_app_length. Qed.

(** The offset after the length octets. *)
Lemma octets_skip len b ext off :
  octets_of len b ext →
  (if Z.testbit (b2z b) 7 then off + Z.land (b2z b) 0x7f else off) = off + Z.of_nat (length ext).
Proof. unfold octets_of. destruct (Z.testbit (b2z b) 7); intros [H1 H2]; [by rewrite H1 | subst; simpl; lia]. Qed.

(** The offset after the contents. *)
Lemma octets_over m l b ext c r off :
  octets_of (Z.of_nat (length c)) b ext → m = l ++ b :: ext ++ c ++ r → off = Z.of_nat (length l) - 1 →
  (if Z.testbit (b2z b) 7 then
     off + 2 + Z.land (b2z b) 0x7f + be_decode (zslice m (off + 2) (off + 2 + Z.land (b2z b) 0x7f))
   else off + 2 + b2z b) = Z.of_nat (length (l ++ b :: ext ++ c)).
Proof.
  unfold octets_of. destruct (Z.testbit (b2z b) 7); intros [H1 H2] -> ->.
  - rewrite H1. rewrite (zslice_split _ (l ++ [b]) ext (c ++ r)); [|by rewrite <- app_assoc|len|len].
    rewrite H2. len.
  - subst ext. rewrite H2. len.
Qed.

Lemma tlv_split tag c e :
  tlv tag c = Ok e → ∃ b ext, e = z2b tag :: b :: ext ++ c ∧ octets_of (Z.of_nat (length c)) b ext.
Proof. intros (e' & -> & (b & ext & -> & Ho)%asn1encode_inv)%tlv_inv. eauto. Qed.

Ltac by_app := simpl; repeat (rewrite <- app_assoc; simpl); reflexivity.

Lemma extract_raw_pubkey_spki algorithm key m :
  spki algorithm key = Ok m → extract_raw_pubkey m = Ok key.
Proof.
  unfold spki. intros (a & Ha & (k & Hk & Hm)%bind_Ok)%bind_Ok.
  apply tlv_split in Ha as (b2 & ext2 & -> & O2). apply tlv_split in Hk as (b3 & ext3 & -> & O3).
  apply tlv_split in Hm as (b1 & ext1 & -> & O1).
  set (l1 := z2b 0x30 :: b1 :: ext1). set (l2 := l1 ++ z2b 0x30 :: b2 :: ext2 ++ algorithm).
  set (l3 := l2 ++ z2b 3 :: b3 :: ext3 ++ [z2b 0]).
  unfold extract_raw_pubkey. cbv beta iota. rewrite b2z_z2b_small by lia. cbn [negb Z.eqb Pos.eqb].
  erewrite (at_index_split _ [z2b 0x30] b1); [|reflexivity|done]. cbn [mbind res_bind].
  rewrite (octets_skip _ b1 ext1) by exact O1.
  erewrite (at_index_split _ l1 (z2b 0x30) _ (2 + Z.of_nat (length ext1))); [|unfold l1; by_app|unfold l1; len]. cbn [mbind res_bind].
  rewrite b2z_z2b_small by lia. cbn [negb Z.eqb Pos.eqb].
  erewrite (at_index_split _ (l1 ++ [z2b 0x30]) b2 _ (2 + Z.of_nat (length ext1) + 1)); [|unfold l1; by_app|unfold l1; len]. cbn [mbind res_bind].
  erewrite (octets_over _ (l1 ++ [z2b 0x30]) b2 ext2 algorithm _ (2 + Z.of_nat (length ext1))); [|exact O2|unfold l1; by_app|unfold l1; len].
  set (o := Z.of_nat _). erewrite (at_index_split _ l2 (z2b 3) _ o); [|unfold l2, l1; by_app|unfold o, l2, l1; len]. cbn [mbind res_bind].
  rewrite b2z_z2b_small by lia. cbn [negb Z.eqb Pos.eqb].
  erewrite (at_index_split _ (l2 ++ [z2b 3]) b3 _ (o + 1)); [|unfold l2, l1; by_app|unfold o, l2, l1; len]. cbn [mbind res_bind].
  rewrite (octets_skip _ b3 ext3) by exact O3. f_equal.
  apply (zdrop_split _ l3); unfold o, l3, l2, l1; [by_app | len].
Qed.
End Roundtrip.

(** ** Lemmas on the handshake *)

Section Wire.
Context `{Asn1Laws} `{Ntlm} `{UpperMap}.
Implicit Types (r : route) (b : backend).

Definition all_drained r : Prop := ∀ n, drain r n = Ok tt.

Lemma send_run r data b :
  all_drained r → send r data b = (Ok tt, Backend (bk_in b) (bk_tls b) (bk_out b ++ [(bk_tls b, data)])).
Proof. intros Hd. unfold send. unfold_io. simpl. by rewrite Hd. Qed.

Lemma backend_read_tpkt_frame payload frame rest :
  build_tpkt payload = Ok frame → backend_read_tpkt readexactly (frame ++ rest) = (Ok payload, rest).
Proof.
  intros Hb. rewrite <- (read_tpkt_of_build payload rest frame 0 Hb) by lia. rewrite drop_0.
  unfold backend_read_tpkt, read_tpkt. unfold_io. simpl. change (4 - Z.of_nat 0) with 4.
  by destruct (readexactly 4 (frame ++ rest)) as [[h|e] s].
Qed.

(** What is read on the side changes the stream only. *)
Lemma aside_run {A} within (m : io (bytes * option nat) A) (k : A → io backend unit) b :
  (∀ a b', ∃ res, k a b' = (res, b')) →
  ∃ left, io_try (a ← on_timed within m; k a) (λ _, mret tt) b = (Ok tt, Backend left (bk_tls b) (bk_out b)).
Proof.
  intros Hk. unfold io_try, on_timed, on_reader, io_zoom. rewrite io_bind_run.
  destruct (m (bk_in b, within)) as [[a|e] [l w]]; simpl.
  - destruct (Hk a (Backend l (bk_tls b) (bk_out b))) as [[[]|e] ->]; by eexists.
  - by eexists.
Qed.

Lemma read_echo_run r b : ∃ left, read_echo r b = (Ok tt, Backend left (bk_tls b) (bk_out b)).
Proof. apply aside_run. intros a b'. unfold_io. destruct (ts_request a); by eexists. Qed.

Lemma read_answer_run r b : ∃ left, read_answer r b = (Ok tt, Backend left (bk_tls b) (bk_out b)).
Proof. apply aside_run. intros a b'. by eexists. Qed.

(** The request that goes out in the clear. *)
Definition opening : bytes := bz [3; 0; 0; 19; 0x0e; 0xe0; 0; 0; 0; 0; 0; 1; 0; 8; 0; 3; 0; 0; 0].
Lemma opening_request : backend_build_x224_cr REQUESTED_PROTOCOLS_HYBRID = Ok opening.
Proof. vm_compute. reflexivity. Qed.

Lemma selected_protocol_total x : ∃ sel, selected_protocol x = Ok sel.
Proof.
  unfold selected_protocol. destruct (flags_after _ x) as [res|] eqn:E; [|eauto].
  destruct (flags_after_Ok _ _ _ E) as [z ->]. by eexists.
Qed.

Lemma negotiate_run r cc frame rest :
  build_tpkt cc = Ok frame → all_drained r → start_tls r = Ok tt →
  ∃ sel, negotiate r (Backend (frame ++ rest) false []) = (Ok sel, Backend rest true [(false, opening)]).
Proof.
  intros Hf Hd Ht. destruct (selected_protocol_total cc) as [sel Hsel]. exists sel.
  unfold negotiate. rewrite opening_request. unfold_io. rewrite send_run by done. simpl.
  unfold on_reader, io_zoom. simpl. rewrite (backend_read_tpkt_frame cc) by done. simpl.
  rewrite Hsel. unfold upgrade. unfold_io. by rewrite Ht.
Qed.

Lemma authenticate_run r domain user password t challenge m1 m3 cipher rest out :
  all_drained r → ts_get_data t = Ok challenge → Z.of_nat (length challenge) <= MAX_CREDSSP_RECORD_LEN →
  type1_message = Ok m1 → type3_message r domain user password challenge = Ok (m3, cipher) →
  authenticate r domain user password (Backend (challenge ++ rest) true out)
  = (Ok cipher, Backend rest true (out ++ [(true, m1); (true, m3)])).
Proof.
  intros Hd (inner & Hin & _)%ts_get_data_inv Hlen Hm1 Hm3. unfold authenticate. rewrite Hm1. unfold_io.
  rewrite send_run by done. simpl. unfold on_reader, io_zoom. simpl.
  rewrite (read_record_of_tlv inner) by done. rewrite Hm3, Hd. simpl. by rewrite <- app_assoc.
Qed.

(** In the clear nothing but the request, and that before anything else. *)
Definition covered b : Prop := bk_tls b = true ∧ ∃ msgs, bk_out b = (false, opening) :: map (pair true) msgs.
Definition discreet b : Prop := bk_out b = [] ∨ ∃ msgs, bk_out b = (false, opening) :: map (pair true) msgs.

Lemma covered_reader {A} (m : io bytes A) : keeps covered (on_reader m).
Proof. intros b Hb. unfold on_reader, io_zoom. by destruct (m (bk_in b)). Qed.

Lemma covered_send r data : keeps covered (send r data).
Proof.
  intros b [Ht [msgs Hm]]. unfold send. unfold_io. simpl. split; [done|]. simpl.
  exists (msgs ++ [data]). by rewrite Hm, map_app, Ht.
Qed.

Hint Resolve covered_reader covered_send : py.

Lemma covered_timed {A} w (m : io (bytes * option nat) A) : keeps covered (on_timed w m).
Proof. apply covered_reader. Qed.
Hint Resolve covered_timed : py.

Lemma covered_authenticate r domain user password : keeps covered (authenticate r domain user password).
Proof.
  unfold authenticate. do 5 (apply keeps_bind; [solve [auto with py]|]; intros ?). apply keeps_ret.
Qed.

Lemma covered_echo r : keeps covered (read_echo r).
Proof.
  apply keeps_try; [|intros ?; apply keeps_ret].
  do 2 (apply keeps_bind; [solve [auto with py]|]; intros ?). apply keeps_ret.
Qed.

Lemma covered_answer r : keeps covered (read_answer r).
Proof. apply keeps_try; [|intros ?; apply keeps_ret]. apply keeps_bind; [solve [auto with py]|]. intros ?; apply keeps_ret. Qed.
Hint Resolve covered_authenticate covered_echo covered_answer : py.

Lemma covered_rest r username password fallback_domain :
  keeps covered (
    let '(domain, user) := split_domain_user username fallback_domain in
    cipher ← authenticate r domain user password;
    _ ← read_echo r;
    m5 ← io_lift (credentials_message cipher domain user password);
    _ ← send r m5;
    read_answer r).
Proof.
  destruct (split_domain_user _ _) as [domain user].
  do 4 (apply keeps_bind; [solve [auto with py]|]; intros ?). apply covered_answer.
Qed.

Lemma negotiate_covered r i :
  hoare (λ b, b = Backend i false []) (negotiate r) (λ _, covered) discreet.
Proof.
  intros b ->. unfold negotiate. rewrite opening_request. unfold_io. unfold send. unfold_io. simpl.
  destruct (drain r 1) as [[]|e]; [|right; by exists []]. simpl.
  unfold on_reader, io_zoom. simpl. destruct (backend_read_tpkt readexactly i) as [[cc|e] rest]; simpl; [|right; by exists []].
  destruct (selected_protocol cc) as [sel|e]; [|right; by exists []].
  unfold upgrade. unfold_io. destruct (start_tls r) as [[]|e]; simpl; [|right; by exists []].
  split; [done|]. by exists [].
Qed.

Lemma connect_discreet r username password fallback_domain i :
  discreet (connect_and_authenticate r username password fallback_domain (Backend i false [])).2.
Proof.
  unfold connect_and_authenticate. rewrite io_bind_run. unfold io_lift.
  destruct (open_connection r) as [[]|e]; [|by left].
  rewrite io_bind_run. pose proof (negotiate_covered r i (Backend i false []) eq_refl) as Hn.
  destruct (negotiate r (Backend i false [])) as [[sel|e] b]; [|done].
  destruct (covered_rest r username password fallback_domain b Hn) as [_ Hc]. by right.
Qed.
End Wire.

(** ** Properties *)

(** C5: whatever the server sends and wherever the handshake fails, at most the
    fixed X.224 request leaves in the clear: everything that depends on the
    account is written under TLS, after it. *)
Theorem credentials_under_tls `{Asn1} `{Ntlm} `{UpperMap} (r : route)
    (username password fallback_domain : str) (i : bytes) :
  let out := bk_out (connect_and_authenticate r username password fallback_domain (Backend i false [])).2 in
  out = [] ∨ ∃ msgs, out = (false, opening) :: map (pair true) msgs.
Proof. apply connect_discreet. Qed.

(** The handshake against a server that answers: the four messages in their
    order, the last with the encrypted password. They are the same whatever the
    server says after its challenge: its answer to [pubKeyAuth], which is what
    shows that it holds the key of its certificate, is never looked at. *)
Theorem handshake_ignores_echo `{Asn1Laws} `{Ntlm} `{UpperMap} (r : route)
    (username password fallback_domain domain user : str) (cc frame challenge m1 m3 m5 : bytes) (t : TSRequest)
    (cipher : ntlm_cipher) :
  open_connection r = Ok tt → start_tls r = Ok tt → all_drained r →
  split_domain_user username fallback_domain = (domain, user) →
  build_tpkt cc = Ok frame →
  ts_get_data t = Ok challenge → Z.of_nat (length challenge) <= MAX_CREDSSP_RECORD_LEN →
  type1_message = Ok m1 → type3_message r domain user password challenge = Ok (m3, cipher) →
  credentials_message cipher domain user password = Ok m5 →
  ∀ echo, ∃ left,
    connect_and_authenticate r username password fallback_domain (Backend (frame ++ challenge ++ echo) false [])
    = (Ok tt, Backend left true [(false, opening); (true, m1); (true, m3); (true, m5)]).
Proof.
  intros Ho Ht Hd Hs Hf Hc Hl Hm1 Hm3 Hm5 echo. unfold connect_and_authenticate. rewrite Ho, io_bind_run. simpl.
  rewrite io_bind_run. destruct (negotiate_run r cc frame (challenge ++ echo) Hf Hd Ht) as [sel ->].
  rewrite Hs. rewrite io_bind_run, (authenticate_run r domain user password t challenge m1 m3 cipher) by done.
  rewrite io_bind_run. cbn [app]. destruct (read_echo_run r (Backend echo true [(false, opening); (true, m1); (true, m3)])) as [l ->].
  rewrite Hm5. unfold io_lift. rewrite io_bind_run. rewrite io_bind_run, send_run by done. apply read_answer_run.
Qed.

(** C30: a message the handshake writes is read off the stream whole, nothing
    after it is taken, and its fields come back. *)
Theorem credssp_message_roundtrip `{Asn1Laws} (t : TSRequest) (m rest : bytes) :
  ts_get_data t = Ok m → Z.of_nat (length m) <= MAX_CREDSSP_RECORD_LEN →
  read_credssp_record readexactly (m ++ rest) = (Ok m, rest) ∧ ts_request m = Ok t.
Proof.
  intros Hm Hl. split; [|by apply ts_request_of_data].
  destruct (ts_get_data_inv t m Hm) as (inner & Hin & _). by apply (read_record_of_tlv inner).
Qed.

(** Reading a [TSRequest] ends on every input: the loop takes at least one
    byte a turn, so that as many turns as there are bytes are enough, and what
    it raises is [ValueError] or [IndexError]. *)
Theorem ts_request_terminates (data : bytes) (t : TSRequest) :
  is_Some (read_fields (length data) data t)
  ∧ match ts_request data with Ok _ => True | Err e => e = ValueError ∨ e = IndexError end.
Proof. split; [by apply read_fields_total | apply (ts_request_total data)]. Qed.

(** A TPKT frame in place of a CredSSP record is meant to be read; it always
    raises [struct.error], after its four header bytes, since only one byte is
    left of the two that hold its length. *)
Theorem credssp_tpkt_record_fails (payload frame rest : bytes) :
  build_tpkt payload = Ok frame →
  read_credssp_record readexactly (frame ++ rest) = (Err StructError, payload ++ rest).
Proof.
  intros [_ ->]%build_tpkt_inv.
  destruct (be_encode 2 (Z.of_nat (length payload) + 4)) as [|h2 [|h3 [|]]] eqn:E; try by apply (f_equal length) in E.
  unfold read_credssp_record. unfold_io. simpl app. rewrite readexactly_one. simpl.
  replace (readexactly 3 _) with (Ok [z2b 0; h2; h3] : res bytes, payload ++ rest); [done|].
  symmetry. by apply (readexactly_app 3 [z2b 0; h2; h3]).
Qed.

(** ** A concrete handshake *)

Definition demo_ntlm : Ntlm := {|
  ntlm_cipher := nat;
  type1_data := bl "NTLMSSP" ++ bz [0; 1];
  getNTLMSSPType3 := λ challenge user password domain, Ok (bl "NTLMSSP" ++ bz [0; 3], 0, challenge);
  SPNEGOCipher := λ flags key, length key;
  cipher_encrypt := λ n data, (bz [1; 0], map (λ b, z2b (b2z b + Z.of_nat n + 1)) data, S n);
  NegTokenInit := id;
  NegTokenResp := id;
  ResponseToken := Ok;
|}.
Definition demo_route (echo : option nat) : route := {|
  open_connection := Ok tt; drain := λ _, Ok tt; start_tls := Ok tt;
  peer_spki := @spki der_asn1 (bl "rsa") (bl "key");
  echo_within := echo; answer_within := Some 0%nat;
|}.
Definition demo_confirm : bytes := bz [0x0e; 0xd0; 0; 0; 0x12; 0x34; 0; 2; 0; 8; 0; 2; 0; 0; 0].
Definition demo_challenge : TSRequest := set_nego (bl "NTLMSSP" ++ bz [0; 2; 9]) no_fields.

(** The value of a computation that returns. *)
Definition ok_or {A} (d : A) (r : res A) : A := match r with Ok a => a | Err _ => d end.

Definition demo_m1 : bytes := ok_or [] (@type1_message der_asn1 demo_ntlm).
Definition demo_ch : bytes := ok_or [] (@ts_get_data der_asn1 demo_challenge).
Definition demo_m3 : bytes * nat := ok_or ([], 0%nat)
  (@type3_message der_asn1 demo_ntlm (demo_route None) (u "CORP") (u "ann") (u "secret") demo_ch).
Definition demo_m5 : bytes := ok_or []
  (@credentials_message der_asn1 demo_ntlm demo_m3.2 (u "CORP") (u "ann") (u "secret")).

Lemma handshake_ignores_echo_witness :
  ∃ left, @connect_and_authenticate der_asn1 demo_ntlm ascii_upper (demo_route None) (u "ann") (u "secret") (u "corp.local")
    (Backend (bz [3; 0; 0; 19] ++ demo_confirm ++ demo_ch ++ bl "nonsense") false [])
  = (Ok tt, Backend left true [(false, opening); (true, demo_m1); (true, demo_m3.1); (true, demo_m5)]).
Proof.
  rewrite app_assoc.
  apply (@handshake_ignores_echo der_asn1 der_laws demo_ntlm ascii_upper (demo_route None) (u "ann") (u "secret")
    (u "corp.local") (u "CORP") (u "ann") demo_confirm (bz [3; 0; 0; 19] ++ demo_confirm) demo_ch demo_m1 demo_m3.1 demo_m5
    demo_challenge demo_m3.2).
  - reflexivity.
  - reflexivity.
  - intros n. reflexivity.
  - vm_compute. reflexivity.
  - vm_compute. reflexivity.
  - vm_compute. reflexivity.
  - vm_compute. discriminate.
  - vm_compute. reflexivity.
  - vm_compute. reflexivity.
  - vm_compute. reflexivity.
Defined.

Lemma credssp_message_roundtrip_witness :
  read_credssp_record readexactly (demo_ch ++ bl "next") = (Ok demo_ch, bl "next") ∧ ts_request demo_ch = Ok demo_challenge.
Proof.
  apply (@credssp_message_roundtrip der_asn1 der_laws).
  - vm_compute. reflexivity.
  - vm_compute. discriminate.
Defined.

Lemma credssp_tpkt_record_fails_witness :
  read_credssp_record readexactly ((bz [3; 0; 0; 7] ++ bl "abc") ++ bl "next") = (Err StructError, bl "abc" ++ bl "next").
Proof. apply credssp_tpkt_record_fails. vm_compute. reflexivity. Defined.
Close Scope Z_scope.
