(* ===== verification/Mcs.v ===== *)
(** MCS patching for the bridge between a TLS client and a HYBRID backend,
    [libs/rdp/mcs.py]: a packet is a [bytearray] the functions scan and patch
    in place, so a patch is a computation over the packet. *)

From stdpp Require Import prelude list.
From Stdlib Require Import ZArith Lia.
From S2P Require Import Prelude PySeq PyBytes PyStr RdpConstants X224.

Open Scope Z_scope.

(** ** The scanners *)

(** The fixed fields between the block's first 128 payload bytes and
    [serverSelectedProtocol]. *)
Definition core_fields : list nat := [2; 2; 4; 2; 2; 2; 64; 1; 1]%nat.

Fixpoint skip_fields (sizes : list nat) (pos stop : nat) : option nat :=
  match sizes with
  | [] => Some pos
  | size :: sizes' =>
      if (stop <? pos + size)%nat then None else skip_fields sizes' (pos + size) stop
  end.

Definition patch_cs_core_server_selected_protocol
    (core_payload_off core_block_len : nat) : io bytes (option nat) :=
  packet ← io_get;
  let core_payload_end := (core_payload_off + (core_block_len - 4))%nat in
  if (length packet <? core_payload_end)%nat then mret None
  else
    let pos := (core_payload_off + 128)%nat in
    if (core_payload_end <? pos)%nat then mret None
    else
      match skip_fields core_fields pos core_payload_end with
      | None => mret None
      | Some pos =>
          if (core_payload_end <? pos + 4)%nat then mret None
          else
            current ← io_lift (unpack_le_from 4 packet pos);
            _ ← (if current =? 1 then
                   packet' ← io_lift (pack_le_into 4 packet pos 2);
                   io_modify (λ _, packet')
                 else mret tt);
            mret (Some pos)
      end.

(** The loop of [patch_mcs_client] over the remaining offsets. *)
Fixpoint patch_client_from (offsets : list nat) : io bytes unit :=
  match offsets with
  | [] => mret tt
  | i :: offsets' =>
      packet ← io_get;
      block_type ← io_lift (unpack_le_from 2 packet i);
      if negb (block_type =? TS_UD_CS_CORE) then patch_client_from offsets'
      else
        block_len ← io_lift (unpack_le_from 2 packet (i + 2));
        if (block_len <? 132) || (Z.of_nat (length packet) <? Z.of_nat i + block_len)
        then patch_client_from offsets'
        else
          patched_off ← patch_cs_core_server_selected_protocol (i + 4) (Z.to_nat block_len);
          match patched_off with
          | None => patch_client_from offsets'
          | Some _ => mret tt
          end
  end.

(** The packet after a scan. *)
Definition patched (r : res unit * bytes) : res bytes := (λ _, r.2) <$> r.1.

Definition patch_mcs_client (data : bytes) : res bytes :=
  patched (patch_client_from (seq 0 (length data - 3)) data).

(** The loop of [patch_mcs_server]. *)
Fixpoint patch_server_from (target : Z) (offsets : list nat) : io bytes unit :=
  match offsets with
  | [] => mret tt
  | i :: offsets' =>
      packet ← io_get;
      block_type ← io_lift (unpack_le_from 2 packet i);
      if negb (block_type =? TS_UD_SC_CORE) then patch_server_from target offsets'
      else
        block_len ← io_lift (unpack_le_from 2 packet (i + 2));
        if (block_len <? 12) || (Z.of_nat (length packet) <? Z.of_nat i + block_len)
        then patch_server_from target offsets'
        else
          let off := (i + 8)%nat in
          current ← io_lift (unpack_le_from 4 packet off);
          if negb (current =? target) then
            packet' ← io_lift (pack_le_into 4 packet off target);
            io_modify (λ _, packet')
          else mret tt
  end.

Definition patch_mcs_server (data : bytes) (client_requested_protocols : option Z) : res bytes :=
  let target := default PROTOCOL_SSL client_requested_protocols in
  patched (patch_server_from target (seq 0 (length data - 3)) data).

(** ** What the patches are meant to do

    A block is a type, its length and its payload; the patched field is at a
    fixed offset of it. *)

Definition field (n : nat) (data : bytes) (i : nat) : Z := le_decode (slice data i (i + n)).

Definition set_field4 (data : bytes) (i : nat) (z : Z) : bytes :=
  take i data ++ le_encode 4 z ++ drop (i + 4) data.

(** A block of type [ty] of at least [min] bytes lies at [i]. *)
Definition block_at (ty min : Z) (data : bytes) (i : nat) : bool :=
  (field 2 data i =? ty) && (min <=? field 2 data (i + 2))
  && (Z.of_nat i + field 2 data (i + 2) <=? Z.of_nat (length data)).

(** The first such block. *)
Definition first_block (ty min : Z) (data : bytes) : option nat :=
  List.find (block_at ty min data) (seq 0 (length data - 3)).

Definition client_reference (data : bytes) : bytes :=
  match first_block TS_UD_CS_CORE 216 data with
  | Some i => if field 4 data (i + 212) =? 1 then set_field4 data (i + 212) 2 else data
  | None => data
  end.

Definition server_reference (target : Z) (data : bytes) : bytes :=
  match first_block TS_UD_SC_CORE 12 data with
  | Some i => if field 4 data (i + 8) =? target then data else set_field4 data (i + 8) target
  | None => data
  end.

(** ** Lemmas *)

Lemma unpack_field n data i :
  (i + n <= length data)%nat → unpack_le_from n data i = Ok (field n data i).
Proof. apply unpack_le_from_in. Qed.

Lemma pack_field data i z :
  (i + 4 <= length data)%nat → 0 <= z < 4294967296 →
  pack_le_into 4 data i z = Ok (set_field4 data i z).
Proof.
  intros H Hz. unfold pack_le_into. rewrite (proj2 (Nat.leb_le _ _) H).
  by rewrite pack_le_in.
Qed.

Lemma length_set_field4 data i z :
  (i + 4 <= length data)%nat → length (set_field4 data i z) = length data.
Proof. intros H. unfold set_field4. len. Qed.

(** A field before the patched one is not touched. *)
Lemma field_set_before n data i j z :
  (j + n <= i)%nat → (i <= length data)%nat →
  field n (set_field4 data i z) j = field n data j.
Proof.
  intros H Hi. unfold field, set_field4, slice. f_equal.
  rewrite drop_app_le by len. rewrite take_app_le by len.
  rewrite !take_drop_commute, take_take. do 2 f_equal. lia.
Qed.

Lemma field_set_same data i z :
  (i + 4 <= length data)%nat → 0 <= z < 4294967296 → field 4 (set_field4 data i z) i = z.
Proof.
  intros H Hz. unfold field, set_field4.
  replace (slice _ i (i + 4)) with (le_encode 4 z).
  - by apply le_decode_encode.
  - unfold slice. rewrite drop_app_exact by len.
    replace (i + 4 - i)%nat with 4%nat by lia. by rewrite take_app_exact by len.
Qed.

Lemma field_range data i :
  (i + 2 <= length data)%nat → 0 <= field 2 data i < 65536.
Proof.
  intros H. unfold field. pose proof (le_decode_range (slice data i (i + 2))) as Hr.
  rewrite length_slice in Hr by lia. by replace (i + 2 - i)%nat with 2%nat in Hr by lia.
Qed.

Lemma block_at_spec ty min data i :
  block_at ty min data i = true →
  field 2 data i = ty ∧ min <= field 2 data (i + 2)
  ∧ Z.of_nat i + field 2 data (i + 2) <= Z.of_nat (length data).
Proof.
  unfold block_at. rewrite !andb_true_iff, Z.eqb_eq, !Z.leb_le. tauto.
Qed.

(** Searching the offsets in order finds the smallest. *)
Lemma find_seq_Some (f : nat → bool) s n i :
  List.find f (seq s n) = Some i ↔
    (s <= i < s + n)%nat ∧ f i = true ∧ ∀ j, (s <= j < i)%nat → f j = false.
Proof.
  revert s; induction n as [|n IH]; intros s; simpl.
  - split; [discriminate | lia].
  - destruct (f s) eqn:E.
    + split.
      * intros [= <-]. split; [lia|]. split; [done|]. lia.
      * intros (H & Hi & Hj). f_equal. destruct (decide (s = i)) as [|Hn]; [done|].
        rewrite Hj in E by lia. discriminate.
    + rewrite IH. split.
      * intros (H & Hi & Hj). split; [lia|]. split; [done|]. intros j Hl.
        destruct (decide (j = s)) as [->|]; [done | apply Hj; lia].
      * intros (H & Hi & Hj). split.
        { destruct (decide (s = i)) as [->|]; [congruence | lia]. }
        split; [done|]. intros j Hl. apply Hj. lia.
Qed.

(** A patch at an offset of the first block beyond its header leaves it the
    first block. *)
Lemma first_block_patched ty min data i k z :
  first_block ty min data = Some i → (i + 4 <= k)%nat → (k + 4 <= length data)%nat →
  first_block ty min (set_field4 data k z) = Some i.
Proof.
  intros Hf Hk Hl. revert Hf. unfold first_block.
  rewrite !find_seq_Some, length_set_field4 by done. intros (Hi & Ht & Hj). split; [done|].
  assert (∀ j, (j <= i)%nat →
    block_at ty min (set_field4 data k z) j = block_at ty min data j) as Heq.
  { intros j Hji. unfold block_at.
    by rewrite !field_set_before, length_set_field4 by lia. }
  split; [by rewrite Heq|]. intros j Hlt. rewrite Heq by lia. apply Hj. lia.
Qed.

(** ** The scanners compute the reference *)

Lemma skip_core_fields pos stop :
  skip_fields core_fields pos stop
  = if (pos + 80 <=? stop)%nat then Some (pos + 80)%nat else None.
Proof.
  unfold core_fields. cbn [skip_fields].
  repeat match goal with
  | |- context [(?a <? ?b)%nat] => destruct (Nat.ltb_spec a b)
  end; destruct (Nat.leb_spec (pos + 80) stop); try lia; try done.
  f_equal. lia.
Qed.

(** The field writer, on a block of [n] bytes that the packet holds. *)
Lemma patch_core_run packet i n :
  (132 <= n)%nat → (i + n <= length packet)%nat →
  patch_cs_core_server_selected_protocol (i + 4) n packet
  = if (216 <=? n)%nat
    then (Ok (Some (i + 212)%nat),
          if field 4 packet (i + 212) =? 1 then set_field4 packet (i + 212) 2 else packet)
    else (Ok None, packet).
Proof.
  intros Hn Hlen. unfold patch_cs_core_server_selected_protocol. unfold_io.
  rewrite (proj2 (Nat.ltb_ge _ _)) by lia. rewrite (proj2 (Nat.ltb_ge _ _)) by lia.
  rewrite skip_core_fields.
  destruct (Nat.leb_spec (i + 4 + 128 + 80) (i + 4 + (n - 4))) as [H|H].
  2: { by rewrite (proj2 (Nat.leb_gt _ _)) by lia. }
  destruct (Nat.ltb_spec (i + 4 + (n - 4)) (i + 4 + 128 + 80 + 4)).
  { by rewrite (proj2 (Nat.leb_gt _ _)) by lia. }
  rewrite (proj2 (Nat.leb_le _ _)) by lia.
  replace (i + 4 + 128 + 80)%nat with (i + 212)%nat by lia.
  rewrite unpack_field by lia. destruct (field 4 packet (i + 212) =? 1); [|done].
  by rewrite pack_field by lia.
Qed.

Lemma patch_client_from_spec data offsets :
  Forall (λ i, (i + 4 <= length data)%nat) offsets →
  patch_client_from offsets data
  = (Ok tt, match List.find (block_at TS_UD_CS_CORE 216 data) offsets with
            | Some i => if field 4 data (i + 212) =? 1
                        then set_field4 data (i + 212) 2 else data
            | None => data
            end).
Proof.
  induction 1 as [|i offsets Hi _ IH]; [done|].
  cbn [patch_client_from List.find]. unfold_io. rewrite unpack_field by lia.
  unfold block_at at 1. destruct (field 2 data i =? TS_UD_CS_CORE); simpl; [|exact IH].
  rewrite unpack_field by lia. pose proof (field_range data (i + 2) ltac:(lia)) as Hr.
  destruct (Z.ltb_spec (field 2 data (i + 2)) 132); simpl.
  { rewrite (proj2 (Z.leb_gt _ _)) by lia. exact IH. }
  destruct (Z.ltb_spec (Z.of_nat (length data)) (Z.of_nat i + field 2 data (i + 2))); simpl.
  { rewrite (proj2 (Z.leb_gt (_ + _) _)) by lia. rewrite andb_false_r. exact IH. }
  rewrite (proj2 (Z.leb_le (_ + _) _)) by lia. rewrite andb_true_r.
  rewrite patch_core_run by lia.
  destruct (Z.leb_spec 216 (field 2 data (i + 2))).
  - by rewrite (proj2 (Nat.leb_le _ _)) by lia.
  - rewrite (proj2 (Nat.leb_gt _ _)) by lia. exact IH.
Qed.

Lemma patch_server_from_spec data target offsets :
  0 <= target < 4294967296 →
  Forall (λ i, (i + 4 <= length data)%nat) offsets →
  patch_server_from target offsets data
  = (Ok tt, match List.find (block_at TS_UD_SC_CORE 12 data) offsets with
            | Some i => if field 4 data (i + 8) =? target
                        then data else set_field4 data (i + 8) target
            | None => data
            end).
Proof.
  intros Ht. induction 1 as [|i offsets Hi _ IH]; [done|].
  cbn [patch_server_from List.find]. unfold_io. rewrite unpack_field by lia.
  unfold block_at at 1. destruct (field 2 data i =? TS_UD_SC_CORE); simpl; [|exact IH].
  rewrite unpack_field by lia. pose proof (field_range data (i + 2) ltac:(lia)) as Hr.
  destruct (Z.ltb_spec (field 2 data (i + 2)) 12); simpl.
  { rewrite (proj2 (Z.leb_gt _ _)) by lia. exact IH. }
  rewrite (proj2 (Z.leb_le 12 _)) by lia. simpl.
  destruct (Z.ltb_spec (Z.of_nat (length data)) (Z.of_nat i + field 2 data (i + 2))); simpl.
  { rewrite (proj2 (Z.leb_gt (_ + _) _)) by lia. exact IH. }
  rewrite (proj2 (Z.leb_le (_ + _) _)) by lia. rewrite unpack_field by lia.
  destruct (field 4 data (i + 8) =? target); simpl; [done|].
  by rewrite pack_field by lia.
Qed.

Lemma offsets_in (data : bytes) :
  Forall (λ i, (i + 4 <= length data)%nat) (seq 0 (length data - 3)).
Proof. apply Forall_seq. lia. Qed.

Lemma patch_mcs_client_Ok data : patch_mcs_client data = Ok (client_reference data).
Proof.
  unfold patch_mcs_client. by rewrite patch_client_from_spec by apply offsets_in.
Qed.

Lemma patch_mcs_server_Ok data crp :
  0 <= default PROTOCOL_SSL crp < 4294967296 →
  patch_mcs_server data crp = Ok (server_reference (default PROTOCOL_SSL crp) data).
Proof.
  intros H. unfold patch_mcs_server. by rewrite patch_server_from_spec by (done || apply offsets_in).
Qed.

Lemma first_block_in ty min data i :
  first_block ty min data = Some i →
  (i + 4 <= length data)%nat ∧ Z.of_nat i + min <= Z.of_nat (length data).
Proof.
  unfold first_block. rewrite find_seq_Some. intros (Hi & Hb & _).
  apply block_at_spec in Hb as (_ & Hm & Hl). split; lia.
Qed.

Lemma length_client_reference data : length (client_reference data) = length data.
Proof.
  unfold client_reference. destruct (first_block _ _ data) as [i|] eqn:E; [|done].
  apply first_block_in in E as [H1 H2].
  destruct (field 4 data (i + 212) =? 1); [|done]. apply length_set_field4. lia.
Qed.

Lemma length_server_reference target data :
  length (server_reference target data) = length data.
Proof.
  unfold server_reference. destruct (first_block _ _ data) as [i|] eqn:E; [|done].
  apply first_block_in in E as [H1 H2].
  destruct (field 4 data (i + 8) =? target); [done|]. apply length_set_field4. lia.
Qed.

Lemma client_reference_idem data :
  client_reference (client_reference data) = client_reference data.
Proof.
  unfold client_reference at 2 3. destruct (first_block _ _ data) as [i|] eqn:E.
  2: { unfold client_reference. by rewrite E. }
  pose proof (first_block_in _ _ _ _ E) as [H1 H2].
  destruct (field 4 data (i + 212) =? 1) eqn:F; unfold client_reference.
  - rewrite (first_block_patched _ _ _ i) by (done || lia).
    by rewrite field_set_same by lia.
  - by rewrite E, F.
Qed.

Lemma server_reference_idem target data :
  0 <= target < 4294967296 →
  server_reference target (server_reference target data) = server_reference target data.
Proof.
  intros Ht. unfold server_reference at 2 3. destruct (first_block _ _ data) as [i|] eqn:E.
  2: { unfold server_reference. by rewrite E. }
  pose proof (first_block_in _ _ _ _ E) as [H1 H2].
  destruct (field 4 data (i + 8) =? target) eqn:F; unfold server_reference.
  - by rewrite E, F.
  - rewrite (first_block_patched _ _ _ i) by (done || lia).
    by rewrite field_set_same, Z.eqb_refl by lia.
Qed.

(** ** Properties *)

(** C31: on every packet the client-side scan finds the first core block that
    holds [serverSelectedProtocol] and turns TLS into HYBRID there; nothing else
    of the packet changes, and the function never raises. *)
Theorem patch_mcs_client_reference (data : bytes) :
  patch_mcs_client data = Ok (client_reference data)
  ∧ length (client_reference data) = length data
  ∧ patch_mcs_client (client_reference data) = Ok (client_reference data).
Proof.
  rewrite !patch_mcs_client_Ok, client_reference_idem.
  split; [done|]. split; [apply length_client_reference | done].
Qed.

(** With the flags the relay took from the client's own request, the
    server-side patch writes exactly those flags into the first server core
    block, keeps the packet's length, is idempotent and never raises. *)
Theorem patch_mcs_server_reference (x224_payload data : bytes) :
  ∃ crp, extract_requested_protocols x224_payload = Ok crp
    ∧ patch_mcs_server data (Some crp) = Ok (server_reference crp data)
    ∧ length (server_reference crp data) = length data
    ∧ patch_mcs_server (server_reference crp data) (Some crp) = Ok (server_reference crp data).
Proof.
  destruct (extract_requested_protocols_Ok x224_payload) as (crp & Hc & Hr).
  exists crp. split; [done|]. rewrite !patch_mcs_server_Ok by done. simpl default.
  rewrite server_reference_idem by done.
  split; [done|]. split; [apply length_server_reference | done].
Qed.
Close Scope Z_scope.
