(* ===== verification/ProxyProtocol.v ===== *)
(** The PROXY protocol header that HAProxy puts in front of a connection,
    [libs/proxy_protocol/parser.py]: versions 1 (text) and 2 (binary). *)

From stdpp Require Import prelude list.
From Stdlib Require Import ZArith Lia.
From S2P Require Import Prelude PySeq PyBytes PyStr Stream.

Open Scope Z_scope.

(** ** [str(ipaddress.IPv6Address(l))] of the standard library *)

Definition hex_digit (n : N) : N := (if n <? 10 then 48 + n else 87 + n)%N.

(** ["%x"] of a 16-bit integer. *)
Definition hextet (z : Z) : str :=
  let n := Z.to_N z in
  if (n <? 16)%N then [hex_digit n]
  else if (n <? 256)%N then [hex_digit (n / 16); hex_digit (n mod 16)]
  else if (n <? 4096)%N then
    [hex_digit (n / 256); hex_digit ((n / 16) mod 16); hex_digit (n mod 16)]
  else
    [hex_digit (n / 4096); hex_digit ((n / 256) mod 16); hex_digit ((n / 16) mod 16);
     hex_digit (n mod 16)].

Fixpoint hextets (l : bytes) : list str :=
  match l with
  | a :: b :: l' => hextet (b2z a * 256 + b2z b) :: hextets l'
  | _ => []
  end.

(** The first of the longest runs of ["0"]: its start and its length. *)
Fixpoint longest_zeros (l : list str) (index best_start best_len start run : nat) : nat * nat :=
  match l with
  | [] => (best_start, best_len)
  | h :: l' =>
      if bool_decide (h = u "0") then
        let start' := if (run =? 0)%nat then index else start in
        let run' := S run in
        if (best_len <? run')%nat
        then longest_zeros l' (S index) start' run' start' run'
        else longest_zeros l' (S index) best_start best_len start' run'
      else longest_zeros l' (S index) best_start best_len start 0
  end.

Definition compress_hextets (l : list str) : list str :=
  let '(start, n) := longest_zeros l 0 0 0 0 0 in
  if (1 <? n)%nat then
    let stop := (start + n)%nat in
    let l' := if (stop =? length l)%nat then l ++ [[]] else l in
    let l'' := take start l' ++ [[]] ++ drop stop l' in
    if (start =? 0)%nat then [] :: l'' else l''
  else l.

Definition ipv6_str (l : bytes) : str := join_with (u ":") (compress_hextets (hextets l)).

(** ** The parser *)

Definition PP_V2_SIGNATURE : bytes := bz [13; 10; 13; 10; 0; 13; 10; 0x51; 0x55; 0x49; 0x54; 10].
Definition PP_V1_PREFIX : bytes := bl "PROXY ".

Record ProxyInfo : Type := mkProxyInfo {
  src_addr : str;
  src_port : Z;
  dst_addr : str;
  dst_port : Z;
  version : Z;
}.

(** [".".join(str(b) for b in l)] *)
Definition ipv4_str (l : bytes) : str := join_with (u ".") (map (λ b, str_of_Z (b2z b)) l).

(** What the address block of a version 2 header says. *)
Definition v2_info (ver_cmd family : Z) (addr_data : bytes) : res ProxyInfo :=
  let ver := Z.land (Z.shiftr ver_cmd 4) 0x0F in
  let cmd := Z.land ver_cmd 0x0F in
  if negb (ver =? 2) then Err ValueError
  else if cmd =? 0 then Ok (mkProxyInfo (u "local") 0 (u "local") 0 2)
  else
    let af := Z.land (Z.shiftr family 4) 0x0F in
    if af =? 1 then
      if (length addr_data <? 12)%nat then Err ValueError
      else
        let src_ip := ipv4_str (slice addr_data 0 4) in
        let dst_ip := ipv4_str (slice addr_data 4 8) in
        sp ← unpack_be 2 (slice addr_data 8 10);
        dp ← unpack_be 2 (slice addr_data 10 12);
        Ok (mkProxyInfo src_ip sp dst_ip dp 2)
    else if af =? 2 then
      if (length addr_data <? 36)%nat then Err ValueError
      else
        let src_ip := ipv6_str (slice addr_data 0 16) in
        let dst_ip := ipv6_str (slice addr_data 16 32) in
        sp ← unpack_be 2 (slice addr_data 32 34);
        dp ← unpack_be 2 (slice addr_data 34 36);
        Ok (mkProxyInfo src_ip sp dst_ip dp 2)
    else Err ValueError.

Definition parse_v2 (initial : bytes) : io bytes ProxyInfo :=
  more ← readexactly 3;
  let header := initial ++ more in
  ver_cmd ← io_lift (b2z <$> (header !! 12%nat ?? IndexError));
  family ← io_lift (b2z <$> (header !! 13%nat ?? IndexError));
  addr_len ← io_lift (unpack_be 2 (slice header 14 16));
  addr_data ← (if 0 <? addr_len then readexactly addr_len else mret []);
  io_lift (v2_info ver_cmd family addr_data).

(** The [while] loop that reads the rest of a text header byte by byte. A pass
    adds a byte and 512 is the limit, so [513] passes are never exceeded
    ([read_line_fuel]). *)
Fixpoint read_line (fuel : nat) (buf : bytes) : io bytes bytes :=
  match fuel with
  | O => io_raise OtherError
  | S fuel' =>
      if contains (bz [13; 10]) buf then mret buf
      else
        chunk ← readexactly 1;
        let buf := buf ++ chunk in
        if (512 <? length buf)%nat then io_raise ValueError
        else read_line fuel' buf
  end.

Definition parse_v1 (initial : bytes) : io bytes ProxyInfo :=
  buf ← read_line 513 initial;
  line_end ← io_lift (find (bz [13; 10]) buf 0 ?? ValueError);
  line ← io_lift (ascii_decode (slice buf 0 line_end));
  let parts := split_ws line in
  if (length parts <? 6)%nat then io_raise ValueError
  else
    src ← io_lift (parts !! 2%nat ?? IndexError);
    sp ← io_lift ((parts !! 4%nat ?? IndexError) ≫= λ p, int_of_str p ?? ValueError);
    dst ← io_lift (parts !! 3%nat ?? IndexError);
    dp ← io_lift ((parts !! 5%nat ?? IndexError) ≫= λ p, int_of_str p ?? ValueError);
    mret (mkProxyInfo src sp dst dp 1).

Definition read_proxy_protocol : io bytes ProxyInfo :=
  peeked ← readexactly 13;
  if bool_decide (slice peeked 0 12 = PP_V2_SIGNATURE) then parse_v2 peeked
  else if bool_decide (slice peeked 0 6 = PP_V1_PREFIX) then parse_v1 peeked
  else io_raise ValueError.

(** ** The headers a proxy sends *)

(** A version 2 header for TCP over IPv4 or IPv6. *)
Definition pp2_header (family : Z) (addresses : bytes) (sp dp : Z) : bytes :=
  PP_V2_SIGNATURE ++ bz [0x21; family]
    ++ be_encode 2 (Z.of_nat (length addresses) + 4)
    ++ addresses ++ be_encode 2 sp ++ be_encode 2 dp.

(** A version 1 header. *)
Definition pp1_header (family src dst : str) (sp dp : N) : str :=
  u "PROXY " ++ family ++ u " " ++ src ++ u " " ++ dst ++ u " "
    ++ str_of_N sp ++ u " " ++ str_of_N dp ++ [13; 10]%N.

Example ipv6_str_run :
  map (λ l, ipv6_str (bz l)) [
    [0x20; 1; 0x0d; 0xb8; 0; 0; 0; 0; 0; 0; 0; 0; 0; 0; 0; 1];
    [0; 0; 0; 0; 0; 0; 0; 0; 0; 0; 0; 0; 0; 0; 0; 1];
    [0; 0; 0; 0; 0; 0; 0; 0; 0; 0; 0; 0; 0; 0; 0; 0];
    [0xfe; 0x80; 0; 0; 0; 1; 0; 0; 0; 0; 0; 1; 0; 0; 0; 0]]
  = [u "2001:db8::1"; u "::1"; u "::"; u "fe80:0:1::1:0:0"].
Proof. vm_compute. reflexivity. Qed.

(** ** Lemmas *)

(** A field at a fixed offset of a concatenation. *)
Lemma slice_app_at {A} (l k p : list A) i j :
  i = length l → j = (length l + length k)%nat → slice (l ++ k ++ p) i j = k.
Proof. intros -> ->. apply slice_app_mid. Qed.

Lemma unpack_be_slice l n z p i j :
  0 <= z < 256 ^ Z.of_nat n → i = length l → j = (length l + n)%nat →
  unpack_be n (slice (l ++ be_encode n z ++ p) i j) = Ok z.
Proof.
  intros Hz -> ->. rewrite (slice_app_at l) by len. by apply unpack_be_encode.
Qed.

(** A stream that starts with neither prefix: thirteen bytes are gone. *)
Lemma read_proxy_protocol_other s :
  (13 <= length s)%nat → take 12 s ≠ PP_V2_SIGNATURE → take 6 s ≠ PP_V1_PREFIX →
  read_proxy_protocol s = (Err ValueError, drop 13 s).
Proof.
  intros Hl H2 H1. unfold read_proxy_protocol. unfold_io.
  rewrite readexactly_in by lia. change (Z.to_nat 13) with 13%nat. unfold slice.
  rewrite !drop_0, !take_take. cbn [Nat.sub Nat.min].
  by rewrite !bool_decide_eq_false_2.
Qed.

(** The binary parser on the sixteen bytes of a header and what follows. *)
Lemma read_proxy_protocol_v2 vc fam h l s :
  read_proxy_protocol (PP_V2_SIGNATURE ++ [vc; fam; h; l] ++ s)
  = match (if 0 <? be_decode [h; l] then readexactly (be_decode [h; l]) s else (Ok [], s)) with
    | (Ok data, rest) => (v2_info (b2z vc) (b2z fam) data, rest)
    | (Err e, rest) => (Err e, rest)
    end.
Proof.
  unfold read_proxy_protocol.
  change (PP_V2_SIGNATURE ++ [vc; fam; h; l] ++ s)
    with ((PP_V2_SIGNATURE ++ [vc]) ++ [fam; h; l] ++ s).
  rewrite io_bind_run, readexactly_app by done.
  rewrite bool_decide_eq_true_2 by done. unfold parse_v2.
  rewrite io_bind_run, readexactly_app by done.
  change ((PP_V2_SIGNATURE ++ [vc]) ++ [fam; h; l]) with (PP_V2_SIGNATURE ++ [vc; fam; h; l]).
  change (slice (PP_V2_SIGNATURE ++ [vc; fam; h; l]) 14 16) with [h; l].
  rewrite unpack_be_exact by done. unfold_io. cbn.
  by destruct (0 <? _).
Qed.

Lemma v2_info_addresses (v6 : bool) src dst sp dp :
  let n := if v6 then 16%nat else 4%nat in
  length src = n → length dst = n → 0 <= sp < 65536 → 0 <= dp < 65536 →
  v2_info 0x21 (if v6 then 0x21 else 0x11) ((src ++ dst) ++ be_encode 2 sp ++ be_encode 2 dp)
  = let fmt := if v6 then ipv6_str else ipv4_str in
    Ok (mkProxyInfo (fmt src) sp (fmt dst) dp 2).
Proof.
  intros n Hs Hd Hsp Hdp. set (data := (src ++ dst) ++ be_encode 2 sp ++ be_encode 2 dp).
  assert (length data = 2 * n + 4)%nat as Hl by (unfold data; len).
  assert (slice data 0 n = src) as E1.
  { unfold data. rewrite <- app_assoc. by apply (slice_app_at []). }
  assert (slice data n (2 * n) = dst) as E2.
  { unfold data. rewrite <- app_assoc. apply (slice_app_at src); len. }
  assert (unpack_be 2 (slice data (2 * n) (2 * n + 2)) = Ok sp) as E3
    by (apply unpack_be_slice; [done | len | len]).
  assert (unpack_be 2 (slice data (2 * n + 2) (2 * n + 4)) = Ok dp) as E4.
  { unfold data. rewrite app_assoc, <- (app_nil_r (be_encode 2 dp)).
    apply unpack_be_slice; [done | len | len]. }
  destruct v6; unfold n in *; cbn [Nat.mul Nat.add] in E1, E2, E3, E4, Hl; unfold v2_info;
    change (Z.land (Z.shiftr 0x21 4) 0x0F) with 2; change (Z.land 0x21 0x0F) with 1;
    change (Z.land (Z.shiftr 0x11 4) 0x0F) with 1; cbn [negb Z.eqb Pos.eqb];
    rewrite (proj2 (Nat.ltb_ge _ _)) by lia; by rewrite E1, E2, E3, E4.
Qed.

(** No proper prefix of a line contains the end of line. *)
Lemma contains_crlf_prefix (line buf tail : bytes) :
  z2b 13 ∉ line → line ++ bz [13; 10] = buf ++ tail → tail ≠ [] →
  contains (bz [13; 10]) buf = false.
Proof.
  intros Hcr Heq Hne. unfold contains.
  destruct (find (bz [13; 10]) buf 0) as [i|] eqn:E; [|done].
  pose proof (find_bound _ _ _ E) as Hb. simpl in Hb.
  apply find_Some in E as ([k Hk] & _ & _).
  pose proof (find_after (z2b 13) [z2b 10] line [] Hcr) as Hf. rewrite app_nil_r in Hf.
  apply find_Some in Hf as (_ & _ & Hmin).
  assert (length line + 2 = length buf + length tail)%nat as Hlen.
  { apply (f_equal length) in Heq. rewrite !length_app in Heq. exact Heq. }
  assert (length tail ≠ 0%nat) by by destruct tail.
  destruct (Hmin i ltac:(lia)). exists (k ++ tail).
  change ([z2b 13; z2b 10]) with (bz [13; 10]). rewrite Heq, drop_app_le, Hk by lia.
  by rewrite <- app_assoc.
Qed.

Lemma contains_crlf_end (line : bytes) :
  z2b 13 ∉ line → find (bz [13; 10]) (line ++ bz [13; 10]) 0 = Some (length line).
Proof.
  intros H. pose proof (find_after (z2b 13) [z2b 10] line [] H) as Hf.
  by rewrite app_nil_r in Hf.
Qed.

(** The loop stops right after the end of the line. *)
Lemma read_line_spec line tail buf rest fuel :
  z2b 13 ∉ line → line ++ bz [13; 10] = buf ++ tail →
  (length line + 2 <= 512)%nat → (length tail < fuel)%nat →
  read_line fuel buf (tail ++ rest) = (Ok (line ++ bz [13; 10]), rest).
Proof.
  intros Hcr. revert buf fuel. induction tail as [|b tail IH]; intros buf fuel Heq Hl Hf.
  - destruct fuel as [|fuel]; [simpl in Hf; lia|]. rewrite app_nil_r in Heq. subst buf.
    simpl read_line. unfold contains. by rewrite contains_crlf_end.
  - destruct fuel as [|fuel]; [simpl in Hf; lia|]. cbn [read_line].
    rewrite (contains_crlf_prefix line buf (b :: tail)) by done.
    rewrite io_bind_run. change ((b :: tail) ++ rest) with ([b] ++ tail ++ rest).
    rewrite readexactly_app by done. cbv zeta.
    assert (length line + 2 = length buf + S (length tail))%nat as Hlen.
    { apply (f_equal length) in Heq. rewrite !length_app in Heq. exact Heq. }
    rewrite (proj2 (Nat.ltb_ge _ _)) by len.
    apply IH; [by rewrite Heq, <- app_assoc | done | simpl in Hf; lia].
Qed.

(** More passes than the limit leaves room for change nothing. *)
Lemma read_line_enough fuel buf s :
  (513 <= fuel + length buf)%nat → (0 < fuel)%nat →
  ∀ e s', read_line fuel buf s = (Err e, s') →
  (e = ValueError ∨ e = IncompleteReadError) ∧ s' `suffix_of` s.
Proof.
  revert buf s; induction fuel as [|fuel IH]; intros buf s Hf H0 e s'; [lia|].
  cbn [read_line]. destruct (contains _ buf); [discriminate|].
  rewrite io_bind_run. unfold readexactly. cbn [Z.ltb].
  change (1 <? 0) with false. cbv iota. destruct (Z.leb_spec 1 (Z.of_nat (length s))) as [Hl|Hl].
  2: { intros [= <- <-]. split; [by right | apply suffix_nil]. }
  cbv zeta. change (Z.to_nat 1) with 1%nat. destruct s as [|b s]; [simpl in Hl; lia|].
  cbn [take drop]. rewrite take_0, drop_0, length_app. cbn [length].
  destruct (Nat.ltb_spec 512 (length buf + 1)).
  { unfold io_raise. intros [= <- <-]. split; [by left | by exists [b]]. }
  intros He. apply IH in He as [? Hs]; [split; [done | by apply suffix_cons_r] | len | len].
Qed.

Lemma read_line_Ok fuel buf s r s' :
  read_line fuel buf s = (Ok r, s') →
  s' `suffix_of` s ∧ ∃ i, find (bz [13; 10]) r 0 = Some i.
Proof.
  revert buf s; induction fuel as [|fuel IH]; intros buf s; [discriminate|].
  cbn [read_line]. unfold contains. destruct (find _ buf 0) as [i|] eqn:E.
  - intros [= <- <-]. split; [done | by exists i].
  - rewrite io_bind_run. pose proof (readexactly_suffix 1 s) as Hs.
    destruct (readexactly 1 s) as [[c|e] s1]; [|discriminate]. cbv zeta.
    destruct (512 <? _)%nat; [discriminate|]. intros [H1 H2]%IH.
    split; [by etransitivity | done].
Qed.

Lemma word_str_of_N n : word (str_of_N n).
Proof.
  split; [apply str_of_N_ne|]. eapply Forall_impl; [apply str_of_N_range|].
  intros c Hc. simpl in Hc. split; [by apply digit_not_space | lia].
Qed.

(** The bytes of an ASCII string. *)
Definition ascii_bytes (s : str) : bytes := map n_byte s.

Lemma ascii_bytes_decode s :
  Forall (λ c, c < 128)%N s → ascii_decode (ascii_bytes s) = Ok s.
Proof.
  intros H. rewrite ascii_decode_Ok.
  - f_equal. unfold ascii_bytes. induction H as [|c s Hc _ IH]; simpl; [done|].
    rewrite byte_n_of by lia. by f_equal.
  - apply Forall_fmap. eapply Forall_impl; [exact H|]. intros c Hc. simpl in *.
    by rewrite byte_n_of by lia.
Qed.

Lemma ascii_bytes_no_cr s :
  Forall (λ c, c < 128 ∧ c ≠ 13)%N s → z2b 13 ∉ ascii_bytes s.
Proof.
  intros H Hin. apply list_elem_of_fmap in Hin as (c & Hc & Hi).
  rewrite Forall_forall in H. destruct (H c Hi) as [H1 H2]. apply H2.
  rewrite <- (byte_n_of c) by lia. by rewrite <- Hc.
Qed.

Lemma word_ascii s : word s → Forall (λ c, c < 128 ∧ c ≠ 13)%N s.
Proof.
  intros [_ H]. eapply Forall_impl; [exact H|]. intros c [Hs Hc]. split; [done|].
  intros ->. discriminate.
Qed.

Lemma size_port n : (n < 65536)%N → (N.size_nat n < 4300)%nat.
Proof. intros H. pose proof (size_nat_le n 16 H). lia. Qed.

(** The words of a header's line. *)
Definition pp1_line (family src dst : str) (sp dp : N) : str :=
  u "PROXY" ++ u " " ++ family ++ u " " ++ src ++ u " " ++ dst ++ u " "
    ++ str_of_N sp ++ u " " ++ str_of_N dp.

Lemma pp1_header_line family src dst sp dp :
  pp1_header family src dst sp dp = pp1_line family src dst sp dp ++ [13; 10]%N.
Proof.
  unfold pp1_header, pp1_line. change (u "PROXY ") with (u "PROXY" ++ u " ").
  by rewrite <- !app_assoc.
Qed.

Lemma pp1_line_words family src dst sp dp :
  word family → word src → word dst →
  split_ws (pp1_line family src dst sp dp)
  = [u "PROXY"; family; src; dst; str_of_N sp; str_of_N dp].
Proof.
  intros Hf Hs Hd. unfold pp1_line.
  rewrite !split_ws_words, split_ws_last; auto using word_str_of_N.
  split; [done | repeat constructor].
Qed.

Lemma pp1_line_ascii family src dst sp dp :
  word family → word src → word dst →
  Forall (λ c, c < 128 ∧ c ≠ 13)%N (pp1_line family src dst sp dp).
Proof.
  intros Hf Hs Hd. unfold pp1_line. rewrite !Forall_app.
  assert (Forall (λ c, c < 128 ∧ c ≠ 13)%N (u " ")) by by repeat constructor.
  assert (Forall (λ c, c < 128 ∧ c ≠ 13)%N (u "PROXY")) by by repeat constructor.
  repeat split; auto using word_ascii, word_str_of_N.
Qed.

Lemma read_proxy_protocol_v1 family src dst sp dp rest :
  word family → word src → word dst → (sp < 65536)%N → (dp < 65536)%N →
  (length (pp1_header family src dst sp dp) <= 512)%nat →
  read_proxy_protocol (ascii_bytes (pp1_header family src dst sp dp) ++ rest)
  = (Ok (mkProxyInfo src (Z.of_N sp) dst (Z.of_N dp) 1), rest).
Proof.
  intros Hf Hs Hd Hsp Hdp Hl.
  pose proof (pp1_line_ascii family src dst sp dp Hf Hs Hd) as Ha.
  pose proof (pp1_line_words family src dst sp dp Hf Hs Hd) as Hw.
  rewrite pp1_header_line in *. set (l := pp1_line family src dst sp dp) in *.
  set (line := ascii_bytes l).
  assert (ascii_bytes (l ++ [13; 10]%N) = line ++ bz [13; 10]) as -> by apply map_app.
  assert (∃ h t, line ++ bz [13; 10] = h ++ t ∧ length h = 13%nat ∧ take 6 h = PP_V1_PREFIX
                 ∧ (length t <= 500)%nat) as (h & t & Eht & Hh & Hp & Ht).
  { exists (take 13 (line ++ bz [13; 10])), (drop 13 (line ++ bz [13; 10])).
    assert (length line = length l) as Hll by apply length_map.
    assert (13 <= length l)%nat.
    { unfold l, pp1_line. pose proof (str_of_N_ne sp). pose proof (str_of_N_ne dp).
      destruct Hf as [Hf _], Hs as [Hs _], Hd as [Hd _]. rewrite !length_app.
      destruct family, src, dst, (str_of_N sp), (str_of_N dp); try done. simpl. lia. }
    rewrite take_drop. split; [done|]. split; [len|].
    split; [|rewrite length_app in Hl; len].
    rewrite take_take. simpl Nat.min. unfold line, l, pp1_line, ascii_bytes.
    rewrite app_assoc, map_app. reflexivity. }
  unfold read_proxy_protocol. rewrite io_bind_run, Eht, <- app_assoc, readexactly_app by lia.
  unfold slice. rewrite !drop_0. cbn [Nat.sub].
  assert (take 12 h ≠ PP_V2_SIGNATURE) as Hn.
  { intros E. apply (f_equal (take 6)) in E. rewrite take_take in E. cbn [Nat.min] in E.
    rewrite Hp in E. discriminate. }
  rewrite bool_decide_eq_false_2, bool_decide_eq_true_2 by done.
  unfold parse_v1. rewrite io_bind_run.
  assert (z2b 13 ∉ line) as Hcr by by apply ascii_bytes_no_cr.
  rewrite (read_line_spec line t h rest 513 Hcr Eht)
    by (try lia; rewrite length_app in Hl; unfold line, ascii_bytes; rewrite length_map; exact Hl).
  unfold_io. rewrite contains_crlf_end by done. cbn [or_raise]. cbv iota beta.
  unfold slice. rewrite drop_0, Nat.sub_0_r, take_app_length. unfold line.
  rewrite ascii_bytes_decode by (eapply Forall_impl; [exact Ha|]; by intros ? []).
  cbv zeta. rewrite Hw. cbn [length Nat.ltb Nat.leb lookup list_lookup or_raise res_bind].
  by rewrite !int_of_str_of_N by by apply size_port.
Qed.

(** A parser step that fails with an error of the class keeps the class. *)
Lemma v2_info_errors vc fam data e : v2_info vc fam data = Err e → e = ValueError.
Proof.
  unfold v2_info. intros H.
  repeat (res_case_in H; try congruence);
    match goal with E : (length _ <? _)%nat = false |- _ => apply Nat.ltb_ge in E end;
    rewrite !unpack_be_exact in H by len; discriminate.
Qed.

Lemma parse_v2_errors initial s e s' :
  length initial = 13%nat → parse_v2 initial s = (Err e, s') →
  e = ValueError ∨ e = IncompleteReadError.
Proof.
  intros Hl. unfold parse_v2. rewrite io_bind_run.
  destruct (Z.le_gt_cases 3 (Z.of_nat (length s))).
  2: { rewrite readexactly_short by lia. intros [= <- <-]. by right. }
  rewrite readexactly_in by lia. set (header := initial ++ _).
  assert (length header = 16%nat) as Hh by (unfold header; len).
  destruct (lookup_lt_is_Some_2 header 12) as [b12 E12]; [lia|].
  destruct (lookup_lt_is_Some_2 header 13) as [b13 E13]; [lia|].
  unfold_io. cbv zeta. rewrite E12, E13, unpack_be_exact by len. cbn [or_raise fmap res_fmap].
  set (n := be_decode _). destruct (0 <? n).
  - destruct (readexactly n _) as [[d|e'] s1] eqn:E.
    + intros [= He <-]. left. by eapply v2_info_errors.
    + intros [= <- <-]. unfold readexactly in E. repeat res_case_in E; naive_solver.
  - intros [= He <-]. left. by eapply v2_info_errors.
Qed.

Lemma ascii_decode_errors l e : ascii_decode l = Err e → e = UnicodeError.
Proof.
  induction l as [|b l IH]; simpl; [discriminate|].
  destruct (byte_n b <? 128)%N; [|congruence].
  destruct (ascii_decode l); simpl; [discriminate | intros [= ->]; by apply IH].
Qed.

Lemma parse_v1_errors initial s e s' :
  parse_v1 initial s = (Err e, s') →
  e = ValueError ∨ e = UnicodeError ∨ e = IncompleteReadError.
Proof.
  unfold parse_v1. rewrite io_bind_run.
  destruct (read_line 513 initial s) as [[buf|e'] s1] eqn:E.
  2: { intros [= <- <-]. apply read_line_enough in E as [[|] _]; auto; lia. }
  apply read_line_Ok in E as [_ [i Ei]]. unfold_io. rewrite Ei. cbn [or_raise].
  destruct (ascii_decode _) as [line|e'] eqn:Ed.
  2: { intros [= <- <-]. right. left. by eapply ascii_decode_errors. }
  cbv zeta. set (parts := split_ws line).
  destruct (length parts <? 6)%nat eqn:Hl; [intros [= <- <-]; by left|].
  apply Nat.ltb_ge in Hl.
  destruct parts as [|p0 [|p1 [|p2 [|p3 [|p4 [|p5 ps]]]]]]; try (simpl in Hl; lia).
  cbn [lookup list_lookup or_raise res_bind].
  destruct (int_of_str p4), (int_of_str p5); cbn [or_raise]; naive_solver.
Qed.

(** ** Properties *)

(** A version 2 header for IPv4 or IPv6 is read back: the addresses in
    their canonical text form, the ports, and exactly the header's bytes. *)
Theorem read_proxy_v2_roundtrip (v6 : bool) (src dst rest : bytes) (sp dp : Z) :
  let n := if v6 then 16%nat else 4%nat in
  let fmt := if v6 then ipv6_str else ipv4_str in
  length src = n → length dst = n → 0 <= sp < 65536 → 0 <= dp < 65536 →
  read_proxy_protocol (pp2_header (if v6 then 0x21 else 0x11) (src ++ dst) sp dp ++ rest)
  = (Ok (mkProxyInfo (fmt src) sp (fmt dst) dp 2), rest).
Proof.
  intros n fmt Hs Hd Hsp Hdp. unfold pp2_header.
  set (data := (src ++ dst) ++ be_encode 2 sp ++ be_encode 2 dp).
  assert (Z.of_nat (length (src ++ dst)) + 4 = Z.of_nat (length data)) as ->
    by (unfold data; len).
  assert (length data = 2 * n + 4)%nat as Hl by (unfold data; len).
  destruct (be_encode 2 (Z.of_nat (length data))) as [|h [|l [|]]] eqn:E;
    try by apply (f_equal length) in E.
  replace ((_ ++ _ ++ _ ++ data) ++ rest)
    with (PP_V2_SIGNATURE ++ [z2b 0x21; z2b (if v6 then 0x21 else 0x11); h; l] ++ data ++ rest)
    by (rewrite <- !app_assoc; done).
  rewrite read_proxy_protocol_v2, <- E.
  rewrite be_decode_encode by (rewrite Hl; unfold n; destruct v6; simpl; lia).
  rewrite (proj2 (Z.ltb_lt _ _)) by lia. rewrite readexactly_app by done.
  rewrite !b2z_z2b_small by (destruct v6; lia). unfold data.
  by rewrite v2_info_addresses by done.
Qed.

Lemma read_proxy_v2_roundtrip_witness :
  read_proxy_protocol
    (pp2_header 0x11 (bz [203; 0; 113; 7] ++ bz [10; 0; 0; 1]) 51000 8443 ++ bz [3; 0])
  = (Ok (mkProxyInfo (ipv4_str (bz [203; 0; 113; 7])) 51000 (ipv4_str (bz [10; 0; 0; 1])) 8443 2),
     bz [3; 0]).
Proof. apply (read_proxy_v2_roundtrip false); (reflexivity || lia). Defined.

(** A version 1 header within the 512-byte limit is read back: the
    addresses as they were written, the ports as numbers, and exactly the
    header's bytes. *)
Theorem read_proxy_v1_roundtrip (family src dst : str) (sp dp : N) (rest : bytes) :
  word family → word src → word dst → (sp < 65536)%N → (dp < 65536)%N →
  (length (pp1_header family src dst sp dp) <= 512)%nat →
  read_proxy_protocol (ascii_bytes (pp1_header family src dst sp dp) ++ rest)
  = (Ok (mkProxyInfo src (Z.of_N sp) dst (Z.of_N dp) 1), rest).
Proof. apply read_proxy_protocol_v1. Qed.

Lemma read_proxy_v1_roundtrip_witness :
  read_proxy_protocol
    (ascii_bytes (pp1_header (u "TCP4") (u "203.0.113.7") (u "10.0.0.1") 51000 8443)
       ++ bz [3; 0])
  = (Ok (mkProxyInfo (u "203.0.113.7") 51000 (u "10.0.0.1") 8443 1), bz [3; 0]).
Proof.
  apply (read_proxy_v1_roundtrip (u "TCP4") (u "203.0.113.7") (u "10.0.0.1") 51000 8443);
    [by apply word_b_spec | by apply word_b_spec | by apply word_b_spec | done | done |].
  apply Nat.leb_le. vm_compute. reflexivity.
Defined.

(** C32: whatever the peer sends, the parser raises only the errors its caller
    handles (a [UnicodeDecodeError] is a [ValueError] in Python): no index or
    [struct] error, and the header loop ends. *)
Theorem read_proxy_protocol_errors (s : bytes) :
  match (read_proxy_protocol s).1 with
  | Ok _ => True
  | Err e => e = ValueError ∨ e = UnicodeError ∨ e = IncompleteReadError
  end.
Proof.
  destruct (read_proxy_protocol s) as [[i|e] s'] eqn:E; [done|]. simpl. revert E.
  unfold read_proxy_protocol. rewrite io_bind_run.
  destruct (Z.le_gt_cases 13 (Z.of_nat (length s))).
  2: { rewrite readexactly_short by lia. intros [= <- <-]. auto. }
  rewrite readexactly_in by lia. case_bool_decide.
  { intros [|]%parse_v2_errors; [auto | auto | len]. }
  case_bool_decide; [by intros ?%parse_v1_errors|].
  unfold io_raise. intros [= <- <-]. auto.
Qed.
Close Scope Z_scope.
