(* ===== verification/Redis.v ===== *)
(** Redis as the program uses it. The server is not part of the repository: it
    is a typeclass of commands and a class of the documented laws they obey,
    stated against the live keys with their values and deadlines. A client runs
    in a world where other clients' commands fall between any two of its own,
    which is what WATCH/MULTI/EXEC is for. Time is in milliseconds, and one
    request runs at one instant. *)

From stdpp Require Import prelude gmap list strings.
From Stdlib Require Import ZArith Lia.
From Stdlib Require Strings.String.
From S2P Require Import Prelude PySeq PyBytes PyStr.

Open Scope Z_scope.

(** ** The server *)

(** A live key: its string value, and the instant after which it is gone. *)
Record entry : Type := Entry { e_value : str; e_deadline : option Z }.

Class Redis (R : Type) : Type := {
  redis_get : Z → str → R → option str;
  redis_exists : Z → str → R → Z;
  redis_ttl : Z → str → R → Z;
  redis_scan : Z → str → R → list str;
  redis_setex : Z → str → Z → str → io R unit;
  redis_delete : Z → list str → R → R;
  redis_incr : Z → str → io R Z;
  redis_expire : Z → str → Z → R → R;
}.

(** The characters with a meaning in a glob pattern. *)
Definition glob_special (c : N) : bool :=
  (c =? 42)%N || (c =? 63)%N || (c =? 91)%N || (c =? 92)%N.

(** An entry that has not expired. *)
Definition alive (now : Z) (e : entry) : option entry :=
  match e_deadline e with
  | Some d => if d <? now then None else Some e
  | None => Some e
  end.

(** A TTL is rounded to the nearest second. *)
Definition ttl_of (now : Z) (o : option entry) : Z :=
  match o with
  | None => -2
  | Some e => match e_deadline e with
              | None => -1
              | Some d => (d - now + 500) / 1000
              end
  end.

Class RedisLaws (R : Type) `{Redis R} : Type := {
  (** the keys that have not expired at an instant *)
  live : Z → R → gmap str entry;
  live_deadline now r k e d :
    live now r !! k = Some e → e_deadline e = Some d → now <= d;
  live_later now now' r k :
    now <= now' →
    live now' r !! k = live now r !! k ≫= alive now';
  get_live now k r : redis_get now k r = e_value <$> live now r !! k;
  exists_live now k r : redis_exists now k r = if live now r !! k is Some _ then 1 else 0;
  ttl_live now k r : redis_ttl now k r = ttl_of now (live now r !! k);
  scan_live now p k r :
    Forall (λ c, glob_special c = false) p →
    k ∈ redis_scan now (p ++ u "*") r ↔ is_Some (live now r !! k) ∧ starts_with p k = true;
  setex_live now k t v r :
    0 < t → ∃ r', redis_setex now k t v r = (Ok tt, r')
      ∧ live now r' = <[k := Entry v (Some (now + 1000 * t))]> (live now r);
  setex_bad now k t v r : t <= 0 → redis_setex now k t v r = (Err RedisError, r);
  delete_live now ks r :
    live now (redis_delete now ks r) = foldr delete (live now r) ks;
  incr_absent now k r :
    live now r !! k = None → ∃ r', redis_incr now k r = (Ok 1, r')
      ∧ live now r' = <[k := Entry (u "1") None]> (live now r);
  incr_present now k r z d :
    live now r !! k = Some (Entry (str_of_Z z) d) → - 2 ^ 63 <= z < 2 ^ 63 - 1 →
    ∃ r', redis_incr now k r = (Ok (z + 1), r')
      ∧ live now r' = <[k := Entry (str_of_Z (z + 1)) d]> (live now r);
  incr_other now k r e :
    live now r !! k = Some e →
    (∀ z, e_value e = str_of_Z z → ¬ (- 2 ^ 63 <= z < 2 ^ 63 - 1)) →
    redis_incr now k r = (Err RedisError, r);
  expire_past now k t r :
    t <= 0 → live now (redis_expire now k t r) = delete k (live now r);
  expire_live now k t r :
    0 < t → live now (redis_expire now k t r)
      = alter (λ e, Entry (e_value e) (Some (now + 1000 * t))) k (live now r);
}.

(** ** Clients *)

(** What another client may run. *)
Inductive command : Type :=
  | CSetex (k : str) (ttl : Z) (v : str)
  | CDelete (ks : list str)
  | CExpire (k : str) (ttl : Z)
  | CIncr (k : str).

Section Client.
Context {R : Type} `{Redis R}.

Definition run_command (now : Z) (r : R) (c : command) : R :=
  match c with
  | CSetex k t v => (redis_setex now k t v r).2
  | CDelete ks => redis_delete now ks r
  | CExpire k t => redis_expire now k t r
  | CIncr k => (redis_incr now k r).2
  end.

(** The command modifies the key, for the purpose of WATCH. *)
Definition touches (now : Z) (key : str) (r : R) (c : command) : bool :=
  match c with
  | CSetex k t _ => bool_decide (k = key) && (0 <? t)
  | CDelete ks => bool_decide (key ∈ ks) && (redis_exists now key r =? 1)
  | CExpire k _ => bool_decide (k = key) && (redis_exists now key r =? 1)
  | CIncr k => bool_decide (k = key)
  end.

(** A connection: the store, the batches of other clients' commands still to
    come (one before each of our commands), the watched key and whether it was
    modified since. *)
Record world : Type := World {
  w_store : R;
  w_env : list (list command);
  w_watched : option str;
  w_dirty : bool;
}.

(** A world in which nobody else writes. *)
Definition quiet (r : R) : world := World r [] None false.

Definition other_command (now : Z) (w : world) (c : command) : world :=
  World (run_command now (w_store w) c) (w_env w) (w_watched w)
    (w_dirty w || match w_watched w with
                  | Some k => touches now k (w_store w) c
                  | None => false
                  end).

(** The next batch of the other clients. *)
Definition interfere (now : Z) (w : world) : world :=
  match w_env w with
  | [] => w
  | batch :: env =>
      foldl (other_command now) (World (w_store w) env (w_watched w) (w_dirty w)) batch
  end.

Definition with_store (w : world) (r : R) : world :=
  World r (w_env w) (w_watched w) (w_dirty w).

(** A command that only reads, and one that writes. *)
Definition reading {A} (now : Z) (f : R → A) : io world A := λ w,
  let w := interfere now w in (Ok (f (w_store w)), w).
Definition writing {A} (now : Z) (f : io R A) : io world A := λ w,
  let w := interfere now w in
  let '(a, r) := f (w_store w) in (a, with_store w r).

Definition client_get (now : Z) (k : str) : io world (option str) := reading now (redis_get now k).
Definition client_exists (now : Z) (k : str) : io world bool :=
  reading now (λ r, negb (redis_exists now k r =? 0)).
Definition client_ttl (now : Z) (k : str) : io world Z := reading now (redis_ttl now k).
Definition client_scan (now : Z) (pattern : str) : io world (list str) :=
  reading now (redis_scan now pattern).
Definition client_setex (now : Z) (k : str) (t : Z) (v : str) : io world unit :=
  writing now (redis_setex now k t v).
Definition client_delete (now : Z) (ks : list str) : io world unit :=
  writing now (λ r, (Ok tt, redis_delete now ks r)).
Definition client_incr (now : Z) (k : str) : io world Z := writing now (redis_incr now k).
Definition client_expire (now : Z) (k : str) (t : Z) : io world unit :=
  writing now (λ r, (Ok tt, redis_expire now k t r)).

(** [pipe.watch(key)] *)
Definition pipe_watch (now : Z) (k : str) : io world unit := λ w,
  let w := interfere now w in (Ok tt, World (w_store w) (w_env w) (Some k) false).

(** [pipe.multi(); c; pipe.execute()]: the transaction runs when nobody
    modified the watched key; either way the watch ends. *)
Definition pipe_execute {A} (now : Z) (f : io R A) : io world A := λ w,
  let w := interfere now w in
  if w_dirty w then (Err WatchError, World (w_store w) (w_env w) None false)
  else let '(a, r) := f (w_store w) in (a, World r (w_env w) None false).
End Client.
Arguments world : clear implicits.

(** ** A concrete server

    The laws hold of a finite map of entries; witnesses run on it. *)

Abbreviation store := (gmap str entry).

(** The commands of the concrete server on a prefix pattern. *)
Definition map_get (now : Z) (k : str) (m : store) : option entry := m !! k ≫= alive now.

Definition redis_int (s : str) : option Z :=
  z ← int_of_str s; if bool_decide (str_of_Z z = s) then Some z else None.

Definition live_map (now : Z) (m : store) : store := omap (alive now) m.

#[export] Instance map_redis : Redis store := {|
  redis_get now k m := e_value <$> map_get now k m;
  redis_exists now k m := if map_get now k m is Some _ then 1 else 0;
  redis_ttl now k m := ttl_of now (map_get now k m);
  redis_scan now p m :=
    List.filter (λ k, starts_with (take (pred (length p)) p) k) (map fst (map_to_list (live_map now m)));
  redis_setex now k t v m :=
    if 0 <? t then (Ok tt, <[k := Entry v (Some (now + 1000 * t))]> m) else (Err RedisError, m);
  redis_delete now ks m := foldr delete m ks;
  redis_incr now k m :=
    match map_get now k m with
    | None => (Ok 1, <[k := Entry (u "1") None]> m)
    | Some e =>
        match redis_int (e_value e) with
        | Some z =>
            if (- 2 ^ 63 <=? z) && (z <? 2 ^ 63 - 1)
            then (Ok (z + 1), <[k := Entry (str_of_Z (z + 1)) (e_deadline e)]> m)
            else (Err RedisError, m)
        | None => (Err RedisError, m)
        end
    end;
  redis_expire now k t m :=
    match map_get now k m with
    | Some e => if 0 <? t then <[k := Entry (e_value e) (Some (now + 1000 * t))]> m
                else delete k m
    | None => m
    end;
|}.

Lemma lookup_live_map now m k : live_map now m !! k = map_get now k m.
Proof. unfold live_map, map_get. by rewrite lookup_omap. Qed.

Lemma map_get_insert now k e m k' :
  alive now e = Some e →
  map_get now k' (<[k := e]> m) = <[k := e]> (live_map now m) !! k'.
Proof.
  intros He. unfold map_get. destruct (decide (k = k')) as [<-|Hn].
  - by rewrite !lookup_insert_eq.
  - rewrite !lookup_insert_ne by done. by rewrite lookup_live_map.
Qed.

Lemma live_map_insert now k e m :
  alive now e = Some e → live_map now (<[k := e]> m) = <[k := e]> (live_map now m).
Proof. intros He. apply map_eq. intros k'. by rewrite lookup_live_map, map_get_insert. Qed.

Lemma alive_later now t v : 0 < t → alive now (Entry v (Some (now + 1000 * t))) = Some (Entry v (Some (now + 1000 * t))).
Proof. intros Ht. unfold alive. simpl. by rewrite (proj2 (Z.ltb_ge _ _)) by lia. Qed.

Lemma alive_idem now o e : o ≫= alive now = Some e → alive now e = Some e.
Proof.
  destruct o as [e0|]; simpl; [|discriminate]. unfold alive.
  destruct (e_deadline e0) as [d|] eqn:Ed.
  - destruct (d <? now) eqn:El; [discriminate|]. intros [= <-]. by rewrite Ed, El.
  - intros [= <-]. by rewrite Ed.
Qed.

Lemma live_map_delete now ks m : live_map now (foldr delete m ks) = foldr delete (live_map now m) ks.
Proof.
  induction ks as [|k ks IH]; simpl; [done|]. rewrite <- IH. unfold live_map. by rewrite omap_delete.
Qed.

(** A number that [incr] wrote is one it can read. *)
Lemma redis_int_of z : - 2 ^ 63 <= z < 2 ^ 63 → redis_int (str_of_Z z) = Some z.
Proof.
  intros H. unfold redis_int.
  rewrite int_of_str_of_Z.
  - simpl. by rewrite bool_decide_eq_true_2.
  - pose proof (size_nat_le (Z.abs_N z) 64) as Hs.
    assert (Z.abs_N z < 2 ^ N.of_nat 64)%N; [|lia].
    change (2 ^ N.of_nat 64)%N with 18446744073709551616%N.
    change (2 ^ 63) with 9223372036854775808 in H. lia.
Qed.

#[export] Instance map_redis_laws : RedisLaws store.
Proof.
  refine {| live := live_map |}.
  - intros now r k e d. rewrite lookup_live_map. unfold map_get.
    destruct (r !! k) as [e0|]; simpl; [|discriminate]. unfold alive.
    destruct (e_deadline e0) as [d0|] eqn:E.
    + destruct (Z.ltb_spec d0 now); [discriminate|]. intros [= ->]. congruence.
    + intros [= ->]. congruence.
  - intros now now' r k Hle. rewrite !lookup_live_map. unfold map_get.
    destruct (r !! k) as [e|]; simpl; [|done]. unfold alive at 1 3.
    destruct (e_deadline e) as [d|] eqn:E; simpl.
    + destruct (Z.ltb_spec d now), (Z.ltb_spec d now'); simpl; unfold alive; try rewrite E;
        try done; try lia; destruct (Z.ltb_spec d now'); done || lia.
    + unfold alive. by rewrite E.
  - intros. simpl. by rewrite lookup_live_map.
  - intros. simpl. by rewrite lookup_live_map.
  - intros. simpl. by rewrite lookup_live_map.
  - intros now p k r _. simpl. change (u "*") with [42%N].
    rewrite length_app. simpl. rewrite Nat.add_1_r. simpl. rewrite take_app_length.
    rewrite list_elem_of_In, List.filter_In, <- list_elem_of_In.
    rewrite list_elem_of_fmap. split.
    + intros [([k' e] & -> & Hin) Hp]. apply elem_of_map_to_list in Hin. eauto.
    + intros [[e He] Hp]. split; [|done]. exists (k, e). split; [done|].
      by apply elem_of_map_to_list.
  - intros now k t v r Ht. simpl. rewrite (proj2 (Z.ltb_lt _ _) Ht). eexists. split; [done|].
    by apply live_map_insert, alive_later.
  - intros now k t v r Ht. simpl. by rewrite (proj2 (Z.ltb_ge _ _) Ht).
  - intros. simpl. apply live_map_delete.
  - intros now k r. rewrite lookup_live_map. simpl. intros ->. eexists. split; [done|].
    by apply live_map_insert.
  - intros now k r z d. rewrite lookup_live_map. simpl. intros E Hz. rewrite E. simpl.
    rewrite redis_int_of by lia. rewrite (proj2 (Z.leb_le _ _)), (proj2 (Z.ltb_lt _ _)) by lia.
    eexists. split; [done|]. apply live_map_insert.
    apply alive_idem in E. unfold alive in *. simpl in *.
    destruct d as [d|]; [|done]. by destruct (d <? now).
  - intros now k r e. rewrite lookup_live_map. simpl. intros -> Hz.
    unfold redis_int. destruct (int_of_str (e_value e)) as [z|]; [|done]. simpl.
    case_bool_decide as E; [|done]. specialize (Hz z (eq_sym E)).
    destruct (Z.leb_spec (- 2 ^ 63) z), (Z.ltb_spec z (2 ^ 63 - 1)); done || lia.
  - intros now k t r Ht. simpl. rewrite (proj2 (Z.ltb_ge _ _)) by done.
    destruct (map_get now k r) as [e|] eqn:E.
    + unfold live_map. by rewrite omap_delete.
    + rewrite delete_id; [done|]. by rewrite lookup_live_map.
  - intros now k t r Ht. simpl. rewrite (proj2 (Z.ltb_lt _ _)) by done. apply map_eq. intros k'.
    destruct (decide (k = k')) as [<-|Hn].
    + rewrite lookup_alter_eq, !lookup_live_map. destruct (map_get now k r) as [e|] eqn:E; simpl.
      * rewrite map_get_insert, lookup_insert_eq by by apply alive_later. done.
      * by rewrite E.
    + rewrite lookup_alter_ne, !lookup_live_map by done.
      destruct (map_get now k r) as [e|] eqn:E; [|done]. unfold map_get.
      by rewrite lookup_insert_ne.
Defined.

(** ** Lemmas on clients *)

Section ClientLemmas.
Context {R : Type} `{RedisLaws R}.
Implicit Types (r : R) (w : world R).

Lemma int_entry e :
  (∃ z, e_value e = str_of_Z z ∧ - 2 ^ 63 <= z < 2 ^ 63 - 1)
  ∨ ∀ z, e_value e = str_of_Z z → ¬ (- 2 ^ 63 <= z < 2 ^ 63 - 1).
Proof.
  destruct (redis_int (e_value e)) as [z|] eqn:Ez.
  - assert (e_value e = str_of_Z z) as Ev.
    { unfold redis_int in Ez. destruct (int_of_str (e_value e)) as [z'|]; [|discriminate].
      simpl in Ez. case_bool_decide; [|discriminate]. congruence. }
    destruct (decide (- 2 ^ 63 <= z < 2 ^ 63 - 1)) as [Hr|Hr]; [by left; exists z|].
    right. intros z' Hz' Hr'. apply Hr.
    rewrite Hz', redis_int_of in Ez by lia. congruence.
  - right. intros z Hz Hr. rewrite Hz, redis_int_of in Ez by lia. discriminate.
Qed.

(** A command that does not touch a key leaves it as it is. *)
Lemma untouched now key r c :
  touches now key r c = false → live now (run_command now r c) !! key = live now r !! key.
Proof.
  destruct c as [k t v|ks|k t|k]; simpl; rewrite ?exists_live.
  - intros Ht. destruct (Z.lt_ge_cases 0 t) as [Hp|Hp].
    + destruct (setex_live now k t v r Hp) as (r' & -> & L). simpl. rewrite L.
      rewrite (proj2 (Z.ltb_lt _ _) Hp), andb_true_r in Ht. apply bool_decide_eq_false in Ht.
      by rewrite lookup_insert_ne.
    + by rewrite setex_bad.
  - intros Ht. rewrite delete_live. assert (key ∉ ks ∨ live now r !! key = None) as [Hk|Hk].
    { apply andb_false_iff in Ht as [Ht|Ht]; [left; by apply bool_decide_eq_false in Ht|].
      right. by destruct (live now r !! key). }
    + induction ks as [|k ks IH]; [done|]. apply not_elem_of_cons in Hk as [Hn Hk]. simpl.
      rewrite lookup_delete_ne by done. apply IH; [|done].
      apply andb_false_iff. left. by apply bool_decide_eq_false.
    + rewrite Hk. clear Ht. induction ks as [|k ks IH]; [done|]. simpl.
      rewrite lookup_delete_None. by right.
  - intros Ht. assert (k ≠ key ∨ live now r !! key = None) as Hk.
    { apply andb_false_iff in Ht as [Ht|Ht]; [left; by apply bool_decide_eq_false in Ht|].
      right. by destruct (live now r !! key). }
    destruct (Z.lt_ge_cases 0 t) as [Hp|Hp].
    + rewrite expire_live by done. destruct (decide (k = key)) as [->|Hn].
      * rewrite lookup_alter_eq. by destruct Hk as [| ->].
      * by rewrite lookup_alter_ne.
    + rewrite expire_past by done. destruct (decide (k = key)) as [->|Hn].
      * rewrite lookup_delete_eq. by destruct Hk as [| ->].
      * by rewrite lookup_delete_ne.
  - intros Ht. apply bool_decide_eq_false in Ht. destruct (live now r !! k) as [e|] eqn:E.
    + destruct (int_entry e) as [(z & Ez & Hz)|Hz].
      * destruct e as [v d]. simpl in Ez. subst v.
        destruct (incr_present now k r z d E Hz) as (r' & -> & L). simpl. rewrite L.
        by rewrite lookup_insert_ne.
      * by rewrite (incr_other now k r e E Hz).
    + destruct (incr_absent now k r E) as (r' & -> & L). simpl. rewrite L. by rewrite lookup_insert_ne.
Qed.

(** Batches of other clients' commands that leave the watch clean left the key
    alone; and they only shorten what is to come. *)
Lemma other_commands_clean now cs w key :
  w_watched w = Some key → w_dirty (foldl (other_command now) w cs) = false →
  w_dirty w = false
  ∧ live now (w_store (foldl (other_command now) w cs)) !! key = live now (w_store w) !! key
  ∧ w_watched (foldl (other_command now) w cs) = Some key.
Proof.
  revert w. induction cs as [|c cs IH]; intros w Hw Hd; [done|]. simpl in *.
  destruct (IH (other_command now w c) Hw Hd) as (Hd1 & Hl & Hw').
  simpl in Hd1. rewrite Hw in Hd1. apply orb_false_iff in Hd1 as [Hd0 Ht].
  split; [done|]. split; [|done]. rewrite Hl. by apply untouched.
Qed.

Lemma other_commands_frame now cs w :
  w_env (foldl (other_command now) w cs) = w_env w
  ∧ w_watched (foldl (other_command now) w cs) = w_watched w.
Proof.
  revert w. induction cs as [|c cs IH]; intros w; [done|]. simpl.
  by destruct (IH (other_command now w c)).
Qed.

Lemma interfere_clean now w key :
  w_watched w = Some key → w_dirty (interfere now w) = false →
  w_dirty w = false ∧ live now (w_store (interfere now w)) !! key = live now (w_store w) !! key
  ∧ w_watched (interfere now w) = Some key.
Proof.
  unfold interfere. destruct (w_env w) as [|b env]; [done|]. intros Hw Hd.
  by apply (other_commands_clean now b (World (w_store w) env (w_watched w) (w_dirty w)) key).
Qed.

Lemma interfere_env now w : w_env (interfere now w) = tail (w_env w).
Proof.
  unfold interfere. destruct (w_env w) as [|b env] eqn:E; [by rewrite E|].
  destruct (other_commands_frame now b (World (w_store w) env (w_watched w) (w_dirty w))) as [-> _].
  done.
Qed.

Lemma interfere_watched now w : w_watched (interfere now w) = w_watched w.
Proof.
  unfold interfere. destruct (w_env w) as [|b env]; [done|].
  by destruct (other_commands_frame now b (World (w_store w) env (w_watched w) (w_dirty w))) as [_ ->].
Qed.

(** Nobody else: nothing happens between two commands. *)
Lemma interfere_alone now w : w_env w = [] → interfere now w = w.
Proof. unfold interfere. by intros ->. Qed.
Lemma client_get_alone now k w :
  w_env w = [] → client_get now k w = (Ok (e_value <$> live now (w_store w) !! k), w).
Proof. intros Hw. unfold client_get, reading. by rewrite interfere_alone, get_live. Qed.

Lemma client_setex_alone now k t v w :
  w_env w = [] → 0 < t →
  ∃ r', client_setex now k t v w = (Ok tt, with_store w r')
    ∧ live now r' = <[k := Entry v (Some (now + 1000 * t))]> (live now (w_store w)).
Proof.
  intros Hw Ht. unfold client_setex, writing. rewrite interfere_alone by done.
  destruct (setex_live now k t v (w_store w) Ht) as (r' & -> & L). eauto.
Qed.

Lemma client_delete_alone now ks w :
  w_env w = [] → client_delete now ks w = (Ok tt, with_store w (redis_delete now ks (w_store w))).
Proof. intros Hw. unfold client_delete, writing. by rewrite interfere_alone. Qed.

Lemma client_scan_alone now p w :
  w_env w = [] → client_scan now p w = (Ok (redis_scan now p (w_store w)), w).
Proof. intros Hw. unfold client_scan, reading. by rewrite interfere_alone. Qed.
End ClientLemmas.
Close Scope Z_scope.
