(* ===== verification/Keys.v ===== *)
(** Redis key patterns and lifetimes, [libs/redis_store/keys.py]: a pattern with
    one field is a function of that field. The prefixes keep the name spaces
    apart. *)

From stdpp Require Import prelude list strings.
From Stdlib Require Import ZArith Lia.
From Stdlib Require Strings.String.
From S2P Require Import Prelude PySeq PyBytes PyStr.

Definition TOKEN (token : str) : str := u "rdp:token:" ++ token.
Definition WEB_SESSION (session_id : str) : str := u "rdp:web:" ++ session_id.
Definition ADMIN_WEB_SESSION (session_id : str) : str := u "rdp:admin:web:" ++ session_id.
Definition ACTIVE_SESSION (instance_id connection_id : str) : str :=
  u "rdp:active:" ++ instance_id ++ u ":" ++ connection_id.
Definition ACTIVE_SCAN : str := u "rdp:active:*".
Definition KILL_SESSION (connection_id : str) : str := u "rdp:kill:" ++ connection_id.
Definition CONN_TOKEN (connection_id : str) : str := u "rdp:conn-token:" ++ connection_id.
Definition METRICS_LATEST (instance_id : str) : str := u "rdp:metrics:" ++ instance_id ++ u ":latest".
Definition METRICS_SERIES (instance_id : str) : str := u "rdp:metrics:" ++ instance_id ++ u ":series".
Definition HEARTBEAT (instance_id : str) : str := u "rdp:heartbeat:" ++ instance_id.
Definition NODE (instance_id : str) : str := u "rdp:node:" ++ instance_id.
Definition NODE_SCAN : str := u "rdp:node:*".
Definition SIGNAL_RESTART : str := u "rdp:signal:restart".
Definition AD_GROUPS_SEARCH (hash : str) : str := u "rdp:adgroups:search:" ++ hash.

Definition PORTAL_FAIL_IP (ip : str) : str := u "rdp:fail:ip:" ++ ip.
Definition PORTAL_FAIL_USER (username : str) : str := u "rdp:fail:user:" ++ username.
Definition PORTAL_LOCK_IP (ip : str) : str := u "rdp:lock:ip:" ++ ip.
Definition PORTAL_LOCK_USER (username : str) : str := u "rdp:lock:user:" ++ username.

Definition ADMIN_FAIL_IP (ip : str) : str := u "rdp:admin:fail:ip:" ++ ip.
Definition ADMIN_FAIL_USER (username : str) : str := u "rdp:admin:fail:user:" ++ username.
Definition ADMIN_LOCK_IP (ip : str) : str := u "rdp:admin:lock:ip:" ++ ip.
Definition ADMIN_LOCK_USER (username : str) : str := u "rdp:admin:lock:user:" ++ username.

Definition KILL_TTL : Z := 60.
Definition AD_SEARCH_CACHE_TTL : Z := 120.
Definition METRICS_LATEST_TTL : Z := 120.
Definition SIGNAL_RESTART_TTL : Z := 30.
Definition FAIL_COUNTER_TTL : Z := 60.

(** Keys whose prefixes differ are different. *)
Ltac key_ne :=
  let H := fresh in
  repeat match goal with
  | |- context [TOKEN] => unfold TOKEN
  | |- context [WEB_SESSION] => unfold WEB_SESSION
  | |- context [ADMIN_WEB_SESSION] => unfold ADMIN_WEB_SESSION
  | |- context [ACTIVE_SESSION] => unfold ACTIVE_SESSION
  | |- context [KILL_SESSION] => unfold KILL_SESSION
  | |- context [CONN_TOKEN] => unfold CONN_TOKEN
  | |- context [PORTAL_FAIL_IP] => unfold PORTAL_FAIL_IP
  | |- context [PORTAL_FAIL_USER] => unfold PORTAL_FAIL_USER
  | |- context [PORTAL_LOCK_IP] => unfold PORTAL_LOCK_IP
  | |- context [PORTAL_LOCK_USER] => unfold PORTAL_LOCK_USER
  | |- context [ADMIN_FAIL_IP] => unfold ADMIN_FAIL_IP
  | |- context [ADMIN_FAIL_USER] => unfold ADMIN_FAIL_USER
  | |- context [ADMIN_LOCK_IP] => unfold ADMIN_LOCK_IP
  | |- context [ADMIN_LOCK_USER] => unfold ADMIN_LOCK_USER
  end; intro H; vm_compute in H; discriminate.
