(* ===== verification/LoginLimiter.v ===== *)
(** The login rate limiter of the portal and the admin panel,
    [libs/security/login_limiter.py], over any Redis that obeys the laws. *)

From stdpp Require Import prelude gmap list strings.
From Stdlib Require Import ZArith Lia.
From Stdlib Require Strings.String.
From S2P Require Import Prelude PySeq PyBytes PyStr Redis Keys.

Open Scope Z_scope.

(** The four key patterns of a limiter. *)
Record LoginLimiter : Type := {
  fail_ip : str → str;
  fail_user : str → str;
  lock_ip : str → str;
  lock_user : str → str;
}.

Definition portal_limiter : LoginLimiter := {|
  fail_ip := PORTAL_FAIL_IP; fail_user := PORTAL_FAIL_USER;
  lock_ip := PORTAL_LOCK_IP; lock_user := PORTAL_LOCK_USER |}.

Definition admin_limiter : LoginLimiter := {|
  fail_ip := ADMIN_FAIL_IP; fail_user := ADMIN_FAIL_USER;
  lock_ip := ADMIN_LOCK_IP; lock_user := ADMIN_LOCK_USER |}.

Section Limiter.
Context {R : Type} `{Redis R} `{CaseMap}.

(** [username.strip().lower() or "_"] *)
Definition uname (username : str) : str :=
  match lower (strip username) with [] => u "_" | s => s end.

Definition is_locked (l : LoginLimiter) (now : Z) (ip username : str) : io (world R) bool :=
  b ← client_exists now (lock_ip l ip);
  if (b : bool) then mret true else client_exists now (lock_user l (uname username)).

Definition record_failure (l : LoginLimiter) (now : Z) (ip username : str)
    (max_attempts lock_seconds : Z) : io (world R) unit :=
  let ip_key := fail_ip l ip in
  let user_key := fail_user l (uname username) in
  ip_cnt ← client_incr now ip_key;
  user_cnt ← client_incr now user_key;
  _ ← client_expire now ip_key FAIL_COUNTER_TTL;
  _ ← client_expire now user_key FAIL_COUNTER_TTL;
  _ ← (if max_attempts <? ip_cnt
       then client_setex now (lock_ip l ip) lock_seconds (u "1") else mret tt);
  if max_attempts <? user_cnt
  then client_setex now (lock_user l (uname username)) lock_seconds (u "1") else mret tt.

Definition clear (l : LoginLimiter) (now : Z) (ip username : str) : io (world R) unit :=
  client_delete now [fail_ip l ip; fail_user l (uname username)].
End Limiter.

(** ** Lemmas *)

(** The key classes of a limiter do not meet. *)
Class Separated (l : LoginLimiter) : Prop := {
  sep_fail a b : fail_ip l a ≠ fail_user l b;
  sep_ip_ip a b : fail_ip l a ≠ lock_ip l b;
  sep_ip_user a b : fail_ip l a ≠ lock_user l b;
  sep_user_ip a b : fail_user l a ≠ lock_ip l b;
  sep_user_user a b : fail_user l a ≠ lock_user l b;
  sep_lock a b : lock_ip l a ≠ lock_user l b;
}.

#[export] Instance portal_separated : Separated portal_limiter.
Proof. split; intros a b; simpl; key_ne. Qed.

#[export] Instance admin_separated : Separated admin_limiter.
Proof. split; intros a b; simpl; key_ne. Qed.

#[global] Typeclasses Opaque portal_limiter admin_limiter.

(** The keys a limiter may write. *)
Definition limiter_key (l : LoginLimiter) (k : str) : Prop :=
  ∃ a, k = fail_ip l a ∨ k = fail_user l a ∨ k = lock_ip l a ∨ k = lock_user l a.

Section Laws.
Context {R : Type} `{RedisLaws R} `{CaseMap}.
Implicit Types (r : R) (l : LoginLimiter).

(** A counter holds [n] failures; an absent key holds none. *)
Definition counter (now : Z) (r : R) (k : str) (n : Z) : Prop :=
  match live now r !! k with
  | None => n = 0
  | Some e => e_value e = str_of_Z n
  end.

Lemma incr_counter now r k n :
  counter now r k n → 0 <= n < 2 ^ 62 →
  ∃ r' d, redis_incr now k r = (Ok (n + 1), r')
    ∧ live now r' = <[k := Entry (str_of_Z (n + 1)) d]> (live now r).
Proof.
  unfold counter. intros Hc Hn. destruct (live now r !! k) as [[v d]|] eqn:E.
  - simpl in Hc. subst v. destruct (incr_present now k r n d E ltac:(lia)) as (r' & ? & ?). eauto.
  - subst n. destruct (incr_absent now k r E) as (r' & ? & ?). exists r', None. eauto.
Qed.

(** The lock a failure sets when its counter passes the limit. *)
Definition lock_if (now : Z) (b : bool) (k : str) (t : Z) (m : store) : store :=
  if b then <[k := Entry (u "1") (Some (now + 1000 * t))]> m else m.

(** The counter a failure leaves. *)
Definition bump (now n : Z) : entry := Entry (str_of_Z (n + 1)) (Some (now + 1000 * FAIL_COUNTER_TTL)).

(** One failure, on counters that hold [n] and [m]. *)
Lemma record_failure_run l `{Separated l} now ip username max_attempts lock_seconds r n m :
  counter now r (fail_ip l ip) n → counter now r (fail_user l (uname username)) m →
  0 <= n < 2 ^ 62 → 0 <= m < 2 ^ 62 → 0 < lock_seconds →
  ∃ r', record_failure l now ip username max_attempts lock_seconds (quiet r) = (Ok tt, quiet r')
    ∧ live now r' =
        lock_if now (max_attempts <? m + 1) (lock_user l (uname username)) lock_seconds
        (lock_if now (max_attempts <? n + 1) (lock_ip l ip) lock_seconds
        (<[fail_user l (uname username) := bump now m]> (<[fail_ip l ip := bump now n]> (live now r)))).
Proof.
  intros Hn Hm Hn0 Hm0 Hl. set (ik := fail_ip l ip) in *. set (uk := fail_user l (uname username)) in *.
  assert (ik ≠ uk) as Hne by apply sep_fail.
  destruct (incr_counter now r ik n Hn Hn0) as (r1 & d1 & E1 & L1).
  assert (counter now r1 uk m) as Hm1.
  { unfold counter. rewrite L1, lookup_insert_ne by done. exact Hm. }
  destruct (incr_counter now r1 uk m Hm1 Hm0) as (r2 & d2 & E2 & L2).
  set (r3 := redis_expire now ik FAIL_COUNTER_TTL r2).
  set (r4 := redis_expire now uk FAIL_COUNTER_TTL r3).
  assert (live now r4 = <[uk := bump now m]> (<[ik := bump now n]> (live now r))) as L4.
  { unfold r4, r3. rewrite !expire_live, L2, L1 by done. unfold bump.
    apply map_eq. intros k. destruct (decide (k = uk)) as [->|Hu].
    - by rewrite lookup_alter_eq, lookup_alter_ne, !lookup_insert_eq by done.
    - rewrite lookup_alter_ne, lookup_insert_ne by done.
      destruct (decide (k = ik)) as [->|Hi].
      + by rewrite lookup_alter_eq, lookup_insert_ne, !lookup_insert_eq by done.
      + by rewrite lookup_alter_ne, !lookup_insert_ne by done. }
  unfold record_failure. fold ik uk. unfold_io. unfold client_incr, client_expire, writing.
  cbn [interfere w_env w_store with_store quiet w_watched w_dirty]. rewrite E1.
  cbn [interfere w_env w_store with_store quiet w_watched w_dirty]. rewrite E2.
  cbn [interfere w_env w_store with_store quiet w_watched w_dirty]. fold r3. fold r4.
  unfold lock_if, client_setex, writing.
  destruct (max_attempts <? n + 1).
  - cbn [interfere w_env w_store with_store quiet w_watched w_dirty].
    destruct (setex_live now (lock_ip l ip) lock_seconds (u "1") r4 Hl) as (r5 & E5 & L5).
    rewrite E5. destruct (max_attempts <? m + 1).
    + cbn [interfere w_env w_store with_store quiet w_watched w_dirty].
      destruct (setex_live now (lock_user l (uname username)) lock_seconds (u "1") r5 Hl) as (r6 & E6 & L6).
      rewrite E6. exists r6. split; [done|]. by rewrite L6, L5, L4.
    + exists r5. split; [done|]. by rewrite L5, L4.
  - destruct (max_attempts <? m + 1).
    + cbn [interfere w_env w_store with_store quiet w_watched w_dirty].
      destruct (setex_live now (lock_user l (uname username)) lock_seconds (u "1") r4 Hl) as (r6 & E6 & L6).
      rewrite E6. exists r6. split; [done|]. by rewrite L6, L4.
    + exists r4. split; [done|]. by rewrite L4.
Qed.

Lemma is_locked_run l now ip username r :
  is_locked l now ip username (quiet r)
  = (Ok (bool_decide (is_Some (live now r !! lock_ip l ip))
         || bool_decide (is_Some (live now r !! lock_user l (uname username)))), quiet r).
Proof.
  unfold is_locked, client_exists, reading. unfold_io.
  cbn [interfere w_env w_store quiet]. rewrite exists_live.
  destruct (live now r !! lock_ip l ip) as [e|]; [reflexivity|].
  cbn [Z.eqb negb interfere w_env w_store quiet]. rewrite exists_live.
  destruct (live now r !! lock_user l _) as [e|]; reflexivity.
Qed.

(** *** Runs of failures *)

(** Failures from one address for one name at the instants [times]. *)
Fixpoint failures (l : LoginLimiter) (ip username : str) (max_attempts lock_seconds : Z)
    (times : list Z) : io (world R) unit :=
  match times with
  | [] => mret tt
  | now :: times' =>
      _ ← record_failure l now ip username max_attempts lock_seconds;
      failures l ip username max_attempts lock_seconds times'
  end.

(** The instants follow each other within the counters' lifetime. *)
Fixpoint within_ttl (from : Z) (times : list Z) : Prop :=
  match times with
  | [] => True
  | now :: times' => from <= now <= from + 1000 * FAIL_COUNTER_TTL ∧ within_ttl now times'
  end.

(** Both counters hold [n], with the lifetime a failure gave them at [now],
    and there are locks exactly when [n] is over the limit. *)
Definition counted l now ip username max_attempts r n : Prop :=
  (if n =? 0 then live now r !! fail_ip l ip = None ∧ live now r !! fail_user l (uname username) = None
   else live now r !! fail_ip l ip = Some (bump now (n - 1))
     ∧ live now r !! fail_user l (uname username) = Some (bump now (n - 1)))
  ∧ (max_attempts < n → is_Some (live now r !! lock_ip l ip))
  ∧ (n <= max_attempts → live now r !! lock_ip l ip = None
       ∧ live now r !! lock_user l (uname username) = None).

Lemma live_none_later now now' r k :
  now <= now' → live now r !! k = None → live now' r !! k = None.
Proof. intros Hle E. by rewrite (live_later now now') , E by done. Qed.

Lemma live_bump_later now now' r k n :
  now <= now' <= now + 1000 * FAIL_COUNTER_TTL →
  live now r !! k = Some (bump now n) → live now' r !! k = Some (bump now n).
Proof.
  intros Hle E. rewrite (live_later now now'), E by lia. unfold bump. simpl. unfold alive. simpl.
  by rewrite (proj2 (Z.ltb_ge _ _)) by lia.
Qed.

Lemma counted_counters l now now' ip username mx r n :
  counted l now ip username mx r n → now <= now' <= now + 1000 * FAIL_COUNTER_TTL →
  counter now' r (fail_ip l ip) n ∧ counter now' r (fail_user l (uname username)) n.
Proof.
  intros (Hc & _) Hle. revert Hc. unfold counter. destruct (Z.eqb_spec n 0) as [E|E]; intros [C1 C2].
  - by rewrite !(live_none_later now now') by (done || lia).
  - rewrite !(live_bump_later now now' r _ (n - 1)) by done. simpl.
    by rewrite Z.sub_add.
Qed.

Lemma counted_step l `{Separated l} now now' ip username mx t r n :
  0 < t → 0 <= mx → 0 <= n < 2 ^ 62 → now <= now' <= now + 1000 * FAIL_COUNTER_TTL →
  counted l now ip username mx r n →
  ∃ r', record_failure l now' ip username mx t (quiet r) = (Ok tt, quiet r')
    ∧ counted l now' ip username mx r' (n + 1).
Proof.
  intros Ht Hmx Hn Hle Hc. pose proof (counted_counters _ _ _ _ _ _ _ _ Hc Hle) as [C1 C2].
  destruct Hc as (_ & _ & Hnl).
  destruct (record_failure_run l now' ip username mx t r n n C1 C2 Hn Hn Ht) as (r' & E & L).
  exists r'. split; [done|]. unfold counted. rewrite L. unfold lock_if.
  pose proof (sep_fail ip (uname username)). pose proof (sep_ip_ip ip ip).
  pose proof (sep_ip_user ip (uname username)). pose proof (sep_user_ip (uname username) ip).
  pose proof (sep_user_user (uname username) (uname username)). pose proof (sep_lock ip (uname username)).
  destruct (Z.eqb_spec (n + 1) 0); [lia|]. rewrite Z.add_simpl_r.
  destruct (Z.ltb_spec mx (n + 1)).
  - rewrite !(lookup_insert_ne _ (lock_user _ _)), !(lookup_insert_ne _ (lock_ip _ _)) by done.
    rewrite lookup_insert_eq, (lookup_insert_ne _ (fail_user _ _)), !lookup_insert_eq by done.
    split; [done|]. split; [by eauto | lia].
  - rewrite (lookup_insert_ne _ (fail_user _ _)), !lookup_insert_eq by done.
    rewrite !(lookup_insert_ne _ (fail_user _ _)), !(lookup_insert_ne _ (fail_ip _ _)) by done.
    destruct (Hnl ltac:(lia)) as [N1 N2]. split; [done|]. split; [lia|]. intros _.
    by rewrite !(live_none_later now now') by (done || lia).
Qed.

Lemma failures_run l `{Separated l} ip username mx t times from r n :
  0 < t → 0 <= mx → 0 <= n → n + Z.of_nat (length times) < 2 ^ 62 →
  within_ttl from times → counted l from ip username mx r n →
  ∃ r', failures l ip username mx t times (quiet r) = (Ok tt, quiet r')
    ∧ counted l (List.last times from) ip username mx r' (n + Z.of_nat (length times)).
Proof.
  intros Ht Hmx. revert from r n. induction times as [|now times IH]; intros from r n Hn Hlt Hw Hc.
  - exists r. split; [done|]. by rewrite Z.add_0_r.
  - destruct Hw as [Hle Hw]. cbn [length] in *.
    destruct (counted_step l from now ip username mx t r n Ht Hmx ltac:(lia) Hle Hc) as (r1 & E1 & C1).
    destruct (IH now r1 (n + 1) ltac:(lia) ltac:(lia) Hw C1) as (r2 & E2 & C2).
    exists r2. cbn [failures]. rewrite io_bind_run, E1. split; [exact E2|].
    replace (n + Z.of_nat (S (length times))) with (n + 1 + Z.of_nat (length times)) by lia.
    destruct times as [|x times]; [exact C2|].
    replace (List.last (now :: x :: times) from) with (List.last (x :: times) now); [exact C2|].
    change (List.last (now :: x :: times) from) with (List.last (x :: times) from).
    clear. revert x. induction times as [|y times IH]; intros x; [done|]. apply IH.
Qed.

Lemma counted_locked l now ip username mx r n :
  counted l now ip username mx r n →
  is_locked l now ip username (quiet r) = (Ok (mx <? n), quiet r).
Proof.
  intros (_ & Hlock & Hfree). rewrite is_locked_run. f_equal. f_equal.
  destruct (Z.ltb_spec mx n) as [Hlt|Hge].
  - by rewrite bool_decide_eq_true_2 by auto.
  - destruct (Hfree Hge) as [-> ->]. done.
Qed.
End Laws.

(** ** Properties *)

(** C29: whatever the Redis server, after a run of failed logins from one
    address for one name, none further from the last than the counters'
    lifetime, the pair is locked exactly when there were more of them than the
    limit. *)
Theorem login_lockout {R} `{RedisLaws R} `{CaseMap} (l : LoginLimiter) `{Separated l}
    (r : R) (ip username : str) (max_attempts lock_seconds from : Z) (times : list Z) :
  0 < lock_seconds → 0 <= max_attempts → Z.of_nat (length times) < 2 ^ 62 →
  within_ttl from times →
  (∀ k, limiter_key l k → live from r !! k = None) →
  ∃ r', failures l ip username max_attempts lock_seconds times (quiet r) = (Ok tt, quiet r')
    ∧ is_locked l (List.last times from) ip username (quiet r')
      = (Ok (max_attempts <? Z.of_nat (length times)), quiet r').
Proof.
  intros Ht Hmx Hlen Hw Hfree.
  assert (counted l from ip username max_attempts r 0) as Hc.
  { split; [|split; [lia|]]; simpl; rewrite !Hfree; try done; unfold limiter_key; eauto 6. }
  destruct (failures_run l ip username max_attempts lock_seconds times from r 0) as (r' & E & C);
    [done..|]. exists r'. split; [done|]. by rewrite (counted_locked _ _ _ _ _ _ _ C).
Qed.

Lemma login_lockout_witness :
  let times := [1000; 31000; 91000] in
  ∃ r' : store,
    @failures store _ ascii_lower portal_limiter (u "203.0.113.7") (u "Ivan") 2 300 times (quiet ∅)
      = (Ok tt, quiet r')
    ∧ @is_locked store _ ascii_lower portal_limiter (List.last times 0) (u "203.0.113.7") (u "Ivan")
        (quiet r') = (Ok (2 <? Z.of_nat (length times)), quiet r').
Proof.
  intros times.
  apply (@login_lockout store map_redis map_redis_laws ascii_lower portal_limiter portal_separated ∅
           (u "203.0.113.7") (u "Ivan") 2 300 0 times);
    [reflexivity | discriminate | reflexivity | repeat split; discriminate | reflexivity].
Defined.

(** A successful login clears both counters and touches nothing else: the
    locks stay, and so does every key of the other limiter. *)
Theorem clear_resets {R} `{RedisLaws R} `{CaseMap} (l : LoginLimiter) `{Separated l}
    (r : R) (now : Z) (ip username : str) :
  ∃ r', clear l now ip username (quiet r) = (Ok tt, quiet r')
    ∧ counter now r' (fail_ip l ip) 0 ∧ counter now r' (fail_user l (uname username)) 0
    ∧ (∀ k, k ≠ fail_ip l ip → k ≠ fail_user l (uname username) →
        live now r' !! k = live now r !! k)
    ∧ ∀ ip' username', (is_locked l now ip' username' (quiet r')).1
        = (is_locked l now ip' username' (quiet r)).1.
Proof.
  exists (redis_delete now [fail_ip l ip; fail_user l (uname username)] r). split; [done|].
  unfold counter. rewrite !delete_live. cbn [foldr].
  rewrite lookup_delete_eq, lookup_delete_ne, lookup_delete_eq by apply sep_fail.
  split; [done|]. split; [done|].
  assert (∀ k, k ≠ fail_ip l ip → k ≠ fail_user l (uname username) →
    delete (fail_ip l ip) (delete (fail_user l (uname username)) (live now r)) !! k
    = live now r !! k) as Hk by (intros k H1' H2'; by rewrite !lookup_delete_ne by congruence).
  split; [exact Hk|]. intros ip' username'. rewrite !is_locked_run. cbn [fst].
  rewrite !delete_live. cbn [foldr].
  rewrite (Hk (lock_ip l ip')), (Hk (lock_user l (uname username'))).
  - reflexivity.
  - exact (not_eq_sym (sep_ip_user ip (uname username'))).
  - exact (not_eq_sym (sep_user_user (uname username) (uname username'))).
  - exact (not_eq_sym (sep_ip_ip ip ip')).
  - exact (not_eq_sym (sep_user_ip (uname username) ip')).
Qed.

Lemma clear_resets_witness :
  ∃ r', @clear store _ ascii_lower portal_limiter 1000 (u "203.0.113.7") (u "ivan") (quiet ∅) = (Ok tt, quiet r')
    ∧ @counter store _ _ 1000 r' (fail_ip portal_limiter (u "203.0.113.7")) 0
    ∧ @counter store _ _ 1000 r' (fail_user portal_limiter (@uname ascii_lower (u "ivan"))) 0
    ∧ (∀ k, k ≠ fail_ip portal_limiter (u "203.0.113.7") →
        k ≠ fail_user portal_limiter (@uname ascii_lower (u "ivan")) →
        live 1000 r' !! k = live 1000 (∅ : store) !! k)
    ∧ ∀ ip' username', (@is_locked store _ ascii_lower portal_limiter 1000 ip' username' (quiet r')).1
        = (@is_locked store _ ascii_lower portal_limiter 1000 ip' username' (quiet ∅)).1.
Proof.
  exact (@clear_resets store map_redis map_redis_laws ascii_lower portal_limiter portal_separated ∅
           1000 (u "203.0.113.7") (u "ivan")).
Defined.

(** The portal's and the admin panel's limiters share nothing: a failure
    recorded by one never changes what the other answers. *)
Theorem limiters_isolated {R} `{RedisLaws R} `{CaseMap}
    (r : R) (now : Z) (ip username : str) (n m max_attempts lock_seconds : Z) (admin : bool) :
  let l := if admin then admin_limiter else portal_limiter in
  let other := if admin then portal_limiter else admin_limiter in
  counter now r (fail_ip l ip) n → counter now r (fail_user l (uname username)) m →
  0 <= n < 2 ^ 62 → 0 <= m < 2 ^ 62 → 0 < lock_seconds →
  ∃ r', record_failure l now ip username max_attempts lock_seconds (quiet r) = (Ok tt, quiet r')
    ∧ ∀ ip' username', (is_locked other now ip' username' (quiet r')).1
        = (is_locked other now ip' username' (quiet r)).1.
Proof.
  intros l other Hn Hm Hn0 Hm0 Ht.
  assert (Separated l) as Hs by (destruct admin; apply _).
  destruct (record_failure_run l now ip username max_attempts lock_seconds r n m Hn Hm Hn0 Hm0 Ht)
    as (r' & E & L).
  exists r'. split; [done|]. intros ip' username'. rewrite !is_locked_run. cbn [fst]. rewrite L.
  assert (∀ k, ¬ limiter_key l k → ∀ b b' ul,
    lock_if now b (lock_user l ul) lock_seconds (lock_if now b' (lock_ip l ip) lock_seconds
      (<[fail_user l ul := bump now m]> (<[fail_ip l ip := bump now n]> (live now r)))) !! k
    = live now r !! k) as Hk.
  { intros k Hk b b' ul. unfold limiter_key in Hk.
    unfold lock_if. destruct b, b'; rewrite !lookup_insert_ne; try done;
      intros <-; apply Hk; eauto 6. }
  assert (∀ a, ¬ limiter_key l (lock_ip other a) ∧ ¬ limiter_key l (lock_user other a)) as Hother.
  { intros a. unfold l, other. destruct admin; split; intros [b [Hb|[Hb|[Hb|Hb]]]];
      vm_compute in Hb; discriminate. }
  rewrite (Hk (lock_ip other ip') (proj1 (Hother _))).
  by rewrite (Hk (lock_user other (uname username')) (proj2 (Hother _))).
Qed.

Lemma limiters_isolated_witness :
  ∃ r' : store,
    @record_failure store _ ascii_lower admin_limiter 1000 (u "203.0.113.7") (u "root") 5 300 (quiet ∅)
    = (Ok tt, quiet r')
    ∧ ∀ ip' username', (@is_locked store _ ascii_lower portal_limiter 1000 ip' username' (quiet r')).1
        = (@is_locked store _ ascii_lower portal_limiter 1000 ip' username' (quiet ∅)).1.
Proof.
  apply (@limiters_isolated store map_redis map_redis_laws ascii_lower ∅ 1000 (u "203.0.113.7") (u "root") 0 0 5 300 true);
    [reflexivity | reflexivity | lia | lia | lia].
Defined.
Close Scope Z_scope.
