(* ===== verification/Csrf.v ===== *)
(** CSRF tokens, [libs/security/csrf.py]: an HMAC over the session, the time of
    issue and a nonce. The clock is read in milliseconds. *)

From stdpp Require Import prelude list strings.
From Stdlib Require Import ZArith Lia.
From Stdlib Require Strings.String.
From S2P Require Import Prelude PySeq PyBytes PyStr Encodings Sha256.

Open Scope Z_scope.

(** [float(z)] raises [OverflowError] from this magnitude on. *)
Definition float_overflow : Z := 2 ^ 1024 - 2 ^ 970.

(** [abs(time.time() - ts) > ttl] *)
Definition older_than (now_ms ts ttl : Z) : res bool :=
  if float_overflow <=? Z.abs ts then Err OtherError
  else Ok (1000 * ttl <? Z.abs (now_ms - 1000 * ts)).

(** [hmac.compare_digest(a, b)] on strings: a non-ASCII argument is a
    [TypeError]. *)
Definition compare_digest (a b : str) : res bool :=
  if forallb (λ c, c <? 128)%N a && forallb (λ c, c <? 128)%N b
  then Ok (bool_decide (a = b)) else Err TypeError.

Definition csrf_payload (session_id ts nonce : str) : str :=
  session_id ++ u ":" ++ ts ++ u ":" ++ nonce.

(** [random]: the eight bytes the nonce is made of. *)
Definition generate_csrf_token (session_id secret : str) (now_ms : Z) (random : bytes) : res str :=
  let ts := str_of_Z (int_time now_ms) in
  let nonce := token_hex random in
  let payload := csrf_payload session_id ts nonce in
  key ← utf8_encode secret;
  msg ← utf8_encode payload;
  let sig := hmac_sha256_hex key msg in
  Ok (payload ++ u ":" ++ sig).

Definition validate_csrf_token (token session_id secret : str) (ttl now_ms : Z) : res bool :=
  match split_on 58%N token with
  | [stored_session; ts_str; nonce; sig] =>
      if negb (bool_decide (stored_session = session_id)) then Ok false
      else
        match int_of_str ts_str with
        | None => Ok false
        | Some ts =>
            old ← older_than now_ms ts ttl;
            if (old : bool) then Ok false
            else
              let payload := csrf_payload stored_session ts_str nonce in
              key ← utf8_encode secret;
              msg ← utf8_encode payload;
              compare_digest sig (hmac_sha256_hex key msg)
        end
  | _ => Ok false
  end.

(** ** Lemmas *)

Lemma token_char_no_colon s : Forall (λ c, is_token_char c = true) s → 58%N ∉ s.
Proof.
  intros H Hin. rewrite Forall_forall in H. apply H in Hin. discriminate.
Qed.

Lemma digits_no_colon z : 58%N ∉ str_of_Z z.
Proof.
  assert (∀ n, 58%N ∉ str_of_N n) as Hd.
  { intros n Hin. pose proof (str_of_N_range n) as Hr. rewrite Forall_forall in Hr.
    apply Hr in Hin. simpl in Hin. lia. }
  unfold str_of_Z. destruct (z <? 0); [|apply Hd].
  rewrite not_elem_of_cons. split; [done | apply Hd].
Qed.

Lemma compare_digest_hex a l : compare_digest (hex_of l) (hex_of a) = Ok (bool_decide (hex_of l = hex_of a)).
Proof.
  unfold compare_digest.
  assert (∀ k, forallb (λ c, c <? 128)%N (hex_of k) = true) as Ha.
  { intros k. apply forallb_forall. intros c Hc. pose proof (hex_of_chars k) as Hk.
    rewrite List.Forall_forall in Hk. apply Hk, token_char_spec in Hc. apply N.ltb_lt. lia. }
  by rewrite !Ha.
Qed.

(** The four fields of a token. *)
Lemma split_csrf_token session ts nonce sig :
  58%N ∉ session → 58%N ∉ ts → 58%N ∉ nonce → 58%N ∉ sig →
  split_on 58%N (csrf_payload session ts nonce ++ 58%N :: sig) = [session; ts; nonce; sig].
Proof.
  intros H1 H2 H3 H4. unfold csrf_payload. change (u ":") with [58%N].
  rewrite <- !app_assoc. cbn [app]. by rewrite !split_on_app, split_on_absent by done.
Qed.

(** A clock of this century. *)
Definition clock_ok (now_ms : Z) : Prop := 0 <= now_ms < 2 ^ 64.

Lemma clock_size now_ms : clock_ok now_ms → (N.size_nat (Z.abs_N (int_time now_ms)) < 4300)%nat.
Proof.
  intros [H1 H2]. unfold int_time.
  assert (0 <= now_ms / 1000 < 2 ^ 64) as [H3 H4].
  { split; [by apply Z.div_pos|]. apply Z.div_lt_upper_bound; lia. }
  pose proof (size_nat_le (Z.abs_N (now_ms / 1000)) 64) as Hs.
  assert (Z.abs_N (now_ms / 1000) < 2 ^ N.of_nat 64)%N; [|lia].
  change (2 ^ N.of_nat 64)%N with 18446744073709551616%N.
  change (2 ^ 64) with 18446744073709551616 in H4. lia.
Qed.

Lemma clock_no_overflow now_ms : clock_ok now_ms → (float_overflow <=? Z.abs (int_time now_ms)) = false.
Proof.
  intros [H1 H2]. apply Z.leb_gt. unfold int_time.
  assert (0 <= now_ms / 1000 <= now_ms) as H.
  { split; [by apply Z.div_pos|]. apply Z.div_le_upper_bound; lia. }
  assert (2 ^ 64 < float_overflow) by (vm_compute; reflexivity). lia.
Qed.

(** ** Properties *)

(** A token is accepted for the session and the secret it was made for
    exactly while it is not older than its lifetime, and for no other
    session. *)
Theorem csrf_token_lifetime
    (session_id session_id' secret token : str) (issued now ttl : Z) (random : bytes) :
  58%N ∉ session_id → clock_ok issued →
  generate_csrf_token session_id secret issued random = Ok token →
  validate_csrf_token token session_id' secret ttl now
  = Ok (bool_decide (session_id = session_id')
        && (Z.abs (now - 1000 * int_time issued) <=? 1000 * ttl)).
Proof.
  intros Hs Hc Hg. unfold generate_csrf_token in Hg.
  destruct (utf8_encode secret) as [key|] eqn:Ek; [|discriminate].
  apply bind_Ok in Hg as (? & [= <-] & Hg). apply bind_Ok in Hg as (msg & Em & [= <-]).
  unfold validate_csrf_token.
  rewrite split_csrf_token; [|done|apply digits_no_colon|apply token_char_no_colon, hex_of_chars
                             |apply token_char_no_colon, hex_of_chars].
  case_bool_decide as E; [subst session_id'|done]. cbn [negb andb].
  rewrite int_of_str_of_Z by by apply clock_size. unfold older_than.
  rewrite clock_no_overflow by done. cbn [mbind res_bind]. rewrite Z.ltb_antisym.
  destruct (_ <=? _); cbn [negb]; [|done].
  rewrite Ek, Em. cbn [mbind res_bind]. unfold hmac_sha256_hex. rewrite compare_digest_hex.
  by rewrite bool_decide_eq_true_2.
Qed.

Lemma csrf_token_lifetime_witness :
  let token := generate_csrf_token (u "sid") (u "k") 1700000000500 (bz [1; 2; 3; 4; 5; 6; 7; 8]) in
  ∃ t, token = Ok t ∧ validate_csrf_token t (u "sid") (u "k") 3600 1700000100000 = Ok true.
Proof.
  eexists. split; [reflexivity|].
  rewrite (csrf_token_lifetime (u "sid") (u "sid") (u "k") _ 1700000000500 1700000100000 3600
             (bz [1; 2; 3; 4; 5; 6; 7; 8])); [vm_compute; reflexivity | | | reflexivity].
  - apply (bool_decide_unpack _). vm_compute. exact I.
  - split; vm_compute; [intros ? | reflexivity]; discriminate.
Defined.

(** Only a token whose signature is the HMAC of its own fields under the
    secret is accepted, for its own session and within the lifetime. *)
Theorem csrf_token_sound (token session_id secret : str) (ttl now : Z) :
  validate_csrf_token token session_id secret ttl now = Ok true →
  ∃ ts_str ts nonce key msg,
    utf8_encode secret = Ok key
    ∧ utf8_encode (csrf_payload session_id ts_str nonce) = Ok msg
    ∧ token = csrf_payload session_id ts_str nonce ++ u ":" ++ hmac_sha256_hex key msg
    ∧ int_of_str ts_str = Some ts ∧ Z.abs (now - 1000 * ts) <= 1000 * ttl.
Proof.
  unfold validate_csrf_token. intros H. pose proof (join_split_on 58%N token) as Hj.
  destruct (split_on 58%N token) as [|s [|ts_str [|nonce [|sig [|]]]]]; try discriminate.
  case_bool_decide as E; [subst s|discriminate]. cbn [negb] in H.
  destruct (int_of_str ts_str) as [ts|] eqn:Et; [|discriminate].
  apply bind_Ok in H as (old & Ho & H). destruct old; [discriminate|].
  apply bind_Ok in H as (key & Ek & H). apply bind_Ok in H as (msg & Em & H).
  exists ts_str, ts, nonce, key, msg. split; [done|]. split; [done|].
  unfold compare_digest in H. destruct (_ && _); [|discriminate]. injection H as H.
  apply bool_decide_eq_true in H. subst sig. split; [|split; [done|]].
  - rewrite <- Hj. unfold csrf_payload. cbn [join_with]. by rewrite <- !app_assoc.
  - unfold older_than in Ho. destruct (_ <=? _); [discriminate|]. injection Ho as Ho.
    by apply Z.ltb_ge in Ho.
Qed.

Lemma csrf_token_sound_witness :
  ∃ token, validate_csrf_token token (u "sid") (u "k") 3600 1700000000000 = Ok true
  ∧ ∃ ts_str ts nonce key msg,
    utf8_encode (u "k") = Ok key
    ∧ utf8_encode (csrf_payload (u "sid") ts_str nonce) = Ok msg
    ∧ token = csrf_payload (u "sid") ts_str nonce ++ u ":" ++ hmac_sha256_hex key msg
    ∧ int_of_str ts_str = Some ts ∧ Z.abs (1700000000000 - 1000 * ts) <= 1000 * 3600.
Proof.
  exists (u "sid:1700000000:00:" ++ hmac_sha256_hex (bl "k") (bl "sid:1700000000:00")).
  split; [vm_compute; reflexivity|].
  apply csrf_token_sound. vm_compute. reflexivity.
Defined.
Close Scope Z_scope.
