(* ===== verification/Encryption.v ===== *)
(** The session-password encryption, [libs/redis_store/encryption.py]. AES-GCM
    itself is the [cryptography] package: a class of the two operations and of
    their documented laws, with a concrete instance for the witnesses. *)

From stdpp Require Import prelude list strings.
From Stdlib Require Import ZArith Lia.
From Stdlib Require Strings.String.
From S2P Require Import Prelude PySeq PyBytes PyStr Encodings Sha256.

Open Scope Z_scope.

(** [AESGCM(key).encrypt(nonce, data, aad)] and [.decrypt]. *)
Class AESGCM : Type := {
  gcm_encrypt : bytes → bytes → bytes → bytes → bytes;
  gcm_decrypt : bytes → bytes → bytes → bytes → res bytes;
}.

(** With a 256-bit key and a 96-bit nonce, decryption inverts encryption, and
    what it accepts is the encryption of what it returns; the rest is
    [InvalidTag]. *)
Class AESGCMLaws `{AESGCM} : Prop := {
  gcm_decrypt_encrypt key nonce p aad :
    length key = 32%nat → length nonce = 12%nat →
    gcm_decrypt key nonce (gcm_encrypt key nonce p aad) aad = Ok p;
  gcm_authentic key nonce c aad :
    length key = 32%nat → length nonce = 12%nat →
    match gcm_decrypt key nonce c aad with
    | Ok p => c = gcm_encrypt key nonce p aad
    | Err e => e = InvalidTag
    end;
}.

Section Encryptor.
Context `{AESGCM}.

(** [AESEncryptor(key_hex).key] *)
Definition aes_encryptor (key_hex : str) : res bytes :=
  key ← bytes_fromhex key_hex;
  if (length key =? 32)%nat then Ok key else Err ValueError.

(** [nonce]: the twelve bytes drawn for the message. *)
Definition encrypt (key nonce : bytes) (plaintext : str) (aad : bytes) : res str :=
  data ← utf8_encode plaintext;
  let ciphertext := gcm_encrypt key nonce data aad in
  Ok (b64_encode (nonce ++ ciphertext)).

Definition decrypt (key : bytes) (blob : str) (aad : bytes) : res str :=
  raw ← b64_decode blob;
  let nonce := take 12 raw in
  let ciphertext := drop 12 raw in
  plain ← gcm_decrypt key nonce ciphertext aad;
  utf8_decode plain.

Lemma decrypt_encrypt `{!AESGCMLaws} key nonce plaintext aad :
  length key = 32%nat → length nonce = 12%nat → Forall scalar plaintext →
  ∃ blob, encrypt key nonce plaintext aad = Ok blob ∧ decrypt key blob aad = Ok plaintext
    ∧ Forall (λ c, c < 128)%N blob.
Proof.
  intros Hk Hn Hp. destruct (utf8_encode_scalar plaintext Hp) as (data & Ed & Dd).
  unfold encrypt. rewrite Ed. eexists. split; [reflexivity|]. split; [|apply b64_encode_ascii].
  unfold decrypt. rewrite b64_decode_encode. cbn [mbind res_bind].
  rewrite take_app_exact, drop_app_exact by done. by rewrite gcm_decrypt_encrypt.
Qed.
End Encryptor.

(** A concrete instance: the data with a keyed digest of everything as tag. *)
Definition toy_tag (key nonce p aad : bytes) : bytes :=
  take 16 (sha256 (sha256 (key ++ nonce) ++ sha256 p ++ sha256 aad)).

#[export] Instance toy_gcm : AESGCM := {|
  gcm_encrypt key nonce p aad := p ++ toy_tag key nonce p aad;
  gcm_decrypt key nonce c aad :=
    let p := take (length c - 16) c in
    if bool_decide (drop (length c - 16) c = toy_tag key nonce p aad) && (16 <=? length c)%nat
    then Ok p else Err InvalidTag;
|}.

Lemma toy_tag_length key nonce p aad : length (toy_tag key nonce p aad) = 16%nat.
Proof. reflexivity. Qed.

#[export] Instance toy_gcm_laws : AESGCMLaws.
Proof.
  split.
  - intros key nonce p aad _ _. cbv beta iota zeta delta [gcm_encrypt gcm_decrypt toy_gcm].
    rewrite length_app, toy_tag_length, Nat.add_sub, take_app_length, drop_app_length.
    rewrite bool_decide_eq_true_2 by done. by rewrite (proj2 (Nat.leb_le _ _)) by lia.
  - intros key nonce c aad _ _. cbv beta iota zeta delta [gcm_encrypt gcm_decrypt toy_gcm].
    case_bool_decide as E; [|done]. cbn [andb].
    destruct (16 <=? length c)%nat; [|done]. rewrite <- E. by rewrite take_drop.
Qed.

(** ** Properties *)

(** With any AES-GCM that obeys the laws, a password survives storage; and
    whatever blob decrypts carries the encryption of the text it decrypts to,
    under this key and this session's associated data. *)
Theorem password_roundtrip `{AESGCMLaws} (key nonce aad : bytes) (password : str) :
  length key = 32%nat → length nonce = 12%nat → Forall scalar password →
  (∃ blob, encrypt key nonce password aad = Ok blob ∧ decrypt key blob aad = Ok password)
  ∧ ∀ blob raw text, b64_decode blob = Ok raw → (12 <= length raw)%nat →
      decrypt key blob aad = Ok text →
      ∃ data, utf8_decode data = Ok text ∧ drop 12 raw = gcm_encrypt key (take 12 raw) data aad.
Proof.
  intros Hk Hn Hp. split.
  - destruct (decrypt_encrypt key nonce password aad Hk Hn Hp) as (b & E & D & _). eauto.
  - intros blob raw text Er Hl. unfold decrypt. rewrite Er. cbn [mbind res_bind].
    pose proof (gcm_authentic key (take 12 raw) (drop 12 raw) aad Hk) as Ha.
    specialize (Ha ltac:(len)). destruct (gcm_decrypt _ _ _ _) as [data|]; [|discriminate].
    intros Ht. by exists data.
Qed.

Lemma password_roundtrip_witness :
  let key := replicate 32 (z2b 7) in let nonce := replicate 12 (z2b 1) in
  (∃ blob, encrypt key nonce (u "p@ss") (bl "rdp:web:id:ivan") = Ok blob
    ∧ decrypt key blob (bl "rdp:web:id:ivan") = Ok (u "p@ss"))
  ∧ ∀ blob raw text, b64_decode blob = Ok raw → (12 <= length raw)%nat →
      decrypt key blob (bl "rdp:web:id:ivan") = Ok text →
      ∃ data, utf8_decode data = Ok text
        ∧ drop 12 raw = gcm_encrypt key (take 12 raw) data (bl "rdp:web:id:ivan").
Proof.
  apply (@password_roundtrip toy_gcm toy_gcm_laws (replicate 32 (z2b 7)) (replicate 12 (z2b 1))
           (bl "rdp:web:id:ivan") (u "p@ss")); [reflexivity | reflexivity |].
  apply scalar_b_spec. vm_compute. reflexivity.
Defined.
Close Scope Z_scope.
