(* ===== verification/Sessions.v ===== *)
(** The session store, [libs/redis_store/sessions.py]: RDP tokens, portal
    sessions and admin sessions in Redis, with WATCH/MULTI/EXEC updates. Random
    bytes and the clock are arguments; other clients' commands fall between the
    store's own as the world says. A payload whose fields have other types than
    the program ever writes is outside the model ([OtherError]). *)

From stdpp Require Import prelude gmap list strings.
From Stdlib Require Import ZArith Lia.
From Stdlib Require Strings.String.
From S2P Require Import Prelude PySeq PyBytes PyStr Json Encodings Sha256 Redis Keys Encryption.

Open Scope Z_scope.

Record SessionData : Type := {
  sd_token : str;
  sd_username : str;
  sd_target_host : str;
  sd_target_port : Z;
  sd_password : str;
  sd_fingerprint : json;
  sd_server_id : json;
  sd_server_display : json;
}.

Record WebSessionData : Type := {
  ws_session_id : str;
  ws_username : str;
  ws_groups : list str;
  ws_group_guids : list str;
  ws_password : str;
}.

Record AdminWebSessionData : Type := {
  as_session_id : str;
  as_admin_user_id : str;
  as_username : str;
  as_must_change_password : bool;
  as_allowed_ips : json;
}.

(** The configuration a store is built with. *)
Record SessionStore : Type := {
  web_ttl : Z;
  rdp_token_ttl : Z;
  web_idle_ttl : Z;
  enc_key : bytes;
}.

(** ** Payload fields *)

(** [payload[k]] *)
Definition field_of (k : str) (d : dict) : res json := dict_get k d ?? KeyError.
Definition str_field (j : json) : res str :=
  match j with JStr s => Ok s | _ => Err OtherError end.

(** [int(j)] *)
Definition py_int (j : json) : res Z :=
  match j with
  | JInt z => Ok z
  | JBool b => Ok (if b then 1 else 0)
  | JStr s => int_of_str s ?? ValueError
  | JFloat _ => Err OtherError
  | JNull | JList _ | JObj _ => Err TypeError
  end.

Definition json_str_opt (o : option str) : json :=
  match o with Some s => JStr s | None => JNull end.

(** [json.loads(raw)] of a payload. *)
Definition load_payload (raw : str) : res dict :=
  j ← json_loads raw; match j with JObj d => Ok d | _ => Err OtherError end.

(** [str(v) for v in j] *)
Fixpoint str_items (l : list json) : res (list str) :=
  match l with
  | [] => Ok []
  | v :: l' => s ← str_field v; r ← str_items l'; Ok (s :: r)
  end.
Definition str_list (j : json) : res (list str) :=
  match j with JList l => str_items l | _ => Err OtherError end.

(** [j != s] for a string [s]. *)
Definition json_ne_str (j : json) (s : str) : bool :=
  match j with JStr t => negb (bool_decide (t = s)) | _ => true end.

Definition password_aad (prefix identifier username : str) : res bytes :=
  utf8_encode (prefix ++ u ":" ++ identifier ++ u ":" ++ username).

Definition fingerprint_digest (fingerprint : str) : res str :=
  sha256_hexdigest <$> utf8_encode fingerprint.

Section Store.
Context {R : Type} `{Redis R} `{AESGCM}.
Implicit Types (st : SessionStore) (now : Z).

(** ** RDP tokens *)

Definition create_session st now (random nonce : bytes) (username password target_host : str)
    (target_port : Z) (server_id server_display : option str) : io (world R) str :=
  let token := token_urlsafe random in
  let key := TOKEN token in
  aad ← io_lift (password_aad (u "rdp:token") token username);
  password_enc ← io_lift (encrypt (enc_key st) nonce password aad);
  let payload := [
    (u "username", JStr username);
    (u "password_enc", JStr password_enc);
    (u "target_host", JStr target_host);
    (u "target_port", JInt target_port);
    (u "fingerprint", JNull);
    (u "server_id", json_str_opt server_id);
    (u "server_display", json_str_opt server_display)] in
  _ ← client_setex now key (rdp_token_ttl st) (json_dumps true (JObj payload));
  mret token.

(** What a stored token payload says. *)
Definition session_of st (token raw : str) : res SessionData :=
  payload ← load_payload raw;
  username ← field_of (u "username") payload ≫= str_field;
  aad ← password_aad (u "rdp:token") token username;
  target_host ← field_of (u "target_host") payload ≫= str_field;
  target_port ← field_of (u "target_port") payload ≫= py_int;
  password_enc ← field_of (u "password_enc") payload ≫= str_field;
  password ← decrypt (enc_key st) password_enc aad;
  Ok {| sd_token := token; sd_username := username; sd_target_host := target_host;
        sd_target_port := target_port; sd_password := password;
        sd_fingerprint := dict_get_or (u "fingerprint") JNull payload;
        sd_server_id := dict_get_or (u "server_id") JNull payload;
        sd_server_display := dict_get_or (u "server_display") JNull payload |}.

(** [not raw] for the reply of GET. *)
Definition some_text (raw : option str) : option str :=
  match raw with Some (c :: s) => Some (c :: s) | _ => None end.

Definition get_session st now (token : str) : io (world R) (option SessionData) :=
  raw ← client_get now (TOKEN token);
  match some_text raw with
  | None => mret None
  | Some raw => io_lift (Some <$> session_of st token raw)
  end.

(** Leaving [with self.client.pipeline()] gives up the watch. *)
Definition with_pipeline {A} (m : io (world R) A) : io (world R) A := λ w,
  let '(a, w') := m w in (a, World (w_store w') (w_env w') None false).

(** One pass of the loop of [set_token_fingerprint]. *)
Definition set_fingerprint_once now (key fingerprint : str) : io (world R) bool :=
  _ ← pipe_watch now key;
  raw ← client_get now key;
  match some_text raw with
  | None => mret false
  | Some raw =>
      payload ← io_lift (load_payload raw);
      digest ← io_lift (fingerprint_digest fingerprint);
      let payload := dict_set (u "fingerprint") (JStr digest) payload in
      ttl ← client_ttl now key;
      if ttl <=? 0 then mret false
      else
        _ ← pipe_execute now (redis_setex now key ttl (json_dumps true (JObj payload)));
        mret true
  end.

(** The loop: only a [WatchError] repeats it, and each one takes a batch of
    other clients' commands. *)
Fixpoint set_fingerprint_loop (fuel : nat) now (key fingerprint : str) : io (world R) bool := λ w,
  match fuel with
  | O => (Err OtherError, w)
  | S fuel' =>
      match set_fingerprint_once now key fingerprint w with
      | (Err WatchError, w') => set_fingerprint_loop fuel' now key fingerprint w'
      | r => r
      end
  end.

Definition set_token_fingerprint now (token fingerprint : str) : io (world R) bool := λ w,
  with_pipeline (set_fingerprint_loop (S (length (w_env w))) now (TOKEN token) fingerprint) w.

Definition token_fingerprint_matches now (token fingerprint : str) : io (world R) bool :=
  raw ← client_get now (TOKEN token);
  match some_text raw with
  | None => mret false
  | Some raw =>
      payload ← io_lift (load_payload raw);
      let expected := dict_get_or (u "fingerprint") JNull payload in
      if negb (truthy expected) then mret false
      else
        digest ← io_lift (fingerprint_digest fingerprint);
        mret (negb (json_ne_str expected digest))
  end.

Definition delete_session now (token : str) : io (world R) unit :=
  client_delete now [TOKEN token].

(** ** Portal sessions *)

Definition create_web_session st now (random nonce : bytes) (username password : str)
    (groups group_guids : list str) (browser_fingerprint : str) : io (world R) str :=
  let session_id := token_urlsafe random in
  let key := WEB_SESSION session_id in
  aad ← io_lift (password_aad (u "rdp:web") session_id username);
  password_enc ← io_lift (encrypt (enc_key st) nonce password aad);
  digest ← io_lift (fingerprint_digest browser_fingerprint);
  let payload := [
    (u "username", JStr username);
    (u "password_enc", JStr password_enc);
    (u "groups", JList (map JStr groups));
    (u "group_guids", JList (map JStr group_guids));
    (u "browser_fingerprint", JStr digest);
    (u "last_seen_ts", JInt (int_time now))] in
  _ ← client_setex now key (web_ttl st) (json_dumps true (JObj payload));
  mret session_id.

(** What [get_web_session] and [get_admin_web_session] do with the payload they
    read, before the [except]: [true] when the function returns [None] here. *)
Definition touch_session st now (key : str) (browser_fingerprint : str) (payload : dict)
    : io (world R) bool :=
  let expected_fp := dict_get_or (u "browser_fingerprint") JNull payload in
  mismatch ← (if truthy expected_fp then
                digest ← io_lift (fingerprint_digest browser_fingerprint);
                mret (json_ne_str expected_fp digest)
              else mret false);
  if (mismatch : bool) then
    _ ← pipe_execute now (λ r, (Ok tt, redis_delete now [key] r)); mret true
  else
    let now_s := int_time now in
    last_seen_ts ← io_lift (py_int (dict_get_or (u "last_seen_ts") (JInt now_s) payload));
    if web_idle_ttl st <? now_s - last_seen_ts then
      _ ← pipe_execute now (λ r, (Ok tt, redis_delete now [key] r)); mret true
    else
      let payload := dict_set (u "last_seen_ts") (JInt now_s) payload in
      ttl ← client_ttl now key;
      if 0 <? ttl then
        _ ← pipe_execute now (redis_setex now key ttl (json_dumps true (JObj payload)));
        mret false
      else mret false.

(** [except redis_lib.WatchError: pass]: execution goes on after the block. *)
Definition pass_watch_error (m : io (world R) bool) : io (world R) bool := λ w,
  match m w with
  | (Err WatchError, w') => (Ok false, w')
  | r => r
  end.

(** The part the two getters share: the payload, when the function does not
    return [None]. *)
Definition read_session st now (key browser_fingerprint : str) : io (world R) (option dict) :=
  with_pipeline (
    _ ← pipe_watch now key;
    raw ← client_get now key;
    match some_text raw with
    | None => mret None
    | Some raw =>
        payload ← io_lift (load_payload raw);
        gone ← pass_watch_error (touch_session st now key browser_fingerprint payload);
        mret (if (gone : bool) then None else Some payload)
    end).

(** The session a payload describes. *)
Definition web_session_of st (session_id : str) (payload : dict) : res WebSessionData :=
  username ← field_of (u "username") payload ≫= str_field;
  aad ← password_aad (u "rdp:web") session_id username;
  groups ← str_list (dict_get_or (u "groups") (JList []) payload);
  group_guids ← str_list (dict_get_or (u "group_guids") (JList []) payload);
  password_enc ← field_of (u "password_enc") payload ≫= str_field;
  password ← decrypt (enc_key st) password_enc aad;
  Ok {| ws_session_id := session_id; ws_username := username; ws_groups := groups;
        ws_group_guids := group_guids; ws_password := password |}.

Definition get_web_session st now (session_id browser_fingerprint : str)
    : io (world R) (option WebSessionData) :=
  payload ← read_session st now (WEB_SESSION session_id) browser_fingerprint;
  match payload with
  | None => mret None
  | Some payload => io_lift (Some <$> web_session_of st session_id payload)
  end.

Definition delete_web_session now (session_id : str) : io (world R) unit :=
  client_delete now [WEB_SESSION session_id].

(** ** Admin sessions *)

Definition create_admin_web_session st now (random : bytes) (admin_user_id username : str)
    (must_change_password : bool) (browser_fingerprint : str) (allowed_ips : list str)
    : io (world R) str :=
  let session_id := token_urlsafe random in
  let key := ADMIN_WEB_SESSION session_id in
  digest ← io_lift (fingerprint_digest browser_fingerprint);
  let payload := [
    (u "admin_user_id", JStr admin_user_id);
    (u "username", JStr username);
    (u "must_change_password", JBool must_change_password);
    (u "browser_fingerprint", JStr digest);
    (u "last_seen_ts", JInt (int_time now));
    (u "allowed_ips", JList (map JStr allowed_ips))] in
  _ ← client_setex now key (web_ttl st) (json_dumps true (JObj payload));
  mret session_id.

Definition admin_session_of (session_id : str) (payload : dict) : res AdminWebSessionData :=
  admin_user_id ← field_of (u "admin_user_id") payload ≫= str_field;
  username ← field_of (u "username") payload ≫= str_field;
  let allowed := dict_get_or (u "allowed_ips") JNull payload in
  Ok {| as_session_id := session_id; as_admin_user_id := admin_user_id; as_username := username;
        as_must_change_password := truthy (dict_get_or (u "must_change_password") JNull payload);
        as_allowed_ips := if truthy allowed then allowed else JList [] |}.

Definition get_admin_web_session st now (session_id browser_fingerprint : str)
    : io (world R) (option AdminWebSessionData) :=
  payload ← read_session st now (ADMIN_WEB_SESSION session_id) browser_fingerprint;
  match payload with
  | None => mret None
  | Some payload => io_lift (Some <$> admin_session_of session_id payload)
  end.

Definition update_admin_must_change now (session_id : str) (must_change_password : bool)
    : io (world R) unit :=
  let key := ADMIN_WEB_SESSION session_id in
  raw ← client_get now key;
  match some_text raw with
  | None => mret tt
  | Some raw =>
      payload ← io_lift (load_payload raw);
      let payload := dict_set (u "must_change_password") (JBool must_change_password) payload in
      ttl ← client_ttl now key;
      if 0 <? ttl then client_setex now key ttl (json_dumps true (JObj payload)) else mret tt
  end.

Definition delete_admin_web_session now (session_id : str) : io (world R) unit :=
  client_delete now [ADMIN_WEB_SESSION session_id].
End Store.

(** ** Lemmas *)

Section StoreLemmas.
Context {R : Type} `{RedisLaws R} `{AESGCMLaws}.
Implicit Types (st : SessionStore) (now : Z) (r : R) (w : world R).

Lemma some_text_dumps ea d : some_text (Some (json_dumps ea (JObj d))) = Some (json_dumps ea (JObj d)).
Proof. reflexivity. Qed.

Lemma load_payload_errors raw e : load_payload raw = Err e → e = ValueError ∨ e = OtherError.
Proof.
  unfold load_payload, json_loads. intros Hl.
  destruct (bool_decide _); [simpl in Hl; naive_solver|].
  destruct (scan_value _ _) as [[j rest]|]; [|simpl in Hl; naive_solver].
  destruct (skip_ws rest); [|simpl in Hl; naive_solver].
  destruct j; simpl in Hl; naive_solver.
Qed.

Lemma utf8_encode_errors s e : utf8_encode s = Err e → e = UnicodeError.
Proof.
  induction s as [|c s IH]; simpl; [discriminate|].
  assert (∀ x, utf8_char c = Err x → x = UnicodeError) as Hc.
  { intros x. unfold utf8_char. repeat (res_case; try discriminate). congruence. }
  destruct (utf8_char c) as [b|x]; simpl.
  - destruct (utf8_encode s) as [b'|x]; simpl; [discriminate | intros [= ->]; by apply IH].
  - intros [= ->]. by apply Hc.
Qed.

Lemma fingerprint_digest_errors fp e : fingerprint_digest fp = Err e → e = UnicodeError.
Proof.
  unfold fingerprint_digest. destruct (utf8_encode fp) as [b|x] eqn:E; simpl; [discriminate|].
  intros [= ->]. by eapply utf8_encode_errors.
Qed.

(** What other clients do in a sequence of batches. *)
Definition others (now : Z) (batches : list (list command)) (r : R) : R := foldl (foldl (run_command now)) r batches.

(** From [w] to [w1] nothing has happened but other clients' batches. *)
Definition only_others (now : Z) (w w1 : world R) : Prop :=
  ∃ b, w_env w = b ++ w_env w1 ∧ w_store w1 = others now b (w_store w).

Lemma only_others_refl now w w1 : w_env w1 = w_env w → w_store w1 = w_store w → only_others now w w1.
Proof. intros He Hs. exists []. by rewrite He. Qed.

Lemma only_others_trans now w1 w2 w3 : only_others now w1 w2 → only_others now w2 w3 → only_others now w1 w3.
Proof.
  intros (b1 & E1 & S1) (b2 & E2 & S2). exists (b1 ++ b2). split; [by rewrite E1, E2, app_assoc|].
  unfold others in *. by rewrite S2, S1, foldl_app.
Qed.

Lemma only_others_interfere now w : only_others now w (interfere now w).
Proof.
  unfold interfere. destruct (w_env w) as [|b env] eqn:E; [by apply only_others_refl|]. exists [b].
  destruct (other_commands_frame now b (World (w_store w) env (w_watched w) (w_dirty w))) as [-> _].
  split; [by rewrite E|]. unfold others. cbn [foldl]. generalize (w_watched w) (w_dirty w) (w_store w). clear E.
  induction b as [|c b IH]; intros k d r; [done|]. exact (IH k _ _).
Qed.

(** A transaction that ran saw the key as the last read left it. *)
Lemma execute_run {A} now (f : io R A) w key a w' :
  w_watched w = Some key → pipe_execute now f w = (Ok a, w') →
  w_dirty w = false
  ∧ live now (w_store (interfere now w)) !! key = live now (w_store w) !! key
  ∧ w_env w' = w_env (interfere now w) ∧ f (w_store (interfere now w)) = (Ok a, w_store w').
Proof.
  intros Hw. unfold pipe_execute. destruct (w_dirty (interfere now w)) eqn:Hd; [discriminate|].
  destruct (interfere_clean now w key Hw Hd) as (Hd0 & Hl & _).
  destruct (f (w_store (interfere now w))) as [b r'] eqn:Ef. by intros [= -> <-].
Qed.

(** A transaction that did not run changed nothing. *)
Lemma execute_failed now key t v w e w' :
  0 < t → pipe_execute now (redis_setex now key t v) w = (Err e, w') →
  w_env w' = w_env (interfere now w) ∧ w_store w' = w_store (interfere now w).
Proof.
  intros Ht. unfold pipe_execute. destruct (w_dirty (interfere now w)); [by intros [= _ <-]|].
  destruct (setex_live now key t v (w_store (interfere now w)) Ht) as (r' & -> & _). discriminate.
Qed.

(** What a pass that succeeds did: one atomic update of the payload, with the
    time to live it had left. *)
Definition fingerprint_written now (key fp : str) (r r' : R) : Prop :=
  ∃ e payload digest, live now r !! key = Some e
    ∧ load_payload (e_value e) = Ok payload ∧ fingerprint_digest fp = Ok digest
    ∧ 0 < ttl_of now (Some e)
    ∧ live now r' = <[key := Entry
        (json_dumps true (JObj (dict_set (u "fingerprint") (JStr digest) payload)))
        (Some (now + 1000 * ttl_of now (Some e)))]> (live now r).

(** What a pass that ends as [o] did at the moment [w3], after the others. *)
Definition passed now (key fp : str) (o : res bool) (w3 w' : world R) : Prop :=
  w_env w' = w_env w3
  ∧ match o with
    | Ok true => fingerprint_written now key fp (w_store w3) (w_store w')
    | _ => w_store w' = w_store w3
    end.

Lemma set_fingerprint_once_passed now key fp w o w' :
  set_fingerprint_once now key fp w = (o, w') → ∃ w3, only_others now w w3 ∧ passed now key fp o w3 w'.
Proof.
  unfold set_fingerprint_once. rewrite io_bind_run. unfold pipe_watch. cbv zeta.
  assert (∀ w1 o w', only_others now w w1 → o ≠ Ok true → (o, w1) = (o, w') → ∃ w3, only_others now w w3 ∧ passed now key fp o w3 w') as Hstop.
  { intros w1 o1 w1' Ho Hne [= <-]. exists w1. split; [done|]. split; [done|]. by destruct o1 as [[]|]. }
  set (w1 := World _ _ (Some key) false).
  assert (only_others now w w1) as Ho1.
  { eapply only_others_trans; [apply only_others_interfere | by apply only_others_refl]. }
  assert (w_watched w1 = Some key) as Hw1 by done. clearbody w1.
  rewrite io_bind_run. unfold client_get, reading. cbv zeta.
  set (w2 := interfere now w1).
  assert (only_others now w w2) as Ho2 by (eapply only_others_trans; [exact Ho1 | apply only_others_interfere]).
  assert (w_watched w2 = Some key) as Hw2 by (unfold w2; by rewrite interfere_watched). clearbody w2.
  rewrite get_live. destruct (live now (w_store w2) !! key) as [e|] eqn:Ek; [|intros [= <- <-]; by eapply Hstop].
  destruct e as [[|c raw] d]; [intros [= <- <-]; by eapply Hstop|].
  change (some_text (e_value <$> Some (Entry (c :: raw) d))) with (Some (c :: raw)). cbv iota.
  rewrite io_bind_run. unfold io_lift at 1.
  destruct (load_payload (c :: raw)) as [payload|x] eqn:El; [|intros [= <- <-]; by eapply Hstop].
  rewrite io_bind_run. unfold io_lift at 1.
  destruct (fingerprint_digest fp) as [digest|x] eqn:Ed; [|intros [= <- <-]; by eapply Hstop]. cbv zeta.
  rewrite io_bind_run. unfold client_ttl, reading. cbv zeta.
  set (w3 := interfere now w2) in *.
  assert (only_others now w w3) as Ho3 by (eapply only_others_trans; [exact Ho2 | apply only_others_interfere]).
  assert (w_watched w3 = Some key) as Hw3 by (unfold w3; by rewrite interfere_watched).
  rewrite ttl_live. destruct (Z.leb_spec (ttl_of now (live now (w_store w3) !! key)) 0) as [|Ht];
    [intros [= <- <-]; by eapply Hstop|].
  assert (only_others now w (interfere now w3)) as Ho4 by (eapply only_others_trans; [exact Ho3 | apply only_others_interfere]).
  rewrite io_bind_run. destruct (pipe_execute _ _ w3) as [[[]|x] w4] eqn:Ex; intros [= <- <-]; exists (interfere now w3); (split; [exact Ho4|]).
  2: { by destruct (execute_failed _ _ _ _ _ _ _ Ht Ex). }
  destruct (execute_run _ _ _ _ _ _ Hw3 Ex) as (Hd3 & Hr & He & Hs). split; [exact He|].
  destruct (interfere_clean now w2 key Hw2 Hd3) as (_ & Hl & _). fold w3 in Hl.
  rewrite Hl, Ek in Hr, Ht, Hs. exists (Entry (c :: raw) d), payload, digest. do 4 (split; [done|]).
  destruct (setex_live now key (ttl_of now (Some (Entry (c :: raw) d)))
    (json_dumps true (JObj (dict_set (u "fingerprint") (JStr digest) payload))) (w_store (interfere now w3)) Ht) as (r' & E' & L').
  rewrite E' in Hs. injection Hs as <-. exact L'.
Qed.

(** A pass that another client spoilt took one of its batches. *)
Lemma set_fingerprint_once_retry now key fp w w' :
  set_fingerprint_once now key fp w = (Err WatchError, w') →
  (length (w_env w') < length (w_env w))%nat.
Proof.
  unfold set_fingerprint_once. rewrite io_bind_run. unfold pipe_watch. cbv zeta.
  set (w1 := World _ _ (Some key) false).
  assert (w_env w1 = tail (w_env w)) as Hw1 by apply interfere_env.
  assert (w_dirty w1 = false) as Hd1 by done. clearbody w1.
  rewrite io_bind_run. unfold client_get, reading. cbv zeta.
  destruct (some_text _) as [raw|]; [|discriminate].
  rewrite io_bind_run. unfold io_lift at 1.
  destruct (load_payload raw) as [payload|x] eqn:El.
  2: { intros [= -> _]. by destruct (load_payload_errors _ _ El). }
  rewrite io_bind_run. unfold io_lift at 1.
  destruct (fingerprint_digest fp) as [digest|x] eqn:Ed.
  2: { intros [= -> _]. by apply fingerprint_digest_errors in Ed. }
  cbv zeta. rewrite io_bind_run. unfold client_ttl, reading. cbv zeta.
  destruct (_ <=? 0) eqn:Ht; [discriminate|]. apply Z.leb_gt in Ht.
  rewrite io_bind_run. unfold pipe_execute.
  set (w3 := interfere now (interfere now w1)) in *.
  assert (w_env (interfere now w3) = tail (tail (tail (tail (w_env w))))) as He
    by (unfold w3; by rewrite !interfere_env, Hw1).
  destruct (w_dirty (interfere now w3)) eqn:Hd.
  - intros [= <-]. cbn [w_env]. rewrite He.
    destruct (w_env w) as [|b env]; [|simpl; destruct env as [|? [|? [|? ?]]]; simpl; lia].
    exfalso. unfold w3 in Hd. rewrite !interfere_alone in Hd; [congruence|..];
      rewrite ?interfere_alone; rewrite ?interfere_alone; done.
  - destruct (setex_live now key _ (json_dumps true (JObj (dict_set (u "fingerprint") (JStr digest) payload)))
      (w_store (interfere now w3)) Ht) as (r' & -> & _). discriminate.
Qed.

(** The loop without fuel: pass after pass, as long as one ends in [WatchError]. *)
Inductive tries now (key fp : str) : world R → res bool → world R → Prop :=
  | tries_done w o w' : set_fingerprint_once now key fp w = (o, w') → o ≠ Err WatchError → tries now key fp w o w'
  | tries_again w w1 o w' :
      set_fingerprint_once now key fp w = (Err WatchError, w1) → tries now key fp w1 o w' → tries now key fp w o w'.

(** The loop ends: the batches to come are fuel enough. *)
Lemma set_fingerprint_loop_ends fuel now key fp w :
  (length (w_env w) < fuel)%nat →
  ∃ o w', tries now key fp w o w' ∧ set_fingerprint_loop fuel now key fp w = (o, w').
Proof.
  revert w. induction fuel as [|fuel IH]; intros w Hf; [lia|]. cbn [set_fingerprint_loop].
  destruct (set_fingerprint_once now key fp w) as [o w1] eqn:E.
  destruct (decide (o = Err WatchError)) as [->|Hne].
  - destruct (IH w1) as (o & w' & Ht & El); [pose proof (set_fingerprint_once_retry _ _ _ _ _ E); lia|].
    exists o, w'. split; [by eapply tries_again | exact El].
  - exists o, w1. split; [by apply tries_done|]. destruct o as [b|e]; [done|]. by destruct e.
Qed.

(** However many passes it takes, the last one is all that happened besides the
    others. *)
Lemma tries_passed now key fp w o w' :
  tries now key fp w o w' → ∃ w3, only_others now w w3 ∧ passed now key fp o w3 w'.
Proof.
  induction 1 as [w o w' E _|w w1 o w' E _ (w3 & Ho & Hp)]; [by apply set_fingerprint_once_passed|].
  apply set_fingerprint_once_passed in E as (w2 & Ho2 & He & Hs). exists w3. split; [|exact Hp].
  eapply only_others_trans; [exact Ho2|]. eapply only_others_trans; [|exact Ho]. by apply only_others_refl.
Qed.

(** *** The getters, when nobody else writes *)

(** A session payload is stored under a key until a deadline. *)
Definition stored now r (key : str) (payload : dict) (deadline : Z) : Prop :=
  live now r !! key = Some (Entry (json_dumps true (JObj payload)) (Some deadline)).

(** The payload of a session bound to a browser. *)
Definition session_payload (payload : dict) (digest : str) (last_seen : Z) : Prop :=
  json_ok (JObj payload)
  ∧ dict_get (u "browser_fingerprint") payload = Some (JStr digest) ∧ digest ≠ []
  ∧ dict_get (u "last_seen_ts") payload = Some (JInt last_seen).

Lemma load_dumps payload : json_ok (JObj payload) → load_payload (json_dumps true (JObj payload)) = Ok payload.
Proof. intros Hp. unfold load_payload. by rewrite json_loads_dumps. Qed.

(** A key of a WATCH with nobody else around. *)
Definition watching (r : R) (key : str) : world R := World r [] (Some key) false.

Lemma touch_session_mismatch st now key fp payload digest ts r digest' :
  session_payload payload digest ts → fingerprint_digest fp = Ok digest' →
  digest ≠ digest' ∨ web_idle_ttl st < int_time now - ts →
  touch_session st now key fp payload (watching r key)
  = (Ok true, World (redis_delete now [key] r) [] None false).
Proof.
  intros (_ & Hd & Hne & Hts) Hfp Hor. unfold touch_session, dict_get_or. rewrite Hd, Hts.
  cbn [default from_option id truthy].
  rewrite bool_decide_eq_false_2 by done. cbn [negb]. rewrite Hfp.
  cbn [json_ne_str py_int]. unfold_io. case_bool_decide as E; cbn [negb]; [|reflexivity].
  destruct Hor as [|Hidle]; [done|]. by rewrite (proj2 (Z.ltb_lt _ _) Hidle).
Qed.

Lemma touch_session_refresh st now key fp payload digest ts r deadline :
  session_payload payload digest ts → fingerprint_digest fp = Ok digest →
  int_time now - ts <= web_idle_ttl st → stored now r key payload deadline →
  ∃ r', touch_session st now key fp payload (watching r key) = (Ok false, World r' [] (if 0 <? (deadline - now + 500) / 1000 then None else Some key) false)
    ∧ live now r' = if 0 <? (deadline - now + 500) / 1000 then
        <[key := Entry (json_dumps true (JObj (dict_set (u "last_seen_ts") (JInt (int_time now)) payload)))
                   (Some (now + 1000 * ((deadline - now + 500) / 1000)))]> (live now r)
        else live now r.
Proof.
  intros (_ & Hd & Hne & Hts) Hfp Hidle Hs. unfold touch_session, dict_get_or. rewrite Hd, Hts.
  cbn [default from_option id truthy].
  rewrite bool_decide_eq_false_2 by done. cbn [negb]. rewrite Hfp.
  cbn [json_ne_str py_int]. unfold_io. rewrite bool_decide_eq_true_2 by done. cbn [negb].
  rewrite (proj2 (Z.ltb_ge _ _) Hidle). unfold client_ttl, reading. cbn [interfere w_env watching w_store].
  rewrite ttl_live. unfold stored in Hs. rewrite Hs. cbn [ttl_of e_deadline].
  destruct (Z.ltb_spec 0 ((deadline - now + 500) / 1000)) as [Ht|Ht].
  - unfold pipe_execute. cbv zeta. rewrite (interfere_alone now (watching r key)) by done.
    cbn [watching w_env w_dirty w_store].
    destruct (setex_live now key _ (json_dumps true (JObj (dict_set (u "last_seen_ts")
      (JInt (int_time now)) payload))) r Ht) as (r' & E & L).
    rewrite E. exists r'. by rewrite L.
  - exists r. done.
Qed.

Lemma read_session_absent st now key fp r :
  live now r !! key = None → read_session st now key fp (quiet r) = (Ok None, quiet r).
Proof.
  intros Hk. unfold read_session, with_pipeline. rewrite io_bind_run. unfold pipe_watch.
  cbn [interfere w_env quiet w_store]. rewrite io_bind_run. unfold client_get, reading.
  cbn [interfere w_env w_store]. by rewrite get_live, Hk.
Qed.

Lemma read_session_stored st now key fp r payload deadline :
  json_ok (JObj payload) → stored now r key payload deadline →
  read_session st now key fp (quiet r)
  = match pass_watch_error (touch_session st now key fp payload) (watching r key) with
    | (Ok gone, w) => (Ok (if (gone : bool) then None else Some payload), World (w_store w) (w_env w) None false)
    | (Err e, w) => (Err e, World (w_store w) (w_env w) None false)
    end.
Proof.
  intros Hok Hs. unfold read_session, with_pipeline. rewrite io_bind_run. unfold pipe_watch.
  cbn [interfere w_env quiet w_store]. rewrite io_bind_run. unfold client_get, reading.
  cbn [interfere w_env w_store]. rewrite get_live, Hs.
  change (some_text (e_value <$> Some (Entry (json_dumps true (JObj payload)) (Some deadline))))
    with (Some (json_dumps true (JObj payload))). cbv iota.
  rewrite io_bind_run. unfold io_lift. rewrite load_dumps by done.
  rewrite io_bind_run. fold (watching r key).
  by destruct (pass_watch_error _ (watching r key)) as [[gone|e] w].
Qed.

(** A session of another browser, or an idle one, is deleted. *)
Lemma read_session_gone st now key fp r payload deadline digest digest' ts :
  session_payload payload digest ts → stored now r key payload deadline →
  fingerprint_digest fp = Ok digest' →
  digest ≠ digest' ∨ web_idle_ttl st < int_time now - ts →
  ∃ r', read_session st now key fp (quiet r) = (Ok None, quiet r')
    ∧ live now r' = delete key (live now r).
Proof.
  intros Hp Hs Hfp Hor. rewrite (read_session_stored _ _ _ _ _ _ _ (proj1 Hp) Hs).
  unfold pass_watch_error. rewrite (touch_session_mismatch _ _ _ _ _ _ _ _ _ Hp Hfp Hor).
  exists (redis_delete now [key] r). split; [reflexivity|]. by rewrite delete_live.
Qed.

(** The rightful one is refreshed: its time of use moves, its deadline by at
    most the half second that rounding costs. *)
Lemma read_session_live st now key fp r payload deadline digest ts :
  session_payload payload digest ts → stored now r key payload deadline →
  fingerprint_digest fp = Ok digest → int_time now - ts <= web_idle_ttl st →
  ∃ r' payload' deadline', read_session st now key fp (quiet r) = (Ok (Some payload), quiet r')
    ∧ stored now r' key payload' deadline' ∧ Z.abs (deadline' - deadline) <= 500
    ∧ (payload' = payload ∨ payload' = dict_set (u "last_seen_ts") (JInt (int_time now)) payload).
Proof.
  intros Hp Hs Hfp Hidle. rewrite (read_session_stored _ _ _ _ _ _ _ (proj1 Hp) Hs).
  unfold pass_watch_error.
  destruct (touch_session_refresh st now key fp payload digest ts r deadline Hp Hfp Hidle Hs)
    as (r' & -> & L). exists r'.
  destruct (Z.ltb_spec 0 ((deadline - now + 500) / 1000)) as [Ht|Ht].
  - eexists _, _. split; [reflexivity|]. unfold stored. rewrite L, lookup_insert_eq.
    split; [reflexivity|]. split; [|by right].
    pose proof (Z.div_mod (deadline - now + 500) 1000 ltac:(lia)).
    pose proof (Z.mod_pos_bound (deadline - now + 500) 1000 ltac:(lia)). lia.
  - exists payload, deadline. split; [reflexivity|]. unfold stored. rewrite L.
    split; [exact Hs|]. split; [lia | by left].
Qed.

(** *** What the getters ask of a payload *)

(** The browser is the one of the payload, which has been used recently. *)
Definition admits st now (browser_fingerprint : str) (payload : dict) : Prop :=
  (truthy (dict_get_or (u "browser_fingerprint") JNull payload) = true →
   ∃ digest, fingerprint_digest browser_fingerprint = Ok digest
     ∧ dict_get_or (u "browser_fingerprint") JNull payload = JStr digest)
  ∧ ∃ ts, py_int (dict_get_or (u "last_seen_ts") (JInt (int_time now)) payload) = Ok ts
     ∧ int_time now - ts <= web_idle_ttl st.

Lemma py_int_errors j e : py_int j = Err e → e ≠ WatchError.
Proof. destruct j; simpl; try congruence. destruct (int_of_str s); simpl; congruence. Qed.

Lemma touch_session_admits st now key fp payload w :
  w_env w = [] → w_dirty w = false →
  match (touch_session st now key fp payload w).1 with
  | Ok false => admits st now fp payload
  | Ok true => True
  | Err e => e ≠ WatchError
  end.
Proof.
  intros Hw Hd. unfold touch_session, admits. set (expected := dict_get_or (u "browser_fingerprint") JNull payload).
  assert (∀ (f : io R unit), pipe_execute now f w = (let '(a, r) := f (w_store w) in (a, World r [] None false))) as Hexec.
  { intros f. unfold pipe_execute. rewrite interfere_alone, Hd, Hw by done. done. }
  assert (∀ P : Prop, P → match (
      (last_seen_ts ← io_lift (py_int (dict_get_or (u "last_seen_ts") (JInt (int_time now)) payload));
       if web_idle_ttl st <? int_time now - last_seen_ts then
         _ ← pipe_execute now (λ r, (Ok tt, redis_delete now [key] r)); mret true
       else
         ttl ← client_ttl now key;
         if 0 <? ttl then
           _ ← pipe_execute now (redis_setex now key ttl (json_dumps true (JObj (dict_set (u "last_seen_ts") (JInt (int_time now)) payload))));
           mret false
         else mret false : io (world R) bool) w).1 with
    | Ok false => P ∧ ∃ ts, py_int (dict_get_or (u "last_seen_ts") (JInt (int_time now)) payload) = Ok ts
        ∧ int_time now - ts <= web_idle_ttl st
    | Ok true => True
    | Err e => e ≠ WatchError
    end) as Hrest.
  { intros P HP. unfold_io. destruct (py_int _) as [ts|e] eqn:Ets; [|by eapply py_int_errors].
    destruct (Z.ltb_spec (web_idle_ttl st) (int_time now - ts)) as [Hi|Hi]; [by rewrite Hexec|].
    unfold client_ttl, reading. rewrite interfere_alone by done.
    destruct (0 <? redis_ttl now key (w_store w)) eqn:Et; simpl; [|eauto].
    apply Z.ltb_lt in Et. rewrite Hexec.
    match goal with |- context [redis_setex now key ?t ?v (w_store w)] =>
      destruct (setex_live now key t v (w_store w) Et) as (r' & -> & _) end. simpl. eauto. }
  rewrite io_bind_run. destruct (truthy expected) eqn:Et.
  - rewrite io_bind_run. unfold io_lift at 1.
    destruct (fingerprint_digest fp) as [digest|e] eqn:Edig; simpl; [|by rewrite (fingerprint_digest_errors _ _ Edig)].
    destruct (json_ne_str expected digest) eqn:Ene; [rewrite io_bind_run; by rewrite Hexec|].
    apply Hrest. intros _. exists digest. split; [done|]. unfold json_ne_str in Ene.
    destruct expected; try done. apply negb_false_iff, bool_decide_eq_true in Ene. by subst.
  - simpl. apply Hrest. done.
Qed.

(** A session that is given back is stored, and its browser and time are right. *)
Lemma read_session_inv st now key fp w payload w' :
  w_env w = [] → read_session st now key fp w = (Ok (Some payload), w') →
  ∃ raw, e_value <$> live now (w_store w) !! key = Some raw ∧ load_payload raw = Ok payload ∧ admits st now fp payload.
Proof.
  intros Hw. unfold read_session, with_pipeline. rewrite io_bind_run. unfold pipe_watch.
  rewrite interfere_alone by done. rewrite io_bind_run, client_get_alone by done. cbn [w_store].
  destruct (live now (w_store w) !! key) as [en|] eqn:El; cbn [fmap option_fmap option_map some_text]; [|discriminate].
  destruct (e_value en) as [|c raw] eqn:Ev; [discriminate|]. rewrite io_bind_run. unfold io_lift.
  destruct (load_payload (c :: raw)) as [payload0|e] eqn:Ep; [|discriminate]. rewrite io_bind_run.
  unfold pass_watch_error.
  pose proof (touch_session_admits st now key fp payload0 (World (w_store w) (w_env w) (Some key) false) Hw eq_refl) as Ht.
  destruct (touch_session _ _ _ _ _ _) as [[[]|e] w1]; simpl in *; [discriminate | | by destruct e].
  intros [= <- _]. exists (c :: raw). split; [by f_equal | by split].
Qed.

(** *** What the creators store *)

Definition web_payload (username penc : str) (groups guids : list str) (digest : str) (ts : Z) : dict := [
  (u "username", JStr username); (u "password_enc", JStr penc);
  (u "groups", JList (map JStr groups)); (u "group_guids", JList (map JStr guids));
  (u "browser_fingerprint", JStr digest); (u "last_seen_ts", JInt ts)].

Definition admin_payload (uid username : str) (must : bool) (digest : str) (ts : Z) (ips : list str) : dict := [
  (u "admin_user_id", JStr uid); (u "username", JStr username);
  (u "must_change_password", JBool must); (u "browser_fingerprint", JStr digest);
  (u "last_seen_ts", JInt ts); (u "allowed_ips", JList (map JStr ips))].

Definition token_payload (username penc host : str) (port : Z) (fp : json) (sid disp : option str) : dict := [
  (u "username", JStr username); (u "password_enc", JStr penc); (u "target_host", JStr host);
  (u "target_port", JInt port); (u "fingerprint", fp);
  (u "server_id", json_str_opt sid); (u "server_display", json_str_opt disp)].

Definition text (s : str) : Prop := Forall scalar s.

Lemma json_ok_strs l : Forall text l → json_ok (JList (map JStr l)).
Proof. intros Hl. simpl. rewrite map_map. simpl. by apply Forall_all. Qed.

Lemma ascii_text s : Forall (λ c, c < 128)%N s → text s.
Proof. intros Hs. eapply Forall_impl; [exact Hs|]. intros c Hc. unfold scalar. simpl in Hc. lia. Qed.

Lemma hex_text l : text (hex_of l).
Proof.
  eapply Forall_impl; [apply hex_of_chars|]. intros c Hc. apply token_char_spec in Hc.
  unfold scalar. lia.
Qed.

Lemma token_text random : text (token_urlsafe random).
Proof.
  eapply Forall_impl; [apply token_urlsafe_chars|]. intros c Hc. apply token_char_spec in Hc.
  unfold scalar. lia.
Qed.

Definition small_int (z : Z) : Prop := (N.size_nat (Z.abs_N z) < 4300)%nat.

Lemma json_ok_items l : NoDup (map fst l) → Forall (λ kv, scalar_b kv.1 = true ∧ json_ok kv.2) l → json_ok (JObj l).
Proof.
  intros Hn Hl. split; [done|]. apply Forall_all. eapply Forall_impl; [exact Hl|].
  intros kv [Hk Hv]. split; [by apply scalar_b_spec | done].
Qed.

Lemma json_ok_str_opt o : from_option text True o → json_ok (json_str_opt o).
Proof. by destruct o. Qed.

Ltac payload_value :=
  cbn [snd]; first [exact I | assumption | by apply json_ok_strs | by apply json_ok_str_opt].

Lemma web_payload_ok username penc groups guids digest ts :
  text username → text penc → Forall text groups → Forall text guids → text digest → small_int ts →
  json_ok (JObj (web_payload username penc groups guids digest ts)).
Proof.
  intros. apply json_ok_items; [apply (bool_decide_unpack _); vm_compute; exact I|].
  repeat (apply Forall_cons_2; [split; [reflexivity|]; payload_value|]). constructor.
Qed.

Lemma admin_payload_ok uid username must digest ts ips :
  text uid → text username → text digest → small_int ts → Forall text ips →
  json_ok (JObj (admin_payload uid username must digest ts ips)).
Proof.
  intros. apply json_ok_items; [apply (bool_decide_unpack _); vm_compute; exact I|].
  repeat (apply Forall_cons_2; [split; [reflexivity|]; payload_value|]). constructor.
Qed.

Lemma token_payload_ok username penc host port fp sid disp :
  text username → text penc → text host → small_int port → json_ok fp →
  from_option text True sid → from_option text True disp →
  json_ok (JObj (token_payload username penc host port fp sid disp)).
Proof.
  intros. apply json_ok_items; [apply (bool_decide_unpack _); vm_compute; exact I|].
  repeat (apply Forall_cons_2; [split; [reflexivity|]; payload_value|]). constructor.
Qed.

Lemma fingerprint_digest_text fp : text fp → ∃ l, fingerprint_digest fp = Ok (hex_of (sha256 l)) ∧ utf8_encode fp = Ok l.
Proof.
  intros Hfp. destruct (utf8_encode_scalar fp Hfp) as (b & E & _). exists b.
  unfold fingerprint_digest. by rewrite E.
Qed.

Lemma hex_sha256_ne l : hex_of (sha256 l) ≠ [].
Proof.
  intros E. apply (f_equal length) in E. unfold hex_of in E.
  unfold sha256 in E. cbv zeta in E. cbn [map concat app] in E.
  destruct (be_encode 4 _) eqn:Eb; [by apply (f_equal length) in Eb; rewrite length_be_encode in Eb|].
  discriminate.
Qed.

Lemma password_aad_text prefix id username :
  text prefix → text id → text username → ∃ b, password_aad prefix id username = Ok b.
Proof.
  intros H1' H2' H3'. unfold password_aad.
  destruct (utf8_encode_scalar (prefix ++ u ":" ++ id ++ u ":" ++ username)) as (b & E & _); [|by exists b].
  assert (Forall scalar (u ":")) by (apply scalar_b_spec; reflexivity).
  rewrite !Forall_app. auto.
Qed.

Lemma stored_later now now' r key payload deadline :
  stored now r key payload deadline → now <= now' →
  if now' <=? deadline then stored now' r key payload deadline else live now' r !! key = None.
Proof.
  unfold stored. intros Hs Hle. rewrite !(live_later now now') by done. rewrite Hs. simpl.
  unfold alive. simpl. rewrite Z.ltb_antisym. by destruct (now' <=? deadline).
Qed.

(** The configuration and the random bytes are well formed. *)
Definition ready st (nonce : bytes) : Prop := length (enc_key st) = 32%nat ∧ length nonce = 12%nat.

Lemma create_session_run st now random nonce username password host port sid disp r :
  ready st nonce → text username → text password → 0 < rdp_token_ttl st →
  ∃ r' penc aad, create_session st now random nonce username password host port sid disp (quiet r)
      = (Ok (token_urlsafe random), quiet r')
    ∧ live now r' = <[TOKEN (token_urlsafe random) :=
        Entry (json_dumps true (JObj (token_payload username penc host port JNull sid disp)))
          (Some (now + 1000 * rdp_token_ttl st))]> (live now r)
    ∧ password_aad (u "rdp:token") (token_urlsafe random) username = Ok aad
    ∧ decrypt (enc_key st) penc aad = Ok password ∧ text penc.
Proof.
  intros [Hk Hn] Hu Hp Ht.
  destruct (password_aad_text (u "rdp:token") (token_urlsafe random) username) as [aad Ea];
    [by apply scalar_b_spec | apply token_text | done |].
  destruct (decrypt_encrypt (enc_key st) nonce password aad Hk Hn Hp) as (penc & Ee & De & Hpenc).
  destruct (setex_live now (TOKEN (token_urlsafe random)) (rdp_token_ttl st)
    (json_dumps true (JObj (token_payload username penc host port JNull sid disp))) r Ht)
    as (r' & E & L).
  exists r', penc, aad. split; [|by repeat split; auto using ascii_text].
  unfold create_session. unfold_io. rewrite Ea, Ee. unfold client_setex, writing.
  rewrite (interfere_alone now (quiet r)) by done. cbv zeta. cbn [w_store quiet].
  fold (token_payload username penc host port JNull sid disp). by rewrite E.
Qed.

Lemma session_of_token st token username penc host port fp sid disp aad password :
  json_ok (JObj (token_payload username penc host port fp sid disp)) →
  password_aad (u "rdp:token") token username = Ok aad →
  decrypt (enc_key st) penc aad = Ok password →
  session_of st token (json_dumps true (JObj (token_payload username penc host port fp sid disp)))
  = Ok {| sd_token := token; sd_username := username; sd_target_host := host; sd_target_port := port;
          sd_password := password; sd_fingerprint := fp;
          sd_server_id := json_str_opt sid; sd_server_display := json_str_opt disp |}.
Proof.
  intros Hok Ha Hd. unfold session_of. rewrite load_dumps by done. cbn [mbind res_bind].
  change (field_of (u "username") (token_payload username penc host port fp sid disp)) with (Ok (JStr username)).
  change (field_of (u "target_host") (token_payload username penc host port fp sid disp)) with (Ok (JStr host)).
  change (field_of (u "target_port") (token_payload username penc host port fp sid disp)) with (Ok (JInt port)).
  change (field_of (u "password_enc") (token_payload username penc host port fp sid disp)) with (Ok (JStr penc)).
  cbn [mbind res_bind str_field py_int]. rewrite Ha. cbn [mbind res_bind]. rewrite Hd. reflexivity.
Qed.

Lemma get_session_stored st now token payload deadline r :
  json_ok (JObj payload) → stored now r (TOKEN token) payload deadline →
  get_session st now token (quiet r)
  = (Some <$> session_of st token (json_dumps true (JObj payload)), quiet r).
Proof.
  intros Hok Hs. unfold get_session. rewrite io_bind_run. unfold client_get, reading.
  cbn [interfere w_env quiet w_store]. rewrite get_live, Hs. reflexivity.
Qed.

Lemma get_session_absent st now token r :
  live now r !! TOKEN token = None → get_session st now token (quiet r) = (Ok None, quiet r).
Proof.
  intros Hs. unfold get_session. rewrite io_bind_run. unfold client_get, reading.
  cbn [interfere w_env quiet w_store]. by rewrite get_live, Hs.
Qed.

Lemma create_web_session_run st now random nonce username password groups guids fp digest r :
  ready st nonce → text username → text password → 0 < web_ttl st →
  fingerprint_digest fp = Ok digest →
  ∃ r' penc aad, create_web_session st now random nonce username password groups guids fp (quiet r)
      = (Ok (token_urlsafe random), quiet r')
    ∧ live now r' = <[WEB_SESSION (token_urlsafe random) :=
        Entry (json_dumps true (JObj (web_payload username penc groups guids digest (int_time now))))
          (Some (now + 1000 * web_ttl st))]> (live now r)
    ∧ password_aad (u "rdp:web") (token_urlsafe random) username = Ok aad
    ∧ decrypt (enc_key st) penc aad = Ok password ∧ text penc.
Proof.
  intros [Hk Hn] Hu Hp Ht Hfp.
  destruct (password_aad_text (u "rdp:web") (token_urlsafe random) username) as [aad Ea];
    [by apply scalar_b_spec | apply token_text | done |].
  destruct (decrypt_encrypt (enc_key st) nonce password aad Hk Hn Hp) as (penc & Ee & De & Hpenc).
  destruct (setex_live now (WEB_SESSION (token_urlsafe random)) (web_ttl st)
    (json_dumps true (JObj (web_payload username penc groups guids digest (int_time now)))) r Ht)
    as (r' & E & L).
  exists r', penc, aad. split; [|by repeat split; auto using ascii_text].
  unfold create_web_session. unfold_io. rewrite Ea, Ee, Hfp. unfold client_setex, writing.
  rewrite (interfere_alone now (quiet r)) by done. cbv zeta. cbn [w_store quiet].
  fold (web_payload username penc groups guids digest (int_time now)). by rewrite E.
Qed.

Lemma str_items_strs l : str_items (map JStr l) = Ok l.
Proof. induction l as [|s l IH]; simpl; [done|]. by rewrite IH. Qed.

Lemma web_session_of_payload st sid username penc groups guids digest ts aad password :
  password_aad (u "rdp:web") sid username = Ok aad → decrypt (enc_key st) penc aad = Ok password →
  web_session_of st sid (web_payload username penc groups guids digest ts)
  = Ok {| ws_session_id := sid; ws_username := username; ws_groups := groups;
          ws_group_guids := guids; ws_password := password |}.
Proof.
  intros Ha Hd. unfold web_session_of. set (p := web_payload username penc groups guids digest ts).
  change (field_of (u "username") p) with (Ok (JStr username)).
  change (field_of (u "password_enc") p) with (Ok (JStr penc)).
  change (dict_get_or (u "groups") (JList []) p) with (JList (map JStr groups)).
  change (dict_get_or (u "group_guids") (JList []) p) with (JList (map JStr guids)).
  cbn [mbind res_bind str_field str_list]. rewrite Ha. cbn [mbind res_bind].
  rewrite !str_items_strs. cbn [mbind res_bind]. by rewrite Hd.
Qed.

Lemma web_payload_session username penc groups guids digest ts :
  json_ok (JObj (web_payload username penc groups guids digest ts)) → digest ≠ [] →
  session_payload (web_payload username penc groups guids digest ts) digest ts.
Proof. intros Hok Hne. split; [done|]. split; [reflexivity|]. split; [done | reflexivity]. Qed.
End StoreLemmas.

(** ** Alone *)

(** A connection that nobody disturbs stays undisturbed. *)
Definition alone {R} (w : world R) : Prop := w_env w = [].

Section Alone.
Context {R : Type} `{Redis R}.
Implicit Types (now : Z) (w : world R).

Lemma alone_interfere now w : alone w → alone (interfere now w).
Proof. unfold alone, interfere. intros Hw. rewrite Hw. exact Hw. Qed.

Lemma alone_reading {A} now (f : R → A) : keeps alone (reading now f).
Proof. intros w Hw. by apply alone_interfere. Qed.

Lemma alone_writing {A} now (f : io R A) : keeps alone (writing now f).
Proof.
  intros w Hw. unfold writing. cbv zeta. pose proof (alone_interfere now w Hw) as Hi.
  by destruct (f (w_store (interfere now w))).
Qed.

Lemma alone_client_get now k : keeps alone (client_get now k).
Proof. apply alone_reading. Qed.

Lemma alone_client_setex now k t v : keeps alone (client_setex now k t v).
Proof. apply alone_writing. Qed.

Lemma alone_client_delete now ks : keeps alone (client_delete now ks).
Proof. apply alone_writing. Qed.

Lemma alone_delete_session now token : keeps alone (delete_session now token).
Proof. apply alone_writing. Qed.

Lemma alone_watch now k : keeps alone (pipe_watch now k).
Proof. intros w Hw. exact (alone_interfere now w Hw). Qed.

Lemma alone_execute {A} now (f : io R A) : keeps alone (pipe_execute now f).
Proof.
  intros w Hw. unfold pipe_execute. cbv zeta. pose proof (alone_interfere now w Hw) as Hi.
  destruct (w_dirty _); [done|]. by destruct (f (w_store (interfere now w))).
Qed.

Lemma alone_pipeline {A} (m : io (world R) A) : keeps alone m → keeps alone (with_pipeline m).
Proof. intros Hm w Hw. unfold with_pipeline. specialize (Hm w Hw). by destruct (m w). Qed.

Lemma alone_get_session `{AESGCM} st now token : keeps alone (get_session st now token).
Proof.
  unfold get_session. apply keeps_bind; [apply alone_reading|]. intros raw.
  destruct (some_text raw); auto with py.
Qed.

Lemma alone_matches now token fp : keeps alone (token_fingerprint_matches now token fp).
Proof.
  unfold token_fingerprint_matches. apply keeps_bind; [apply alone_reading|]. intros raw.
  destruct (some_text raw); [|apply keeps_ret]. apply keeps_bind; [apply keeps_lift|]. intros payload.
  apply keeps_if; [apply keeps_ret|]. apply keeps_bind; [apply keeps_lift|]. intros; apply keeps_ret.
Qed.

Lemma alone_set_once now key fp : keeps alone (set_fingerprint_once now key fp).
Proof.
  unfold set_fingerprint_once. apply keeps_bind; [apply alone_watch|]. intros _.
  apply keeps_bind; [apply alone_reading|]. intros raw. destruct (some_text raw); [|apply keeps_ret].
  apply keeps_bind; [apply keeps_lift|]. intros payload. apply keeps_bind; [apply keeps_lift|]. intros digest.
  apply keeps_bind; [apply alone_reading|]. intros ttl. apply keeps_if; [apply keeps_ret|].
  apply keeps_bind; [apply alone_execute|]. intros; apply keeps_ret.
Qed.

Lemma alone_set_fingerprint now token fp : keeps alone (set_token_fingerprint now token fp).
Proof.
  intros w Hw. unfold set_token_fingerprint. apply alone_pipeline; [|done].
  generalize (S (length (w_env w))) as fuel. clear w Hw. intros fuel.
  induction fuel as [|fuel IH]; intros w Hw; [done|]. simpl.
  pose proof (alone_set_once now (TOKEN token) fp w Hw) as Ho.
  destruct (set_fingerprint_once now (TOKEN token) fp w) as [[b|[]] w']; try exact Ho. by apply IH.
Qed.
End Alone.
#[export] Hint Resolve alone_reading alone_writing alone_client_get alone_client_setex alone_client_delete alone_delete_session alone_watch alone_execute alone_pipeline alone_get_session
  alone_matches alone_set_fingerprint : py.

(** ** What a client leaves alone *)

(** Nobody else writes, and a key holds an entry. *)
Definition calm {R} `{RedisLaws R} (now : Z) (k : str) (e : option entry) (w : world R) : Prop :=
  alone w ∧ live now (w_store w) !! k = e.

Section Frames.
Context {R : Type} `{RedisLaws R}.
Implicit Types (w : world R) (e : option entry).

Lemma calm_reading {A} now k e (f : R → A) : keeps (calm now k e) (reading now f).
Proof. intros w [Hw He]. unfold reading. rewrite interfere_alone by done. by split. Qed.

Lemma calm_watch now k e key : keeps (calm now k e) (pipe_watch now key).
Proof. intros w [Hw He]. unfold pipe_watch. rewrite interfere_alone by done. by split. Qed.

Lemma calm_execute {A} now k e (f : io R A) :
  (∀ r, live now (f r).2 !! k = live now r !! k) → keeps (calm now k e) (pipe_execute now f).
Proof.
  intros Hf w [Hw He]. unfold pipe_execute. rewrite interfere_alone by done. cbv zeta.
  destruct (w_dirty w); [by split|]. specialize (Hf (w_store w)). destruct (f (w_store w)) as [a r]. split; [done|].
  cbn [snd w_store] in *. by rewrite Hf.
Qed.

Lemma setex_frame now key t v k r : key ≠ k → live now (redis_setex now key t v r).2 !! k = live now r !! k.
Proof.
  intros Hne. destruct (Z.lt_ge_cases 0 t) as [Ht|Ht]; [|by rewrite setex_bad].
  destruct (setex_live now key t v r Ht) as (r' & -> & L). cbn [snd]. by rewrite L, lookup_insert_ne.
Qed.

Lemma calm_setex now k e key t v : key ≠ k → keeps (calm now k e) (client_setex now key t v).
Proof.
  intros Hne w [Hw He]. unfold client_setex, writing. rewrite interfere_alone by done. cbv zeta.
  pose proof (setex_frame now key t v k (w_store w) Hne) as Hf. destruct (redis_setex _ _ _ _ _) as [a r].
  split; [done|]. cbn [snd w_store with_store] in *. by rewrite Hf.
Qed.

(** A command that does not touch the key. *)
Lemma calm_command {A} now k e (f : io R A) c :
  (∀ r, (f r).2 = run_command now r c) → (∀ r, touches now k r c = false) → keeps (calm now k e) (writing now f).
Proof.
  intros Hf Ht w [Hw He]. unfold writing. rewrite interfere_alone by done. cbv zeta. specialize (Hf (w_store w)).
  destruct (f (w_store w)) as [a r]. split; [done|]. cbn [snd w_store with_store] in *. by rewrite Hf, untouched.
Qed.

Lemma calm_incr now k e key : key ≠ k → keeps (calm now k e) (client_incr now key).
Proof. intros Hne. apply (calm_command _ _ _ _ (CIncr key)); [done|]. intros r. by apply bool_decide_eq_false_2. Qed.

Lemma calm_expire now k e key t : key ≠ k → keeps (calm now k e) (client_expire now key t).
Proof.
  intros Hne. apply (calm_command _ _ _ _ (CExpire key t)); [done|]. intros r. cbn [touches].
  by rewrite bool_decide_eq_false_2.
Qed.

Lemma calm_delete now k e ks : k ∉ ks → keeps (calm now k e) (client_delete now ks).
Proof.
  intros Hne. apply (calm_command _ _ _ _ (CDelete ks)); [done|]. intros r. cbn [touches].
  by rewrite bool_decide_eq_false_2.
Qed.

Lemma calm_read_session st now key fp k e : key ≠ k → keeps (calm now k e) (read_session st now key fp).
Proof.
  intros Hne w Hw. unfold read_session, with_pipeline.
  match goal with |- context [let '(_, _) := ?m w in _] => set (prog := m) end.
  assert (keeps (calm now k e) prog) as Hp.
  { assert (∀ r, live now ((λ r, (Ok tt, redis_delete now [key] r)) r : res unit * R).2 !! k = live now r !! k) as Hdel
      by (intros r; cbn [snd]; rewrite delete_live; cbn [foldr]; by rewrite lookup_delete_ne).
    unfold prog. apply keeps_bind; [apply calm_watch|]. intros _. apply keeps_bind; [apply calm_reading|].
    intros raw. destruct (some_text raw) as [raw'|]; [|apply keeps_ret]. apply keeps_bind; [apply keeps_lift|].
    intros payload. apply keeps_bind; [|intros gone; apply keeps_ret].
    assert (keeps (calm now k e) (touch_session st now key fp payload)) as Ht.
    { unfold touch_session. apply keeps_bind.
      { destruct (truthy _); [|apply keeps_ret]. apply keeps_bind; [apply keeps_lift | intros; apply keeps_ret]. }
      intros []; [apply keeps_bind; [by apply calm_execute | intros; apply keeps_ret]|]. cbv zeta.
      apply keeps_bind; [apply keeps_lift|]. intros ts. apply keeps_if.
      { apply keeps_bind; [by apply calm_execute | intros; apply keeps_ret]. }
      apply keeps_bind; [apply calm_reading|]. intros ttl. apply keeps_if; [|apply keeps_ret].
      apply keeps_bind; [|intros; apply keeps_ret]. apply calm_execute. intros r. by apply setex_frame. }
    intros w0 Hw0. unfold pass_watch_error. specialize (Ht w0 Hw0).
    by destruct (touch_session st now key fp payload w0) as [[b|[]] w1]. }
  specialize (Hp w Hw). destruct (prog w) as [r w']. exact Hp.
Qed.

Lemma calm_web_session `{AESGCM} st now sid fp k e :
  WEB_SESSION sid ≠ k → keeps (calm now k e) (get_web_session st now sid fp).
Proof.
  intros Hne. unfold get_web_session. apply keeps_bind; [by apply calm_read_session|].
  intros [payload|]; [apply keeps_lift | apply keeps_ret].
Qed.

(** Looking an administrator's session up touches its key only. *)
Lemma calm_admin_session st now sid fp k e :
  ADMIN_WEB_SESSION sid ≠ k → keeps (calm now k e) (get_admin_web_session st now sid fp).
Proof.
  intros Hne. unfold get_admin_web_session. apply keeps_bind; [by apply calm_read_session|].
  intros [payload|]; [apply keeps_lift | apply keeps_ret].
Qed.
End Frames.

(** ** Properties *)

(** A session handed out by the portal is read back, with the password
    decrypted, until its time to live is over; then it is gone. *)
Lemma token_session_roundtrip {R} `{RedisLaws R} `{AESGCMLaws} (st : SessionStore) (r : R)
    (t0 t1 port : Z) (random nonce : bytes) (username password host : str) (sid disp : option str) :
  ready st nonce → text username → text password → text host → small_int port →
  from_option text True sid → from_option text True disp →
  0 < rdp_token_ttl st → t0 <= t1 →
  ∃ r', create_session st t0 random nonce username password host port sid disp (quiet r)
      = (Ok (token_urlsafe random), quiet r')
    ∧ get_session st t1 (token_urlsafe random) (quiet r')
      = (Ok (if t1 <=? t0 + 1000 * rdp_token_ttl st
             then Some {| sd_token := token_urlsafe random; sd_username := username;
                          sd_target_host := host; sd_target_port := port; sd_password := password;
                          sd_fingerprint := JNull; sd_server_id := json_str_opt sid;
                          sd_server_display := json_str_opt disp |}
             else None), quiet r').
Proof.
  intros Hr Hu Hp Hh Hport Hsid Hdisp Ht Hle.
  destruct (create_session_run st t0 random nonce username password host port sid disp r Hr Hu Hp Ht)
    as (r' & penc & aad & E & L & Ha & Hd & Hpenc).
  exists r'. split; [exact E|].
  assert (stored t0 r' (TOKEN (token_urlsafe random))
            (token_payload username penc host port JNull sid disp) (t0 + 1000 * rdp_token_ttl st)) as Hs
    by (unfold stored; by rewrite L, lookup_insert_eq).
  pose proof (token_payload_ok username penc host port JNull sid disp Hu Hpenc Hh Hport I Hsid Hdisp) as Hok.
  pose proof (stored_later _ t1 _ _ _ _ Hs Hle) as Hs'.
  destruct (t1 <=? t0 + 1000 * rdp_token_ttl st).
  - rewrite (get_session_stored _ _ _ _ _ _ Hok Hs').
    by rewrite (session_of_token _ _ _ _ _ _ _ _ _ _ _ Hok Ha Hd).
  - by apply get_session_absent.
Qed.

(** A store for the witnesses. *)
Definition demo_store : SessionStore :=
  {| web_ttl := 28800; rdp_token_ttl := 300; web_idle_ttl := 3600; enc_key := replicate 32 (z2b 9) |}.
Definition demo_random : bytes := map (λ n, z2b (Z.of_nat n * 7)) (seq 0 32).
Definition demo_nonce : bytes := replicate 12 (z2b 3).

Lemma token_session_roundtrip_witness :
  ∃ r' : store, create_session demo_store 1000 demo_random demo_nonce (u "ivan") (u "p@ss") (u "10.0.0.5")
        3389 None (Some (u "Desktop")) (quiet ∅) = (Ok (token_urlsafe demo_random), quiet r')
    ∧ get_session demo_store 400000 (token_urlsafe demo_random) (quiet r')
      = (Ok (if 400000 <=? 1000 + 1000 * rdp_token_ttl demo_store
             then Some {| sd_token := token_urlsafe demo_random; sd_username := u "ivan";
                          sd_target_host := u "10.0.0.5"; sd_target_port := 3389;
                          sd_password := u "p@ss"; sd_fingerprint := JNull;
                          sd_server_id := json_str_opt None;
                          sd_server_display := json_str_opt (Some (u "Desktop")) |}
             else None), quiet r').
Proof.
  apply (@token_session_roundtrip store map_redis map_redis_laws toy_gcm toy_gcm_laws demo_store ∅
           1000 400000 3389 demo_random demo_nonce (u "ivan") (u "p@ss") (u "10.0.0.5") None
           (Some (u "Desktop"))).
  - split; reflexivity.
  - by apply scalar_b_spec.
  - by apply scalar_b_spec.
  - by apply scalar_b_spec.
  - apply Nat.ltb_lt. vm_compute. reflexivity.
  - exact I.
  - by apply scalar_b_spec.
  - reflexivity.
  - discriminate.
Defined.

(** When nobody else writes, a portal session is given back exactly to the
    browser it was made for, while it is neither idle nor expired; any other
    request ends it. A use moves the deadline by at most half a second. *)
Lemma web_session_lifecycle {R} `{RedisLaws R} `{AESGCMLaws} (st : SessionStore) (r : R)
    (t0 t1 : Z) (random nonce : bytes) (username password fp fp' : str) (groups guids : list str) :
  ready st nonce → text username → text password → Forall text groups → Forall text guids →
  text fp → text fp' → small_int (int_time t0) → 0 < web_ttl st → t0 <= t1 →
  let sid := token_urlsafe random in
  let good := bool_decide (fingerprint_digest fp' = fingerprint_digest fp)
              && (int_time t1 - int_time t0 <=? web_idle_ttl st)
              && (t1 <=? t0 + 1000 * web_ttl st) in
  ∃ r1 r2, create_web_session st t0 random nonce username password groups guids fp (quiet r)
      = (Ok sid, quiet r1)
    ∧ get_web_session st t1 sid fp' (quiet r1)
      = (Ok (if good then Some {| ws_session_id := sid; ws_username := username; ws_groups := groups;
                                  ws_group_guids := guids; ws_password := password |}
             else None), quiet r2)
    ∧ if good
      then ∃ p d, stored t1 r2 (WEB_SESSION sid) p d ∧ Z.abs (d - (t0 + 1000 * web_ttl st)) <= 500
      else live t1 r2 !! WEB_SESSION sid = None.
Proof.
  intros Hr Hu Hp Hg Hgg Hfp Hfp' Hts Ht Hle sid good.
  destruct (fingerprint_digest_text fp Hfp) as (l & Ed & _).
  destruct (fingerprint_digest_text fp' Hfp') as (l' & Ed' & _).
  destruct (create_web_session_run st t0 random nonce username password groups guids fp _ r Hr Hu Hp Ht Ed)
    as (r1 & penc & aad & E & L & Ha & Hd & Hpenc). fold sid in E, L, Ha.
  set (payload := web_payload username penc groups guids (hex_of (sha256 l)) (int_time t0)) in *.
  assert (session_payload payload (hex_of (sha256 l)) (int_time t0)) as Hsp.
  { apply web_payload_session; [apply web_payload_ok; auto using hex_text | apply hex_sha256_ne]. }
  assert (stored t0 r1 (WEB_SESSION sid) payload (t0 + 1000 * web_ttl st)) as Hs
    by (unfold stored; by rewrite L, lookup_insert_eq).
  pose proof (stored_later _ t1 _ _ _ _ Hs Hle) as Hs'.
  destruct good eqn:Hgood; unfold good in Hgood; unfold get_web_session.
  - apply andb_true_iff in Hgood as [Hg1 Hexp]. apply andb_true_iff in Hg1 as [Hsame Hidle].
    apply bool_decide_eq_true in Hsame. apply Z.leb_le in Hidle. rewrite Hexp in Hs'.
    rewrite Ed in Hsame.
    destruct (read_session_live st t1 (WEB_SESSION sid) fp' r1 payload (t0 + 1000 * web_ttl st)
      (hex_of (sha256 l)) (int_time t0) Hsp Hs' Hsame Hidle)
      as (r2 & p & d & Er & Hst & Hdl & _).
    exists r1, r2. split; [exact E|]. split; [|exists p, d; split; [exact Hst | exact Hdl]].
    rewrite io_bind_run, Er. unfold io_lift, payload.
    by rewrite (web_session_of_payload _ _ _ _ _ _ _ _ _ _ Ha Hd).
  - destruct (t1 <=? t0 + 1000 * web_ttl st).
    2: { exists r1, r1. split; [exact E|]. by rewrite io_bind_run, read_session_absent. }
    rewrite andb_true_r in Hgood.
    assert (hex_of (sha256 l) ≠ hex_of (sha256 l') ∨ web_idle_ttl st < int_time t1 - int_time t0) as Hor.
    { apply andb_false_iff in Hgood as [Hb|Hb]; [left|right].
      - apply bool_decide_eq_false in Hb. congruence.
      - by apply Z.leb_gt. }
    destruct (read_session_gone st t1 (WEB_SESSION sid) fp' r1 payload _ _ _ _ Hsp Hs' Ed' Hor)
      as (r2 & Er & L2).
    exists r1, r2. split; [exact E|]. rewrite io_bind_run, Er.
    split; [done|]. by rewrite L2, lookup_delete_eq.
Qed.

Lemma web_session_lifecycle_witness :
  let sid := token_urlsafe demo_random in
  let good := bool_decide (fingerprint_digest (u "Opera") = fingerprint_digest (u "Firefox"))
              && (int_time 61000 - int_time 1000 <=? web_idle_ttl demo_store)
              && (61000 <=? 1000 + 1000 * web_ttl demo_store) in
  ∃ r1 r2 : store, create_web_session demo_store 1000 demo_random demo_nonce (u "ivan") (u "p@ss")
        [u "staff"] [] (u "Firefox") (quiet ∅) = (Ok sid, quiet r1)
    ∧ get_web_session demo_store 61000 sid (u "Opera") (quiet r1)
      = (Ok (if good then Some {| ws_session_id := sid; ws_username := u "ivan";
                                  ws_groups := [u "staff"]; ws_group_guids := [];
                                  ws_password := u "p@ss" |} else None), quiet r2)
    ∧ if good
      then ∃ p d, stored 61000 r2 (WEB_SESSION sid) p d ∧ Z.abs (d - (1000 + 1000 * web_ttl demo_store)) <= 500
      else live 61000 r2 !! WEB_SESSION sid = None.
Proof.
  apply (@web_session_lifecycle store map_redis map_redis_laws toy_gcm toy_gcm_laws demo_store ∅
           1000 61000 demo_random demo_nonce (u "ivan") (u "p@ss") (u "Firefox") (u "Opera") [u "staff"] []).
  - split; reflexivity.
  - by apply scalar_b_spec.
  - by apply scalar_b_spec.
  - apply Forall_singleton. by apply scalar_b_spec.
  - apply Forall_nil_2.
  - by apply scalar_b_spec.
  - by apply scalar_b_spec.
  - apply Nat.ltb_lt. vm_compute. reflexivity.
  - reflexivity.
  - discriminate.
Defined.

(** C24: binding a token to a client is one atomic update, whatever other
    clients do meanwhile. However their batches of commands fall between its own,
    the loop ends, with what running pass after pass without fuel gives. There is a
    moment such that the final store is what the others' batches up to that moment
    made of the first one, and, when the update reports success, the one change to
    it: the payload that was there at that very moment with the fingerprint, and
    with the time to live it had left. The later batches are still to come, and an
    update that reports failure or raises has changed nothing itself. *)
Theorem set_token_fingerprint_atomic {R} `{RedisLaws R} (now : Z) (token fp : str) (w : world R) :
  ∃ o w' before after, tries now (TOKEN token) fp w o w' ∧ set_token_fingerprint now token fp w = (o, World (w_store w') (w_env w') None false)
    ∧ w_env w = before ++ after ∧ w_env w' = after
    ∧ match o with
      | Ok true => fingerprint_written now (TOKEN token) fp (others now before (w_store w)) (w_store w')
      | _ => w_store w' = others now before (w_store w)
      end.
Proof.
  destruct (set_fingerprint_loop_ends (S (length (w_env w))) now (TOKEN token) fp w) as (o & w' & Ht & E); [lia|].
  destruct (tries_passed _ _ _ _ _ _ Ht) as (w3 & (before & He & Hs) & He' & Hp).
  exists o, w', before, (w_env w3). split; [exact Ht|]. split; [unfold set_token_fingerprint, with_pipeline; by rewrite E|].
  split; [exact He|]. split; [exact He'|]. by rewrite <- Hs.
Qed.

(** A token and a client that rewrites it once between our read and our write. *)
Definition demo_token_text : str :=
  json_dumps true (JObj (token_payload (u "ivan") (u "blob") (u "host") 3389 JNull None None)).
Definition busy_world : world store :=
  World {[ TOKEN (u "t") := Entry demo_token_text (Some 90000) ]}
    [[]; []; []; [CSetex (TOKEN (u "t")) 50 demo_token_text]] None false.

Lemma set_token_fingerprint_atomic_witness :
  (set_token_fingerprint 1000 (u "t") (u "client") busy_world).1 = Ok true
  ∧ ∃ o w' before after, tries 1000 (TOKEN (u "t")) (u "client") busy_world o w' ∧ set_token_fingerprint 1000 (u "t") (u "client") busy_world = (o, World (w_store w') (w_env w') None false)
    ∧ w_env busy_world = before ++ after ∧ w_env w' = after
    ∧ match o with
      | Ok true => fingerprint_written 1000 (TOKEN (u "t")) (u "client") (others 1000 before (w_store busy_world)) (w_store w')
      | _ => w_store w' = others 1000 before (w_store busy_world)
      end.
Proof.
  split; [vm_compute; reflexivity|].
  exact (@set_token_fingerprint_atomic store map_redis map_redis_laws 1000 (u "t") (u "client") busy_world).
Defined.

(** The deletion of a session that another browser asks for is lost when
    the owner's own refresh falls between its read and its transaction: the
    [WatchError] is passed over and the session, password included, is returned
    to the wrong browser. *)
Theorem web_session_race {R} `{RedisLaws R} `{AESGCMLaws} (st : SessionStore) (r : R) (now ttl : Z)
    (sid username penc fp' digest digest' password : str) (groups guids : list str) (aad : bytes)
    (ts deadline : Z) :
  let payload := web_payload username penc groups guids digest ts in
  let refresh := json_dumps true (JObj (dict_set (u "last_seen_ts") (JInt (int_time now)) payload)) in
  json_ok (JObj payload) → stored now r (WEB_SESSION sid) payload deadline →
  digest ≠ [] → fingerprint_digest fp' = Ok digest' → digest ≠ digest' → 0 < ttl →
  password_aad (u "rdp:web") sid username = Ok aad → decrypt (enc_key st) penc aad = Ok password →
  (get_web_session st now sid fp'
     (World r [[]; []; [CSetex (WEB_SESSION sid) ttl refresh]] None false)).1
  = Ok (Some {| ws_session_id := sid; ws_username := username; ws_groups := groups;
                ws_group_guids := guids; ws_password := password |}).
Proof.
  intros payload refresh Hok Hs Hne Hfp Hdiff Ht Ha Hd.
  unfold get_web_session. rewrite io_bind_run. unfold read_session, with_pipeline.
  rewrite io_bind_run. unfold pipe_watch. cbn [interfere w_env w_store foldl w_watched w_dirty].
  rewrite io_bind_run. unfold client_get, reading. cbn [interfere w_env w_store foldl w_watched w_dirty].
  rewrite get_live, Hs.
  change (some_text (e_value <$> Some (Entry (json_dumps true (JObj payload)) (Some deadline))))
    with (Some (json_dumps true (JObj payload))). cbv iota.
  rewrite io_bind_run. unfold io_lift at 1. rewrite load_dumps by done.
  rewrite io_bind_run. unfold pass_watch_error, touch_session.
  change (dict_get_or (u "browser_fingerprint") JNull payload) with (JStr digest).
  cbn [truthy]. rewrite bool_decide_eq_false_2 by done. cbn [negb]. rewrite Hfp.
  cbn [json_ne_str]. unfold_io. rewrite bool_decide_eq_false_2 by done. cbn [negb].
  unfold pipe_execute. cbn [interfere w_env w_store foldl w_watched w_dirty other_command touches].
  rewrite bool_decide_eq_true_2, (proj2 (Z.ltb_lt _ _) Ht) by done. cbn [orb andb].
  unfold payload. by rewrite (web_session_of_payload _ _ _ _ _ _ _ _ _ _ Ha Hd).
Qed.

(** Ivan's session, made in one browser and asked for from another. *)
Definition demo_aad : bytes := bl "rdp:web:sid:ivan".
Definition demo_penc : str :=
  match encrypt (enc_key demo_store) demo_nonce (u "p@ss") demo_aad with Ok s => s | Err _ => [] end.
Definition demo_digest (fp : str) : str :=
  match fingerprint_digest fp with Ok s => s | Err _ => [] end.
Definition demo_payload : dict :=
  web_payload (u "ivan") demo_penc [u "staff"] [] (demo_digest (u "Firefox")) 1.
Definition demo_redis : store :=
  {[ WEB_SESSION (u "sid") := Entry (json_dumps true (JObj demo_payload)) (Some 900000) ]}.

Lemma web_session_race_witness :
  (get_web_session demo_store 60000 (u "sid") (u "Opera")
     (World demo_redis [[]; []; [CSetex (WEB_SESSION (u "sid")) 840
        (json_dumps true (JObj (dict_set (u "last_seen_ts") (JInt (int_time 60000)) demo_payload)))]]
        None false)).1
  = Ok (Some {| ws_session_id := u "sid"; ws_username := u "ivan"; ws_groups := [u "staff"];
                ws_group_guids := []; ws_password := u "p@ss" |}).
Proof.
  apply (@web_session_race store map_redis map_redis_laws toy_gcm toy_gcm_laws demo_store demo_redis
           60000 840 (u "sid") (u "ivan") demo_penc (u "Opera") (demo_digest (u "Firefox"))
           (demo_digest (u "Opera")) (u "p@ss") [u "staff"] [] demo_aad 1 900000).
  - apply web_payload_ok.
    + by apply scalar_b_spec.
    + apply scalar_b_spec. vm_compute. reflexivity.
    + apply Forall_singleton. by apply scalar_b_spec.
    + apply Forall_nil_2.
    + apply scalar_b_spec. vm_compute. reflexivity.
    + apply Nat.ltb_lt. vm_compute. reflexivity.
  - vm_compute. reflexivity.
  - vm_compute. discriminate.
  - vm_compute. reflexivity.
  - vm_compute. discriminate.
  - reflexivity.
  - vm_compute. reflexivity.
  - vm_compute. reflexivity.
Defined.
Close Scope Z_scope.
