(* ===== verification/Plugins.v ===== *)
(** The relay's plugins, [services/rdp_relay/plugins/]: the registry that runs
    hooks in order and isolates their failures, and the three plugins the relay
    registers. A plugin is one instance for the whole process: its state is
    shared by every connection. Clocks are in milliseconds. *)

From stdpp Require Import prelude gmap list strings.
From Stdlib Require Import ZArith Lia.
From Stdlib Require Strings.String.
From S2P Require Import Prelude PySeq PyBytes PyStr Json RdpConstants X224 Mcs.

Open Scope Z_scope.

(** ** [base.py] *)

Record SessionContext : Type := {
  ctx_connection_id : str;
  ctx_username : str;
  ctx_client_ip : str;
  ctx_target_host : str;
  ctx_target_port : Z;
  ctx_instance_id : str;
  (** [extra]: the client's requested protocols, and whether both sockets are there *)
  ctx_client_requested_protocols : option Z;
  ctx_client_socket : bool;
  ctx_backend_socket : bool;
}.

(** A plugin over the process's plugin state [S]; a hook may raise, and keeps
    the state changes it made before. *)
Record RdpPlugin (S : Type) : Type := {
  p_name : str;
  p_on_session_start : SessionContext → io S unit;
  p_on_client_packet : bytes → SessionContext → io S bytes;
  p_on_backend_packet : bytes → SessionContext → io S bytes;
  p_on_session_end : SessionContext → io S unit;
  p_on_error : exn → SessionContext → io S unit;
}.
Arguments p_name {S}. Arguments p_on_session_start {S}. Arguments p_on_client_packet {S}.
Arguments p_on_backend_packet {S}. Arguments p_on_session_end {S}. Arguments p_on_error {S}.

(** [RdpPlugin] as it stands: every hook does nothing. *)
Definition base_plugin (S : Type) (name : str) : RdpPlugin S := {|
  p_name := name;
  p_on_session_start ctx := mret tt;
  p_on_client_packet data ctx := mret data;
  p_on_backend_packet data ctx := mret data;
  p_on_session_end ctx := mret tt;
  p_on_error e ctx := mret tt;
|}.

(** ** [registry.py] *)

Section Registry.
Context {S : Type}.
Implicit Types (plugins : list (RdpPlugin S)).

(** [for p in self._plugins: try: await p.hook(ctx) except Exception: log] *)
Fixpoint run_hooks (hook : RdpPlugin S → io S unit) plugins : io S unit :=
  match plugins with
  | [] => mret tt
  | p :: ps => _ ← io_try (hook p) (λ _, mret tt); run_hooks hook ps
  end.

(** The same with the packet passed along. *)
Fixpoint run_packet (hook : RdpPlugin S → bytes → io S bytes) plugins (data : bytes) : io S bytes :=
  match plugins with
  | [] => mret data
  | p :: ps => data' ← io_try (hook p data) (λ _, mret data); run_packet hook ps data'
  end.

Definition registry_on_session_start plugins (ctx : SessionContext) : io S unit :=
  run_hooks (λ p, p_on_session_start p ctx) plugins.
Definition registry_on_client_packet plugins (data : bytes) (ctx : SessionContext) : io S bytes :=
  run_packet (λ p d, p_on_client_packet p d ctx) plugins data.
Definition registry_on_backend_packet plugins (data : bytes) (ctx : SessionContext) : io S bytes :=
  run_packet (λ p d, p_on_backend_packet p d ctx) plugins data.
Definition registry_on_session_end plugins (ctx : SessionContext) : io S unit :=
  run_hooks (λ p, p_on_session_end p ctx) plugins.
Definition registry_on_error plugins (e : exn) (ctx : SessionContext) : io S unit :=
  run_hooks (λ p, p_on_error p e ctx) plugins.

Lemma run_hooks_Ok hook plugins s : (run_hooks hook plugins s).1 = Ok tt.
Proof.
  revert s. induction plugins as [|p ps IH]; intros s; [done|]. cbn [run_hooks].
  rewrite io_bind_run. unfold io_try. destruct (hook p s) as [[a|e] s']; apply IH.
Qed.

Lemma run_packet_Ok hook plugins data s : ∃ data', (run_packet hook plugins data s).1 = Ok data'.
Proof.
  revert data s. induction plugins as [|p ps IH]; intros data s; [by exists data|].
  cbn [run_packet]. rewrite io_bind_run. unfold io_try.
  destruct (hook p data s) as [[a|e] s']; apply IH.
Qed.
End Registry.

(** ** The plugins' state *)

Record McsState : Type := { client_first : bool; backend_first : bool }.

Record MonitorState : Type := {
  idle_timeout : Z;
  max_session_duration : Z;
  last_activity : Z;
  started_at : Z;
}.

Record plugins_state : Type := PS {
  ps_mcs : McsState;
  ps_monitor : MonitorState;
  ps_tasks : gset str;
}.

Definition set_mcs (s : plugins_state) (m : McsState) : plugins_state :=
  PS m (ps_monitor s) (ps_tasks s).
Definition set_monitor (s : plugins_state) (m : MonitorState) : plugins_state :=
  PS (ps_mcs s) m (ps_tasks s).
Definition set_tasks (s : plugins_state) (t : gset str) : plugins_state :=
  PS (ps_mcs s) (ps_monitor s) t.

(** *** [mcs_patch.py] *)

Definition mcs_init : McsState := {| client_first := true; backend_first := true |}.

Definition mcs_on_session_start (ctx : SessionContext) : io plugins_state unit :=
  io_modify (λ s, set_mcs s mcs_init).

Definition mcs_on_client_packet (data : bytes) (ctx : SessionContext) : io plugins_state bytes :=
  s ← io_get;
  if client_first (ps_mcs s) then
    _ ← io_modify (λ s, set_mcs s {| client_first := false; backend_first := backend_first (ps_mcs s) |});
    io_lift (patch_mcs_client data)
  else mret data.

Definition mcs_on_backend_packet (data : bytes) (ctx : SessionContext) : io plugins_state bytes :=
  s ← io_get;
  if backend_first (ps_mcs s) then
    _ ← io_modify (λ s, set_mcs s {| client_first := client_first (ps_mcs s); backend_first := false |});
    io_lift (patch_mcs_server data (ctx_client_requested_protocols ctx))
  else mret data.

Definition McsPatchPlugin : RdpPlugin plugins_state := {|
  p_name := u "mcs_patch";
  p_on_session_start := mcs_on_session_start;
  p_on_client_packet := mcs_on_client_packet;
  p_on_backend_packet := mcs_on_backend_packet;
  p_on_session_end ctx := mret tt;
  p_on_error e ctx := mret tt;
|}.

(** *** [session_monitor.py]; [now] is [time.monotonic()] *)

Definition DEFAULT_IDLE_TIMEOUT : Z := 3600.
Definition DEFAULT_MAX_SESSION_DURATION : Z := 0.

Definition monitor_init (idle max_duration : Z) : MonitorState :=
  {| idle_timeout := idle; max_session_duration := max_duration; last_activity := 0; started_at := 0 |}.

Definition update_timeouts (m : MonitorState) (idle max_duration : Z) : MonitorState :=
  {| idle_timeout := idle; max_session_duration := max_duration;
     last_activity := last_activity m; started_at := started_at m |}.

Definition monitor_on_session_start (now : Z) (ctx : SessionContext) : io plugins_state unit :=
  io_modify (λ s, set_monitor s
    {| idle_timeout := idle_timeout (ps_monitor s);
       max_session_duration := max_session_duration (ps_monitor s);
       last_activity := now; started_at := now |}).

Definition monitor_activity (now : Z) (data : bytes) (ctx : SessionContext) : io plugins_state bytes :=
  _ ← io_modify (λ s, set_monitor s
    {| idle_timeout := idle_timeout (ps_monitor s);
       max_session_duration := max_session_duration (ps_monitor s);
       last_activity := now; started_at := started_at (ps_monitor s) |});
  mret data.

Definition is_idle (now : Z) (m : MonitorState) : bool :=
  (0 <? idle_timeout m) && (1000 * idle_timeout m <? now - last_activity m).

Definition is_duration_exceeded (now : Z) (m : MonitorState) : bool :=
  if max_session_duration m <=? 0 then false
  else 1000 * max_session_duration m <? now - started_at m.

Definition SessionMonitorPlugin (now : Z) : RdpPlugin plugins_state := {|
  p_name := u "session_monitor";
  p_on_session_start := monitor_on_session_start now;
  p_on_client_packet := monitor_activity now;
  p_on_backend_packet := monitor_activity now;
  p_on_session_end ctx := mret tt;
  p_on_error e ctx := mret tt;
|}.

(** *** [connection_quality.py]: the monitoring task of a session *)

Definition quality_on_session_start (ctx : SessionContext) : io plugins_state unit :=
  if negb (ctx_client_socket ctx) || negb (ctx_backend_socket ctx) then mret tt
  else io_modify (λ s, set_tasks s ({[ ctx_connection_id ctx ]} ∪ ps_tasks s)).

Definition quality_on_session_end (ctx : SessionContext) : io plugins_state unit :=
  io_modify (λ s, set_tasks s (ps_tasks s ∖ {[ ctx_connection_id ctx ]})).

Definition ConnectionQualityPlugin : RdpPlugin plugins_state := {|
  p_name := u "connection_quality";
  p_on_session_start := quality_on_session_start;
  p_on_client_packet data ctx := mret data;
  p_on_backend_packet data ctx := mret data;
  p_on_session_end := quality_on_session_end;
  p_on_error e ctx := mret tt;
|}.

(** The registry of [run_server]. *)
Definition relay_plugins (now : Z) : list (RdpPlugin plugins_state) :=
  [McsPatchPlugin; SessionMonitorPlugin now; ConnectionQualityPlugin].

(** ** Lemmas *)

(** A packet through the relay's registry: the patch on the first one in its
    direction since the last session start, the clock in any case. *)
Lemma relay_client_packet now data ctx s :
  registry_on_client_packet (relay_plugins now) data ctx s
  = (Ok (if client_first (ps_mcs s) then client_reference data else data),
     PS {| client_first := false; backend_first := backend_first (ps_mcs s) |}
        {| idle_timeout := idle_timeout (ps_monitor s);
           max_session_duration := max_session_duration (ps_monitor s);
           last_activity := now; started_at := started_at (ps_monitor s) |} (ps_tasks s)).
Proof.
  unfold registry_on_client_packet, relay_plugins. cbn [run_packet]. unfold_io. unfold io_try.
  unfold p_on_client_packet, McsPatchPlugin, SessionMonitorPlugin, ConnectionQualityPlugin.
  unfold mcs_on_client_packet. unfold_io. destruct s as [[[] b] m t]; cbn [client_first ps_mcs].
  - by rewrite patch_mcs_client_Ok.
  - done.
Qed.

Lemma relay_backend_packet now data ctx s :
  (∀ crp, ctx_client_requested_protocols ctx = Some crp → 0 <= crp < 4294967296) →
  registry_on_backend_packet (relay_plugins now) data ctx s
  = (Ok (if backend_first (ps_mcs s)
         then server_reference (default PROTOCOL_SSL (ctx_client_requested_protocols ctx)) data
         else data),
     PS {| client_first := client_first (ps_mcs s); backend_first := false |}
        {| idle_timeout := idle_timeout (ps_monitor s);
           max_session_duration := max_session_duration (ps_monitor s);
           last_activity := now; started_at := started_at (ps_monitor s) |} (ps_tasks s)).
Proof.
  intros Hcrp. unfold registry_on_backend_packet, relay_plugins. cbn [run_packet]. unfold_io. unfold io_try.
  unfold p_on_backend_packet, McsPatchPlugin, SessionMonitorPlugin, ConnectionQualityPlugin.
  unfold mcs_on_backend_packet. unfold_io. destruct s as [[c []] m t]; cbn [backend_first ps_mcs].
  - rewrite patch_mcs_server_Ok; [done|].
    destruct (ctx_client_requested_protocols ctx) as [crp|]; [by apply Hcrp | unfold PROTOCOL_SSL; simpl; lia].
  - done.
Qed.

Lemma relay_session_start now ctx s :
  registry_on_session_start (relay_plugins now) ctx s
  = (Ok tt, PS mcs_init {| idle_timeout := idle_timeout (ps_monitor s);
              max_session_duration := max_session_duration (ps_monitor s);
              last_activity := now; started_at := now |}
       (if ctx_client_socket ctx && ctx_backend_socket ctx
        then {[ ctx_connection_id ctx ]} ∪ ps_tasks s else ps_tasks s)).
Proof.
  unfold registry_on_session_start, relay_plugins. cbn [run_hooks]. unfold_io. unfold io_try.
  unfold p_on_session_start, McsPatchPlugin, SessionMonitorPlugin, ConnectionQualityPlugin.
  unfold mcs_on_session_start, monitor_on_session_start, quality_on_session_start. unfold_io.
  by destruct (ctx_client_socket ctx), (ctx_backend_socket ctx).
Qed.

(** A stream of packets from the client of one session. *)
Fixpoint client_stream (ctx : SessionContext) (packets : list (Z * bytes)) : io plugins_state (list bytes) :=
  match packets with
  | [] => mret []
  | (now, data) :: ps =>
      data' ← registry_on_client_packet (relay_plugins now) data ctx;
      rest ← client_stream ctx ps;
      mret (data' :: rest)
  end.

Lemma client_stream_later ctx packets s :
  client_first (ps_mcs s) = false →
  (client_stream ctx packets s).1 = Ok (map snd packets)
  ∧ client_first (ps_mcs (client_stream ctx packets s).2) = false.
Proof.
  revert s. induction packets as [|[now data] ps IH]; intros s Hs; [done|].
  cbn [client_stream]. rewrite io_bind_run, relay_client_packet, Hs, io_bind_run.
  match goal with |- context [client_stream ctx ps ?s'] => destruct (IH s' eq_refl) as [H1 H2];
    destruct (client_stream ctx ps s') as [[r|e] s''] end; simpl in *; [|discriminate].
  injection H1 as ->. done.
Qed.

(** ** Properties *)

(** A hook that raises never stops the chain: every hook of every plugin
    runs, in order, the failing one leaves the packet as it was, and the caller
    never sees an exception. *)
Theorem registry_isolates {S : Type} (plugins : list (RdpPlugin S)) (ctx : SessionContext)
    (data : bytes) (e : exn) (s : S) :
  (registry_on_session_start plugins ctx s).1 = Ok tt
  ∧ (registry_on_session_end plugins ctx s).1 = Ok tt
  ∧ (registry_on_error plugins e ctx s).1 = Ok tt
  ∧ registry_on_client_packet plugins data ctx s
    = (let '(d, s') := foldl (λ ds p, match p_on_client_packet p ds.1 ctx ds.2 with
                                      | (Ok d', s') => (d', s')
                                      | (Err _, s') => (ds.1, s') end) (data, s) plugins in (Ok d, s'))
  ∧ registry_on_backend_packet plugins data ctx s
    = (let '(d, s') := foldl (λ ds p, match p_on_backend_packet p ds.1 ctx ds.2 with
                                      | (Ok d', s') => (d', s')
                                      | (Err _, s') => (ds.1, s') end) (data, s) plugins in (Ok d, s')).
Proof.
  split; [apply run_hooks_Ok|]. split; [apply run_hooks_Ok|]. split; [apply run_hooks_Ok|].
  unfold registry_on_client_packet, registry_on_backend_packet.
  assert (∀ (hook : RdpPlugin S → bytes → io S bytes) d t, run_packet hook plugins d t
    = (let '(d', s') := foldl (λ ds p, match hook p ds.1 ds.2 with
                                      | (Ok d', s') => (d', s')
                                      | (Err _, s') => (ds.1, s') end) (d, t) plugins in (Ok d', s'))) as Hrun.
  { intros hook. clear. induction plugins as [|p ps IH]; intros d t; [done|].
    cbn [run_packet foldl]. rewrite io_bind_run. unfold io_try. cbn [fst snd].
    destruct (hook p d t) as [[d'|x] s']; apply IH. }
  split; apply Hrun.
Qed.

(** Within one session that nothing disturbs, exactly the client's first
    packet is patched; all others pass unchanged. *)
Theorem session_patches_first_packet (ctx : SessionContext) (start : Z) (first : Z * bytes)
    (packets : list (Z * bytes)) (s : plugins_state) :
  ∃ s' s'', registry_on_session_start (relay_plugins start) ctx s = (Ok tt, s')
    ∧ client_stream ctx (first :: packets) s'
      = (Ok (client_reference first.2 :: map snd packets), s'').
Proof.
  rewrite relay_session_start. eexists. cbn [client_stream]. destruct first as [now data].
  rewrite io_bind_run, relay_client_packet, io_bind_run. cbn [client_first ps_mcs mcs_init snd].
  match goal with |- context [client_stream ctx packets ?x] =>
    destruct (client_stream_later ctx packets x eq_refl) as [H1 _];
    destruct (client_stream ctx packets x) as [[r|e] s''] end; [|discriminate].
  simpl in H1. injection H1 as ->. exists s''. done.
Qed.

(** The plugin instances are shared by all connections, so a second
    session disturbs the first: when any packet of a first session follows the
    second session's start, the second session's own first packet is never
    patched, and the first session's idle time restarts. *)
Theorem sessions_share_plugins (a b : SessionContext) (t_a t_b t1 t2 : Z) (x y : bytes)
    (s : plugins_state) :
  let run :=
    _ ← registry_on_session_start (relay_plugins t_a) a;
    _ ← registry_on_session_start (relay_plugins t_b) b;
    _ ← registry_on_client_packet (relay_plugins t1) x a;
    registry_on_client_packet (relay_plugins t2) y b in
  (run s).1 = Ok y
  ∧ ∀ now, now - t2 <= 1000 * idle_timeout (ps_monitor s) → is_idle now (ps_monitor (run s).2) = false.
Proof.
  intros run. unfold run. rewrite io_bind_run, relay_session_start, io_bind_run, relay_session_start.
  rewrite io_bind_run, relay_client_packet, relay_client_packet. split; [done|].
  intros now Hnow. unfold is_idle. cbn [ps_monitor snd last_activity idle_timeout].
  rewrite (proj2 (Z.ltb_ge (1000 * _) _)) by lia. apply andb_false_r.
Qed.
