(* ===== verification/Quality.v ===== *)
(** The connection-quality monitor, [services/rdp_relay/plugins/connection_quality.py]:
    reading [struct tcp_info], the sampling window, the rating, and the
    publication of a sample into the connection's active record. Times are exact
    microseconds where the code divides floats. *)

From stdpp Require Import prelude gmap list strings.
From Stdlib Require Import ZArith Lia.
From Stdlib Require Strings.String.
From S2P Require Import Prelude PySeq PyBytes PyStr Json Redis Keys Sessions.

Open Scope Z_scope.

Definition WINDOW_SIZE : nat := 20.

(** The fields of [_TcpInfo] the plugin reads. *)
Record TcpInfo : Type := {
  tcpi_retransmits : Z;
  tcpi_lost : Z;
  tcpi_rtt : Z;
  tcpi_rttvar : Z;
  tcpi_snd_cwnd : Z;
  tcpi_total_retrans : Z;
}.

(** The [i]-th 32-bit field, after the eight byte-sized ones. *)
Definition tcp_u32 (buf : bytes) (i : nat) : Z :=
  le_decode (slice buf (8 + 4 * i) (8 + 4 * i + 4)).
Definition TCP_INFO_SIZE : nat := 104.

(** [buf]: what [getsockopt] returned, [None] when it raised [OSError]; a
    buffer shorter than the structure is a [ValueError]. *)
Definition read_tcp_info (buf : option bytes) : option TcpInfo :=
  match buf with
  | None => None
  | Some buf =>
      if (length buf <? TCP_INFO_SIZE)%nat then None
      else Some {|
        tcpi_retransmits := le_decode (slice buf 2 3);
        tcpi_lost := tcp_u32 buf 6;
        tcpi_rtt := tcp_u32 buf 15;
        tcpi_rttvar := tcp_u32 buf 16;
        tcpi_snd_cwnd := tcp_u32 buf 18;
        tcpi_total_retrans := tcp_u32 buf 23 |}
  end.

Inductive rating : Type := Excellent | Good | Fair | Poor.

(** A duration in microseconds, as a fraction. *)
Record duration : Type := Micros { us_num : Z; us_den : Z }.
Definition below_ms (d : duration) (ms : Z) : bool := us_num d <? 1000 * ms * us_den d.

Definition compute_rating (rtt_ms jitter_ms : duration) (retrans_per_interval : Z) : rating :=
  if below_ms rtt_ms 20 && below_ms jitter_ms 5 && (retrans_per_interval =? 0) then Excellent
  else if below_ms rtt_ms 50 && below_ms jitter_ms 15 && (retrans_per_interval <? 5) then Good
  else if below_ms rtt_ms 150 && below_ms jitter_ms 40 then Fair
  else Poor.

Record QualitySnapshot : Type := {
  q_rtt : duration;
  q_rtt_var : duration;
  q_jitter : duration;
  q_retransmits : Z;
  q_total_retrans : Z;
  q_lost : Z;
  q_cwnd : Z;
  q_rating : rating;
}.

(** [deque(maxlen=20).append(v)]: the oldest value is dropped. *)
Definition push_window (h : list Z) (v : Z) : list Z :=
  let h' := h ++ [v] in drop (length h' - WINDOW_SIZE) h'.

Definition sum_z (l : list Z) : Z := foldr Z.add 0 l.

(** The mean absolute deviation of the window: zero for fewer than two values. *)
Definition jitter_of (h : list Z) : duration :=
  let n := Z.of_nat (length h) in
  if (2 <=? length h)%nat
  then Micros (sum_z (map (λ v, Z.abs (n * v - sum_z h)) h)) (n * n)
  else Micros 0 1.

(** One sample: the snapshot, the new total of retransmissions, the window. *)
Definition sample (client backend : option bytes) (rtt_history : list Z) (prev_total_retrans : Z)
    : option QualitySnapshot * Z * list Z :=
  match read_tcp_info client, read_tcp_info backend with
  | Some c, Some b =>
      let rtt_us := tcpi_rtt c + tcpi_rtt b in
      let history := push_window rtt_history rtt_us in
      let jitter := jitter_of history in
      let total_retrans := tcpi_total_retrans c + tcpi_total_retrans b in
      let retrans_delta := Z.max 0 (total_retrans - prev_total_retrans) in
      (Some {| q_rtt := Micros rtt_us 1;
               q_rtt_var := Micros (tcpi_rttvar c + tcpi_rttvar b) 1;
               q_jitter := jitter;
               q_retransmits := tcpi_retransmits c + tcpi_retransmits b;
               q_total_retrans := total_retrans;
               q_lost := tcpi_lost c + tcpi_lost b;
               q_cwnd := Z.min (tcpi_snd_cwnd c) (tcpi_snd_cwnd b);
               q_rating := compute_rating (Micros rtt_us 1) jitter retrans_delta |},
       total_retrans, history)
  | _, _ => (None, prev_total_retrans, rtt_history)
  end.

Definition rating_text (r : rating) : str :=
  match r with
  | Excellent => u "excellent" | Good => u "good" | Fair => u "fair" | Poor => u "poor"
  end.

(** [round(v, 2)] of milliseconds, as [json] writes the float. *)
Class Rounding : Type := { round_ms : duration → str; round_ms_float d : float_lexeme (round_ms d) }.

(** [dataclasses.asdict(snapshot)]: the fields in the order of the class. *)
Definition asdict `{Rounding} (s : QualitySnapshot) : dict := [
  (u "rtt_ms", JFloat (round_ms (q_rtt s)));
  (u "rtt_var_ms", JFloat (round_ms (q_rtt_var s)));
  (u "jitter_ms", JFloat (round_ms (q_jitter s)));
  (u "retransmits", JInt (q_retransmits s));
  (u "total_retrans", JInt (q_total_retrans s));
  (u "lost", JInt (q_lost s));
  (u "cwnd", JInt (q_cwnd s));
  (u "rating", JStr (rating_text (q_rating s)))].

(** [detail]: [asdict(snapshot)]. The [except Exception] around it only logs. *)
Definition publish {R} `{Redis R} (now : Z) (instance_id connection_id : str) (r : rating)
    (detail : json) : io (world R) unit :=
  let key := ACTIVE_SESSION instance_id connection_id in
  io_try (with_pipeline (
    _ ← pipe_watch now key;
    raw ← client_get now key;
    data ← (match some_text raw with
            | None => mret []
            | Some raw => io_lift (load_payload raw)
            end);
    let data := dict_set (u "connection_quality") (JStr (rating_text r)) data in
    let data := dict_set (u "quality_detail") detail data in
    pipe_execute now (redis_setex now key (24 * 3600) (json_dumps false (JObj data)))))
  (λ _, mret tt).

(** ** The periodic task *)

Section Monitor.
Context {R : Type} `{Redis R} `{Rounding}.

(** [_monitor_loop], one turn per sample, with the clock and what the two sockets
    said; the cancellation at the end of the session is the end of the list. *)
Fixpoint monitor_loop (instance_id connection_id : str) (rtt_history : list Z) (prev_total_retrans : Z)
    (turns : list (Z * option bytes * option bytes)) : io (world R) unit :=
  match turns with
  | [] => mret tt
  | (now, client, backend) :: turns' =>
      let '(snapshot, total_retrans, history) := sample client backend rtt_history prev_total_retrans in
      _ ← match snapshot with
          | Some s => publish now instance_id connection_id (q_rating s) (JObj (asdict s))
          | None => mret tt
          end;
      monitor_loop instance_id connection_id history total_retrans turns'
  end.
(** [_monitor_loop] from its start. *)
Definition monitor (instance_id connection_id : str) (turns : list (Z * option bytes * option bytes)) : io (world R) unit :=
  monitor_loop instance_id connection_id [] 0 turns.
End Monitor.

(** ** Lemmas *)

(** How bad a rating is. *)
Definition badness (r : rating) : Z :=
  match r with Excellent => 0 | Good => 1 | Fair => 2 | Poor => 3 end.

(** [d <= d'], both fractions with positive denominators. *)
Definition shorter (d d' : duration) : Prop :=
  0 < us_den d ∧ 0 < us_den d' ∧ us_num d * us_den d' <= us_num d' * us_den d.

Lemma below_shorter d d' ms : shorter d d' → below_ms d' ms = true → below_ms d ms = true.
Proof.
  intros (H1 & H2 & H3). unfold below_ms. rewrite !Z.ltb_lt. intros H.
  destruct d as [a x], d' as [b y]. simpl in *.
  apply (Z.mul_lt_mono_pos_r y); [lia|].
  apply Z.le_lt_trans with (b * x); [lia|].
  replace (1000 * ms * x * y) with (1000 * ms * y * x) by lia.
  by apply Z.mul_lt_mono_pos_r.
Qed.

(** A rating never improves when the round trip, the jitter or the
    retransmissions grow. *)
Lemma rating_monotone (rtt rtt' jitter jitter' : duration) (n n' : Z) :
  shorter rtt rtt' → shorter jitter jitter' → 0 <= n <= n' →
  badness (compute_rating rtt jitter n) <= badness (compute_rating rtt' jitter' n').
Proof.
  intros Hr Hj Hn. unfold compute_rating.
  pose proof (below_shorter rtt rtt' 20 Hr). pose proof (below_shorter rtt rtt' 50 Hr).
  pose proof (below_shorter rtt rtt' 150 Hr). pose proof (below_shorter jitter jitter' 5 Hj).
  pose proof (below_shorter jitter jitter' 15 Hj). pose proof (below_shorter jitter jitter' 40 Hj).
  destruct (below_ms rtt' 20) eqn:E1, (below_ms rtt' 50) eqn:E2, (below_ms rtt' 150) eqn:E3,
    (below_ms jitter' 5) eqn:E4, (below_ms jitter' 15) eqn:E5, (below_ms jitter' 40) eqn:E6;
  repeat match goal with H : true = true → _ |- _ => specialize (H eq_refl); rewrite H end; simpl;
  repeat match goal with
  | |- context [if ?b then _ else _] => destruct b eqn:?
  end; simpl; try lia.
Qed.

Lemma push_window_bound h v : (length h <= WINDOW_SIZE)%nat → (length (push_window h v) <= WINDOW_SIZE)%nat.
Proof. intros Hh. unfold push_window, WINDOW_SIZE in *. len. Qed.

(** A sample that is published after the connection's record was deleted makes
    the record again, with nothing but the quality in it. *)
Lemma publish_recreates {R} `{RedisLaws R} now iid cid r detail (st : R) :
  live now st !! ACTIVE_SESSION iid cid = None →
  ∃ st', publish now iid cid r detail (quiet st) = (Ok tt, quiet st')
    ∧ live now st' !! ACTIVE_SESSION iid cid
      = Some (Entry (json_dumps false (JObj [(u "connection_quality", JStr (rating_text r));
                                             (u "quality_detail", detail)]))
                    (Some (now + 1000 * (24 * 3600)))).
Proof.
  intros Hk. unfold publish, io_try, with_pipeline. rewrite io_bind_run. unfold pipe_watch.
  rewrite (interfere_alone now (quiet st)) by done. cbv zeta. cbn [w_store w_env quiet].
  rewrite io_bind_run. unfold client_get, reading.
  rewrite interfere_alone by done. cbv zeta. cbn [w_store]. rewrite get_live, Hk.
  cbn [fmap option_fmap option_map some_text]. rewrite io_bind_run. unfold mret at 1, io_ret.
  unfold pipe_execute. rewrite interfere_alone by done. cbn [w_dirty w_store w_env].
  assert (u "quality_detail" ≠ u "connection_quality") as Hne by (vm_compute; discriminate).
  cbn [dict_set]. rewrite bool_decide_eq_false_2 by exact Hne. cbn [dict_set].
  destruct (setex_live now (ACTIVE_SESSION iid cid) (24 * 3600)
    (json_dumps false (JObj [(u "connection_quality", JStr (rating_text r)); (u "quality_detail", detail)]))
    st ltac:(lia)) as (st' & E & L).
  rewrite E. exists st'. split; [done|]. by rewrite L, lookup_insert_eq.
Qed.

(** *** What a sample is made of fits *)

Definition snapshot_fits (s : QualitySnapshot) : Prop :=
  Forall (λ z, 0 <= z < 2 ^ 33) [q_retransmits s; q_total_retrans s; q_lost s; q_cwnd s].

Lemma decode_below l n : (length l <= n)%nat → (n <= 4)%nat → 0 <= le_decode l < 2 ^ 32.
Proof.
  intros Hl Hn. pose proof (le_decode_range l) as [? Hlt]. split; [done|]. eapply Z.lt_le_trans; [exact Hlt|].
  change 256 with (2 ^ 8). rewrite <- Z.pow_mul_r by lia. apply Z.pow_le_mono_r; lia.
Qed.

Lemma read_tcp_info_fits buf i :
  read_tcp_info buf = Some i →
  Forall (λ z, 0 <= z < 2 ^ 32) [tcpi_retransmits i; tcpi_lost i; tcpi_snd_cwnd i; tcpi_total_retrans i].
Proof.
  unfold read_tcp_info. destruct buf as [buf|]; [|done]. destruct (_ <? _)%nat; [done|]. intros [= <-]. cbn.
  repeat apply Forall_cons_2; try apply Forall_nil_2; (apply (decode_below _ 4); [unfold slice; rewrite length_take | ]; lia).
Qed.

Lemma sample_fits client backend history prev s :
  (sample client backend history prev).1.1 = Some s → snapshot_fits s.
Proof.
  unfold sample. destruct (read_tcp_info client) as [c|] eqn:Ec; [|done].
  destruct (read_tcp_info backend) as [b|] eqn:Eb; [|done]. intros [= <-]. unfold snapshot_fits. cbn.
  apply read_tcp_info_fits in Ec, Eb. rewrite !Forall_cons in *. destruct Ec as (? & ? & ? & ? & _), Eb as (? & ? & ? & ? & _).
  repeat split; try apply Forall_nil_2; lia.
Qed.

Lemma asdict_ok `{Rounding} s : snapshot_fits s → json_ok (JObj (asdict s)).
Proof.
  intros Hs. unfold asdict. apply json_ok_items.
  { apply (bool_decide_eq_true_1 (NoDup _)). vm_compute. reflexivity. }
  unfold snapshot_fits in Hs. rewrite !Forall_cons in Hs. destruct Hs as (H1 & H2 & H3 & H4 & _).
  assert (∀ z, 0 <= z < 2 ^ 33 → json_ok (JInt z)) as Hint.
  { intros z Hz. cbn [json_ok]. pose proof (size_nat_le (Z.abs_N z) 33) as Hle.
    assert (Z.abs_N z < 2 ^ N.of_nat 33)%N as Hlt by (change (2 ^ N.of_nat 33)%N with (Z.to_N (2 ^ 33)); lia). specialize (Hle Hlt). lia. }
  repeat apply Forall_cons_2; try apply Forall_nil_2; (split; [vm_compute; reflexivity|]); cbn [snd];
    first [by apply Hint | apply round_ms_float | idtac].
  apply scalar_b_spec. destruct (q_rating s); vm_compute; reflexivity.
Qed.

(** The record of a connection with a sample in it. *)
Definition with_quality (r : rating) (detail : json) (d : dict) : dict :=
  dict_set (u "quality_detail") detail (dict_set (u "connection_quality") (JStr (rating_text r)) d).

(** A sample changes its two fields of the record and nothing else, and keeps the
    record alive for a day. *)
Lemma publish_updates {R} `{RedisLaws R} now iid cid r detail d deadline (st : R) :
  live now st !! ACTIVE_SESSION iid cid = Some (Entry (json_dumps false (JObj d)) deadline) → json_ok (JObj d) →
  ∃ st', publish now iid cid r detail (quiet st) = (Ok tt, quiet st')
    ∧ live now st' = <[ACTIVE_SESSION iid cid
        := Entry (json_dumps false (JObj (with_quality r detail d))) (Some (now + 1000 * (24 * 3600)))]> (live now st).
Proof.
  intros Hk Hok. unfold publish, io_try, with_pipeline. rewrite io_bind_run. unfold pipe_watch.
  rewrite (interfere_alone now (quiet st)) by done. cbv zeta. cbn [w_store w_env quiet].
  rewrite io_bind_run. unfold client_get, reading.
  rewrite interfere_alone by done. cbv zeta. cbn [w_store]. rewrite get_live, Hk.
  cbn [fmap option_fmap option_map e_value].
  assert (some_text (Some (json_dumps false (JObj d))) = Some (json_dumps false (JObj d))) as -> by done.
  rewrite io_bind_run. unfold io_lift at 1, load_payload. rewrite json_loads_dumps by exact Hok. unfold mbind at 1, res_bind.
  unfold pipe_execute. rewrite interfere_alone by done. cbn [w_dirty w_store w_env].
  destruct (setex_live now (ACTIVE_SESSION iid cid) (24 * 3600) (json_dumps false (JObj (with_quality r detail d))) st ltac:(lia))
    as (st' & E & L).
  unfold with_quality in E. rewrite E. exists st'. split; [done | exact L].
Qed.

(** *** The record under the periodic task *)

Section MonitorLaws.
Context {R : Type} `{RedisLaws R} `{Rounding} (iid cid : str).
Implicit Types (st : R) (d : dict) (deadline : option Z).

(** The samples that could be taken, with their clock. *)
Fixpoint samples (rtt_history : list Z) (prev_total_retrans : Z) (turns : list (Z * option bytes * option bytes)) : list (Z * QualitySnapshot) :=
  match turns with
  | [] => []
  | (now, client, backend) :: turns' =>
      let '(snapshot, total_retrans, history) := sample client backend rtt_history prev_total_retrans in
      match snapshot with
      | Some s => (now, s) :: samples history total_retrans turns'
      | None => samples history total_retrans turns'
      end
  end.

Definition record_after (d : dict) (l : list (Z * QualitySnapshot)) : dict :=
  foldl (λ d x, with_quality (q_rating x.2) (JObj (asdict x.2)) d) d l.

(** The clock goes on, and the record never reaches its deadline in between. *)
Fixpoint timely (now : Z) deadline (l : list (Z * QualitySnapshot)) : Prop :=
  match l with
  | [] => True
  | (t, _) :: l' => now <= t ∧ from_option (λ e, t <= e) True deadline ∧ timely t (Some (t + 1000 * (24 * 3600))) l'
  end.
Definition last_time (now : Z) (l : list (Z * QualitySnapshot)) : Z := from_option fst now (last l).

Lemma last_time_cons now t s l : last_time now ((t, s) :: l) = last_time t l.
Proof. unfold last_time. destruct l as [|x l]; [done|]. rewrite last_cons_cons. by destruct (last (x :: l)) eqn:E; [|apply last_None in E]. Qed.

Lemma live_still now t k v deadline st :
  now <= t → from_option (λ e, t <= e) True deadline →
  live now st !! k = Some (Entry v deadline) → live t st !! k = Some (Entry v deadline).
Proof.
  intros Hle Hd Hk. rewrite (live_later now t) by done. rewrite Hk. cbn. unfold alive. cbn [e_deadline].
  destruct deadline as [e|]; [|done]. cbn in Hd. by rewrite (proj2 (Z.ltb_ge e t)).
Qed.

Lemma with_quality_ok r detail d : json_ok detail → json_ok (JObj d) → json_ok (JObj (with_quality r detail d)).
Proof.
  intros Hdet Hd. unfold with_quality. apply json_ok_set; [apply scalar_b_spec; vm_compute; reflexivity | exact Hdet|].
  apply json_ok_set; [apply scalar_b_spec; vm_compute; reflexivity | | exact Hd].
  apply scalar_b_spec. destruct r; vm_compute; reflexivity.
Qed.

(** The whole run, without other clients: the record has been updated by every
    sample in turn, and nothing else has changed. *)
Lemma monitor_loop_run turns history prev now d deadline st :
  json_ok (JObj d) →
  live now st !! ACTIVE_SESSION iid cid = Some (Entry (json_dumps false (JObj d)) deadline) →
  timely now deadline (samples history prev turns) →
  let l := samples history prev turns in
  ∃ st', monitor_loop iid cid history prev turns (quiet st) = (Ok tt, quiet st')
    ∧ (∃ deadline', live (last_time now l) st' !! ACTIVE_SESSION iid cid
         = Some (Entry (json_dumps false (JObj (record_after d l))) deadline'))
    ∧ (∀ k, k ≠ ACTIVE_SESSION iid cid → live (last_time now l) st' !! k = live (last_time now l) st !! k)
    ∧ now <= last_time now l.
Proof.
  revert history prev now d deadline st. induction turns as [|[[t client] backend] turns IH]; intros history prev now d deadline st Hok Hk Ht.
  { exists st. split; [done|]. split; [by exists deadline|]. split; [done | unfold last_time; cbn; lia]. }
  cbn [samples monitor_loop] in *. pose proof (sample_fits client backend history prev) as Hfit.
  destruct (sample client backend history prev) as [[snap total] history'].
  destruct snap as [s|].
  2: { destruct (IH history' total now d deadline st Hok Hk Ht) as (st' & E & Hrest). exists st'. split; [|exact Hrest].
       rewrite io_bind_run. exact E. }
  cbn [timely] in Ht. destruct Ht as (Hle & Hdl & Ht). pose proof (live_still now t _ _ _ st Hle Hdl Hk) as Hk'.
  destruct (publish_updates t iid cid (q_rating s) (JObj (asdict s)) d deadline st Hk' Hok) as (st1 & E1 & L1).
  destruct (IH history' total t (with_quality (q_rating s) (JObj (asdict s)) d) (Some (t + 1000 * (24 * 3600))) st1)
    as (st' & E & Hrec & Hother & Hlast); [exact (with_quality_ok _ _ _ (asdict_ok s (Hfit s eq_refl)) Hok) | by rewrite L1, lookup_insert_eq | exact Ht |].
  exists st'. rewrite last_time_cons. split; [by rewrite io_bind_run, E1|]. split; [exact Hrec|]. split; [|lia].
  intros k Hne. rewrite Hother by done. rewrite !(live_later t (last_time t (samples history' total turns))) by done.
  by rewrite L1, lookup_insert_ne.
Qed.

(** What the record says in the end. *)
Lemma with_quality_fields r detail d :
  dict_get (u "connection_quality") (with_quality r detail d) = Some (JStr (rating_text r))
  ∧ dict_get (u "quality_detail") (with_quality r detail d) = Some detail
  ∧ ∀ k, k ≠ u "connection_quality" → k ≠ u "quality_detail" → dict_get k (with_quality r detail d) = dict_get k d.
Proof.
  unfold with_quality. assert (u "connection_quality" ≠ u "quality_detail") as Hne by (vm_compute; discriminate).
  split; [rewrite dict_get_set_ne by exact Hne; apply dict_get_set_eq|]. split; [apply dict_get_set_eq|].
  intros k Hk1 Hk2. rewrite dict_get_set_ne by exact Hk2. apply dict_get_set_ne. exact Hk1.
Qed.
Lemma record_after_fields d l :
  (∀ k, k ≠ u "connection_quality" → k ≠ u "quality_detail" → dict_get k (record_after d l) = dict_get k d)
  ∧ ∀ t s, last l = Some (t, s) → dict_get (u "connection_quality") (record_after d l) = Some (JStr (rating_text (q_rating s)))
      ∧ dict_get (u "quality_detail") (record_after d l) = Some (JObj (asdict s)).
Proof.
  induction l as [|[t s] l IH] using rev_ind; [done|]. unfold record_after in *. rewrite foldl_app. cbn [foldl snd].
  destruct (with_quality_fields (q_rating s) (JObj (asdict s)) (foldl (λ d x, with_quality (q_rating x.2) (JObj (asdict x.2)) d) d l)) as (F1 & F2 & F3).
  split.
  - intros k Hk1 Hk2. rewrite (F3 k Hk1 Hk2). exact (proj1 IH k Hk1 Hk2).
  - intros t' s' E. rewrite last_snoc in E. injection E as <- <-. exact (conj F1 F2).
Qed.
Lemma samples_fit history prev turns : Forall (λ x, snapshot_fits x.2) (samples history prev turns).
Proof.
  revert history prev. induction turns as [|[[t client] backend] turns IH]; intros history prev; [constructor|].
  cbn [samples]. pose proof (sample_fits client backend history prev) as Hfit.
  destruct (sample client backend history prev) as [[[s|] total] history']; [|apply IH].
  constructor; [exact (Hfit s eq_refl) | apply IH].
Qed.
Lemma record_after_ok d l : Forall (λ x, snapshot_fits x.2) l → json_ok (JObj d) → json_ok (JObj (record_after d l)).
Proof.
  intros Hl. revert d. induction Hl as [|x l Hx _ IH]; intros d Hd; [done|]. apply IH. exact (with_quality_ok _ _ _ (asdict_ok _ Hx) Hd).
Qed.
End MonitorLaws.
Close Scope Z_scope.
