(* ===== verification/Relay.v ===== *)
(** The bidirectional relay, [services/rdp_relay/relay.py]: two pipes, a poller
    and the coroutine that waits for the first pipe to end, as a step relation.
    A pipe's turn runs from one suspension to the next: it has not started, it
    waits for data, it waits for a drain, or it is over. The packet hooks of the
    registered plugins never suspend, so a turn that got data goes on to the top
    of the loop unless the write buffer is full. *)

From stdpp Require Import prelude relations list strings.
From Stdlib Require Import ZArith Lia.
From Stdlib Require Strings.String.
From S2P Require Import Prelude PySeq PyBytes PyStr Plugins.

Open Scope Z_scope.

Inductive direction : Type := ClientToBackend | BackendToClient.

#[export] Instance direction_eq_dec : EqDecision direction.
Proof. solve_decision. Defined.

(** [LegResult.reason] *)
Inductive reason : Type :=
  | REof
  | RKilled
  | RFailed (e : exn).

#[export] Instance reason_eq_dec : EqDecision reason.
Proof. solve_decision. Defined.

Inductive phase : Type :=
  | Start
  | Reading
  | Draining
  | Over (r : reason).

(** A pipe: where it is, what [transferred] counts, and what it has written. *)
Record leg : Type := Leg { l_phase : phase; l_transferred : Z; l_written : list bytes }.

Record relay_state (S : Type) : Type := Relay {
  r_client : leg;
  r_backend : leg;
  r_kill : bool;
  r_waiting : bool;
  r_plugins : S;
}.
Arguments Relay {S}. Arguments r_client {S}. Arguments r_backend {S}.
Arguments r_kill {S}. Arguments r_waiting {S}. Arguments r_plugins {S}.

Definition leg_of {S} (d : direction) (s : relay_state S) : leg :=
  match d with ClientToBackend => r_client s | BackendToClient => r_backend s end.
Definition set_leg {S} (d : direction) (l : leg) (s : relay_state S) : relay_state S :=
  match d with
  | ClientToBackend => Relay l (r_backend s) (r_kill s) (r_waiting s) (r_plugins s)
  | BackendToClient => Relay (r_client s) l (r_kill s) (r_waiting s) (r_plugins s)
  end.
Definition set_kill {S} (s : relay_state S) : relay_state S :=
  Relay (r_client s) (r_backend s) true (r_waiting s) (r_plugins s).

Definition relay_init {S} (plugins : S) : relay_state S :=
  Relay (Leg Start 0 []) (Leg Start 0 []) false true plugins.

Definition is_over (l : leg) : bool := match l_phase l with Over _ => true | _ => false end.

(** The hook a direction's data goes through. *)
Definition packet_hook {S} (plugins : list (RdpPlugin S)) (ctx : SessionContext) (d : direction)
    (data : bytes) : io S bytes :=
  match d with
  | ClientToBackend => registry_on_client_packet plugins data ctx
  | BackendToClient => registry_on_backend_packet plugins data ctx
  end.

(** What a read gives: data, the end of the stream, or an exception. *)
Inductive outcome : Type := Data (data : bytes) | Eof | Raise (e : exn).

(** The top of the loop: the kill event ends the pipe, otherwise it reads. *)
Definition loop_top (kill : bool) : phase := if kill then Over RKilled else Reading.

(** The turn of a pipe that was waiting for data. [full]: the write buffer has
    reached its high-water mark. *)
Definition pipe_read {S} (plugins : list (RdpPlugin S)) (ctx : SessionContext) (d : direction)
    (o : outcome) (full : bool) (s : relay_state S) : relay_state S :=
  let l := leg_of d s in
  match o with
  | Eof => set_leg d (Leg (Over REof) (l_transferred l) (l_written l)) s
  | Raise e => set_leg d (Leg (Over (RFailed e)) (l_transferred l) (l_written l)) s
  | Data data =>
      match packet_hook plugins ctx d data (r_plugins s) with
      | (Ok data', ps) =>
          set_leg d (Leg (if full then Draining else loop_top (r_kill s)) (l_transferred l + Z.of_nat (length data'))
                         (l_written l ++ [data']))
            (Relay (r_client s) (r_backend s) (r_kill s) (r_waiting s) ps)
      | (Err e, ps) =>
          set_leg d (Leg (Over (RFailed e)) (l_transferred l) (l_written l))
            (Relay (r_client s) (r_backend s) (r_kill s) (r_waiting s) ps)
      end
  end.

(** The first turn of a pipe. *)
Definition pipe_start {S} (d : direction) (s : relay_state S) : relay_state S :=
  let l := leg_of d s in
  set_leg d (Leg (loop_top (r_kill s)) (l_transferred l) (l_written l)) s.

(** The turn of a pipe whose drain ended, or failed. *)
Definition pipe_drained {S} (d : direction) (e : option exn) (s : relay_state S) : relay_state S :=
  let l := leg_of d s in
  set_leg d (Leg (match e with None => loop_top (r_kill s) | Some e => Over (RFailed e) end)
                 (l_transferred l) (l_written l)) s.

(** [Network]: the peers' doing. [Local]: the relay's own. *)
Inductive label : Type := Network | Local.

(** [killed]: what [kill_checker] answers when the poller asks. *)
Inductive step {S} (plugins : list (RdpPlugin S)) (ctx : SessionContext) (killed : bool)
    : label → relay_state S → relay_state S → Prop :=
  | step_start d s :
      l_phase (leg_of d s) = Start →
      step plugins ctx killed Local s (pipe_start d s)
  | step_read d o full s :
      l_phase (leg_of d s) = Reading →
      (∀ data, o = Data data → data ≠ []) →
      step plugins ctx killed Network s (pipe_read plugins ctx d o full s)
  | step_drained d e s :
      l_phase (leg_of d s) = Draining →
      step plugins ctx killed Network s (pipe_drained d e s)
  | step_poll s :
      killed = true → r_kill s = false →
      step plugins ctx killed Local s (set_kill s)
  | step_first_completed s :
      r_waiting s = true → is_over (r_client s) || is_over (r_backend s) = true →
      step plugins ctx killed Local s
        (Relay (r_client s) (r_backend s) true false (r_plugins s)).

(** [_kill_poller] over the answers of its check, in turn: whether it sets the event. An
    exception of the check ends the task; being cancelled is the end of the list. *)
Fixpoint kill_poller (answers : list (res bool)) : bool :=
  match answers with
  | [] => false
  | Ok true :: _ => true
  | Ok false :: answers' => kill_poller answers'
  | Err _ :: _ => false
  end.

Record RelayResult : Type := {
  bytes_to_client : Z;
  bytes_to_backend : Z;
  legs : list (direction * Z * reason);
}.

(** The result, once the wait and both pipes are over. *)
Definition relay_result {S} (s : relay_state S) : option RelayResult :=
  match r_waiting s, l_phase (r_client s), l_phase (r_backend s) with
  | false, Over rc, Over rb =>
      Some {| bytes_to_client := l_transferred (r_backend s);
              bytes_to_backend := l_transferred (r_client s);
              legs := [(ClientToBackend, l_transferred (r_client s), rc);
                       (BackendToClient, l_transferred (r_backend s), rb)] |}
  | _, _, _ => None
  end.

(** [any(leg.reason == "killed" for leg in result.legs)] *)
Definition was_killed (r : RelayResult) : bool :=
  existsb (λ l, bool_decide (l.2 = RKilled)) (legs r).

(** ** Lemmas *)

Section Laws.
Context {S : Type} (plugins : list (RdpPlugin S)) (ctx : SessionContext).
Implicit Types (s : relay_state S) (d : direction).

Lemma leg_set d d' l s : leg_of d (set_leg d' l s) = if decide (d = d') then l else leg_of d s.
Proof. by destruct d, d'. Qed.

Lemma kill_set d l s : r_kill (set_leg d l s) = r_kill s.
Proof. by destruct d. Qed.

Lemma waiting_set d l s : r_waiting (set_leg d l s) = r_waiting s.
Proof. by destruct d. Qed.

Lemma leg_same_plugins d s (ps : S) : leg_of d (Relay (r_client s) (r_backend s) (r_kill s) (r_waiting s) ps) = leg_of d s.
Proof. by destruct d. Qed.

Lemma packet_hook_Ok d data ps : ∃ data' ps', packet_hook plugins ctx d data ps = (Ok data', ps').
Proof.
  destruct d; simpl; unfold registry_on_client_packet, registry_on_backend_packet;
    match goal with |- context [run_packet ?h plugins data ps] =>
      destruct (run_packet_Ok h plugins data ps) as [d' Hd];
      destruct (run_packet h plugins data ps) as [r p'] end;
    simpl in Hd; subst; eauto.
Qed.

(** The effect of a step on one leg. *)
Inductive leg_step (kill kill' : bool) : label → leg → leg → Prop :=
  | leg_idle lab l : leg_step kill kill' lab l l
  | leg_start l : l_phase l = Start →
      leg_step kill kill' Local l (Leg (loop_top kill) (l_transferred l) (l_written l))
  | leg_end l r : l_phase l = Reading ∨ l_phase l = Draining →
      leg_step kill kill' Network l (Leg (Over r) (l_transferred l) (l_written l))
  | leg_data l data full : l_phase l = Reading →
      leg_step kill kill' Network l
        (Leg (if full : bool then Draining else loop_top kill) (l_transferred l + Z.of_nat (length data))
             (l_written l ++ [data]))
  | leg_drained l : l_phase l = Draining →
      leg_step kill kill' Network l (Leg (loop_top kill) (l_transferred l) (l_written l)).

Lemma step_leg killed lab s s' d :
  step plugins ctx killed lab s s' →
  leg_step (r_kill s) (r_kill s') lab (leg_of d s) (leg_of d s')
  ∧ (r_kill s = true → r_kill s' = true).
Proof.
  destruct 1 as [d' s Hp|d' o full s Hp Hne|d' e s Hp|s Hk Hs|s Hw Ho].
  - unfold pipe_start. rewrite leg_set, kill_set. split; [|done].
    destruct (decide (d = d')) as [->|]; by constructor.
  - unfold pipe_read. destruct o as [data| |e].
    + destruct (packet_hook_Ok d' data (r_plugins s)) as (data' & ps & ->).
      rewrite leg_set, kill_set, leg_same_plugins. split; [|done].
      destruct (decide (d = d')) as [->|]; by constructor.
    + rewrite leg_set, kill_set. split; [|done].
      destruct (decide (d = d')) as [->|]; constructor; auto.
    + rewrite leg_set, kill_set. split; [|done].
      destruct (decide (d = d')) as [->|]; constructor; auto.
  - unfold pipe_drained. rewrite leg_set, kill_set. split; [|done].
    destruct (decide (d = d')) as [->|]; [|constructor].
    destruct e; constructor; auto.
  - destruct d; split; try done; constructor.
  - destruct d; split; try done; constructor.
Qed.

(** A run, with any answers of the kill check along the way. *)
Definition any_step s s' : Prop := ∃ killed lab, step plugins ctx killed lab s s'.

(** What a leg counts is what it has handed to the other side. *)
Definition counted_leg (l : leg) : Prop :=
  l_transferred l = Z.of_nat (length (concat (l_written l))).

Lemma leg_step_counted k k' lab l l' : leg_step k k' lab l l' → counted_leg l → counted_leg l'.
Proof.
  unfold counted_leg. destruct 1 as [| | |l data full|]; simpl; try done. intros ->.
  rewrite concat_app, length_app. simpl. rewrite app_nil_r. lia.
Qed.

Lemma counted_run s s' d : rtc any_step s s' → counted_leg (leg_of d s) → counted_leg (leg_of d s').
Proof.
  induction 1 as [|s1 s2 s3 (killed & lab & Hs) _ IH]; [done|]. intros Hc. apply IH.
  destruct (step_leg _ _ _ _ d Hs) as [Hl _]. by eapply leg_step_counted.
Qed.

(** The chunks a leg may still hand over once the kill event is set. *)
Definition allowance (l : leg) : nat := match l_phase l with Reading => 1%nat | _ => 0%nat end.

Lemma leg_step_after_kill k' lab l l' :
  leg_step true k' lab l l' →
  (length (l_written l') + allowance l' <= length (l_written l) + allowance l)%nat.
Proof.
  destruct 1 as [| | |l data full Hp|]; unfold allowance; simpl; try lia.
  rewrite Hp, length_app. destruct full; simpl; lia.
Qed.

Lemma run_after_kill s s' d :
  rtc any_step s s' → r_kill s = true →
  r_kill s' = true
  ∧ (length (l_written (leg_of d s')) + allowance (leg_of d s')
     <= length (l_written (leg_of d s)) + allowance (leg_of d s))%nat.
Proof.
  induction 1 as [|s1 s2 s3 (killed & lab & Hs) _ IH]; intros Hk; [done|].
  destruct (step_leg _ _ _ _ d Hs) as [Hl Hk']. specialize (Hk' Hk). rewrite Hk in Hl.
  destruct (IH Hk') as [Hk3 Hle]. split; [done|].
  apply leg_step_after_kill in Hl. lia.
Qed.

(** What is left to do once the kill event is set: at most two turns of each
    pipe, and the wake-up of the waiting coroutine. *)
Definition turns_left (l : leg) : nat := match l_phase l with Start | Draining => 1%nat | Reading => 2%nat | Over _ => 0%nat end.
Definition left_to_do s : nat := (turns_left (r_client s) + turns_left (r_backend s) + (if r_waiting s then 1 else 0))%nat.

Lemma turn_taken d l s : (turns_left l < turns_left (leg_of d s))%nat → (left_to_do (set_leg d l s) < left_to_do s)%nat.
Proof. destruct d; unfold left_to_do; simpl; lia. Qed.

Lemma step_decreases killed lab s s' :
  r_kill s = true → step plugins ctx killed lab s s' → (left_to_do s' < left_to_do s)%nat.
Proof.
  intros Hk. destruct 1 as [d s Hp|d o full s Hp Hne|d e s Hp|s Hkilled Hs|s Hw Ho].
  - apply turn_taken. unfold turns_left. rewrite Hp, Hk. simpl. lia.
  - unfold pipe_read. destruct o as [data| |e]; [|apply turn_taken; unfold turns_left; rewrite Hp; simpl; lia..].
    destruct (packet_hook_Ok d data (r_plugins s)) as (data' & ps & ->).
    change (left_to_do s) with (left_to_do (Relay (r_client s) (r_backend s) (r_kill s) (r_waiting s) ps)).
    apply turn_taken. rewrite leg_same_plugins. unfold turns_left. rewrite Hp, Hk. destruct full; simpl; lia.
  - apply turn_taken. unfold turns_left. rewrite Hp, Hk. destruct e; simpl; lia.
  - by rewrite Hk in Hs.
  - unfold left_to_do. cbn [r_client r_backend r_waiting]. rewrite Hw. lia.
Qed.

(** A relay that has no result can go on. *)
Lemma step_progress s : relay_result s = None → ∃ s', any_step s s'.
Proof.
  intros Hr.
  assert (∀ d, is_over (leg_of d s) = false → ∃ s', any_step s s') as Hleg.
  { intros d Ho. unfold is_over in Ho. destruct (l_phase (leg_of d s)) eqn:Hp; [| | |done].
    - eexists. exists false, Local. by apply (step_start plugins ctx false d).
    - eexists. exists false, Network. apply (step_read plugins ctx false d Eof false); [exact Hp | discriminate].
    - eexists. exists false, Network. by apply (step_drained plugins ctx false d None). }
  destruct (is_over (r_client s)) eqn:Ec; [|by apply (Hleg ClientToBackend)].
  destruct (is_over (r_backend s)) eqn:Eb; [|by apply (Hleg BackendToClient)].
  destruct (r_waiting s) eqn:Ew.
  - eexists. exists false, Local. apply step_first_completed; [exact Ew | by rewrite Ec].
  - exfalso. unfold relay_result in Hr. rewrite Ew in Hr. unfold is_over in Ec, Eb.
    destruct (l_phase (r_client s)); try done. by destruct (l_phase (r_backend s)).
Qed.

Lemma steps_after_kill n s s' : nsteps any_step n s s' → r_kill s = true → r_kill s' = true ∧ (n + left_to_do s' <= left_to_do s)%nat.
Proof.
  induction 1 as [s|n s1 s2 s3 (killed & lab & Hs) _ IH]; intros Hk; [split; [done | lia]|].
  destruct (step_leg _ _ _ _ ClientToBackend Hs) as [_ Hk']. destruct (IH (Hk' Hk)) as [Hk3 Hle].
  pose proof (step_decreases _ _ _ _ Hk Hs). split; [done | lia].
Qed.

(** The relay's own steps only. *)
Definition local_step s s' : Prop := ∃ killed, step plugins ctx killed Local s s'.

Lemma local_reading s s' d :
  rtc local_step s s' → l_phase (leg_of d s) = Reading → leg_of d s' = leg_of d s.
Proof.
  induction 1 as [|s1 s2 s3 [killed Hs] _ IH]; [done|]. intros Hp.
  destruct (step_leg _ _ _ _ d Hs) as [Hl _].
  assert (leg_of d s2 = leg_of d s1) as E by (inversion Hl; subst; congruence).
  rewrite <- E. apply IH. by rewrite E.
Qed.
End Laws.

(** ** Properties *)

(** A plugin-free relay on a context of no interest, for the witnesses. *)
Definition demo_ctx : SessionContext := {|
  ctx_connection_id := u "c"; ctx_username := u "ivan"; ctx_client_ip := u "203.0.113.7";
  ctx_target_host := u "10.0.0.5"; ctx_target_port := 3389; ctx_instance_id := u "node";
  ctx_client_requested_protocols := None; ctx_client_socket := true; ctx_backend_socket := true |}.

(** Both pipes waiting; the client hangs up; the waiting coroutine wakes just
    before the backend pipe gets the data that was already there. *)
Definition demo_reading : relay_state unit :=
  pipe_start BackendToClient (pipe_start ClientToBackend (relay_init tt)).
Definition demo_hangup : relay_state unit :=
  pipe_read [] demo_ctx ClientToBackend Eof false demo_reading.
Definition demo_woken : relay_state unit :=
  Relay (r_client demo_hangup) (r_backend demo_hangup) true false tt.
Definition demo_over : relay_state unit :=
  pipe_read [] demo_ctx BackendToClient (Data (bz [3; 0; 0; 7])) false demo_woken.

Lemma demo_steps :
  rtc (λ s s', ∃ lab, step [] demo_ctx false lab s s') (relay_init tt) demo_over.
Proof.
  eapply rtc_l; [exists Local; exact (step_start [] demo_ctx false ClientToBackend (relay_init tt) eq_refl)|].
  eapply rtc_l; [exists Local; exact (step_start [] demo_ctx false BackendToClient (pipe_start ClientToBackend (relay_init tt)) eq_refl)|].
  eapply rtc_l; [exists Network; refine (step_read [] demo_ctx false ClientToBackend Eof false demo_reading eq_refl _)|];
    [discriminate|].
  eapply rtc_l; [exists Local; exact (step_first_completed [] demo_ctx false demo_hangup eq_refl eq_refl)|].
  eapply rtc_l; [exists Network; refine (step_read [] demo_ctx false BackendToClient (Data _) false demo_woken eq_refl _)|];
    [|apply rtc_refl]. intros data [= <-]. discriminate.
Qed.

Lemma demo_any_steps : rtc (any_step [] demo_ctx) (relay_init tt) demo_over.
Proof. eapply rtc_subrel; [|exact demo_steps]. intros s s' [lab Hs]. exists false, lab. exact Hs. Qed.


(** C34: however the two pipes, the poller and the waiting coroutine
    interleave, the result counts exactly the bytes that were handed to each
    side, after the plugins. *)
Theorem relay_accounting {S} (plugins : list (RdpPlugin S)) (ctx : SessionContext) (ps : S)
    (s : relay_state S) (r : RelayResult) :
  rtc (any_step plugins ctx) (relay_init ps) s → relay_result s = Some r →
  bytes_to_backend r = Z.of_nat (length (concat (l_written (r_client s))))
  ∧ bytes_to_client r = Z.of_nat (length (concat (l_written (r_backend s)))).
Proof.
  intros Hrun Hres.
  pose proof (counted_run plugins ctx _ _ ClientToBackend Hrun eq_refl) as Hc.
  pose proof (counted_run plugins ctx _ _ BackendToClient Hrun eq_refl) as Hb.
  unfold relay_result in Hres. destruct (r_waiting s); [discriminate|].
  destruct (l_phase (r_client s)); try discriminate. destruct (l_phase (r_backend s)); try discriminate.
  injection Hres as <-. split; [exact Hc | exact Hb].
Qed.

Lemma relay_accounting_witness :
  relay_result demo_over = Some {| bytes_to_client := 4; bytes_to_backend := 0;
      legs := [(ClientToBackend, 0, REof); (BackendToClient, 4, RKilled)] |}
  ∧ 0 = Z.of_nat (length (concat (l_written (r_client demo_over))))
  ∧ 4 = Z.of_nat (length (concat (l_written (r_backend demo_over)))).
Proof.
  split; [reflexivity|].
  exact (relay_accounting [] demo_ctx tt demo_over
    {| bytes_to_client := 4; bytes_to_backend := 0;
       legs := [(ClientToBackend, 0, REof); (BackendToClient, 4, RKilled)] |} demo_any_steps eq_refl).
Defined.

(** Once the kill event is set, each direction hands over at most the one
    chunk it was waiting for. *)
Theorem relay_kill_bound {S} (plugins : list (RdpPlugin S)) (ctx : SessionContext)
    (s s' : relay_state S) (d : direction) :
  r_kill s = true → rtc (any_step plugins ctx) s s' →
  (length (l_written (leg_of d s')) <= length (l_written (leg_of d s)) + 1)%nat.
Proof.
  intros Hk Hrun. destruct (run_after_kill plugins ctx s s' d Hrun Hk) as [_ Hle].
  unfold allowance in Hle. repeat case_match; lia.
Qed.

Lemma relay_kill_bound_witness :
  (length (l_written (leg_of BackendToClient demo_over))
   <= length (l_written (leg_of BackendToClient demo_woken)) + 1)%nat.
Proof.
  apply (relay_kill_bound [] demo_ctx demo_woken demo_over BackendToClient); [reflexivity|].
  eapply rtc_l; [exists false, Network; refine (step_read [] demo_ctx false BackendToClient (Data _) false demo_woken eq_refl _)|];
    [|apply rtc_refl]. intros data [= <-]. discriminate.
Defined.

(** C35: once the kill event is set the relay is nearly over: whatever the network
    and the plugins do, at most five more turns are possible, the relay can
    always take one until it has its result, and when none is left it has it.
    So it ends as soon as each side sends something or hangs up. *)
Theorem relay_kill_terminates {S} (plugins : list (RdpPlugin S)) (ctx : SessionContext) (s : relay_state S) :
  r_kill s = true →
  (∀ n s', nsteps (any_step plugins ctx) n s s' → (n <= 5)%nat)
  ∧ (∀ s', rtc (any_step plugins ctx) s s' → (∃ s'', any_step plugins ctx s' s'') ∨ is_Some (relay_result s'))
  ∧ ∃ s' r, rtc (any_step plugins ctx) s s' ∧ relay_result s' = Some r.
Proof.
  intros Hk.
  assert (∀ s' : relay_state S, (∃ s'', any_step plugins ctx s' s'') ∨ is_Some (relay_result s')) as Hprog.
  { intros s'. destruct (relay_result s') eqn:E; [right; eauto | left; by apply step_progress]. }
  split; [|split; [by intros s' _|]].
  - intros n s' Hn. destruct (steps_after_kill plugins ctx n s s' Hn Hk) as [_ Hle].
    unfold left_to_do, turns_left in Hle. destruct (l_phase (r_client s)), (l_phase (r_backend s)), (r_waiting s); lia.
  - remember (left_to_do s) as n eqn:En. revert s Hk En. induction (lt_wf n) as [n _ IH]. intros s Hk ->.
    destruct (relay_result s) as [r|] eqn:E; [exists s, r; split; [apply rtc_refl | exact E]|].
    destruct (step_progress plugins ctx s E) as (s1 & killed & lab & Hs).
    pose proof (step_decreases plugins ctx killed lab s s1 Hk Hs) as Hlt.
    destruct (step_leg plugins ctx killed lab s s1 ClientToBackend Hs) as [_ Hk1].
    destruct (IH _ Hlt s1 (Hk1 Hk) eq_refl) as (s' & r & Hrun & Hr). exists s', r. split; [|exact Hr].
    eapply rtc_l; [|exact Hrun]. by exists killed, lab.
Qed.

Lemma relay_kill_terminates_witness :
  (∀ n s', nsteps (any_step [] demo_ctx) n demo_woken s' → (n <= 5)%nat)
  ∧ (∀ s', rtc (any_step [] demo_ctx) demo_woken s' → (∃ s'', any_step [] demo_ctx s' s'') ∨ is_Some (relay_result s'))
  ∧ ∃ s' r, rtc (any_step [] demo_ctx) demo_woken s' ∧ relay_result s' = Some r.
Proof. apply (relay_kill_terminates [] demo_ctx demo_woken). reflexivity. Defined.

(** A kill does not end a silent session: with both pipes waiting for
    data, no number of the relay's own steps, whatever the kill check answers,
    ends either of them or gives a result. *)
Theorem relay_kill_waits {S} (plugins : list (RdpPlugin S)) (ctx : SessionContext)
    (s s' : relay_state S) :
  l_phase (r_client s) = Reading → l_phase (r_backend s) = Reading →
  rtc (local_step plugins ctx) s s' →
  l_phase (r_client s') = Reading ∧ l_phase (r_backend s') = Reading ∧ relay_result s' = None.
Proof.
  intros Hc Hb Hrun.
  pose proof (local_reading plugins ctx s s' ClientToBackend Hrun Hc) as Ec.
  pose proof (local_reading plugins ctx s s' BackendToClient Hrun Hb) as Eb. simpl in Ec, Eb.
  rewrite Ec, Eb. split; [done|]. split; [done|].
  unfold relay_result. rewrite Ec, Hc. by destruct (r_waiting s').
Qed.

Lemma relay_kill_waits_witness :
  let killed := set_kill demo_reading in
  r_kill killed = true ∧ l_phase (r_client killed) = Reading ∧ l_phase (r_backend killed) = Reading
  ∧ relay_result killed = None.
Proof.
  intros killed. split; [reflexivity|].
  apply (relay_kill_waits [] demo_ctx demo_reading killed); [reflexivity | reflexivity |].
  apply rtc_once. exists true. exact (step_poll [] demo_ctx true demo_reading eq_refl eq_refl).
Defined.

(** One exception of the check, a moment without Redis for instance, and the
    session can no longer be killed: whatever is answered afterwards, an
    administrator's kill, idleness or the limit of its duration, nobody asks any more. *)
Theorem poller_dies (before after : list (res bool)) (e : exn) :
  Forall (λ a, a = Ok false) before → kill_poller (before ++ Err e :: after) = false.
Proof. induction 1 as [|a before -> _ IH]; [done | exact IH]. Qed.

(** As long as the check does not raise, the first positive answer sets the event. *)
Theorem poller_kills (before after : list (res bool)) :
  Forall (λ a, is_ok a = true) before → kill_poller (before ++ Ok true :: after) = true.
Proof. induction 1 as [|a before Ha _ IH]; [done|]. destruct a as [[]|]; [done | exact IH | done]. Qed.

(** A session that nobody asked to kill can end as killed: when the client
    hangs up while the backend's data is on its way, the event that is set to
    stop the other pipe is taken for a kill. *)
Theorem relay_spurious_kill :
  ∃ (s : relay_state unit) r,
    rtc (λ s s', ∃ lab, step [] demo_ctx false lab s s') (relay_init tt) s
    ∧ relay_result s = Some r ∧ was_killed r = true.
Proof.
  exists demo_over. eexists. split; [exact demo_steps|]. split; reflexivity.
Qed.
Close Scope Z_scope.
