(* ===== verification/RelayServer.v ===== *)
(** Admission of connections and live settings of the relay process,
    [services/rdp_relay/main.py]: the semaphore that limits connections, and
    what the settings listener changes when a notification arrives. *)

From stdpp Require Import prelude relations list strings.
From Stdlib Require Import ZArith Lia.
From S2P Require Import Prelude PySeq PyBytes PyStr Sessions Plugins.

Open Scope Z_scope.

(** ** Admission *)

(** The semaphore's value, the handlers that run, and [conn_limit[0]]. *)
Record admission : Type := Admission { permits : Z; active : Z; conn_limit : Z }.

(** [asyncio.Semaphore(max_conn)] raises [ValueError] on a negative value. *)
Definition admission_init (max_conn : Z) : res admission :=
  if max_conn <? 0 then Err ValueError else Ok (Admission max_conn 0 max_conn).

(** [_limited_handler]: a client is rejected when the semaphore is locked; the
    check and the acquisition are one turn. *)
Definition accept (a : admission) : bool * admission :=
  if permits a =? 0 then (false, a)
  else (true, Admission (permits a - 1) (active a + 1) (conn_limit a)).

(** A handler returns: [async with] releases. *)
Definition finish_handler (a : admission) : admission :=
  Admission (permits a + 1) (active a - 1) (conn_limit a).

(** The listener's change of [max_connections]. *)
Definition update_limit (new_max : Z) (a : admission) : admission :=
  if negb (new_max =? conn_limit a) then
    let diff := new_max - conn_limit a in
    Admission (if 0 <? diff then permits a + diff else permits a) (active a) new_max
  else a.

Inductive admission_step : admission → admission → Prop :=
  | step_accept a : admission_step a (accept a).2
  | step_finish a : 0 < active a → admission_step a (finish_handler a)
  | step_limit a n : 0 <= n → admission_step a (update_limit n a).

(** ** Live settings *)

Record relay_process : Type := RelayProcess {
  rp_store : SessionStore;
  rp_monitor : MonitorState;
  rp_admission : admission;
}.

(** The settings a notification brings; [None] is a missing key. *)
Record relay_settings : Type := {
  set_web_session_ttl : option Z;
  set_rdp_token_ttl : option Z;
  set_web_idle_ttl : option Z;
  set_idle_timeout : option Z;
  set_max_session_duration : option Z;
  set_max_connections : option Z;
}.

Definition update_store (s : relay_settings) (st : SessionStore) : SessionStore := {|
  web_ttl := default (web_ttl st) (set_web_session_ttl s);
  rdp_token_ttl := default (rdp_token_ttl st) (set_rdp_token_ttl s);
  web_idle_ttl := default (web_idle_ttl st) (set_web_idle_ttl s);
  enc_key := enc_key st |}.

(** One message in [_settings_listener]. *)
Definition settings_message (s : relay_settings) (p : relay_process) : relay_process :=
  RelayProcess (update_store s (rp_store p))
    (update_timeouts (rp_monitor p)
       (default (idle_timeout (rp_monitor p)) (set_idle_timeout s))
       (default (max_session_duration (rp_monitor p)) (set_max_session_duration s)))
    (update_limit (default (conn_limit (rp_admission p)) (set_max_connections s)) (rp_admission p)).

(** ** Lemmas *)

(** Runs whose limit stays between bounds. *)
Definition limits_within (n : Z) (a : admission) : Prop := conn_limit a <= n.

Lemma admission_sound a a' :
  admission_step a a' → 0 <= permits a → 0 <= active a → conn_limit a <= permits a + active a →
  0 <= permits a' ∧ 0 <= active a' ∧ conn_limit a' <= permits a' + active a'.
Proof.
  destruct 1 as [a|a Ha|a n Hn]; intros Hp Hac Hl.
  - unfold accept. destruct (Z.eqb_spec (permits a) 0); simpl; lia.
  - simpl. lia.
  - unfold update_limit. destruct (Z.eqb_spec n (conn_limit a)); simpl; [lia|].
    destruct (Z.ltb_spec 0 (n - conn_limit a)); simpl; lia.
Qed.

(** Raises only: the limit never goes down. *)
Definition raising_step (a a' : admission) : Prop :=
  admission_step a a' ∧ conn_limit a <= conn_limit a'.

Lemma raising_exact a a' :
  raising_step a a' → permits a + active a = conn_limit a → permits a' + active a' = conn_limit a'.
Proof.
  intros [Hs Hle]. destruct Hs as [a|a Ha|a n Hn]; intros He.
  - unfold accept. destruct (permits a =? 0); simpl; lia.
  - simpl. lia.
  - unfold update_limit in *. destruct (Z.eqb_spec n (conn_limit a)); simpl in *; [lia|].
    destruct (Z.ltb_spec 0 (n - conn_limit a)); simpl; lia.
Qed.

(** ** Properties *)

(** C36: while the limit is only raised, the semaphore and the running handlers
    always add up to the limit: no run ever serves more connections than
    configured, and none is refused below the limit. *)
Theorem admission_bound (max_conn : Z) (a0 a : admission) :
  admission_init max_conn = Ok a0 → rtc raising_step a0 a →
  0 <= permits a ∧ 0 <= active a <= conn_limit a
  ∧ ((accept a).1 = true ↔ active a < conn_limit a).
Proof.
  unfold admission_init. destruct (Z.ltb_spec max_conn 0); [discriminate|]. intros [= <-] Hrun.
  assert (0 <= permits a ∧ 0 <= active a ∧ permits a + active a = conn_limit a) as (H1 & H2 & H3).
  { apply (rtc_ind_r (R := raising_step) (λ a, 0 <= permits a ∧ 0 <= active a ∧ permits a + active a = conn_limit a)
             (Admission max_conn 0 max_conn)); [simpl; lia | | exact Hrun].
    intros b c _ Hstep (B1 & B2 & B3).
    destruct (admission_sound b c (proj1 Hstep) B1 B2 ltac:(lia)) as (C1 & C2 & _).
    pose proof (raising_exact b c Hstep B3). lia. }
  split; [done|]. split; [lia|]. unfold accept.
  destruct (Z.eqb_spec (permits a) 0); simpl; split; try discriminate; lia.
Qed.

Lemma admission_bound_witness :
  0 <= 1 ∧ 0 <= 1 <= 2 ∧ ((accept (Admission 1 1 2)).1 = true ↔ 1 < 2).
Proof.
  apply (admission_bound 2 (Admission 2 0 2) (Admission 1 1 2)); [reflexivity|].
  apply rtc_once. split; [exact (step_accept (Admission 2 0 2)) | discriminate].
Defined.

(** Lowering the limit takes no permit back and raising it again adds
    some: when the limit of a full relay is lowered to zero and restored, the
    next client is served above the limit. *)
Theorem admission_overrun (n : Z) :
  0 < n →
  ∃ a, rtc admission_step (Admission 0 n n) a ∧ conn_limit a = n ∧ active a = n + 1.
Proof.
  intros Hn. exists (Admission (n - 1) (n + 1) n). split; [|done].
  eapply rtc_l; [exact (step_limit (Admission 0 n n) 0 ltac:(lia))|].
  unfold update_limit at 1. cbn [conn_limit permits active].
  rewrite (proj2 (Z.eqb_neq 0 n)) by lia. cbn [negb]. rewrite (proj2 (Z.ltb_ge 0 (0 - n))) by lia.
  eapply rtc_l; [exact (step_limit (Admission 0 n 0) n ltac:(lia))|].
  unfold update_limit at 1. cbn [conn_limit permits active].
  rewrite (proj2 (Z.eqb_neq n 0)) by lia. cbn [negb]. rewrite (proj2 (Z.ltb_lt 0 (n - 0))) by lia.
  apply rtc_once. replace (Admission (n - 1) (n + 1) n) with ((accept (Admission (0 + (n - 0)) n n)).2).
  - apply step_accept.
  - unfold accept. cbn [permits active conn_limit]. rewrite (proj2 (Z.eqb_neq _ 0)) by lia.
    simpl. f_equal; lia.
Qed.

Lemma admission_overrun_witness :
  ∃ a, rtc admission_step (Admission 0 100 100) a ∧ conn_limit a = 100 ∧ active a = 101.
Proof. apply (admission_overrun 100). lia. Defined.
Close Scope Z_scope.
