(* ===== verification/PyUuid.v ===== *)
(** [uuid.UUID] and [datetime.isoformat] of the standard library: a UUID is its
    128-bit integer; its text and the parser are inverse. *)

From stdpp Require Import prelude list strings.
From Stdlib Require Import ZArith Lia.
From Stdlib Require Strings.String.
From S2P Require Import Prelude PySeq PyBytes PyStr Encodings.

Open Scope N_scope.

Abbreviation uuid := N.

(** ** UUIDs *)

(** The [k] low hexadecimal digits. *)
Fixpoint hex_fixed (k : nat) (n : N) : str :=
  match k with
  | O => []
  | S k' => hex_fixed k' (n / 16) ++ [hex_char (n mod 16)]
  end.

(** [str(u)]: groups of 8, 4, 4, 4 and 12 digits. *)
Definition uuid_str (n : uuid) : str :=
  let h := hex_fixed 32 n in
  slice h 0 8 ++ u "-" ++ slice h 8 12 ++ u "-" ++ slice h 12 16 ++ u "-" ++ slice h 16 20
    ++ u "-" ++ slice h 20 32.

(** A digit of [int(s, 16)]: any decimal digit, or a letter. *)
Definition digit16 (c : N) : option N :=
  match digit_value c with
  | Some z => Some (Z.to_N z)
  | None => if (97 <=? c) && (c <=? 102) then Some (c - 87)
            else if (65 <=? c) && (c <=? 70) then Some (c - 55) else None
  end.

Fixpoint int16_go (acc : N) (after_digit : bool) (s : str) : option N :=
  match s with
  | [] => if after_digit then Some acc else None
  | c :: s' =>
      match digit16 c with
      | Some d => int16_go (acc * 16 + d) true s'
      | None => if (c =? 95) && after_digit then int16_go acc false s' else None
      end
  end.

(** [int(s, 16)]: the sign and the magnitude. *)
Definition int16_of_str (s : str) : option (bool * N) :=
  let t := strip_by int_space s in
  let '(neg, t) :=
    match t with
    | c :: r => if c =? 45 then (true, r) else if c =? 43 then (false, r) else (false, t)
    | [] => (false, t)
    end in
  let '(prefixed, t) :=
    match t with
    | z :: x :: r => if (z =? 48) && ((x =? 120) || (x =? 88)) then (true, r) else (false, t)
    | _ => (false, t)
    end in
  let t := match t with
           | c :: r => if (c =? 95) && prefixed then r else t
           | [] => t
           end in
  pair neg <$> int16_go 0 false t.

(** [uuid.UUID(s)] *)
Definition uuid_of_str (s : str) : res uuid :=
  let h := replace (u "uuid:") [] (replace (u "urn:") [] s) in
  let h := replace (u "-") [] (strip_by (λ c, (c =? 123) || (c =? 125)) h) in
  if negb (length h =? 32)%nat then Err ValueError
  else
    match int16_of_str h with
    | None => Err ValueError
    | Some (neg, n) =>
        if (neg && (0 <? n)) || (2 ^ 128 <=? n) then Err ValueError else Ok n
    end.

(** ** Lemmas *)

Lemma replace_go_absent {A} `{EqDecision A} (x : A) p new l :
  x ∉ l → replace_go (x :: p) new l 0 = l.
Proof.
  induction l as [|y l IH]; [done|]. intros Hx. apply not_elem_of_cons in Hx as [Hn Hx].
  cbn [replace_go starts_with]. rewrite bool_decide_eq_false_2 by done. cbn [andb].
  by rewrite IH.
Qed.

Lemma replace_absent {A} `{EqDecision A} (x : A) p new l : x ∉ l → replace (x :: p) new l = l.
Proof. apply replace_go_absent. Qed.

Lemma replace_one_app {A} `{EqDecision A} (x : A) l k :
  x ∉ l → replace [x] [] (l ++ x :: k) = l ++ replace [x] [] k.
Proof.
  intros Hx. unfold replace. induction l as [|y l IH]; simpl.
  - by rewrite bool_decide_eq_true_2.
  - apply not_elem_of_cons in Hx as [Hn Hx]. rewrite bool_decide_eq_false_2 by done. simpl.
    by rewrite IH.
Qed.

Definition is_hex (c : N) : Prop := ∃ d, d < 16 ∧ c = hex_char d.

Lemma hex_fixed_hex k n : Forall is_hex (hex_fixed k n).
Proof.
  revert n. induction k as [|k IH]; intros n; simpl; [constructor|].
  apply Forall_app. split; [apply IH|]. constructor; [|constructor].
  exists (n mod 16). split; [by apply N.mod_lt | done].
Qed.

Lemma length_hex_fixed k n : length (hex_fixed k n) = k.
Proof. revert n. induction k as [|k IH]; intros n; simpl; [done|]. rewrite length_app, IH. simpl. lia. Qed.

Lemma is_hex_cases c : is_hex c → (48 <= c < 58 ∨ 97 <= c < 103) ∧ ∃ d, digit16 c = Some d ∧ d < 16 ∧ c = hex_char d.
Proof.
  intros (d & Hd & ->). apply (small_cases d 16 (λ d, (48 <= hex_char d < 58 ∨ 97 <= hex_char d < 103)
    ∧ ∃ d', digit16 (hex_char d) = Some d' ∧ d' < 16 ∧ hex_char d = hex_char d') Hd).
  cbn [seq map].
  repeat match goal with
  | |- Forall _ (?x :: _) => constructor;
      [split; [vm_compute; first [left; split; congruence | right; split; congruence]
              | exists x; vm_compute; auto]|]
  end.
  constructor.
Qed.

Lemma hex_char_inj d d' : d < 16 → d' < 16 → hex_char d = hex_char d' → d = d'.
Proof.
  unfold hex_char. intros H H'. destruct (N.ltb_spec d 10), (N.ltb_spec d' 10); lia.
Qed.

Lemma digit16_hex d : d < 16 → digit16 (hex_char d) = Some d.
Proof.
  intros Hd. destruct (is_hex_cases (hex_char d)) as (_ & d' & E & Hd' & Hc); [by exists d|].
  rewrite E. f_equal. symmetry. by apply hex_char_inj.
Qed.

Lemma int16_go_fixed k n acc b t :
  n < 16 ^ N.of_nat k → (0 < k)%nat →
  int16_go acc b (hex_fixed k n ++ t) = int16_go (acc * 16 ^ N.of_nat k + n) true t.
Proof.
  revert n acc b t. induction k as [|k IH]; intros n acc b t Hn Hk; [lia|].
  cbn [hex_fixed]. rewrite <- app_assoc. cbn [app].
  rewrite Nat2N.inj_succ, N.pow_succ_r in * by lia.
  assert (n mod 16 < 16) as Hm by by apply N.mod_lt.
  pose proof (N.div_mod n 16 ltac:(lia)) as Hd.
  destruct k as [|k].
  - cbn [hex_fixed app int16_go]. rewrite digit16_hex by done. f_equal.
    change (16 ^ N.of_nat 0) with 1 in *. rewrite (N.mod_small n 16) by lia. lia.
  - rewrite IH by (try lia; apply N.Div0.div_lt_upper_bound; lia).
    cbn [int16_go]. rewrite digit16_hex by done. f_equal.
    rewrite !Nat2N.inj_succ, !N.pow_succ_r by lia.
    revert Hd. generalize (n mod 16) (n / 16) (16 ^ N.of_nat k). intros a q p Hd. rewrite Hd. lia.
Qed.

Lemma slice_hex k n i j : Forall is_hex (slice (hex_fixed k n) i j).
Proof. unfold slice. apply Forall_take, Forall_drop, hex_fixed_hex. Qed.

Lemma hex_not c l : Forall is_hex l → ¬ (48 <= c < 58 ∨ 97 <= c < 103) → c ∉ l.
Proof.
  intros Hl Hc Hin. rewrite Forall_forall in Hl. apply Hl, is_hex_cases in Hin as [Hin _]. done.
Qed.

Lemma length_uuid_str n : length (uuid_str n) = 36%nat.
Proof.
  unfold uuid_str. rewrite !length_app, !length_slice by (rewrite ?length_hex_fixed; lia).
  assert (length (u "-") = 1%nat) as -> by (vm_compute; reflexivity). lia.
Qed.

Lemma uuid_str_chars n : Forall (λ c, is_hex c ∨ c = 45) (uuid_str n).
Proof.
  unfold uuid_str. rewrite !Forall_app.
  assert (∀ i j, Forall (λ c, is_hex c ∨ c = 45) (slice (hex_fixed 32 n) i j)) as Hs.
  { intros i j. eapply Forall_impl; [apply slice_hex|]. auto. }
  assert (Forall (λ c, is_hex c ∨ c = 45) (u "-")) by (constructor; [by right | constructor]).
  repeat split; auto.
Qed.

Lemma uuid_str_not c n : ¬ (48 <= c < 58 ∨ 97 <= c < 103) → c ≠ 45 → c ∉ uuid_str n.
Proof.
  intros Hc Hd Hin. pose proof (uuid_str_chars n) as Hu. rewrite Forall_forall in Hu.
  destruct (Hu c Hin) as [Hx|]; [|done]. apply is_hex_cases in Hx as [Hx _]. done.
Qed.

Lemma replace_dashes n : replace (u "-") [] (uuid_str n) = hex_fixed 32 n.
Proof.
  unfold uuid_str. change (u "-") with [45]. cbn [app].
  assert (∀ i j, 45 ∉ slice (hex_fixed 32 n) i j) as Hs
    by (intros i j; apply hex_not; [apply slice_hex | lia]).
  rewrite !replace_one_app, replace_absent by apply Hs.
  assert (∀ (h : str) a b c, (a <= b <= c)%nat → slice h a b ++ slice h b c = slice h a c) as Hj.
  { intros h a b c Habc. unfold slice.
    replace (take (c - a) (drop a h)) with (take ((b - a) + (c - b)) (drop a h)) by (f_equal; lia).
    rewrite <- take_take_drop, drop_drop. do 3 f_equal. lia. }
  rewrite !Hj by lia. unfold slice. rewrite drop_0. apply take_ge. by rewrite length_hex_fixed.
Qed.

(** [uuid.UUID(str(u)) == u]. *)
Lemma uuid_of_str_of n : n < 2 ^ 128 → uuid_of_str (uuid_str n) = Ok n.
Proof.
  intros Hn. unfold uuid_of_str. change (u "urn:") with (117 :: u "rn:"). change (u "uuid:") with (117 :: u "uid:").
  pose proof (uuid_str_not 117 n ltac:(lia) ltac:(lia)) as H117.
  rewrite (replace_absent 117 (u "rn:") [] (uuid_str n) H117), replace_absent by done.
  rewrite strip_by_id.
  2: { eapply Forall_impl; [apply uuid_str_chars|]. intros c [Hx| ->]; [|done].
       apply is_hex_cases in Hx as [Hx _]. apply orb_false_iff. rewrite !N.eqb_neq. lia. }
  rewrite replace_dashes, length_hex_fixed. cbn [Nat.eqb negb].
  assert (int16_of_str (hex_fixed 32 n) = Some (false, n)) as ->.
  { pose proof (hex_fixed_hex 32 n) as Hh. pose proof (length_hex_fixed 32 n) as Hl.
    pose proof (int16_go_fixed 32 n 0 false [] Hn ltac:(lia)) as Hgo. rewrite app_nil_r in Hgo.
    cbn [int16_go] in Hgo. unfold int16_of_str. rewrite strip_by_id.
    2: { eapply Forall_impl; [exact Hh|]. intros c Hx. apply is_hex_cases in Hx as [Hx _].
         unfold int_space, is_space. apply andb_false_iff. left.
         rewrite !orb_false_iff, !andb_false_iff, !N.leb_gt, !N.eqb_neq. lia. }
    destruct (hex_fixed 32 n) as [|c [|d r]] eqn:E; [done | simpl in Hl; lia |].
    pose proof (Forall_inv Hh) as Hc. apply is_hex_cases in Hc as [Hc _].
    pose proof (Forall_inv (Forall_inv_tail Hh)) as Hd. apply is_hex_cases in Hd as [Hd _].
    rewrite (proj2 (N.eqb_neq c 45)), (proj2 (N.eqb_neq c 43)) by lia.
    rewrite (proj2 (N.eqb_neq d 120)), (proj2 (N.eqb_neq d 88)), andb_false_r by lia.
    rewrite andb_false_r, Hgo. done. }
  cbn [andb orb]. by rewrite (proj2 (N.leb_gt _ _)).
Qed.

(** ** Dates *)

Definition pad2 (n : Z) : str := if (n <? 10)%Z then 48 :: str_of_Z n else str_of_Z n.

(** The civil date of a day number counted from 1970-01-01. *)
Definition civil (days : Z) : Z * Z * Z :=
  (let z := days + 719468 in
   let era := z / 146097 in
   let doe := z - era * 146097 in
   let yoe := (doe - doe / 1460 + doe / 36524 - doe / 146096) / 365 in
   let doy := doe - (365 * yoe + yoe / 4 - yoe / 100) in
   let mp := (5 * doy + 2) / 153 in
   let d := doy - (153 * mp + 2) / 5 + 1 in
   let m := if mp <? 10 then mp + 3 else mp - 9 in
   (yoe + era * 400 + (if m <=? 2 then 1 else 0), m, d))%Z.

(** [datetime.now(timezone.utc).isoformat()], from the clock in milliseconds. *)
Definition iso_utc (now_ms : Z) : str :=
  (let '(y, m, d) := civil (now_ms / 86400000) in
   let s := (now_ms / 1000) mod 86400 in
   let ms := now_ms mod 1000 in
   let micro := if ms =? 0 then [] else
     46%N :: (if ms <? 100 then [48%N] else []) ++ (if ms <? 10 then [48%N] else [])
       ++ str_of_Z ms ++ u "000" in
   str_of_Z y ++ u "-" ++ pad2 m ++ u "-" ++ pad2 d ++ u "T" ++ pad2 (s / 3600) ++ u ":"
     ++ pad2 ((s / 60) mod 60) ++ u ":" ++ pad2 (s mod 60) ++ micro ++ u "+00:00")%Z.

Example iso_utc_run :
  iso_utc 1709210096007 = u "2024-02-29T12:34:56.007000+00:00"
  ∧ uuid_of_str (u "{12345678-9ABC-def0-1234-56789abcdef0}") = Ok 0x123456789abcdef0123456789abcdef0
  ∧ uuid_str 0x123456789abcdef0123456789abcdef0 = u "12345678-9abc-def0-1234-56789abcdef0".
Proof. vm_compute. auto. Qed.
Close Scope N_scope.
