(* ===== verification/Database.v ===== *)
(** PostgreSQL as the program uses it through SQLAlchemy: typed tables. The
    server and the library are not part of the repository: a table is a
    typeclass of statements and a class of the documented laws they obey, stated
    against the rows by primary key. What the repository declares about a table
    (column widths, uniqueness, checks) is its [Schema]. *)

From stdpp Require Import prelude gmap list.
From Stdlib Require Import ZArith Lia.
From S2P Require Import Prelude PySeq PyBytes PyStr.

Open Scope Z_scope.

(** ** What a model declares *)

Class Schema (K Row : Type) `{Countable K} : Type := {
  row_key : Row → K;
  (** the values fit their columns *)
  row_fits : Row → bool;
  (** unique and check constraints *)
  constraints : gmap K Row → Prop;
}.

(** [sa.String(n)]: at most [n] characters, and no NUL or surrogate, which the
    server's text type has not. *)
Definition text_fits (n : nat) (s : str) : bool :=
  (length s <=? n)%nat && forallb (λ c, negb (c =? 0)%N) s && scalar_b s.
Definition opt_fits (n : nat) (o : option str) : bool :=
  match o with Some s => text_fits n s | None => true end.
(** [sa.Integer] and [sa.BigInteger] *)
Definition int32_fits (z : Z) : bool := (- 2 ^ 31 <=? z) && (z <? 2 ^ 31).
Definition int64_fits (z : Z) : bool := (- 2 ^ 63 <=? z) && (z <? 2 ^ 63).

(** [unique=True] on a column. *)
Definition unique_on {K Row C} `{Countable K} (column : Row → C) (m : gmap K Row) : Prop :=
  map_Forall (λ k r, map_Forall (λ k' r', column r = column r' → k = k') m) m.

(** What the database's collation and [lower] make of text. *)
Class Collation : Type := { text_le : str → str → bool; sql_lower : str → str }.

(** ** Statements *)

Class Table (K Row D : Type) : Type := {
  db_get : K → D → option Row;
  db_select : (Row → bool) → D → list Row;
  db_insert : Row → io D unit;
  db_update : (Row → bool) → (Row → Row) → io D Z;
  db_delete : (Row → bool) → io D Z;
}.

(** The rows after [UPDATE ... SET f WHERE p]. *)
Definition update_rows {K Row} `{Countable K} (p : Row → bool) (f : Row → Row) (m : gmap K Row) : gmap K Row :=
  (λ r, if p r then f r else r) <$> m.

(** The rows a condition selects, and those it does not. *)
Definition select_rows {K Row} `{Countable K} (p : Row → bool) (m : gmap K Row) : gmap K Row :=
  filter (λ kr, p kr.2 = true) m.
Definition reject_rows {K Row} `{Countable K} (p : Row → bool) (m : gmap K Row) : gmap K Row :=
  filter (λ kr, p kr.2 = false) m.

Class TableLaws (K Row D : Type) `{Schema K Row} `{Table K Row D} : Type := {
  rows : D → gmap K Row;
  get_law k d : db_get k d = rows d !! k;
  select_law p d : db_select p d ≡ₚ (map_to_list (select_rows p (rows d))).*2;
  insert_law r d :
    row_fits r = true → rows d !! row_key r = None → constraints (<[row_key r := r]> (rows d)) →
    ∃ d', db_insert r d = (Ok tt, d') ∧ rows d' = <[row_key r := r]> (rows d);
  insert_unfit r d : row_fits r = false → db_insert r d = (Err DataError, d);
  insert_duplicate r d :
    row_fits r = true → is_Some (rows d !! row_key r) ∨ ¬ constraints (<[row_key r := r]> (rows d)) →
    db_insert r d = (Err IntegrityError, d);
  (** for an update that leaves the primary key alone *)
  update_law p f d :
    (∀ r, row_key (f r) = row_key r) →
    (∀ k r, rows d !! k = Some r → p r = true → row_fits (f r) = true) →
    constraints (update_rows p f (rows d)) →
    ∃ d', db_update p f d = (Ok (Z.of_nat (size (select_rows p (rows d)))), d')
      ∧ rows d' = update_rows p f (rows d);
  update_unfit p f d :
    (∃ k r, rows d !! k = Some r ∧ p r = true ∧ row_fits (f r) = false) →
    db_update p f d = (Err DataError, d);
  update_violation p f d :
    (∀ r, row_key (f r) = row_key r) →
    (∀ k r, rows d !! k = Some r → p r = true → row_fits (f r) = true) →
    ¬ constraints (update_rows p f (rows d)) →
    db_update p f d = (Err IntegrityError, d);
  delete_law p d :
    ∃ d', db_delete p d = (Ok (Z.of_nat (size (select_rows p (rows d)))), d')
      ∧ rows d' = reject_rows p (rows d);
}.

(** A table whose key the server numbers, and that is only appended to. *)
Class Log (Row D : Type) : Type := { log_append : Row → io D unit }.
Class LogLaws (Row D : Type) (fits : Row → bool) `{Log Row D} : Type := {
  log_rows : D → list Row;
  append_law r d : fits r = true → ∃ d', log_append r d = (Ok tt, d') ∧ log_rows d' = log_rows d ++ [r];
  append_unfit r d : fits r = false → log_append r d = (Err DataError, d);
}.
(** Reading it: the rows a condition selects, with their numbers. *)
Class LogQuery (Row D : Type) : Type := { log_select : (Row → bool) → D → list (Z * Row) }.
Class LogQueryLaws (Row D : Type) (fits : Row → bool) `{LogLaws Row D fits} `{!LogQuery Row D} : Prop := {
  log_select_law p d : (log_select p d).*2 ≡ₚ List.filter p (log_rows (fits := fits) d);
}.

(** ** A concrete server *)

(** Tables are finite maps when the constraints can be decided; the key a row is
    stored under is its own. *)
Definition map_table {K Row} `{Schema K Row} `{∀ m : gmap K Row, Decision (constraints m)} :
    Table K Row (gmap K Row) := {|
  db_get k m := m !! k;
  db_select p m := (map_to_list (select_rows p m)).*2;
  db_insert r m :=
    if negb (row_fits r) then (Err DataError, m)
    else if decide (m !! row_key r = None ∧ constraints (<[row_key r := r]> m))
    then (Ok tt, <[row_key r := r]> m) else (Err IntegrityError, m);
  db_update p f m :=
    if decide (map_Forall (λ _ r, p r = true → row_fits (f r) = true) m)
    then if decide (constraints (update_rows p f m))
         then (Ok (Z.of_nat (size (select_rows p m))), update_rows p f m)
         else (Err IntegrityError, m)
    else (Err DataError, m);
  db_delete p m := (Ok (Z.of_nat (size (select_rows p m))), reject_rows p m);
|}.

Definition map_table_laws {K Row} `{Schema K Row} `{∀ m : gmap K Row, Decision (constraints m)} :
  @TableLaws K Row (gmap K Row) _ _ _ map_table.
Proof.
  unshelve refine (@Build_TableLaws K Row _ _ _ _ map_table (λ d, d) _ _ _ _ _ _ _ _ _).
  - done.
  - done.
  - intros r d Hf Hn Hc. simpl. rewrite Hf. simpl. rewrite decide_True by done. eauto.
  - intros r d Hf. simpl. by rewrite Hf.
  - intros r d Hf Hor. simpl. rewrite Hf. simpl. rewrite decide_False; [done|].
    intros [Hn Hc]. destruct Hor as [[x Hx]|]; [congruence | done].
  - intros p f d Hk Hf Hc. simpl. rewrite decide_True by (intros k r Hr; by apply (Hf k)).
    rewrite decide_True by done. eauto.
  - intros p f d (k & r & Hr & Hp & Hf). simpl. rewrite decide_False; [done|].
    intros Hall. specialize (Hall k r Hr Hp). congruence.
  - intros p f d Hk Hf Hc. simpl. rewrite decide_True by (intros k r Hr; by apply (Hf k)).
    by rewrite decide_False by done.
  - intros p d. simpl. eauto.
Defined.

Definition list_log {Row} (fits : Row → bool) : Log Row (list Row) := {|
  log_append r l := if fits r then (Ok tt, l ++ [r]) else (Err DataError, l) |}.

Definition list_log_laws {Row} (fits : Row → bool) : @LogLaws Row (list Row) fits (list_log fits).
Proof.
  refine (@Build_LogLaws Row (list Row) fits (list_log fits) (λ l, l) _ _); intros r d Hf; simpl; rewrite Hf; eauto.
Defined.

#[export] Instance list_log_query {Row} : LogQuery Row (list Row) := {|
  log_select p l := List.filter (λ x, p x.2) (zip (map Z.of_nat (seq 1 (length l))) l) |}.
#[export] Instance list_log_query_laws {Row} (fits : Row → bool) :
  @LogQueryLaws Row (list Row) fits (list_log fits) (list_log_laws fits) list_log_query.
Proof.
  constructor. intros p l. change (log_rows l) with l. unfold log_select, list_log_query. generalize 1%nat.
  induction l as [|r l IH]; intros n; [done|]. cbn [length seq map zip zip_with List.filter snd].
  destruct (p r); cbn [fmap list_fmap snd]; [by f_equiv | apply IH].
Qed.

(** ** Lemmas *)

Section Laws.
Context {K Row : Type} `{Countable K}.
Implicit Types (m : gmap K Row) (p : Row → bool).

Lemma lookup_update_rows p f m k :
  update_rows p f m !! k = (λ r, if p r then f r else r) <$> m !! k.
Proof. apply lookup_fmap. Qed.

Lemma lookup_select_rows p m k :
  select_rows p m !! k = (r ← m !! k; if p r then Some r else None).
Proof.
  unfold select_rows. rewrite map_lookup_filter. destruct (m !! k) as [r|]; simpl; [|done].
  destruct (p r) eqn:E; unfold guard; by destruct (decide _).
Qed.

Lemma lookup_reject_rows p m k :
  reject_rows p m !! k = (r ← m !! k; if p r then None else Some r).
Proof.
  unfold reject_rows. rewrite map_lookup_filter. destruct (m !! k) as [r|]; simpl; [|done].
  destruct (p r) eqn:E; unfold guard; by destruct (decide _).
Qed.

(** A condition that at most one row meets, by its key. *)
Lemma size_select_one p m k :
  (∀ k' r, m !! k' = Some r → p r = true → k' = k) →
  Z.of_nat (size (select_rows p m))
  = match m !! k with Some r => if p r then 1 else 0 | None => 0 end.
Proof.
  intros Hp.
  assert (select_rows p m = match m !! k with
    | Some r => if p r then {[ k := r ]} else ∅ | None => ∅ end) as ->.
  { apply map_eq. intros k'. rewrite lookup_select_rows. destruct (decide (k' = k)) as [->|Hne].
    - destruct (m !! k) as [r|]; simpl; [|by rewrite lookup_empty].
      destruct (p r); [by rewrite lookup_singleton_eq | by rewrite lookup_empty].
    - destruct (m !! k') as [r|] eqn:E; simpl.
      + destruct (p r) eqn:Epr; [by destruct Hne; eapply Hp|].
        destruct (m !! k) as [r'|]; [destruct (p r')|]; by rewrite ?lookup_singleton_ne, ?lookup_empty.
      + destruct (m !! k) as [r'|]; [destruct (p r')|]; by rewrite ?lookup_singleton_ne, ?lookup_empty. }
  destruct (m !! k) as [r|]; [destruct (p r)|]; by rewrite ?map_size_singleton, ?map_size_empty.
Qed.

Lemma update_rows_none p f m : (∀ k r, m !! k = Some r → p r = false) → update_rows p f m = m.
Proof.
  intros Hp. apply map_eq. intros k. rewrite lookup_update_rows.
  destruct (m !! k) as [r|] eqn:E; simpl; [|done]. by rewrite (Hp k r E).
Qed.
End Laws.

(** Every row is stored under its own key. *)
Definition keyed {K Row} `{Schema K Row} (m : gmap K Row) : Prop := map_Forall (λ k r, row_key r = k) m.

Section TableLemmas.
Context {K Row D : Type} `{TableLaws K Row D}.
Implicit Types (m : gmap K Row) (d : D).

Lemma update_rows_one p f m k :
  keyed m → (∀ r, p r = true → row_key r = k) →
  update_rows p f m = alter (λ r, if p r then f r else r) k m.
Proof.
  intros Hk Hp. apply map_eq. intros k'. rewrite lookup_update_rows.
  destruct (decide (k' = k)) as [->|Hne]; [by rewrite lookup_alter_eq|].
  rewrite lookup_alter_ne by done. destruct (m !! k') as [r|] eqn:E; simpl; [|done].
  destruct (p r) eqn:Epr; [|done]. destruct Hne. rewrite <- (Hk k' r E). by apply Hp.
Qed.

(** An update of the row with one key. *)
Lemma db_update_one p f d k :
  keyed (rows d) → (∀ r, p r = true → row_key r = k) → (∀ r, row_key (f r) = row_key r) →
  (∀ r, rows d !! k = Some r → p r = true → row_fits (f r) = true) →
  constraints (alter (λ r, if p r then f r else r) k (rows d)) →
  ∃ d', db_update p f d
    = (Ok (match rows d !! k with Some r => if p r then 1 else 0 | None => 0 end), d')
    ∧ rows d' = alter (λ r, if p r then f r else r) k (rows d).
Proof.
  intros Hk Hp Hf Hfit Hc. rewrite <- update_rows_one in Hc |- * by done.
  rewrite <- (size_select_one p (rows d) k).
  2: { intros k' r Hr Hpr. rewrite <- (Hk k' r Hr). by apply Hp. }
  apply update_law; [done | | done]. intros k' r Hr Hpr.
  assert (k' = k) as -> by (rewrite <- (Hk k' r Hr); by apply Hp). by apply Hfit.
Qed.

Lemma keyed_insert r m : keyed m → keyed (<[row_key r := r]> m).
Proof. intros Hm. by apply map_Forall_insert_2. Qed.

Lemma keyed_update p f m : keyed m → (∀ r, row_key (f r) = row_key r) → keyed (update_rows p f m).
Proof.
  intros Hm Hf k r. rewrite lookup_update_rows. destruct (m !! k) as [r0|] eqn:E; simpl; [|done].
  intros [= <-]. rewrite <- (Hm k r0 E). by destruct (p r0).
Qed.

Lemma keyed_reject p m : keyed m → keyed (reject_rows p m).
Proof.
  intros Hm k r. rewrite lookup_reject_rows. destruct (m !! k) as [r0|] eqn:E; simpl; [|done].
  destruct (p r0); [done|]. intros [= <-]. by apply Hm.
Qed.

(** What an update or an insertion can do. *)
Lemma db_update_cases p f d :
  (∀ m, Decision (constraints m)) → (∀ r, row_key (f r) = row_key r) →
  (∃ n d', db_update p f d = (Ok n, d') ∧ rows d' = update_rows p f (rows d))
  ∨ ∃ e, db_update p f d = (Err e, d).
Proof.
  intros Hdec Hf.
  destruct (decide (map_Forall (λ _ r, p r = true → row_fits (f r) = true) (rows d))) as [Hfit|Hfit].
  - destruct (Hdec (update_rows p f (rows d))) as [Hc|Hc].
    + destruct (update_law p f d) as (d' & E & R); [done | exact Hfit | done | left; eauto].
    + right. eexists. apply update_violation; [done | exact Hfit | done].
  - right. eexists. apply update_unfit. apply map_not_Forall in Hfit as (k & r & Hr & Hn); [|apply _].
    exists k, r. split; [done|]. destruct (p r), (row_fits (f r)); naive_solver.
Qed.

Lemma db_insert_cases r d :
  (∀ m, Decision (constraints m)) →
  (∃ d', db_insert r d = (Ok tt, d') ∧ rows d' = <[row_key r := r]> (rows d) ∧ rows d !! row_key r = None)
  ∨ ∃ e, db_insert r d = (Err e, d).
Proof.
  intros Hdec. destruct (row_fits r) eqn:Hfit; [|right; eexists; by apply insert_unfit].
  destruct (rows d !! row_key r) as [r0|] eqn:Hk.
  { right. eexists. apply insert_duplicate; [done|]. left. by rewrite Hk. }
  destruct (Hdec (<[row_key r := r]> (rows d))) as [Hc|Hc].
  - left. destruct (insert_law r d) as (d' & E & R); [done | done | done | eauto].
  - right. eexists. apply insert_duplicate; [done | by right].
Qed.

Lemma select_size p d : length (db_select p d) = size (select_rows p (rows d)).
Proof. rewrite (select_law p d), length_fmap. apply length_map_to_list. Qed.

Lemma elem_of_db_select p d r : r ∈ db_select p d ↔ ∃ k, rows d !! k = Some r ∧ p r = true.
Proof.
  rewrite (select_law p d). rewrite list_elem_of_fmap. split.
  - intros ([k r'] & -> & Hin%elem_of_map_to_list). rewrite lookup_select_rows in Hin.
    destruct (rows d !! k) as [r0|] eqn:E; simpl in Hin; [|done]. destruct (p r0) eqn:Ep; [|done].
    injection Hin as <-. eauto.
  - intros (k & Hr & Hp). exists (k, r). split; [done|]. apply elem_of_map_to_list.
    rewrite lookup_select_rows, Hr. simpl. by rewrite Hp.
Qed.

(** Of two or more selected rows one has another key. *)
Lemma select_another p d k :
  (2 <= length (db_select p d))%nat → ∃ k' r, k' ≠ k ∧ rows d !! k' = Some r ∧ p r = true.
Proof.
  rewrite select_size. intros Hs.
  assert (delete k (select_rows p (rows d)) ≠ ∅) as Hne.
  { intros E. assert (size (delete k (select_rows p (rows d))) = 0%nat) as Hz by by rewrite E, map_size_empty.
    rewrite map_size_delete in Hz. destruct (size (select_rows p (rows d))) as [|[|n]], (select_rows p (rows d) !! k); simpl in *; lia. }
  apply map_choose in Hne as (k' & r & Hr). apply lookup_delete_Some in Hr as [Hne Hr].
  rewrite lookup_select_rows in Hr. destruct (rows d !! k') as [r0|] eqn:E; simpl in Hr; [|done].
  destruct (p r0) eqn:Ep; [|done]. injection Hr as <-. exists k', r0. by repeat split.
Qed.

Lemma keyed_empty : keyed (∅ : gmap K Row).
Proof. apply map_Forall_empty. Qed.
End TableLemmas.
#[export] Hint Resolve keyed_insert keyed_update keyed_reject keyed_empty : py.
Close Scope Z_scope.
