(* ===== verification/Models.v ===== *)
(** The tables, [libs/db/models/]: the rows as records, and what each model
    declares about its columns. Binding tables are kept inside the row they
    belong to. Times are in milliseconds. *)

From stdpp Require Import prelude gmap list.
From Stdlib Require Import ZArith Lia.
From S2P Require Import Prelude PySeq PyBytes PyStr Json PyUuid Database.

Open Scope Z_scope.

(** ** [history.py] *)

Record ConnectionHistory : Type := {
  h_id : uuid;
  h_instance_id : str;
  h_username : str;
  h_server_id : option uuid;
  h_server_display : option str;
  h_server_address : str;
  h_server_port : Z;
  h_client_ip : str;
  h_started_at : Z;
  h_ended_at : option Z;
  h_bytes_to_client : Z;
  h_bytes_to_backend : Z;
  h_disconnect_reason : option str;
  h_status : str;
}.

Definition history_fits (r : ConnectionHistory) : bool :=
  text_fits 64 (h_instance_id r) && text_fits 128 (h_username r) && opt_fits 255 (h_server_display r)
  && text_fits 255 (h_server_address r) && int32_fits (h_server_port r) && text_fits 45 (h_client_ip r)
  && int64_fits (h_bytes_to_client r) && int64_fits (h_bytes_to_backend r)
  && opt_fits 128 (h_disconnect_reason r) && text_fits 32 (h_status r).

#[export] Instance history_schema : Schema uuid ConnectionHistory := {|
  row_key := h_id; row_fits := history_fits; constraints m := True |}.

Record ConnectionEvent : Type := {
  ev_connection_id : uuid;
  ev_ts : Z;
  ev_event_type : str;
  ev_detail : dict;
}.

Definition event_fits (r : ConnectionEvent) : bool := text_fits 64 (ev_event_type r).

(** ** [server.py] *)

Record RdpServer : Type := {
  s_id : uuid;
  s_tech_name : str;
  s_display_name : str;
  s_address : str;
  s_port : Z;
  s_is_enabled : bool;
  s_sort_order : Z;
  (** the [ad_group_guid]s of its [server_group_bindings] *)
  s_groups : list uuid;
}.

#[export] Instance server_schema : Schema uuid RdpServer := {|
  row_key := s_id;
  row_fits r := text_fits 64 (s_tech_name r) && text_fits 255 (s_display_name r)
                && text_fits 255 (s_address r) && int32_fits (s_port r) && int32_fits (s_sort_order r);
  constraints m := unique_on s_tech_name m ∧ map_Forall (λ _ r, NoDup (s_groups r)) m |}.

(** ** [template.py] *)

Record RdpTemplate : Type := {
  t_id : uuid;
  t_name : str;
  t_is_default : bool;
  t_priority : Z;
  t_params : dict;
  t_groups : list uuid;
}.

#[export] Instance template_schema : Schema uuid RdpTemplate := {|
  row_key := t_id;
  row_fits r := text_fits 128 (t_name r) && int32_fits (t_priority r);
  constraints m := unique_on t_name m ∧ map_Forall (λ _ r, 0 <= t_priority r ∧ NoDup (t_groups r)) m |}.

(** ** [admin_user.py] *)

Record AdminUser : Type := {
  a_id : uuid;
  a_username : str;
  a_password_hash : str;
  a_is_active : bool;
  a_must_change_password : bool;
  a_allowed_ips : json;
  a_last_login_at : option Z;
}.

#[export] Instance admin_user_schema : Schema uuid AdminUser := {|
  row_key := a_id;
  row_fits r := text_fits 128 (a_username r) && text_fits 255 (a_password_hash r);
  constraints m := unique_on a_username m |}.

(** ** [settings.py] *)

Record PortalSetting : Type := { ps_key : str; ps_value : json }.

#[export] Instance setting_schema : Schema str PortalSetting := {|
  row_key := ps_key; row_fits r := text_fits 128 (ps_key r); constraints m := True |}.

Record AdGroupCache : Type := {
  g_guid : uuid;
  g_dn : str;
  g_cn : str;
  g_description : option str;
  g_cached_at : Z;
}.

#[export] Instance group_schema : Schema uuid AdGroupCache := {|
  row_key := g_guid;
  row_fits r := text_fits 512 (g_dn r) && text_fits 255 (g_cn r) && opt_fits 512 (g_description r);
  constraints m := True |}.

(** ** [audit.py] *)

Record AdminAuditLog : Type := {
  au_instance_id : option str;
  au_admin_user : str;
  au_action : str;
  au_target_type : option str;
  au_target_id : option str;
  (** [old_value] is never set *)
  au_new_value : json;
  au_client_ip : option str;
}.

Definition audit_fits (r : AdminAuditLog) : bool :=
  opt_fits 64 (au_instance_id r) && text_fits 128 (au_admin_user r) && text_fits 64 (au_action r)
  && opt_fits 64 (au_target_type r) && opt_fits 128 (au_target_id r) && opt_fits 45 (au_client_ip r).

(** ** [node.py] *)

Record ClusterNode : Type := {
  n_instance_id : str;
  n_hostname : str;
  n_ip : str;
  n_services : dict;
  n_resources : dict;
  n_last_heartbeat : Z;
  n_registered_at : Z;
}.

#[export] Instance node_schema : Schema str ClusterNode := {|
  row_key := n_instance_id;
  row_fits r := text_fits 64 (n_instance_id r) && text_fits 255 (n_hostname r) && text_fits 45 (n_ip r);
  constraints m := True |}.

(** ** Concrete tables *)

#[export] Instance history_constraints_dec (m : gmap uuid ConnectionHistory) : Decision (constraints m).
Proof. left. exact I. Defined.
#[export] Instance history_table : Table uuid ConnectionHistory (gmap uuid ConnectionHistory) := map_table.
#[export] Instance history_table_laws : TableLaws uuid ConnectionHistory (gmap uuid ConnectionHistory) := map_table_laws.

#[export] Instance event_log : Log ConnectionEvent (list ConnectionEvent) := list_log event_fits.
#[export] Instance event_log_laws : LogLaws ConnectionEvent (list ConnectionEvent) event_fits := list_log_laws event_fits.

#[export] Instance server_constraints_dec (m : gmap uuid RdpServer) : Decision (constraints m).
Proof. apply and_dec; unfold unique_on; apply _. Defined.
#[export] Instance server_table : Table uuid RdpServer (gmap uuid RdpServer) := map_table.
#[export] Instance server_table_laws : TableLaws uuid RdpServer (gmap uuid RdpServer) := map_table_laws.

#[export] Instance template_constraints_dec (m : gmap uuid RdpTemplate) : Decision (constraints m).
Proof. apply and_dec; unfold unique_on; apply _. Defined.
#[export] Instance template_table : Table uuid RdpTemplate (gmap uuid RdpTemplate) := map_table.
#[export] Instance template_table_laws : TableLaws uuid RdpTemplate (gmap uuid RdpTemplate) := map_table_laws.

#[export] Instance admin_user_constraints_dec (m : gmap uuid AdminUser) : Decision (constraints m).
Proof. unfold constraints, admin_user_schema, unique_on. apply _. Defined.
#[export] Instance admin_user_table : Table uuid AdminUser (gmap uuid AdminUser) := map_table.
#[export] Instance admin_user_table_laws : TableLaws uuid AdminUser (gmap uuid AdminUser) := map_table_laws.

#[export] Instance setting_constraints_dec (m : gmap str PortalSetting) : Decision (constraints m).
Proof. left. exact I. Defined.
#[export] Instance setting_table : Table str PortalSetting (gmap str PortalSetting) := map_table.
#[export] Instance setting_table_laws : TableLaws str PortalSetting (gmap str PortalSetting) := map_table_laws.

#[export] Instance group_constraints_dec (m : gmap uuid AdGroupCache) : Decision (constraints m).
Proof. left. exact I. Defined.
#[export] Instance group_table : Table uuid AdGroupCache (gmap uuid AdGroupCache) := map_table.
#[export] Instance group_table_laws : TableLaws uuid AdGroupCache (gmap uuid AdGroupCache) := map_table_laws.

#[export] Instance node_constraints_dec (m : gmap str ClusterNode) : Decision (constraints m).
Proof. left. exact I. Defined.
#[export] Instance node_table : Table str ClusterNode (gmap str ClusterNode) := map_table.
#[export] Instance node_table_laws : TableLaws str ClusterNode (gmap str ClusterNode) := map_table_laws.
Close Scope Z_scope.
