(* ===== verification/Migrations.v ===== *)
(** The schema of the database: what the models of [libs/db/models/] declare, and
    what the migration [libs/db/migrations/versions/19a673b79a25_initial_schema.py]
    creates and takes away again. *)

From stdpp Require Import prelude gmap list strings.
From Stdlib Require Import ZArith Lia.
From S2P Require Import Prelude PySeq PyBytes PyStr Json PyUuid Database Models.

Open Scope Z_scope.
#[local] Open Scope string_scope.

(** ** Schemas *)

Inductive sql_type : Type :=
  | SUuid | SString (length : nat) | SDateTime | SBigInteger | SInteger | SBoolean | SJsonb.

Record column : Type := Column {
  col_name : string;
  col_type : sql_type;
  col_nullable : bool;
  col_server_default : option string;
  col_autoincrement : bool;
}.

Inductive table_constraint : Type :=
  | PrimaryKeyConstraint (columns : list string)
  | UniqueConstraint (columns : list string)
  | CheckConstraint (sqltext name : string)
  (** columns, the table and its columns they refer to, and what a deletion does *)
  | ForeignKeyConstraint (columns : list string) (table : string) (refcolumns : list string) (ondelete : string).

Record table_def : Type := TableDef { td_columns : list column; td_constraints : list table_constraint }.
Record index_def : Type := IndexDef { ix_table : string; ix_columns : list string; ix_unique : bool }.

#[export] Instance sql_type_eq_dec : EqDecision sql_type. Proof. solve_decision. Defined.
#[export] Instance table_constraint_eq_dec : EqDecision table_constraint. Proof. solve_decision. Defined.

(** The relations of a database by name. *)
Record catalog : Type := Catalog { cat_tables : gmap string table_def; cat_indexes : gmap string index_def }.
Definition no_relations : catalog := Catalog ∅ ∅.

(** ** Statements *)

Inductive ddl : Type :=
  | CreateTable (name : string) (t : table_def)
  | CreateIndex (name : string) (ix : index_def)
  | DropIndex (name : string)
  | DropTable (name : string).

Definition names_of (t : table_def) : list string := map col_name (td_columns t).
Definition free_name (name : string) (c : catalog) : bool :=
  bool_decide (cat_tables c !! name = None ∧ cat_indexes c !! name = None).

(** The tables that constraints refer to. *)
Definition ref_of (k : table_constraint) : option string :=
  match k with ForeignKeyConstraint _ t _ _ => Some t | _ => None end.
Definition refs (t : table_def) : list string := omap ref_of (td_constraints t).
Definition refers_to (name : string) (t : table_def) : bool := bool_decide (name ∈ refs t).

(** What constraints need of the columns, and of the tables they refer to. *)
Definition constraint_ok (c : catalog) (t : table_def) (k : table_constraint) : bool :=
  match k with
  | PrimaryKeyConstraint cs | UniqueConstraint cs => forallb (λ x, bool_decide (x ∈ names_of t)) cs
  | CheckConstraint _ _ => true
  | ForeignKeyConstraint cs target refcs _ =>
      forallb (λ x, bool_decide (x ∈ names_of t)) cs
      && match cat_tables c !! target with
         | Some t' => bool_decide (PrimaryKeyConstraint refcs ∈ td_constraints t' ∨ UniqueConstraint refcs ∈ td_constraints t')
         | None => false
         end
  end.

(** The documented effect of a statement; [None] when the server refuses it. *)
Definition ddl_step (op : ddl) (c : catalog) : option catalog :=
  match op with
  | CreateTable name t =>
      if free_name name c && bool_decide (NoDup (names_of t)) && forallb (constraint_ok c t) (td_constraints t)
      then Some (Catalog (<[name := t]> (cat_tables c)) (cat_indexes c)) else None
  | CreateIndex name ix =>
      match cat_tables c !! ix_table ix with
      | Some t => if free_name name c && forallb (λ x, bool_decide (x ∈ names_of t)) (ix_columns ix)
                  then Some (Catalog (cat_tables c) (<[name := ix]> (cat_indexes c))) else None
      | None => None
      end
  | DropIndex name =>
      match cat_indexes c !! name with
      | Some _ => Some (Catalog (cat_tables c) (delete name (cat_indexes c)))
      | None => None
      end
  | DropTable name =>
      match cat_tables c !! name with
      | Some _ =>
          if bool_decide (map_Forall (λ other t, other = name ∨ refers_to name t = false) (cat_tables c))
          then Some (Catalog (delete name (cat_tables c)) (filter (λ kv, ix_table kv.2 ≠ name) (cat_indexes c))) else None
      | None => None
      end
  end.
Fixpoint ddl_steps (ops : list ddl) (c : catalog) : option catalog :=
  match ops with [] => Some c | op :: ops' => c' ← ddl_step op c; ddl_steps ops' c' end.

(** A server that runs the statements. *)
Class DdlServer (D : Type) : Type := { ddl_run : ddl → io D unit }.
Class DdlLaws (D : Type) `{DdlServer D} : Type := {
  catalog_of : D → catalog;
  ddl_law op d c : ddl_step op (catalog_of d) = Some c → ∃ d', ddl_run op d = (Ok tt, d') ∧ catalog_of d' = c;
  ddl_refused op d : ddl_step op (catalog_of d) = None → ∃ e, ddl_run op d = (Err e, d);
}.

Fixpoint run_all {D} `{DdlServer D} (ops : list ddl) : io D unit :=
  match ops with [] => mret tt | op :: ops' => _ ← ddl_run op; run_all ops' end.

(** ** The migration *)

Definition required (name : string) (ty : sql_type) : column := Column name ty false None false.
Definition optional (name : string) (ty : sql_type) : column := Column name ty true None false.
Definition defaulted (name : string) (ty : sql_type) (server_default : string) : column := Column name ty false (Some server_default) false.
Definition numbered (name : string) : column := Column name SBigInteger false None true.

Definition upgrade_ops : list ddl := [
  CreateTable "ad_groups_cache" (TableDef [
    required "guid" SUuid; required "dn" (SString 512); required "cn" (SString 255); optional "description" (SString 512);
    defaulted "cached_at" SDateTime "now()"] [PrimaryKeyConstraint ["guid"]]);
  CreateTable "admin_audit_log" (TableDef [
    numbered "id"; defaulted "ts" SDateTime "now()"; optional "instance_id" (SString 64); required "admin_user" (SString 128);
    required "action" (SString 64); optional "target_type" (SString 64); optional "target_id" (SString 128);
    optional "old_value" SJsonb; optional "new_value" SJsonb; optional "client_ip" (SString 45)] [PrimaryKeyConstraint ["id"]]);
  CreateTable "admin_users" (TableDef [
    required "id" SUuid; required "username" (SString 128); required "password_hash" (SString 255);
    defaulted "is_active" SBoolean "true"; defaulted "must_change_password" SBoolean "true";
    defaulted "allowed_ips" SJsonb "'[]'::jsonb"; defaulted "created_at" SDateTime "now()"; defaulted "updated_at" SDateTime "now()";
    optional "last_login_at" SDateTime] [PrimaryKeyConstraint ["id"]; UniqueConstraint ["username"]]);
  CreateTable "cluster_nodes" (TableDef [
    required "instance_id" (SString 64); required "hostname" (SString 255); required "ip" (SString 45);
    defaulted "services" SJsonb "'{}'::jsonb"; defaulted "resources" SJsonb "'{}'::jsonb";
    defaulted "last_heartbeat" SDateTime "now()"; defaulted "registered_at" SDateTime "now()"] [PrimaryKeyConstraint ["instance_id"]]);
  CreateTable "portal_settings" (TableDef [
    required "key" (SString 128); defaulted "value" SJsonb "'{}'::jsonb"; defaulted "updated_at" SDateTime "now()"]
    [PrimaryKeyConstraint ["key"]]);
  CreateTable "rdp_servers" (TableDef [
    required "id" SUuid; required "tech_name" (SString 64); required "display_name" (SString 255); required "address" (SString 255);
    defaulted "port" SInteger "3389"; defaulted "is_enabled" SBoolean "true"; defaulted "sort_order" SInteger "0";
    defaulted "created_at" SDateTime "now()"; defaulted "updated_at" SDateTime "now()"]
    [PrimaryKeyConstraint ["id"]; UniqueConstraint ["tech_name"]]);
  CreateTable "rdp_templates" (TableDef [
    required "id" SUuid; required "name" (SString 128); defaulted "is_default" SBoolean "false"; defaulted "priority" SInteger "0";
    defaulted "params" SJsonb "'{}'::jsonb"; defaulted "created_at" SDateTime "now()"; defaulted "updated_at" SDateTime "now()"]
    [CheckConstraint "priority >= 0" "ck_rdp_templates_priority_nonneg"; PrimaryKeyConstraint ["id"]; UniqueConstraint ["name"]]);
  CreateTable "connection_history" (TableDef [
    required "id" SUuid; required "instance_id" (SString 64); required "username" (SString 128); optional "server_id" SUuid;
    optional "server_display" (SString 255); required "server_address" (SString 255); required "server_port" SInteger;
    required "client_ip" (SString 45); defaulted "started_at" SDateTime "now()"; optional "ended_at" SDateTime;
    defaulted "bytes_to_client" SBigInteger "0"; defaulted "bytes_to_backend" SBigInteger "0";
    optional "disconnect_reason" (SString 128); defaulted "status" (SString 32) "'active'"]
    [ForeignKeyConstraint ["server_id"] "rdp_servers" ["id"] "SET NULL"; PrimaryKeyConstraint ["id"]]);
  CreateIndex "idx_conn_history_started" (IndexDef "connection_history" ["started_at"] false);
  CreateIndex "idx_conn_history_user" (IndexDef "connection_history" ["username"] false);
  CreateTable "server_group_bindings" (TableDef [required "server_id" SUuid; required "ad_group_guid" SUuid]
    [ForeignKeyConstraint ["server_id"] "rdp_servers" ["id"] "CASCADE"; PrimaryKeyConstraint ["server_id"; "ad_group_guid"]]);
  CreateTable "template_group_bindings" (TableDef [required "template_id" SUuid; required "ad_group_guid" SUuid]
    [ForeignKeyConstraint ["template_id"] "rdp_templates" ["id"] "CASCADE"; PrimaryKeyConstraint ["template_id"; "ad_group_guid"]]);
  CreateTable "connection_events" (TableDef [
    numbered "id"; required "connection_id" SUuid; defaulted "ts" SDateTime "now()"; required "event_type" (SString 64);
    defaulted "detail" SJsonb "'{}'::jsonb"]
    [ForeignKeyConstraint ["connection_id"] "connection_history" ["id"] "CASCADE"; PrimaryKeyConstraint ["id"]]);
  CreateIndex "idx_conn_events_conn_id" (IndexDef "connection_events" ["connection_id"] false)].
Definition upgrade {D} `{DdlServer D} : io D unit := run_all upgrade_ops.

Definition downgrade_ops : list ddl := [
  DropIndex "idx_conn_events_conn_id"; DropTable "connection_events"; DropTable "template_group_bindings";
  DropTable "server_group_bindings"; DropIndex "idx_conn_history_user"; DropIndex "idx_conn_history_started";
  DropTable "connection_history"; DropTable "rdp_templates"; DropTable "rdp_servers"; DropTable "portal_settings";
  DropTable "cluster_nodes"; DropTable "admin_users"; DropTable "admin_audit_log"; DropTable "ad_groups_cache"].
Definition downgrade {D} `{DdlServer D} : io D unit := run_all downgrade_ops.

(** ** The models *)

(** [mapped_column(...)] and what its keyword arguments say. *)
Record mapped_column : Type := MappedColumn {
  mc_column : column;
  mc_primary_key : bool;
  mc_unique : bool;
  mc_foreign_key : option (string * string * string);
}.
Definition mapped (c : column) : mapped_column := MappedColumn c false false None.
Definition primary (m : mapped_column) : mapped_column := MappedColumn (mc_column m) true (mc_unique m) (mc_foreign_key m).
Definition unique (m : mapped_column) : mapped_column := MappedColumn (mc_column m) (mc_primary_key m) true (mc_foreign_key m).
(** [sa.ForeignKey("table.column", ondelete=...)] *)
Definition references (table refcolumn ondelete : string) (m : mapped_column) : mapped_column :=
  MappedColumn (mc_column m) (mc_primary_key m) (mc_unique m) (Some (table, refcolumn, ondelete)).

(** A class with its [__tablename__], its columns and its [__table_args__]. *)
Record model : Type := Model {
  tablename : string;
  mapped_columns : list mapped_column;
  checks : list (string * string);
  indexes : list (string * list string);
}.

Definition admin_user_model : model := Model "admin_users" [
  primary (mapped (required "id" SUuid)); unique (mapped (required "username" (SString 128)));
  mapped (required "password_hash" (SString 255)); mapped (defaulted "is_active" SBoolean "true");
  mapped (defaulted "must_change_password" SBoolean "true"); mapped (defaulted "allowed_ips" SJsonb "'[]'::jsonb");
  mapped (defaulted "created_at" SDateTime "now()"); mapped (defaulted "updated_at" SDateTime "now()");
  mapped (optional "last_login_at" SDateTime)] [] [].
Definition admin_audit_log_model : model := Model "admin_audit_log" [
  primary (mapped (numbered "id")); mapped (defaulted "ts" SDateTime "now()"); mapped (optional "instance_id" (SString 64));
  mapped (required "admin_user" (SString 128)); mapped (required "action" (SString 64)); mapped (optional "target_type" (SString 64));
  mapped (optional "target_id" (SString 128)); mapped (optional "old_value" SJsonb); mapped (optional "new_value" SJsonb);
  mapped (optional "client_ip" (SString 45))] [] [].
Definition connection_history_model : model := Model "connection_history" [
  primary (mapped (required "id" SUuid)); mapped (required "instance_id" (SString 64)); mapped (required "username" (SString 128));
  references "rdp_servers" "id" "SET NULL" (mapped (optional "server_id" SUuid)); mapped (optional "server_display" (SString 255));
  mapped (required "server_address" (SString 255)); mapped (required "server_port" SInteger); mapped (required "client_ip" (SString 45));
  mapped (defaulted "started_at" SDateTime "now()"); mapped (optional "ended_at" SDateTime);
  mapped (defaulted "bytes_to_client" SBigInteger "0"); mapped (defaulted "bytes_to_backend" SBigInteger "0");
  mapped (optional "disconnect_reason" (SString 128)); mapped (defaulted "status" (SString 32) "'active'")] []
  [("idx_conn_history_user", ["username"]); ("idx_conn_history_started", ["started_at"])].
Definition connection_event_model : model := Model "connection_events" [
  primary (mapped (numbered "id")); references "connection_history" "id" "CASCADE" (mapped (required "connection_id" SUuid));
  mapped (defaulted "ts" SDateTime "now()"); mapped (required "event_type" (SString 64));
  mapped (defaulted "detail" SJsonb "'{}'::jsonb")] [] [("idx_conn_events_conn_id", ["connection_id"])].
Definition cluster_node_model : model := Model "cluster_nodes" [
  primary (mapped (required "instance_id" (SString 64))); mapped (required "hostname" (SString 255)); mapped (required "ip" (SString 45));
  mapped (defaulted "services" SJsonb "'{}'::jsonb"); mapped (defaulted "resources" SJsonb "'{}'::jsonb");
  mapped (defaulted "last_heartbeat" SDateTime "now()"); mapped (defaulted "registered_at" SDateTime "now()")] [] [].
Definition rdp_server_model : model := Model "rdp_servers" [
  primary (mapped (required "id" SUuid)); unique (mapped (required "tech_name" (SString 64)));
  mapped (required "display_name" (SString 255)); mapped (required "address" (SString 255)); mapped (defaulted "port" SInteger "3389");
  mapped (defaulted "is_enabled" SBoolean "true"); mapped (defaulted "sort_order" SInteger "0");
  mapped (defaulted "created_at" SDateTime "now()"); mapped (defaulted "updated_at" SDateTime "now()")] [] [].
Definition server_group_binding_model : model := Model "server_group_bindings" [
  primary (references "rdp_servers" "id" "CASCADE" (mapped (required "server_id" SUuid)));
  primary (mapped (required "ad_group_guid" SUuid))] [] [].
Definition portal_setting_model : model := Model "portal_settings" [
  primary (mapped (required "key" (SString 128))); mapped (defaulted "value" SJsonb "'{}'::jsonb");
  mapped (defaulted "updated_at" SDateTime "now()")] [] [].
Definition ad_group_cache_model : model := Model "ad_groups_cache" [
  primary (mapped (required "guid" SUuid)); mapped (required "dn" (SString 512)); mapped (required "cn" (SString 255));
  mapped (optional "description" (SString 512)); mapped (defaulted "cached_at" SDateTime "now()")] [] [].
Definition rdp_template_model : model := Model "rdp_templates" [
  primary (mapped (required "id" SUuid)); unique (mapped (required "name" (SString 128)));
  mapped (defaulted "is_default" SBoolean "false"); mapped (defaulted "priority" SInteger "0");
  mapped (defaulted "params" SJsonb "'{}'::jsonb"); mapped (defaulted "created_at" SDateTime "now()");
  mapped (defaulted "updated_at" SDateTime "now()")] [("priority >= 0", "ck_rdp_templates_priority_nonneg")] [].
Definition template_group_binding_model : model := Model "template_group_bindings" [
  primary (references "rdp_templates" "id" "CASCADE" (mapped (required "template_id" SUuid)));
  primary (mapped (required "ad_group_guid" SUuid))] [] [].

(** [Base.metadata] *)
Definition models : list model := [
  admin_user_model; admin_audit_log_model; ad_group_cache_model; cluster_node_model; connection_event_model;
  connection_history_model; portal_setting_model; rdp_server_model; rdp_template_model; server_group_binding_model;
  template_group_binding_model].

(** The table of a class: checks, foreign keys, the primary key, uniqueness. *)
Definition table_of (m : model) : table_def := TableDef (map mc_column (mapped_columns m))
  (map (λ c, CheckConstraint c.1 c.2) (checks m)
   ++ omap (λ c, match mc_foreign_key c with
                 | Some (t, rc, od) => Some (ForeignKeyConstraint [col_name (mc_column c)] t [rc] od)
                 | None => None
                 end) (mapped_columns m)
   ++ [PrimaryKeyConstraint (map (λ c, col_name (mc_column c)) (List.filter mc_primary_key (mapped_columns m)))]
   ++ map (λ c, UniqueConstraint [col_name (mc_column c)]) (List.filter mc_unique (mapped_columns m))).
Definition indexes_of (m : model) : list (string * index_def) :=
  map (λ ix, (ix.1, IndexDef (tablename m) ix.2 false)) (indexes m).
Definition metadata : catalog :=
  Catalog (list_to_map (map (λ m, (tablename m, table_of m)) models)) (list_to_map (concat (map indexes_of models))).

(** ** Rows and columns *)

(** What a row puts into a column. *)
Inductive cell : Type :=
  | CText (s : str) | COptText (o : option str) | CInt (z : Z) | COther | COptOther.
Definition cell_fits (ty : sql_type) (v : cell) : bool :=
  match ty, v with
  | SString n, CText s => text_fits n s
  | SString n, COptText o => opt_fits n o
  | SInteger, CInt z => int32_fits z
  | SBigInteger, CInt z => int64_fits z
  | SUuid, COther | SDateTime, COther | SBoolean, COther | SJsonb, COther => true
  | SUuid, COptOther | SDateTime, COptOther | SJsonb, COptOther => true
  | _, _ => false
  end.
Definition null_in (v : cell) : bool := match v with COptText _ | COptOther => true | _ => false end.

(** A row fits a table: every column the row has is a column of the table, may be
    null where the row has nothing, and takes the value. *)
Definition column_in (c : catalog) (table name : string) : option column :=
  t ← cat_tables c !! table; List.find (λ col, bool_decide (col_name col = name)) (td_columns t).
Definition row_in (c : catalog) (table : string) (cells : list (string * cell)) : bool :=
  forallb (λ kv, match column_in c table kv.1 with
                 | Some col => implb (null_in kv.2) (col_nullable col) && cell_fits (col_type col) kv.2
                 | None => false
                 end) cells.

Definition history_cells (r : ConnectionHistory) : list (string * cell) := [
  ("id", COther); ("instance_id", CText (h_instance_id r)); ("username", CText (h_username r)); ("server_id", COptOther);
  ("server_display", COptText (h_server_display r)); ("server_address", CText (h_server_address r));
  ("server_port", CInt (h_server_port r)); ("client_ip", CText (h_client_ip r)); ("started_at", COther); ("ended_at", COptOther);
  ("bytes_to_client", CInt (h_bytes_to_client r)); ("bytes_to_backend", CInt (h_bytes_to_backend r));
  ("disconnect_reason", COptText (h_disconnect_reason r)); ("status", CText (h_status r))].
Definition event_cells (r : ConnectionEvent) : list (string * cell) := [
  ("connection_id", COther); ("ts", COther); ("event_type", CText (ev_event_type r)); ("detail", COther)].
Definition server_cells (r : RdpServer) : list (string * cell) := [
  ("id", COther); ("tech_name", CText (s_tech_name r)); ("display_name", CText (s_display_name r)); ("address", CText (s_address r));
  ("port", CInt (s_port r)); ("is_enabled", COther); ("sort_order", CInt (s_sort_order r))].
Definition template_cells (r : RdpTemplate) : list (string * cell) := [
  ("id", COther); ("name", CText (t_name r)); ("is_default", COther); ("priority", CInt (t_priority r)); ("params", COther)].
Definition admin_user_cells (r : AdminUser) : list (string * cell) := [
  ("id", COther); ("username", CText (a_username r)); ("password_hash", CText (a_password_hash r)); ("is_active", COther);
  ("must_change_password", COther); ("allowed_ips", COther); ("last_login_at", COptOther)].
Definition setting_cells (r : PortalSetting) : list (string * cell) := [("key", CText (ps_key r)); ("value", COther)].
Definition group_cells (r : AdGroupCache) : list (string * cell) := [
  ("guid", COther); ("dn", CText (g_dn r)); ("cn", CText (g_cn r)); ("description", COptText (g_description r)); ("cached_at", COther)].
Definition node_cells (r : ClusterNode) : list (string * cell) := [
  ("instance_id", CText (n_instance_id r)); ("hostname", CText (n_hostname r)); ("ip", CText (n_ip r)); ("services", COther);
  ("resources", COther); ("last_heartbeat", COther); ("registered_at", COther)].
Definition audit_cells (r : AdminAuditLog) : list (string * cell) := [
  ("instance_id", COptText (au_instance_id r)); ("admin_user", CText (au_admin_user r)); ("action", CText (au_action r));
  ("target_type", COptText (au_target_type r)); ("target_id", COptText (au_target_id r)); ("new_value", COptOther);
  ("client_ip", COptText (au_client_ip r))].

(** ** Lemmas *)

(** The catalog of two groups of relations. *)
Definition cat_union (c a : catalog) : catalog := Catalog (cat_tables c ∪ cat_tables a) (cat_indexes c ∪ cat_indexes a).
Definition cat_apart (c a : catalog) : Prop := cat_tables c ##ₘ cat_tables a ∧ cat_indexes c ##ₘ cat_indexes a.

(** What a catalog's foreign keys and indexes name is in it. *)
Definition self_contained (c : catalog) : Prop :=
  map_Forall (λ _ t, ∀ name, name ∈ refs t → is_Some (cat_tables c !! name)) (cat_tables c)
  ∧ map_Forall (λ _ ix, is_Some (cat_tables c !! ix_table ix)) (cat_indexes c).

(** The relation a statement makes or takes away. *)
Definition subject (op : ddl) : string :=
  match op with CreateTable n _ | CreateIndex n _ | DropIndex n | DropTable n => n end.

Lemma free_nameP name c : free_name name c = true ↔ cat_tables c !! name = None ∧ cat_indexes c !! name = None.
Proof. unfold free_name. apply bool_decide_eq_true. Qed.

Lemma free_union name c a : free_name name c = true → free_name name a = true → free_name name (cat_union c a) = true.
Proof. rewrite !free_nameP. intros [? ?] [? ?]. split; by apply lookup_union_None. Qed.

(** A constraint that holds goes on holding among more relations. *)
Lemma constraint_ok_union c a t k : cat_apart c a → constraint_ok a t k = true → constraint_ok (cat_union c a) t k = true.
Proof.
  intros [Ht _]. destruct k as [| | |cs target refcs od]; try done. cbn [constraint_ok]. rewrite !andb_true_iff.
  intros [Hc Hk]. split; [exact Hc|]. cbn [cat_union cat_tables].
  destruct (cat_tables a !! target) as [t'|] eqn:E; [|discriminate]. by rewrite (lookup_union_Some_r _ _ _ t').
Qed.

(** A statement that runs on some relations runs in the same way among others. *)
Lemma ddl_frame op base a a' :
  self_contained base → free_name (subject op) base = true → cat_apart base a → ddl_step op a = Some a' →
  ddl_step op (cat_union base a) = Some (cat_union base a') ∧ cat_apart base a'.
Proof.
  intros [Hrefs Hix] Hfree Hap. pose proof Hap as [Ht Hi]. destruct op as [n t|n ix|n|n]; cbn [subject ddl_step] in *.
  - destruct (free_name n a && _ && _) eqn:E; [|discriminate]. intros [= <-].
    rewrite !andb_true_iff in E. destruct E as [[Hn Hnd] Hk]. rewrite free_union, Hnd by done. cbn [andb].
    rewrite (proj2 (forallb_forall _ _)).
    2: { intros k Hin. apply constraint_ok_union; [done|]. by apply (proj1 (forallb_forall _ _) Hk). }
    apply free_nameP in Hfree as [Hf _]. split.
    + unfold cat_union. cbn [cat_tables cat_indexes]. by rewrite insert_union_r.
    + split; [by apply map_disjoint_insert_r | done].
  - destruct (cat_tables a !! ix_table ix) as [t|] eqn:Et; [|discriminate].
    destruct (free_name n a && _) eqn:E; [|discriminate]. intros [= <-]. rewrite andb_true_iff in E. destruct E as [Hn Hk].
    cbn [cat_union cat_tables]. rewrite (lookup_union_Some_r _ _ _ t) by done. fold (cat_union base a).
    rewrite free_union, Hk by done. apply free_nameP in Hfree as [_ Hf]. split.
    + unfold cat_union. cbn [cat_tables cat_indexes andb]. by rewrite insert_union_r.
    + split; [done | by apply map_disjoint_insert_r].
  - destruct (cat_indexes a !! n) as [ix|] eqn:E; [|discriminate]. intros [= <-].
    apply free_nameP in Hfree as [_ Hf]. cbn [cat_union cat_indexes]. rewrite (lookup_union_Some_r _ _ _ ix) by done. split.
    + unfold cat_union. cbn [cat_tables cat_indexes]. rewrite delete_union. by rewrite (delete_id base.(cat_indexes)).
    + split; [done | by apply map_disjoint_delete_r].
  - destruct (cat_tables a !! n) as [t|] eqn:E; [|discriminate]. case_bool_decide as Hall; [|discriminate]. intros [= <-].
    apply free_nameP in Hfree as [Hf _]. cbn [cat_union cat_tables]. rewrite (lookup_union_Some_r _ _ _ t) by done.
    rewrite bool_decide_eq_true_2.
    2: { intros other t' Ho%lookup_union_Some; [|done]. destruct Ho as [Ho|Ho]; [|by apply (Hall other)].
         right. unfold refers_to. apply bool_decide_eq_false. intros Hin. destruct (Hrefs other t' Ho n Hin) as [x Hx]. congruence. }
    split.
    + unfold cat_union. cbn [cat_tables cat_indexes]. rewrite delete_union, (delete_id (cat_tables base)) by done.
      f_equal. f_equal. rewrite map_filter_union by done. f_equal. apply map_filter_id. intros i ix Hx. cbn [snd]. intros Hn.
      destruct (Hix i ix Hx) as [x Hx']. rewrite Hn in Hx'. congruence.
    + split; [by apply map_disjoint_delete_r|]. cbn [cat_indexes]. apply map_disjoint_spec. intros i x y Hx Hy.
      apply map_lookup_filter_Some in Hy as [Hy _]. by apply (proj1 (map_disjoint_spec _ _) Hi i x y).
Qed.

Lemma ddl_steps_frame ops base a a' :
  self_contained base → Forall (λ op, free_name (subject op) base = true) ops → cat_apart base a →
  ddl_steps ops a = Some a' → ddl_steps ops (cat_union base a) = Some (cat_union base a') ∧ cat_apart base a'.
Proof.
  intros Hs Hf. revert a. induction Hf as [|op ops Hop _ IH]; intros a Hap; [by intros [= <-]|].
  cbn [ddl_steps]. destruct (ddl_step op a) as [a1|] eqn:E; [|discriminate].
  destruct (ddl_frame op base a a1 Hs Hop Hap E) as [E1 Hap1]. rewrite E1. by apply IH.
Qed.

Lemma run_all_steps {D} `{DdlLaws D} ops (d : D) c :
  ddl_steps ops (catalog_of d) = Some c → ∃ d', run_all ops d = (Ok tt, d') ∧ catalog_of d' = c.
Proof.
  revert d. induction ops as [|op ops IH]; intros d; cbn [ddl_steps run_all]; [intros [= <-]; by exists d|].
  destruct (ddl_step op (catalog_of d)) as [c1|] eqn:E; [|discriminate]. destruct (ddl_law op d c1 E) as (d1 & E1 & <-).
  rewrite io_bind_run, E1. apply IH.
Qed.

Lemma upgrade_from_nothing : ddl_steps upgrade_ops no_relations = Some metadata.
Proof. vm_compute. reflexivity. Qed.
Lemma downgrade_to_nothing : ddl_steps downgrade_ops metadata = Some no_relations.
Proof. vm_compute. reflexivity. Qed.

Lemma cat_union_nothing c : cat_union c no_relations = c.
Proof. destruct c as [t i]. unfold cat_union, no_relations. cbn [cat_tables cat_indexes]. by rewrite !map_union_empty. Qed.

(** Looks the columns of a row up. *)
Ltac columns :=
  unfold row_in, history_cells, event_cells, server_cells, template_cells, admin_user_cells, setting_cells, group_cells, node_cells, audit_cells;
  cbn [forallb fst snd];
  repeat match goal with
  | |- context [column_in metadata ?t ?n] =>
      let v := eval vm_compute in (column_in metadata t n) in
      replace (column_in metadata t n) with v by (vm_compute; reflexivity)
  end;
  cbn [col_nullable null_in implb cell_fits col_type];
  rewrite ?andb_true_l, ?andb_true_r, ?andb_assoc.

(** ** Properties *)

(** C38: in a database that has none of its names yet, the migration creates
    exactly the tables, constraints and indexes that the models declare and leaves
    all others alone; its downgrade takes exactly them away again. *)
Theorem migration_reversible {D} `{DdlLaws D} (d : D) :
  self_contained (catalog_of d) →
  Forall (λ op, free_name (subject op) (catalog_of d) = true) (upgrade_ops ++ downgrade_ops) →
  ∃ d1 d2, upgrade d = (Ok tt, d1) ∧ catalog_of d1 = cat_union (catalog_of d) metadata
    ∧ downgrade d1 = (Ok tt, d2) ∧ catalog_of d2 = catalog_of d.
Proof.
  intros Hs [Hu Hd]%Forall_app. set (base := catalog_of d) in *.
  assert (cat_apart base no_relations) as Hap by (split; apply map_disjoint_empty_r).
  destruct (ddl_steps_frame upgrade_ops base no_relations metadata Hs Hu Hap upgrade_from_nothing) as [E1 Hap1].
  destruct (ddl_steps_frame downgrade_ops base metadata no_relations Hs Hd Hap1 downgrade_to_nothing) as [E2 _].
  rewrite cat_union_nothing in E1, E2. destruct (run_all_steps upgrade_ops d _ E1) as (d1 & R1 & C1). rewrite <- C1 in E2.
  destruct (run_all_steps downgrade_ops d1 _ E2) as (d2 & R2 & C2). by exists d1, d2.
Qed.

(** The rows that the operations write are rows of the migrated tables: a row
    is taken exactly when every column it has is one of its table, may be null
    where the row leaves it out, and holds the value in its width. *)
Theorem rows_fit_schema :
  (∀ r : ConnectionHistory, row_fits r = row_in metadata "connection_history" (history_cells r))
  ∧ (∀ r : ConnectionEvent, event_fits r = row_in metadata "connection_events" (event_cells r))
  ∧ (∀ r : RdpServer, row_fits r = row_in metadata "rdp_servers" (server_cells r))
  ∧ (∀ r : RdpTemplate, row_fits r = row_in metadata "rdp_templates" (template_cells r))
  ∧ (∀ r : AdminUser, row_fits r = row_in metadata "admin_users" (admin_user_cells r))
  ∧ (∀ r : PortalSetting, row_fits r = row_in metadata "portal_settings" (setting_cells r))
  ∧ (∀ r : AdGroupCache, row_fits r = row_in metadata "ad_groups_cache" (group_cells r))
  ∧ (∀ r : ClusterNode, row_fits r = row_in metadata "cluster_nodes" (node_cells r))
  ∧ (∀ r : AdminAuditLog, audit_fits r = row_in metadata "admin_audit_log" (audit_cells r)).
Proof.
  repeat split; intros r; columns; reflexivity.
Qed.

(** ** Witnesses *)

#[local] Instance catalog_server : DdlServer catalog := {|
  ddl_run op c := match ddl_step op c with Some c' => (Ok tt, c') | None => (Err OtherError, c) end |}.
#[local] Instance catalog_laws : DdlLaws catalog.
Proof.
  refine {| catalog_of c := c |}.
  - intros op d c E. exists c. cbn. by rewrite E.
  - intros op d E. exists OtherError. cbn. by rewrite E.
Defined.

(** The table in which the migration tool keeps the revision. *)
Definition versioned : catalog := Catalog {[ "alembic_version" :=
  TableDef [required "version_num" (SString 32)] [PrimaryKeyConstraint ["version_num"]] ]} ∅.

Lemma migration_reversible_witness :
  ∃ d1 d2, upgrade versioned = (Ok tt, d1) ∧ catalog_of d1 = cat_union versioned metadata
    ∧ downgrade d1 = (Ok tt, d2) ∧ catalog_of d2 = versioned.
Proof.
  refine (migration_reversible versioned _ _).
  - split; [|apply map_Forall_empty]. apply map_Forall_singleton. intros name Hn. vm_compute in Hn. by apply not_elem_of_nil in Hn.
  - vm_compute. repeat constructor.
Defined.
#[local] Close Scope string_scope.
Close Scope Z_scope.
