(* ===== verification/Tracker.v ===== *)
(** The connection tracker, [libs/redis_store/active_tracker.py]: the history of
    connections in PostgreSQL and the set of active ones in Redis. The tracker's
    state is a Redis connection, the three tables it reaches, and the faults to
    come: a script says which exchanges with Redis or PostgreSQL fail, before or
    after the server did what it was asked. A foreign key is checked at the end of
    the statement that needs it. *)

From stdpp Require Import prelude gmap list strings.
From Stdlib Require Import ZArith Lia.
From Stdlib Require Strings.String.
From S2P Require Import Prelude PySeq PyBytes PyStr Json PyUuid Redis Keys Database Models Sessions.

Open Scope Z_scope.

Record TrackedConnection : Type := {
  tc_connection_id : str;
  tc_username : str;
  tc_server_address : str;
  tc_server_port : Z;
}.

(** The tracker is built with or without a database and Redis. *)
Record ConnectionTracker : Type := {
  has_db : bool;
  has_redis : bool;
  tk_instance_id : str;
}.

Record tracking_db (DS DH DE : Type) : Type := TrackingDb {
  td_servers : DS; td_history : DH; td_events : DE }.
Arguments TrackingDb {DS DH DE}. Arguments td_servers {DS DH DE}.
Arguments td_history {DS DH DE}. Arguments td_events {DS DH DE}.

(** How an exchange with a server fails: nothing was done, or what was asked is
    done and the answer is lost. Either way the caller gets the exception. *)
Inductive fault : Type := Refused (e : exn) | Unanswered (e : exn).

(** [tr_faults]: the exchanges to come, one entry each ([None]: it succeeds);
    past the end of the list nothing fails. *)
Record tracking (R DS DH DE : Type) : Type := Tracking {
  tr_redis : world R; tr_db : tracking_db DS DH DE; tr_faults : list (option fault) }.
Arguments Tracking {R DS DH DE}. Arguments tr_redis {R DS DH DE}. Arguments tr_db {R DS DH DE}.
Arguments tr_faults {R DS DH DE}.

Definition ended (now : Z) (r : ConnectionHistory) (status : str) (reason : option str)
    (bytes_to_client bytes_to_backend : Z) : ConnectionHistory := {|
  h_id := h_id r; h_instance_id := h_instance_id r; h_username := h_username r;
  h_server_id := h_server_id r; h_server_display := h_server_display r;
  h_server_address := h_server_address r; h_server_port := h_server_port r;
  h_client_ip := h_client_ip r; h_started_at := h_started_at r; h_ended_at := Some now;
  h_bytes_to_client := bytes_to_client; h_bytes_to_backend := bytes_to_backend;
  h_disconnect_reason := reason; h_status := status |}.

(** [uuid.UUID(str(server_id))], or nothing. *)
Definition parse_server_id (server_id : option str) : option uuid :=
  match server_id with
  | Some (c :: s) => match uuid_of_str (c :: s) with Ok i => Some i | Err _ => None end
  | _ => None
  end.

(** The patterns flushed on startup. *)
Definition flush_prefixes (instance_id : str) : list str := [
  ACTIVE_SESSION instance_id [];
  u "rdp:token:"; u "rdp:conn-token:"; u "rdp:kill:"; u "rdp:web:"; u "rdp:admin:web:"].

(** What [start] stores in Redis. *)
Definition active_payload (tk : ConnectionTracker) (now : Z) (username : str) (server_display : option str)
    (server_address : str) (server_port : Z) (client_ip : str) : dict := [
  (u "username", JStr username);
  (u "server_display", json_str_opt server_display);
  (u "server_address", JStr server_address);
  (u "server_port", JInt server_port);
  (u "client_ip", JStr client_ip);
  (u "started_at", JStr (iso_utc now));
  (u "instance_id", JStr (tk_instance_id tk))].

(** The row [start] inserts. *)
Definition active_row (tk : ConnectionTracker) (now : Z) (id : uuid) (username : str)
    (server_id : option uuid) (server_display : option str) (server_address : str) (server_port : Z)
    (client_ip : str) : ConnectionHistory := {|
  h_id := id; h_instance_id := tk_instance_id tk; h_username := username;
  h_server_id := server_id; h_server_display := server_display;
  h_server_address := server_address; h_server_port := server_port;
  h_client_ip := client_ip; h_started_at := now; h_ended_at := None;
  h_bytes_to_client := 0; h_bytes_to_backend := 0; h_disconnect_reason := None;
  h_status := u "active" |}.

Section Tracker.
Context {R DS DH DE : Type} `{Redis R} `{Table uuid RdpServer DS}
  `{Table uuid ConnectionHistory DH} `{Log ConnectionEvent DE}.
Implicit Types (tk : ConnectionTracker) (now : Z).

(** One exchange, under the next fault of the script. *)
Definition exchange {A} (m : io (tracking R DS DH DE) A) : io (tracking R DS DH DE) A := λ s,
  match tr_faults s with
  | [] => m s
  | f :: faults =>
      let s := Tracking (tr_redis s) (tr_db s) faults in
      match f with
      | None => m s
      | Some (Refused e) => (Err e, s)
      | Some (Unanswered e) => (Err e, (m s).2)
      end
  end.

Definition on_redis {A} (m : io (world R) A) : io (tracking R DS DH DE) A :=
  exchange (io_zoom tr_redis (λ w s, Tracking w (tr_db s) (tr_faults s)) m).
(** [async with self._db_factory() as dbs: ...; await dbs.commit()] *)
Definition on_db {A} (m : io (tracking_db DS DH DE) A) : io (tracking R DS DH DE) A :=
  exchange (io_zoom tr_db (λ d s, Tracking (tr_redis s) d (tr_faults s)) (io_transaction m)).
Definition on_history {A} (m : io DH A) : io (tracking_db DS DH DE) A :=
  io_zoom td_history (λ h d, TrackingDb (td_servers d) h (td_events d)) m.
Definition on_events {A} (m : io DE A) : io (tracking_db DS DH DE) A :=
  io_zoom td_events (λ e d, TrackingDb (td_servers d) (td_history d) e) m.

(** [ForeignKey("rdp_servers.id")] *)
Definition insert_history (r : ConnectionHistory) : io (tracking_db DS DH DE) unit :=
  _ ← on_history (db_insert (K := uuid) r);
  d ← io_get;
  match h_server_id r with
  | Some sid => if db_get sid (td_servers d) is Some _ then mret tt else io_raise IntegrityError
  | None => mret tt
  end.

(** [ForeignKey("connection_history.id")] *)
Definition insert_event (r : ConnectionEvent) : io (tracking_db DS DH DE) unit :=
  _ ← on_events (log_append r);
  d ← io_get;
  if db_get (ev_connection_id r) (td_history d) is Some _ then mret tt else io_raise IntegrityError.

(** [new_id]: what [uuid.uuid4()] returns. *)
Definition start tk now (new_id : uuid) (username : str) (server_id server_display : option str)
    (server_address : str) (server_port : Z) (client_ip : str)
    : io (tracking R DS DH DE) TrackedConnection :=
  let cid := uuid_str new_id in
  let parsed_server_id := parse_server_id server_id in
  _ ← (if has_db tk then
         id ← io_lift (uuid_of_str cid);
         on_db (insert_history (active_row tk now id username parsed_server_id server_display
                                  server_address server_port client_ip))
       else mret tt);
  _ ← (if has_redis tk then
         let payload := active_payload tk now username server_display server_address server_port client_ip in
         on_redis (client_setex now (ACTIVE_SESSION (tk_instance_id tk) cid) (24 * 3600)
                     (json_dumps false (JObj payload)))
       else mret tt);
  mret {| tc_connection_id := cid; tc_username := username;
          tc_server_address := server_address; tc_server_port := server_port |}.

Definition event tk now (connection_id event_type : str) (detail : dict) : io (tracking R DS DH DE) unit :=
  if has_db tk then
    id ← io_lift (uuid_of_str connection_id);
    on_db (insert_event {| ev_connection_id := id; ev_ts := now; ev_event_type := event_type;
                           ev_detail := detail |})
  else mret tt.

Definition finish tk now (connection_id status : str) (disconnect_reason : option str)
    (bytes_to_client bytes_to_backend : Z) : io (tracking R DS DH DE) unit :=
  _ ← (if has_db tk then
         cid ← io_lift (uuid_of_str connection_id);
         on_db (
           rowcount ← on_history (db_update (K := uuid)
             (λ r, bool_decide (h_id r = cid) && negb (bool_decide (h_status r = u "killed")))
             (λ r, ended now r status disconnect_reason bytes_to_client bytes_to_backend));
           _ ← (if rowcount =? 0 then
                  _ ← on_history (db_update (K := uuid)
                    (λ r, bool_decide (h_id r = cid) && bool_decide (h_status r = u "killed"))
                    (λ r, ended now r (h_status r) (h_disconnect_reason r) bytes_to_client bytes_to_backend));
                  mret tt
                else mret tt);
           mret tt)
       else mret tt);
  if has_redis tk then
    on_redis (client_delete now [ACTIVE_SESSION (tk_instance_id tk) connection_id])
  else mret tt.

(** The loops of the flush run beside their counter [redis_deleted], which keeps
    its value when one of the commands raises. *)
Definition counting {A} (m : io (tracking R DS DH DE) A) : io (tracking R DS DH DE * Z) A :=
  io_zoom fst (λ s p, (s, p.2)) m.
Definition one_more : io (tracking R DS DH DE * Z) unit := io_modify (λ p, (p.1, p.2 + 1)).

(** [for key in scan_iter(match=pattern): delete(key); redis_deleted += 1] *)
Fixpoint flush_keys now (ks : list str) : io (tracking R DS DH DE * Z) unit :=
  match ks with
  | [] => mret tt
  | k :: ks' => _ ← counting (on_redis (client_delete now [k])); _ ← one_more; flush_keys now ks'
  end.

Fixpoint flush_patterns now (prefixes : list str) : io (tracking R DS DH DE * Z) unit :=
  match prefixes with
  | [] => mret tt
  | p :: ps =>
      ks ← counting (on_redis (client_scan now (p ++ u "*")));
      _ ← flush_keys now ks;
      flush_patterns now ps
  end.

(** [try: ... except Exception: logger.exception(...)], and the counter. *)
Definition flush_redis now (prefixes : list str) : io (tracking R DS DH DE) Z := λ s,
  match io_try (flush_patterns now prefixes) (λ _, mret tt) (s, 0) with
  | (Ok _, (s', redis_deleted)) => (Ok redis_deleted, s')
  | (Err e, (s', _)) => (Err e, s')
  end.

Definition reconcile_stale_active_on_startup tk now : io (tracking R DS DH DE) (Z * Z) :=
  db_updated ← (if has_db tk then
      on_db (on_history (db_update (K := uuid)
        (λ r, bool_decide (h_instance_id r = tk_instance_id tk) && bool_decide (h_status r = u "active")
              && bool_decide (h_ended_at r = None))
        (λ r, ended now r (u "error") (Some (u "relay-restart"))
                (h_bytes_to_client r) (h_bytes_to_backend r))))
    else mret 0);
  redis_deleted ← (if has_redis tk
    then flush_redis now (flush_prefixes (tk_instance_id tk)) else mret 0);
  mret (db_updated, redis_deleted).
End Tracker.

(** ** Lemmas *)

(** What [finish] makes of a row. *)
Definition finished (now : Z) (status : str) (reason : option str) (btc btb : Z) (r : ConnectionHistory) : ConnectionHistory :=
  if bool_decide (h_status r = u "killed")
  then ended now r (h_status r) (h_disconnect_reason r) btc btb
  else ended now r status reason btc btb.

Definition finish_fits (status : str) (reason : option str) (btc btb : Z) : bool :=
  text_fits 32 status && opt_fits 128 reason && int64_fits btc && int64_fits btb.

Lemma ended_fits now r status reason btc btb :
  history_fits r = true → finish_fits status reason btc btb = true →
  history_fits (ended now r status reason btc btb) = true.
Proof.
  unfold history_fits, finish_fits, ended. simpl. rewrite !andb_true_iff. intuition.
Qed.

(** The statuses of a connection that is over. *)
Definition statuses : list str := [u "killed"; u "closed"; u "error"].

Lemma ended_keeps_fits now r btc btb :
  history_fits r = true → int64_fits btc = true → int64_fits btb = true →
  history_fits (ended now r (h_status r) (h_disconnect_reason r) btc btb) = true.
Proof. unfold history_fits, ended. simpl. rewrite !andb_true_iff. intuition. Qed.

Lemma finished_fits now status reason btc btb r :
  history_fits r = true → finish_fits status reason btc btb = true →
  history_fits (finished now status reason btc btb r) = true.
Proof.
  intros Hf Hff. unfold finished. destruct (bool_decide _); [|by apply ended_fits].
  unfold finish_fits in Hff. rewrite !andb_true_iff in Hff. apply ended_keeps_fits; tauto.
Qed.

Section TrackerLaws.
Context {R DS DH DE : Type} `{RedisLaws R}
  `{!Table uuid RdpServer DS} `{!TableLaws uuid RdpServer DS}
  `{!Table uuid ConnectionHistory DH} `{!TableLaws uuid ConnectionHistory DH}
  `{!Log ConnectionEvent DE} `{!LogLaws ConnectionEvent DE event_fits}.
Implicit Types (tk : ConnectionTracker) (now : Z) (s : tracking R DS DH DE).

(** The history by identifier, and the live keys. *)
Definition history_of s : gmap uuid ConnectionHistory := rows (td_history (tr_db s)).
Definition keys_of now s : gmap str entry := live now (w_store (tr_redis s)).

(** Rows are stored under their own keys and fit their columns. *)
Definition orderly_rows s : Prop :=
  keyed (history_of s) ∧ map_Forall (λ _ r, history_fits r = true) (history_of s).

(** No fault is to come, nobody else writes to Redis, and the rows are in order. *)
Definition settled s : Prop :=
  (tr_faults s = [] ∧ w_env (tr_redis s) = []) ∧ orderly_rows s.

Lemma on_db_run {A} (m : io (tracking_db DS DH DE) A) s :
  tr_faults s = [] →
  on_db m s = match m (tr_db s) with
              | (Ok a, d) => (Ok a, Tracking (tr_redis s) d [])
              | (Err e, _) => (Err e, s)
              end.
Proof.
  intros Hf. unfold on_db, exchange, io_zoom, io_transaction. rewrite Hf.
  destruct (m (tr_db s)) as [[a|e] d]; [done|]. destruct s; cbn in *. by subst.
Qed.

Lemma on_redis_run {A} (m : io (world R) A) s :
  tr_faults s = [] →
  on_redis m s = ((m (tr_redis s)).1, Tracking (m (tr_redis s)).2 (tr_db s) []).
Proof. intros Hf. unfold on_redis, exchange, io_zoom. rewrite Hf. by destruct (m (tr_redis s)). Qed.

Lemma finish_db_run now cid status reason btc btb (d : tracking_db DS DH DE) :
  keyed (rows (td_history d)) → map_Forall (λ _ r, history_fits r = true) (rows (td_history d)) →
  finish_fits status reason btc btb = true →
  ∃ h, (rowcount ← on_history (db_update (K := uuid)
             (λ r, bool_decide (h_id r = cid) && negb (bool_decide (h_status r = u "killed")))
             (λ r, ended now r status reason btc btb));
           _ ← (if rowcount =? 0 then
                  _ ← on_history (db_update (K := uuid)
                    (λ r, bool_decide (h_id r = cid) && bool_decide (h_status r = u "killed"))
                    (λ r, ended now r (h_status r) (h_disconnect_reason r) btc btb));
                  mret tt
                else mret tt);
           mret tt) d = (Ok tt, TrackingDb (td_servers d) h (td_events d))
    ∧ rows h = alter (finished now status reason btc btb) cid (rows (td_history d)).
Proof.
  intros Hk Hfit Hff. rewrite io_bind_run. unfold on_history at 1, io_zoom.
  destruct (db_update_one (λ r, bool_decide (h_id r = cid) && negb (bool_decide (h_status r = u "killed")))
    (λ r, ended now r status reason btc btb) (td_history d) cid) as (h & -> & Hh); try done.
  { intros r Hr. apply andb_true_iff in Hr as [Hr _]. by apply bool_decide_eq_true in Hr. }
  { intros r Hr _. apply ended_fits; [by apply (Hfit cid) | done]. }
  assert ((∃ r, rows (td_history d) !! cid = Some r ∧ h_status r ≠ u "killed")
    ∨ ∀ r, rows (td_history d) !! cid = Some r → h_status r = u "killed") as [(r & Er & Hs)|Hkilled].
  { destruct (rows (td_history d) !! cid) as [r|]; [|by right].
    destruct (decide (h_status r = u "killed")); [right | left; eauto]. by intros r' [= <-]. }
  - rewrite Er, (bool_decide_eq_true_2 (h_id r = cid)), (bool_decide_eq_false_2 (h_status r = u "killed"))
      by (done || by apply (Hk cid)).
    eexists. split; [reflexivity|]. rewrite Hh. apply alter_ext. intros r' Hr.
    rewrite Er in Hr. injection Hr as <-. unfold finished.
    by rewrite (bool_decide_eq_true_2 (h_id r = cid)), (bool_decide_eq_false_2 (h_status r = u "killed"))
      by (done || by apply (Hk cid)).
  - assert (rows h = rows (td_history d)) as Hsame.
    { rewrite Hh. apply map_eq. intros k. destruct (decide (k = cid)) as [->|Hne]; [|by rewrite lookup_alter_ne].
      rewrite lookup_alter_eq. destruct (rows (td_history d) !! cid) as [r|]; [|done]. simpl.
      by rewrite (bool_decide_eq_true_2 _ (Hkilled r eq_refl)), andb_false_r. }
    replace (match rows (td_history d) !! cid with Some r => _ | None => _ end) with 0.
    2: { destruct (rows (td_history d) !! cid) as [r|]; [|done].
         by rewrite (bool_decide_eq_true_2 _ (Hkilled r eq_refl)), andb_false_r. }
    cbn [Z.eqb]. rewrite !io_bind_run. unfold on_history, io_zoom. cbn [td_history].
    destruct (db_update_one (λ r, bool_decide (h_id r = cid) && bool_decide (h_status r = u "killed"))
        (λ r, ended now r (h_status r) (h_disconnect_reason r) btc btb) h cid) as (h' & -> & Hh');
      rewrite ?Hsame; try done.
    { intros r' Hr. apply andb_true_iff in Hr as [Hr _]. by apply bool_decide_eq_true in Hr. }
    { intros r' Hr _. unfold finish_fits in Hff. rewrite !andb_true_iff in Hff.
      apply ended_keeps_fits; [by apply (Hfit cid) | tauto..]. }
    eexists. split; [reflexivity|]. rewrite Hh', Hsame. apply alter_ext. intros r' Hr.
    unfold finished. by rewrite (bool_decide_eq_true_2 (h_id r' = cid) (Hk cid r' Hr)),
      (bool_decide_eq_true_2 _ (Hkilled r' Hr)).
Qed.
Lemma finish_run tk now id status reason btc btb s :
  settled s → has_db tk = true → has_redis tk = true → (id < 2 ^ 128)%N →
  finish_fits status reason btc btb = true →
  ∃ s', finish tk now (uuid_str id) status reason btc btb s = (Ok tt, s') ∧ settled s'
    ∧ history_of s' = alter (finished now status reason btc btb) id (history_of s)
    ∧ keys_of now s' = delete (ACTIVE_SESSION (tk_instance_id tk) (uuid_str id)) (keys_of now s)
    ∧ td_servers (tr_db s') = td_servers (tr_db s) ∧ td_events (tr_db s') = td_events (tr_db s).
Proof.
  intros ((Hno & Hw) & Hk & Hfit) Hdb Hre Hid Hff. unfold finish. rewrite Hdb, Hre, io_bind_run, io_bind_run.
  unfold io_lift. rewrite uuid_of_str_of by done. rewrite on_db_run by done.
  destruct (finish_db_run now id status reason btc btb (tr_db s) Hk Hfit Hff) as (h & -> & Hh).
  rewrite on_redis_run by done. cbn [tr_redis]. rewrite client_delete_alone by done.
  eexists. split; [reflexivity|]. unfold settled, orderly_rows, history_of, keys_of.
  cbn [fst snd tr_redis tr_db tr_faults td_history w_env w_store with_store].
  rewrite Hh. split; [|split; [done|]; split; [by rewrite delete_live | done]].
  split; [done|]. split.
  - apply map_Forall_lookup. intros k r. rewrite lookup_alter_Some. intros [(-> & r0 & Hr & ->)|[_ Hr]]; [|by apply Hk].
    rewrite <- (Hk _ r0 Hr) at 1. unfold finished. by destruct (bool_decide _).
  - apply map_Forall_lookup. intros k r. rewrite lookup_alter_Some.
    intros [(-> & r0 & Hr & ->)|[_ Hr]]; [|by apply (Hfit k)].
    apply finished_fits; [by apply (Hfit _ _ Hr) | done].
Qed.

(** An event of a connection that is there. *)
Lemma event_run tk now id ty detail s :
  tr_faults s = [] → has_db tk = true → (id < 2 ^ 128)%N → is_Some (history_of s !! id) → text_fits 64 ty = true →
  ∃ e, event tk now (uuid_str id) ty detail s
    = (Ok tt, Tracking (tr_redis s) (TrackingDb (td_servers (tr_db s)) (td_history (tr_db s)) e) [])
    ∧ log_rows (fits := event_fits) e = log_rows (fits := event_fits) (td_events (tr_db s))
      ++ [{| ev_connection_id := id; ev_ts := now; ev_event_type := ty; ev_detail := detail |}].
Proof.
  intros Hf Hdb Hid [r Hr] Hty. unfold event. rewrite Hdb, io_bind_run.
  unfold io_lift. rewrite uuid_of_str_of, on_db_run by done.
  unfold insert_event. rewrite io_bind_run. unfold on_events, io_zoom.
  destruct (append_law (fits := event_fits) {| ev_connection_id := id; ev_ts := now; ev_event_type := ty;
    ev_detail := detail |} (td_events (tr_db s)) Hty) as (e & -> & He).
  rewrite io_bind_run. cbn [io_get td_history ev_connection_id]. unfold io_get.
  rewrite get_law. unfold history_of in Hr. rewrite Hr. eauto.
Qed.

Lemma start_run tk now id username server_id server_display host port client_ip s :
  let row := active_row tk now id username (parse_server_id server_id) server_display host port client_ip in
  settled s → has_db tk = true → has_redis tk = true → (id < 2 ^ 128)%N →
  history_fits row = true → history_of s !! id = None →
  (∀ sid, parse_server_id server_id = Some sid → is_Some (rows (td_servers (tr_db s)) !! sid)) →
  ∃ s', start tk now id username server_id server_display host port client_ip s
      = (Ok {| tc_connection_id := uuid_str id; tc_username := username;
               tc_server_address := host; tc_server_port := port |}, s')
    ∧ settled s' ∧ history_of s' = <[id := row]> (history_of s)
    ∧ keys_of now s' = <[ACTIVE_SESSION (tk_instance_id tk) (uuid_str id)
        := Entry (json_dumps false (JObj (active_payload tk now username server_display host port client_ip)))
                 (Some (now + 1000 * (24 * 3600)))]> (keys_of now s)
    ∧ td_servers (tr_db s') = td_servers (tr_db s) ∧ td_events (tr_db s') = td_events (tr_db s).
Proof.
  intros row ((Hf & Hw) & Hk & Hfit) Hdb Hre Hid Hrow Hfresh Hfk. unfold start. rewrite Hdb, Hre.
  rewrite io_bind_run, io_bind_run. unfold io_lift. rewrite uuid_of_str_of, on_db_run by done.
  unfold insert_history. rewrite io_bind_run. unfold on_history, io_zoom. fold row.
  destruct (insert_law row (td_history (tr_db s))) as (h & -> & Hh); [exact Hrow | exact Hfresh | exact I |].
  rewrite io_bind_run. unfold io_get. cbn [td_servers].
  assert (match h_server_id row with
    | Some sid => if db_get sid (td_servers (tr_db s)) is Some _ then mret tt else io_raise IntegrityError
    | None => mret tt end = (mret tt : io (tracking_db DS DH DE) unit)) as ->.
  { unfold row. cbn [h_server_id active_row]. destruct (parse_server_id server_id) as [sid|]; [|done].
    destruct (Hfk sid eq_refl) as [r Hr]. by rewrite get_law, Hr. }
  unfold mret at 1, io_ret. rewrite io_bind_run, on_redis_run by done. cbn [tr_redis].
  destruct (client_setex_alone now (ACTIVE_SESSION (tk_instance_id tk) (uuid_str id)) (24 * 3600)
    (json_dumps false (JObj (active_payload tk now username server_display host port client_ip)))
    (tr_redis s) Hw ltac:(lia)) as (r' & -> & L).
  eexists. split; [reflexivity|]. unfold settled, orderly_rows, history_of, keys_of.
  cbn [fst snd tr_redis tr_db tr_faults td_history w_env w_store with_store td_servers td_events]. rewrite Hh.
  split; [|done]. split; [done|]. split; [by apply (keyed_insert row)|].
  apply map_Forall_insert_2; [done|]. exact Hfit.
Qed.

(** *** Under faults *)

(** An exchange with the database commits, or leaves the tables alone; when it
    returns, it has committed. *)
Lemma on_db_cases {A} (m : io (tracking_db DS DH DE) A) s :
  ∃ d, (on_db m s).2 = Tracking (tr_redis s) d (tail (tr_faults s))
    ∧ (d = tr_db s ∨ ∃ a, m (tr_db s) = (Ok a, d))
    ∧ ∀ a, (on_db m s).1 = Ok a → m (tr_db s) = (Ok a, d).
Proof.
  unfold on_db, exchange, io_zoom, io_transaction. destruct s as [w d0 fs]. cbn [tr_faults tr_db tr_redis].
  destruct fs as [|[[e|e]|] fs]; cbn [tr_faults tr_db tr_redis tail]; destruct (m d0) as [[a|e'] d]; cbn [fst snd];
    eexists; (split; [reflexivity|]); split; eauto; intros ? [= <-]; done.
Qed.

(** An exchange with Redis leaves the tables alone. *)
Lemma on_redis_cases {A} (m : io (world R) A) s :
  ∃ w, (on_redis m s).2 = Tracking w (tr_db s) (tail (tr_faults s)) ∧ (w = tr_redis s ∨ w = (m (tr_redis s)).2).
Proof.
  unfold on_redis, exchange, io_zoom. destruct s as [w d fs]. cbn [tr_faults tr_db tr_redis].
  destruct fs as [|[[e|e]|] fs]; cbn [tr_faults tr_db tr_redis tail]; destruct (m w) as [a w'] eqn:E; cbn [fst snd];
    eexists; (split; [reflexivity|]); auto.
Qed.

(** An event changes nothing but the events. *)
Lemma event_frame tk now cid ty detail s :
  ∃ e fs, (event tk now cid ty detail s).2
    = Tracking (tr_redis s) (TrackingDb (td_servers (tr_db s)) (td_history (tr_db s)) e) fs
    ∧ (tr_faults s = [] → fs = []).
Proof.
  assert (s = Tracking (tr_redis s) (TrackingDb (td_servers (tr_db s)) (td_history (tr_db s)) (td_events (tr_db s)))
    (tr_faults s)) as Hs by (by destruct s as [? [] ?]).
  unfold event. destruct (has_db tk); [|by exists (td_events (tr_db s)), (tr_faults s)].
  rewrite io_bind_run. unfold io_lift. destruct (uuid_of_str cid) as [id|]; [|by exists (td_events (tr_db s)), (tr_faults s)].
  destruct (on_db_cases (insert_event {| ev_connection_id := id; ev_ts := now; ev_event_type := ty; ev_detail := detail |}) s)
    as (d & -> & Hd & _).
  assert (∃ e, d = TrackingDb (td_servers (tr_db s)) (td_history (tr_db s)) e) as [e ->].
  { destruct Hd as [->|[a Hd]]; [exists (td_events (tr_db s)); by destruct (tr_db s)|].
    unfold insert_event in Hd. rewrite io_bind_run in Hd. unfold on_events, io_zoom in Hd.
    destruct (log_append _ (td_events (tr_db s))) as [[[]|] e]; [|done].
    rewrite io_bind_run in Hd. unfold io_get in Hd. cbn [td_history] in Hd.
    destruct (db_get _ _); [|done]. injection Hd as _ <-. by exists e. }
  exists e, (tail (tr_faults s)). split; [done|]. by intros ->.
Qed.

(** Inserting the row: it is new and fits, and its server exists, or the
    database refuses it. *)
Lemma started_cases tk now id username server_id server_display host port client_ip s :
  let row := active_row tk now id username (parse_server_id server_id) server_display host port client_ip in
  (history_fits row = true ∧ history_of s !! id = None
    ∧ ∀ sid, parse_server_id server_id = Some sid → is_Some (rows (td_servers (tr_db s)) !! sid))
  ∨ ∃ e d, insert_history row (tr_db s) = (Err e, d).
Proof.
  intros row.
  unfold insert_history. rewrite io_bind_run. unfold on_history, io_zoom.
    destruct (history_fits row) eqn:Ef.
    2: { right. eexists DataError, _. rewrite (insert_unfit row (td_history (tr_db s))); [reflexivity | exact Ef]. }
    destruct (history_of s !! id) as [x|] eqn:Ex.
    { right. eexists IntegrityError, _. rewrite (insert_duplicate row (td_history (tr_db s))); [reflexivity | exact Ef |].
      left. exists x. exact Ex. }
    destruct (insert_law row (td_history (tr_db s))) as (h & -> & _); [exact Ef | exact Ex | exact I |].
    rewrite io_bind_run. unfold io_get. cbn [td_servers]. unfold row at 1. cbn [h_server_id active_row].
    destruct (parse_server_id server_id) as [sid|] eqn:Ep; [|by left]. rewrite get_law.
    destruct (rows (td_servers (tr_db s)) !! sid) as [x|] eqn:Esid.
    - left. split; [done|]. split; [done|]. intros sid' [= <-]. by rewrite Esid.
    - right. eexists IntegrityError, _. reflexivity.
Qed.

(** A start that raises leaves the history as it was; one that returns has
    inserted the row. *)
Lemma start_cases tk now id username server_id server_display host port client_ip s :
  settled s → has_db tk = true → has_redis tk = true → (id < 2 ^ 128)%N →
  match start tk now id username server_id server_display host port client_ip s with
  | (Ok tracked, s') => tc_connection_id tracked = uuid_str id ∧ settled s' ∧ is_Some (history_of s' !! id)
  | (Err _, s') => s' = s
  end.
Proof.
  intros Hs Hdb Hre Hid.
  set (row := active_row tk now id username (parse_server_id server_id) server_display host port client_ip).
  destruct (started_cases tk now id username server_id server_display host port client_ip s)
    as [(H1 & H2 & H3)|(e & d & He)].
  - destruct (start_run tk now id username server_id server_display host port client_ip s) as (s' & -> & Hs' & Hh & _);
      [done..|]. split; [done|]. split; [done|]. rewrite Hh. by rewrite lookup_insert_eq.
  - unfold start. rewrite Hdb, io_bind_run, io_bind_run. unfold io_lift.
    rewrite uuid_of_str_of by done. rewrite on_db_run by apply Hs. by rewrite He.
Qed.

(** Nothing but exchanges with Redis: the tables stay, and what it returns when
    no fault is to come and nobody else writes. *)
Lemma counting_redis_db {A} (m : io (world R) A) (d : tracking_db DS DH DE) : keeps (λ p, tr_db p.1 = d) (counting (on_redis m)).
Proof.
  intros [s n] Hd. unfold counting, io_zoom. cbn [fst snd]. destruct (on_redis_cases m s) as (w & E & _).
  destruct (on_redis m s) as [a s']. cbn in E. subst s'. exact Hd.
Qed.

Lemma flush_keys_db now ks (d : tracking_db DS DH DE) : keeps (λ p, tr_db p.1 = d) (flush_keys now ks).
Proof.
  induction ks as [|k ks IH]; [apply keeps_ret|]. apply keeps_bind; [apply counting_redis_db|]. intros _.
  apply keeps_bind; [by apply keeps_modify|]. intros _. exact IH.
Qed.

Lemma flush_patterns_db now ps (d : tracking_db DS DH DE) : keeps (λ p, tr_db p.1 = d) (flush_patterns now ps).
Proof.
  induction ps as [|p ps IH]; [apply keeps_ret|]. apply keeps_bind; [apply counting_redis_db|]. intros ks.
  apply keeps_bind; [apply flush_keys_db|]. intros _. exact IH.
Qed.

(** Flushing deletes the live keys under the prefixes, and no others. *)
Lemma flush_keys_run now ks n s :
  tr_faults s = [] → w_env (tr_redis s) = [] →
  ∃ r', flush_keys now ks (s, n)
      = (Ok tt, (Tracking (with_store (tr_redis s) r') (tr_db s) [], n + Z.of_nat (length ks)))
    ∧ ∀ k, live now r' !! k = if bool_decide (k ∈ ks) then None else live now (w_store (tr_redis s)) !! k.
Proof.
  revert n s. induction ks as [|k0 ks IH]; intros n s Hf Hw.
  - exists (w_store (tr_redis s)). split; [|done]. simpl. unfold mret, io_ret. rewrite Z.add_0_r.
    destruct s as [[] ? ?]. cbn in *. by subst.
  - cbn [flush_keys]. rewrite io_bind_run. unfold counting at 1, io_zoom. cbn [fst snd].
    rewrite on_redis_run, client_delete_alone by done. cbn [fst snd]. rewrite io_bind_run.
    unfold one_more at 1, io_modify. cbn [fst snd].
    destruct (IH (n + 1) (Tracking (with_store (tr_redis s) (redis_delete now [k0] (w_store (tr_redis s)))) (tr_db s) []))
      as (r' & -> & Hr'); [done..|].
    exists r'. split; [do 2 f_equal; simpl length; lia|]. intros k. rewrite Hr'. cbn [tr_redis w_store with_store].
    rewrite delete_live. simpl. destruct (decide (k = k0)) as [->|Hne].
    + rewrite lookup_delete_eq, (bool_decide_eq_true_2 (k0 ∈ k0 :: ks)) by constructor. by case_bool_decide.
    + rewrite lookup_delete_ne by done. repeat case_bool_decide; try done; set_solver.
Qed.

Lemma flush_patterns_run now prefixes n s :
  tr_faults s = [] → w_env (tr_redis s) = [] → Forall (Forall (λ c, glob_special c = false)) prefixes →
  ∃ m r', flush_patterns now prefixes (s, n) = (Ok tt, (Tracking (with_store (tr_redis s) r') (tr_db s) [], m))
    ∧ ∀ k, live now r' !! k
      = if existsb (λ p, starts_with p k) prefixes then None else live now (w_store (tr_redis s)) !! k.
Proof.
  intros Hf Hw HF. revert n s Hf Hw. induction HF as [|p ps Hp _ IH]; intros n s Hf Hw.
  - exists n, (w_store (tr_redis s)). split; [|done]. destruct s as [[] ? ?]. cbn in *. by subst.
  - cbn [flush_patterns]. rewrite io_bind_run. unfold counting at 1, io_zoom. cbn [fst snd].
    rewrite on_redis_run, client_scan_alone by done. cbn [fst snd]. rewrite io_bind_run.
    set (ks := redis_scan now (p ++ u "*") (w_store (tr_redis s))).
    destruct (flush_keys_run now ks n (Tracking (tr_redis s) (tr_db s) [])) as (r1 & -> & H1); [done..|].
    destruct (IH (n + Z.of_nat (length ks)) (Tracking (with_store (tr_redis s) r1) (tr_db s) []))
      as (m & r' & E & Hr'); [done..|].
    exists m, r'. cbn [tr_redis tr_db] in *. split; [exact E|]. intros k. rewrite Hr'. cbn [w_store with_store existsb].
    rewrite H1. pose proof (scan_live now p k (w_store (tr_redis s)) Hp) as Hscan. fold ks in Hscan.
    destruct (starts_with p k); cbn [orb]; [|case_bool_decide as Hin; [by apply Hscan in Hin as []|done]].
    destruct (existsb _ ps); [done|]. case_bool_decide as Hin; [done|].
    destruct (live now (w_store (tr_redis s)) !! k) eqn:E'; [|done]. destruct Hin. by apply Hscan.
Qed.

(** The flush returns, whatever Redis does, and does not touch the tables. *)
Lemma flush_redis_db now ps s : ∃ n s', flush_redis now ps s = (Ok n, s') ∧ tr_db s' = tr_db s.
Proof.
  unfold flush_redis, io_try. pose proof (flush_patterns_db now ps (tr_db s) (s, 0) eq_refl) as Hd.
  destruct (flush_patterns now ps (s, 0)) as [[[]|e] [s' n]]; exists n, s'; by split.
Qed.

Lemma literal_text l : forallb (λ c, negb (glob_special c)) l = true → Forall (λ c, glob_special c = false) l.
Proof. rewrite forallb_forall, List.Forall_forall. intros Hl c Hc. by apply negb_true_iff, Hl. Qed.

Lemma flush_prefixes_literal iid :
  Forall (λ c, glob_special c = false) iid → Forall (Forall (λ c, glob_special c = false)) (flush_prefixes iid).
Proof.
  intros Hiid. unfold flush_prefixes, ACTIVE_SESSION. constructor.
  - apply Forall_app. split; [by apply literal_text|]. apply Forall_app. split; [done | by apply literal_text].
  - repeat (constructor; [by apply literal_text|]). constructor.
Qed.

Lemma flushed p k iid :
  In p (flush_prefixes iid) → existsb (λ p', starts_with p' (p ++ k)) (flush_prefixes iid) = true.
Proof. intros Hp. apply existsb_exists. exists p. split; [done | apply starts_with_app]. Qed.

(** The keys the startup removes, for any text. *)
Lemma flushed_keys iid text :
  Forall (λ key, existsb (λ p, starts_with p key) (flush_prefixes iid) = true)
    [ACTIVE_SESSION iid text; TOKEN text; CONN_TOKEN text; KILL_SESSION text; WEB_SESSION text; ADMIN_WEB_SESSION text].
Proof.
  constructor.
  { unfold flush_prefixes. cbn [existsb]. apply orb_true_iff. left. unfold ACTIVE_SESSION.
    rewrite app_nil_r, !app_assoc. apply starts_with_app. }
  constructor; [exact (flushed (u "rdp:token:") text iid (or_intror (or_introl eq_refl)))|].
  constructor; [exact (flushed (u "rdp:conn-token:") text iid (or_intror (or_intror (or_introl eq_refl))))|].
  constructor; [exact (flushed (u "rdp:kill:") text iid (or_intror (or_intror (or_intror (or_introl eq_refl)))))|].
  constructor; [exact (flushed (u "rdp:web:") text iid
    (or_intror (or_intror (or_intror (or_intror (or_introl eq_refl))))))|].
  constructor; [exact (flushed (u "rdp:admin:web:") text iid
    (or_intror (or_intror (or_intror (or_intror (or_intror (or_introl eq_refl)))))))|].
  constructor.
Qed.

(** A row that a former process of this instance left. *)
Definition stale tk (r : ConnectionHistory) : bool :=
  bool_decide (h_instance_id r = tk_instance_id tk) && bool_decide (h_status r = u "active")
  && bool_decide (h_ended_at r = None).

(** What the startup makes of a row. *)
Definition recovered tk now (r : ConnectionHistory) : ConnectionHistory :=
  if stale tk r
  then ended now r (u "error") (Some (u "relay-restart")) (h_bytes_to_client r) (h_bytes_to_backend r)
  else r.

(** The database answers the first exchange of the startup. *)
Definition db_answers s : Prop := match tr_faults s with Some _ :: _ => False | _ => True end.

Lemma on_db_answered {A} (m : io (tracking_db DS DH DE) A) s a d :
  db_answers s → m (tr_db s) = (Ok a, d) → on_db m s = (Ok a, Tracking (tr_redis s) d (tail (tr_faults s))).
Proof.
  unfold db_answers, on_db, exchange, io_zoom, io_transaction. destruct s as [w d0 [|[f|] fs]]; [|done|];
    cbn [tr_faults tr_db tr_redis tail]; by intros _ ->.
Qed.

(** The rows are recovered once the database answered, whatever Redis does; the
    keys are gone when Redis answers too. *)
Lemma reconcile_run tk now s :
  orderly_rows s → db_answers s → has_db tk = true → has_redis tk = true →
  ∃ n m s', reconcile_stale_active_on_startup tk now s = (Ok (n, m), s')
    ∧ n = Z.of_nat (size (select_rows (stale tk) (history_of s)))
    ∧ history_of s' = recovered tk now <$> history_of s
    ∧ (tr_faults s = [] → w_env (tr_redis s) = [] → Forall (λ c, glob_special c = false) (tk_instance_id tk) →
       ∀ k, keys_of now s' !! k
      = if existsb (λ p, starts_with p k) (flush_prefixes (tk_instance_id tk)) then None else keys_of now s !! k).
Proof.
  intros (Hk & Hfit) Hans Hdb Hre. unfold reconcile_stale_active_on_startup. rewrite Hdb, Hre.
  rewrite io_bind_run. fold (stale tk).
  destruct (update_law (stale tk) (λ r, ended now r (u "error") (Some (u "relay-restart"))
    (h_bytes_to_client r) (h_bytes_to_backend r)) (td_history (tr_db s))) as (h & E & Hh).
  { done. }
  { intros k r Hr _. apply ended_fits; [by apply (Hfit k)|]. pose proof (Hfit k r Hr) as Hf. cbn beta in Hf.
    unfold history_fits in Hf. rewrite !andb_true_iff in Hf. unfold finish_fits. rewrite !andb_true_iff.
    repeat split; try done; tauto. }
  { exact I. }
  erewrite on_db_answered; [|done | unfold on_history, io_zoom; rewrite E; reflexivity].
  rewrite io_bind_run. set (s1 := Tracking _ _ _).
  destruct (flush_redis_db now (flush_prefixes (tk_instance_id tk)) s1) as (m & s' & Ef & Hd).
  rewrite Ef. eexists _, m, s'. split; [reflexivity|]. split; [done|]. split.
  - unfold history_of. rewrite Hd. cbn [s1 tr_db td_history]. rewrite Hh. apply map_eq. intros k.
    rewrite lookup_update_rows, lookup_fmap. done.
  - intros Hno Hw Hglob. unfold flush_redis, io_try in Ef.
    destruct (flush_patterns_run now (flush_prefixes (tk_instance_id tk)) 0 s1) as (m' & r' & E' & Hr').
    { unfold s1. cbn [tr_faults]. by rewrite Hno. }
    { done. }
    { by apply flush_prefixes_literal. }
    rewrite E' in Ef. injection Ef as _ <-. exact Hr'.
Qed.

(** *** The account of a connection, whatever fails *)

(** The row, if there is one, is ended with a final status, or the next start of
    its instance ends it. *)
Definition accounted tk (id : uuid) s : Prop :=
  orderly_rows s ∧ ∀ row, history_of s !! id = Some row →
    stale tk row = true ∨ (h_ended_at row ≠ None ∧ h_status row ∈ statuses).

Lemma accounted_tables tk id w d fs s :
  td_history d = td_history (tr_db s) → accounted tk id s → accounted tk id (Tracking w d fs).
Proof. unfold accounted, orderly_rows, history_of. cbn [tr_db]. by intros ->. Qed.

Lemma accounted_redis {A} tk id (m : io (world R) A) : keeps (accounted tk id) (on_redis m).
Proof. intros s Hs. destruct (on_redis_cases m s) as (w & -> & _). by apply (accounted_tables _ _ _ _ _ s). Qed.

Lemma accounted_event tk id tk' now cid ty detail : keeps (accounted tk id) (event tk' now cid ty detail).
Proof. intros s Hs. destruct (event_frame tk' now cid ty detail s) as (e & fs & -> & _). by apply (accounted_tables _ _ _ _ _ s). Qed.

Lemma finish_accounted tk id now cid status reason btc btb :
  finish_fits status reason btc btb = true → status ∈ statuses →
  keeps (accounted tk id) (finish tk now cid status reason btc btb).
Proof.
  intros Hff Hst. unfold finish. apply keeps_bind.
  2: { intros _. apply keeps_if; [apply accounted_redis | apply keeps_ret]. }
  destruct (has_db tk); [|apply keeps_ret]. apply keeps_bind; [apply keeps_lift|].
  intros cid' s Hs. destruct Hs as [[Hk Hfit] Hrow].
  destruct (finish_db_run now cid' status reason btc btb (tr_db s) Hk Hfit Hff) as (h & E & Hh).
  match goal with |- context [on_db ?m s] => destruct (on_db_cases m s) as (d & -> & Hd & _) end.
  destruct Hd as [->|[a Hd]]; [by apply (accounted_tables _ _ _ _ _ s)|].
  rewrite E in Hd. injection Hd as _ <-. unfold accounted, orderly_rows, history_of in *. cbn [tr_db td_history]. rewrite Hh.
  split; [split|].
  - apply map_Forall_lookup. intros k r. rewrite lookup_alter_Some. intros [(-> & r0 & Hr & ->)|[_ Hr]]; [|by apply Hk].
    rewrite <- (Hk _ r0 Hr) at 1. unfold finished. by destruct (bool_decide _).
  - apply map_Forall_lookup. intros k r. rewrite lookup_alter_Some.
    intros [(-> & r0 & Hr & ->)|[_ Hr]]; [|by apply (Hfit k)]. apply finished_fits; [by apply (Hfit _ _ Hr) | done].
  - intros row. rewrite lookup_alter_Some. intros [(-> & r0 & Hr & ->)|[_ Hr]]; [|by apply Hrow].
    right. unfold finished. case_bool_decide as Ek; cbn [ended h_ended_at h_status]; split; try done.
    rewrite Ek. exact (list_elem_of_lookup_2 statuses 0 _ eq_refl).
Qed.

Lemma start_accounted tk now id username server_id server_display host port client_ip :
  (id < 2 ^ 128)%N → keeps (accounted tk id) (start tk now id username server_id server_display host port client_ip).
Proof.
  intros Hid. unfold start. apply keeps_bind.
  2: { intros _. apply keeps_bind; [|intros _; apply keeps_ret]. apply keeps_if; [apply accounted_redis | apply keeps_ret]. }
  destruct (has_db tk); [|apply keeps_ret]. unfold io_lift. rewrite uuid_of_str_of by done.
  intros s Hs. rewrite io_bind_run.
  set (row := active_row tk now id username (parse_server_id server_id) server_display host port client_ip).
  destruct (on_db_cases (insert_history row) s) as (d & -> & Hd & _).
  destruct Hd as [->|[a Hd]]; [by apply (accounted_tables _ _ _ _ _ s)|].
  destruct (started_cases tk now id username server_id server_display host port client_ip s)
    as [(H1 & H2 & H3)|(e & d' & He)].
  2: { fold row in He. by rewrite He in Hd. }
  fold row in H1. unfold insert_history in Hd. rewrite io_bind_run in Hd. unfold on_history, io_zoom in Hd.
  destruct (insert_law row (td_history (tr_db s))) as (h & E & Hh); [exact H1 | exact H2 | exact I |].
  rewrite E, io_bind_run in Hd. unfold io_get in Hd.
  assert (td_history d = h) as Hdh.
  { destruct (h_server_id row) as [sid|]; [destruct (db_get _ _)|]; by inversion Hd. }
  destruct Hs as [[Hk Hfit] _]. unfold accounted, orderly_rows, history_of in *. cbn [tr_db]. rewrite Hdh, Hh.
  split; [split; [by apply (keyed_insert row) | by apply map_Forall_insert_2]|].
  intros row'. change (h_id row) with id. rewrite lookup_insert_eq. intros [= <-]. left. unfold stale, row, active_row. cbn.
  by rewrite !bool_decide_eq_true_2.
Qed.
End TrackerLaws.

(** ** Properties *)

(** A tracked connection from start to finish: the row is inserted as
    active and ends with the reported outcome, and the live keys of Redis are in
    the end what they would have been without the connection. *)
Theorem tracked_lifecycle {R DS DH DE : Type} `{RedisLaws R}
    `{!Table uuid RdpServer DS} `{!TableLaws uuid RdpServer DS}
    `{!Table uuid ConnectionHistory DH} `{!TableLaws uuid ConnectionHistory DH}
    `{!Log ConnectionEvent DE} `{!LogLaws ConnectionEvent DE event_fits}
    (tk : ConnectionTracker) (now now' : Z) (id : uuid) (username : str)
    (server_id server_display : option str) (host : str) (port : Z) (client_ip status : str)
    (reason : option str) (btc btb : Z) (s : tracking R DS DH DE) :
  let row := active_row tk now id username (parse_server_id server_id) server_display host port client_ip in
  let key := ACTIVE_SESSION (tk_instance_id tk) (uuid_str id) in
  settled s → has_db tk = true → has_redis tk = true → (id < 2 ^ 128)%N → now <= now' →
  history_fits row = true → finish_fits status reason btc btb = true →
  history_of s !! id = None → keys_of now s !! key = None →
  (∀ sid, parse_server_id server_id = Some sid → is_Some (rows (td_servers (tr_db s)) !! sid)) →
  ∃ tracked s1 s2,
    start tk now id username server_id server_display host port client_ip s = (Ok tracked, s1)
    ∧ history_of s1 !! id = Some row ∧ is_Some (keys_of now s1 !! key)
    ∧ finish tk now' (tc_connection_id tracked) status reason btc btb s1 = (Ok tt, s2)
    ∧ history_of s2 = <[id := ended now' row status reason btc btb]> (history_of s)
    ∧ keys_of now' s2 = keys_of now' s.
Proof.
  intros row key Hs Hdb Hre Hid Hnow Hrow Hff Hfresh Hkey Hfk.
  destruct (start_run tk now id username server_id server_display host port client_ip s)
    as (s1 & E1 & Hs1 & Hh1 & Hk1 & _); [done..|].
  destruct (finish_run tk now' id status reason btc btb s1) as (s2 & E2 & _ & Hh2 & Hk2 & _); [done..|].
  eexists _, s1, s2. split; [exact E1|]. fold row in Hh1. fold key in Hk1. rewrite Hh1, Hk1, !lookup_insert_eq.
  split; [done|]. split; [done|]. split; [exact E2|]. rewrite Hh2, Hh1. split.
  - apply map_eq. intros k. destruct (decide (k = id)) as [->|Hne].
    + rewrite lookup_alter_eq, !lookup_insert_eq. simpl. f_equal.
    + by rewrite lookup_alter_ne, !lookup_insert_ne by done.
  - rewrite Hk2. fold key. apply map_eq. intros k. unfold keys_of.
    destruct (decide (k = key)) as [->|Hne].
    + rewrite lookup_delete_eq, (live_later now now') by done. fold (keys_of now s). by rewrite Hkey.
    + rewrite lookup_delete_ne, (live_later now now' (w_store (tr_redis s1))),
        (live_later now now' (w_store (tr_redis s))) by done.
      fold (keys_of now s1) (keys_of now s). by rewrite Hk1, lookup_insert_ne.
Qed.

Definition demo_tracker : ConnectionTracker :=
  {| has_db := true; has_redis := true; tk_instance_id := u "node-1" |}.

Definition demo_tracking : tracking store (gmap uuid RdpServer) (gmap uuid ConnectionHistory) (list ConnectionEvent) :=
  Tracking (quiet ∅) (TrackingDb ∅ ∅ []) [].

Lemma demo_settled : settled demo_tracking.
Proof.
  split; [done|]. unfold orderly_rows. change (history_of demo_tracking) with (∅ : gmap uuid ConnectionHistory).
  split; apply map_Forall_empty.
Qed.

Lemma tracked_lifecycle_witness :
  ∃ tracked s1 s2,
    start demo_tracker 1000 7%N (u "ivan") (Some (u "srv")) None (u "10.0.0.5") 3389 (u "203.0.113.7") demo_tracking
      = (Ok tracked, s1)
    ∧ history_of s1 !! 7%N = Some (active_row demo_tracker 1000 7%N (u "ivan") (parse_server_id (Some (u "srv"))) None
                                    (u "10.0.0.5") 3389 (u "203.0.113.7"))
    ∧ is_Some (keys_of 1000 s1 !! ACTIVE_SESSION (tk_instance_id demo_tracker) (uuid_str 7%N))
    ∧ finish demo_tracker 5000 (tc_connection_id tracked) (u "closed") (Some (u "normal")) 10 20 s1 = (Ok tt, s2)
    ∧ history_of s2 = <[7%N := ended 5000 (active_row demo_tracker 1000 7%N (u "ivan")
          (parse_server_id (Some (u "srv"))) None (u "10.0.0.5") 3389 (u "203.0.113.7"))
          (u "closed") (Some (u "normal")) 10 20]> (history_of demo_tracking)
    ∧ keys_of 5000 s2 = keys_of 5000 demo_tracking.
Proof.
  apply (tracked_lifecycle demo_tracker 1000 5000 7%N (u "ivan") (Some (u "srv")) None (u "10.0.0.5") 3389
    (u "203.0.113.7") (u "closed") (Some (u "normal")) 10 20 demo_tracking).
  - exact demo_settled.
  - reflexivity.
  - reflexivity.
  - reflexivity.
  - discriminate.
  - vm_compute; reflexivity.
  - vm_compute; reflexivity.
  - reflexivity.
  - vm_compute; reflexivity.
  - vm_compute; discriminate.
Defined.

(** The end of a connection never overwrites an administrator's kill: a
    killed row keeps its status and reason and gets the time and the traffic,
    any other row gets everything; no other row and no other key changes. *)
Theorem finish_keeps_kill {R DS DH DE : Type} `{RedisLaws R}
    `{!Table uuid RdpServer DS} `{!TableLaws uuid RdpServer DS}
    `{!Table uuid ConnectionHistory DH} `{!TableLaws uuid ConnectionHistory DH}
    `{!Log ConnectionEvent DE} `{!LogLaws ConnectionEvent DE event_fits}
    (tk : ConnectionTracker) (now : Z) (id : uuid) (status : str) (reason : option str) (btc btb : Z)
    (s : tracking R DS DH DE) (row : ConnectionHistory) :
  settled s → has_db tk = true → has_redis tk = true → (id < 2 ^ 128)%N →
  finish_fits status reason btc btb = true → history_of s !! id = Some row →
  ∃ s', finish tk now (uuid_str id) status reason btc btb s = (Ok tt, s')
    ∧ history_of s' = <[id :=
        if bool_decide (h_status row = u "killed")
        then ended now row (u "killed") (h_disconnect_reason row) btc btb
        else ended now row status reason btc btb]> (history_of s)
    ∧ keys_of now s' = delete (ACTIVE_SESSION (tk_instance_id tk) (uuid_str id)) (keys_of now s).
Proof.
  intros Hs Hdb Hre Hid Hff Hrow.
  destruct (finish_run tk now id status reason btc btb s) as (s' & E & _ & Hh & Hk & _); [done..|].
  exists s'. split; [done|]. split; [|done]. rewrite Hh. apply map_eq. intros k.
  destruct (decide (k = id)) as [->|Hne]; [|by rewrite lookup_alter_ne, lookup_insert_ne].
  rewrite lookup_alter_eq, lookup_insert_eq, Hrow. simpl. unfold finished.
  case_bool_decide as E'; [by rewrite E' | done].
Qed.

Definition demo_row (status : str) : ConnectionHistory :=
  ended 2000 (active_row demo_tracker 1000 7%N (u "ivan") None None (u "10.0.0.5") 3389 (u "203.0.113.7"))
    status (Some (u "admin_kill")) 0 0.
Definition demo_history (status : str) : tracking store (gmap uuid RdpServer) (gmap uuid ConnectionHistory) (list ConnectionEvent) :=
  Tracking (quiet ∅) (TrackingDb ∅ {[ 7%N := demo_row status ]} []) [].

Lemma demo_history_settled status : history_fits (demo_row status) = true → settled (demo_history status).
Proof.
  intros Hf. split; [done|]. unfold orderly_rows.
  change (history_of (demo_history status)) with ({[ 7%N := demo_row status ]} : gmap uuid ConnectionHistory).
  split; by apply map_Forall_singleton.
Qed.

Lemma finish_keeps_kill_witness :
  ∃ s', finish demo_tracker 5000 (uuid_str 7%N) (u "closed") (Some (u "normal")) 10 20 (demo_history (u "killed"))
      = (Ok tt, s')
    ∧ history_of s' = <[7%N :=
        if bool_decide (h_status (demo_row (u "killed")) = u "killed")
        then ended 5000 (demo_row (u "killed")) (u "killed") (h_disconnect_reason (demo_row (u "killed"))) 10 20
        else ended 5000 (demo_row (u "killed")) (u "closed") (Some (u "normal")) 10 20]>
        (history_of (demo_history (u "killed")))
    ∧ keys_of 5000 s' = delete (ACTIVE_SESSION (tk_instance_id demo_tracker) (uuid_str 7%N))
        (keys_of 5000 (demo_history (u "killed"))).
Proof.
  apply (finish_keeps_kill demo_tracker 5000 7%N (u "closed") (Some (u "normal")) 10 20
    (demo_history (u "killed")) (demo_row (u "killed"))).
  - apply demo_history_settled; vm_compute; reflexivity.
  - reflexivity.
  - reflexivity.
  - reflexivity.
  - vm_compute; reflexivity.
  - apply lookup_singleton_eq.
Defined.

(** C17: when the relay starts again and the database answers, every row its
    instance left active and not ended gets the status "error", the reason
    "relay-restart" and the time, and no row is removed, added or otherwise
    changed, whatever exchange with Redis fails after that. When Redis answers
    too and nobody else writes, the active keys of the instance, and the RDP
    tokens, the token and kill keys of connections and both kinds of web sessions
    of the whole cluster are gone (one relay's start logs out every user), and
    every key outside those prefixes keeps its value. *)
Theorem reconcile_recovers {R DS DH DE : Type} `{RedisLaws R}
    `{!Table uuid RdpServer DS} `{!TableLaws uuid RdpServer DS}
    `{!Table uuid ConnectionHistory DH} `{!TableLaws uuid ConnectionHistory DH}
    `{!Log ConnectionEvent DE} `{!LogLaws ConnectionEvent DE event_fits}
    (tk : ConnectionTracker) (now : Z) (s : tracking R DS DH DE) :
  orderly_rows s → db_answers s → has_db tk = true → has_redis tk = true →
  Forall (λ c, glob_special c = false) (tk_instance_id tk) →
  ∃ n m s', reconcile_stale_active_on_startup tk now s = (Ok (n, m), s')
    ∧ (∀ id, history_of s' !! id = recovered tk now <$> history_of s !! id)
    ∧ (∀ id row, history_of s !! id = Some row →
         (h_instance_id row = tk_instance_id tk ∧ h_status row = u "active" ∧ h_ended_at row = None
            ∧ ∃ row', history_of s' !! id = Some row' ∧ h_status row' = u "error"
                ∧ h_disconnect_reason row' = Some (u "relay-restart") ∧ h_ended_at row' = Some now)
         ∨ history_of s' !! id = Some row)
    ∧ (tr_faults s = [] → w_env (tr_redis s) = [] →
       (∀ text, Forall (λ key, keys_of now s' !! key = None)
          [ACTIVE_SESSION (tk_instance_id tk) text; TOKEN text; CONN_TOKEN text; KILL_SESSION text;
           WEB_SESSION text; ADMIN_WEB_SESSION text])
       ∧ ∀ k, existsb (λ p, starts_with p k) (flush_prefixes (tk_instance_id tk)) = false →
         keys_of now s' !! k = keys_of now s !! k).
Proof.
  intros Hs Hans Hdb Hre Hglob.
  destruct (reconcile_run tk now s Hs Hans Hdb Hre) as (n & m & s' & E & _ & Hh & Hk).
  exists n, m, s'. split; [exact E|]. split; [intros id; by rewrite Hh, lookup_fmap|]. split.
  - intros id row Hrow. rewrite Hh, lookup_fmap, Hrow. simpl. unfold recovered.
    destruct (stale tk row) eqn:Est; [left | by right]. unfold stale in Est.
    rewrite !andb_true_iff, !bool_decide_eq_true in Est. destruct Est as [[H1 H2] H3]. eauto 10.
  - intros Hno Hw. specialize (Hk Hno Hw Hglob). split.
    + intros text. pose proof (flushed_keys (tk_instance_id tk) text) as Hf.
      eapply Forall_impl; [exact Hf|]. cbn beta. intros key Hkey. by rewrite Hk, Hkey.
    + intros k Hp. by rewrite Hk, Hp.
Qed.

Definition demo_left : ConnectionHistory :=
  active_row demo_tracker 1000 7%N (u "ivan") None None (u "10.0.0.5") 3389 (u "203.0.113.7").
(** A relay that went away during a connection. *)
Definition demo_restart : tracking store (gmap uuid RdpServer) (gmap uuid ConnectionHistory) (list ConnectionEvent) :=
  Tracking (quiet ∅) (TrackingDb ∅ {[ 7%N := demo_left ]} []) [None; None; Some (Refused ConnectionError)].

Lemma reconcile_recovers_witness :
  ∃ n m s', reconcile_stale_active_on_startup demo_tracker 9000 demo_restart = (Ok (n, m), s')
    ∧ (∀ id, history_of s' !! id = recovered demo_tracker 9000 <$> history_of demo_restart !! id)
    ∧ (∀ id row, history_of demo_restart !! id = Some row →
         (h_instance_id row = tk_instance_id demo_tracker ∧ h_status row = u "active" ∧ h_ended_at row = None
            ∧ ∃ row', history_of s' !! id = Some row' ∧ h_status row' = u "error"
                ∧ h_disconnect_reason row' = Some (u "relay-restart") ∧ h_ended_at row' = Some 9000)
         ∨ history_of s' !! id = Some row)
    ∧ (tr_faults demo_restart = [] → w_env (tr_redis demo_restart) = [] →
       (∀ text, Forall (λ key, keys_of 9000 s' !! key = None)
          [ACTIVE_SESSION (tk_instance_id demo_tracker) text; TOKEN text; CONN_TOKEN text; KILL_SESSION text;
           WEB_SESSION text; ADMIN_WEB_SESSION text])
       ∧ ∀ k, existsb (λ p, starts_with p k) (flush_prefixes (tk_instance_id demo_tracker)) = false →
         keys_of 9000 s' !! k = keys_of 9000 demo_restart !! k).
Proof.
  apply (reconcile_recovers demo_tracker 9000 demo_restart).
  - unfold orderly_rows. change (history_of demo_restart) with ({[ 7%N := demo_left ]} : gmap uuid ConnectionHistory).
    split; apply map_Forall_singleton; vm_compute; reflexivity.
  - exact I.
  - reflexivity.
  - reflexivity.
  - apply literal_text. vm_compute; reflexivity.
Defined.
Close Scope Z_scope.
