(* ===== verification/PyIp.v ===== *)
(** [ipaddress] of the standard library, as far as the program uses it: parsing
    addresses and networks of both versions, and membership. *)

From stdpp Require Import prelude list strings.
From Stdlib Require Import ZArith Lia.
From Stdlib Require Strings.String.
From S2P Require Import Prelude PySeq PyBytes PyStr Encodings PyUuid ProxyProtocol.

Open Scope N_scope.

(** An address: its version's width in bits, and its value. *)
Inductive ip_version : Type := V4 | V6.
#[export] Instance ip_version_eq_dec : EqDecision ip_version.
Proof. solve_decision. Defined.

Record ip_addr : Type := IpAddr { ip_ver : ip_version; ip_int : N }.
Definition ip_width (v : ip_version) : N := match v with V4 => 32 | V6 => 128 end.

Definition is_ascii_digit (c : N) : bool := (48 <=? c) && (c <=? 57).

(** [s.isascii() and s.isdigit()], as a number. *)
Definition ascii_number (s : str) : option N :=
  if negb (bool_decide (s = [])) && forallb is_ascii_digit s
  then Some (foldl (λ acc c, acc * 10 + (c - 48)) 0 s) else None.

(** ** Version 4 *)

Definition parse_octet (s : str) : option N :=
  n ← ascii_number s;
  if (3 <? length s)%nat || (negb (bool_decide (s = u "0")) && bool_decide (head s = Some 48)) || (255 <? n)
  then None else Some n.

Definition ip4_int (s : str) : option N :=
  match split_on 46 s with
  | [a; b; c; d] =>
      a ← parse_octet a; b ← parse_octet b; c ← parse_octet c; d ← parse_octet d;
      Some (((a * 256 + b) * 256 + c) * 256 + d)
  | _ => None
  end.

(** ** Version 6 *)

(** [_parse_hextet]: a digit of [int(x, 16)] that is one of [_HEX_DIGITS]. *)
Definition hextet_digit (c : N) : option N := if c <? 128 then digit16 c else None.
Definition parse_hextet (s : str) : option N :=
  if bool_decide (s = []) || (4 <? length s)%nat then None
  else foldl (λ acc c, a ← acc; d ← hextet_digit c; Some (a * 16 + d)) (Some 0) s.

(** ['%x' % n] *)
Definition hex_text (n : N) : str := hextet (Z.of_N n).

(** The parts, an embedded version 4 address replaced by its two hextets. *)
Definition ip6_parts (s : str) : option (list str) :=
  let parts := split_on 58 s in
  if (length parts <? 3)%nat then None
  else
    match last parts with
    | Some p =>
        if bool_decide (46 ∈ p) then
          v ← ip4_int p;
          Some (take (pred (length parts)) parts ++ [hex_text (v / 65536); hex_text (v mod 65536)])
        else Some parts
    | None => Some parts
    end.

(** The indices strictly inside of the empty parts. *)
Fixpoint empty_inside (i : nat) (l : list str) : list nat :=
  match l with
  | [] | [_] => []
  | p :: l' => (if bool_decide (p = []) then [i] else []) ++ empty_inside (S i) l'
  end.

Definition hextets_int (acc : N) (l : list str) : option N :=
  foldl (λ acc p, a ← acc; h ← parse_hextet p; Some (a * 65536 + h)) (Some acc) l.

Definition ip6_int (s : str) : option N :=
  parts ← ip6_parts s;
  if (9 <? length parts)%nat then None
  else
    let first_empty := bool_decide (head parts = Some []) in
    let last_empty := bool_decide (last parts = Some []) in
    match empty_inside 1 (tail parts) with
    | [] =>
        if negb (length parts =? 8)%nat || first_empty || last_empty then None
        else hextets_int 0 parts
    | [skip_index] =>
        let hi := if first_empty then pred skip_index else skip_index in
        let lo := (length parts - skip_index - 1)%nat in
        let lo' := if last_empty then pred lo else lo in
        if (first_empty && (0 <? hi)%nat) || (last_empty && (0 <? lo')%nat) then None
        else if (8 - (hi + lo') <? 1)%nat then None
        else
          top ← hextets_int 0 (take hi parts);
          hextets_int (top * 2 ^ (16 * N.of_nat (8 - (hi + lo')))) (drop (length parts - lo') parts)
    | _ => None
    end.

(** [_split_scope_id]: the address before a percent sign. *)
Definition ip6_scoped (s : str) : option N :=
  match split_first 37 s with
  | None => ip6_int s
  | Some (a, scope) => if bool_decide (scope = []) || bool_decide (37 ∈ scope) then None else ip6_int a
  end.

(** ** [ip_address] and [ip_network(strict=False)]; [None] is a [ValueError] *)

Definition ip_address (s : str) : option ip_addr :=
  if bool_decide (47 ∈ s) then None
  else match ip4_int s with
       | Some n => Some (IpAddr V4 n)
       | None => IpAddr V6 <$> ip6_scoped s
       end.

(** A mask: the length of its run of ones. *)
Definition mask_of (width len : N) : N := 2 ^ width - 2 ^ (width - len).
Fixpoint mask_length (fuel : nat) (width mask : N) : option N :=
  match fuel with
  | O => if mask =? 0 then Some 0 else None
  | S fuel' => if mask =? mask_of width (N.of_nat fuel) then Some (N.of_nat fuel) else mask_length fuel' width mask
  end.

Definition prefix_number (width : N) (s : str) : option N :=
  n ← ascii_number s; if width <? n then None else Some n.

(** [_make_netmask]: a length, or for version 4 a netmask or a hostmask. *)
Definition netmask_of (v : ip_version) (arg : str) : option N :=
  match prefix_number (ip_width v) arg, v with
  | Some n, _ => Some n
  | None, V6 => None
  | None, V4 =>
      m ← ip4_int arg;
      match mask_length 32 32 m with
      | Some n => Some n
      | None => mask_length 32 32 (N.lxor m (2 ^ 32 - 1))
      end
  end.

Record ip_network : Type := IpNetwork { net_ver : ip_version; net_len : N; net_int : N }.

Definition network_of (v : ip_version) (addr : option N) (len : option N) : option ip_network :=
  a ← addr; n ← len; Some (IpNetwork v n (N.land a (mask_of (ip_width v) n))).

Definition ip_network_of (s : str) : option ip_network :=
  match split_on 47 s with
  | [a] =>
      match network_of V4 (ip4_int a) (Some 32) with
      | Some n => Some n
      | None => network_of V6 (ip6_scoped a) (Some 128)
      end
  | [a; m] =>
      match network_of V4 (ip4_int a) (netmask_of V4 m) with
      | Some n => Some n
      | None => network_of V6 (ip6_scoped a) (netmask_of V6 m)
      end
  | _ => None
  end.

(** [addr in network] *)
Definition in_network (a : ip_addr) (n : ip_network) : bool :=
  bool_decide (ip_ver a = net_ver n)
  && (N.land (ip_int a) (mask_of (ip_width (net_ver n)) (net_len n)) =? net_int n).

(** ** Lemmas *)

(** Masking keeps the leading bits. *)
Lemma land_mask width len a :
  len <= width → a < 2 ^ width →
  N.land a (mask_of width len) = a / 2 ^ (width - len) * 2 ^ (width - len).
Proof.
  intros Hl Ha. unfold mask_of.
  assert (2 ^ width - 2 ^ (width - len) = N.shiftl (N.ones len) (width - len)) as ->.
  { rewrite N.shiftl_mul_pow2, N.ones_equiv, N.pred_sub, N.mul_sub_distr_r, N.mul_1_l, <- N.pow_add_r.
    do 2 f_equal. lia. }
  rewrite <- N.shiftr_div_pow2, <- N.shiftl_mul_pow2. apply N.bits_inj. intros i.
  rewrite N.land_spec. destruct (N.lt_ge_cases i (width - len)) as [Hi|Hi].
  - by rewrite !N.shiftl_spec_low, andb_false_r.
  - rewrite !N.shiftl_spec_high' by done. rewrite N.shiftr_spec', N.sub_add by done.
    destruct (N.lt_ge_cases (i - (width - len)) len) as [Hk|Hk].
    + by rewrite N.ones_spec_low, andb_true_r.
    + rewrite N.ones_spec_high, andb_false_r by done. symmetry. destruct (N.eq_dec a 0) as [->|Hne]; [apply N.bits_0|].
      apply N.bits_above_log2. apply N.log2_lt_pow2; [lia|].
      eapply N.lt_le_trans; [exact Ha|]. apply N.pow_le_mono_r; lia.
Qed.

(** An address is in a network exactly when it has its version and its leading
    bits. *)
Lemma in_network_prefix v len base a :
  len <= ip_width v → base < 2 ^ ip_width v → a < 2 ^ ip_width v →
  in_network (IpAddr v a) (IpNetwork v len (N.land base (mask_of (ip_width v) len))) = true
  ↔ a / 2 ^ (ip_width v - len) = base / 2 ^ (ip_width v - len).
Proof.
  intros Hl Hb Ha. unfold in_network. simpl. rewrite bool_decide_eq_true_2 by done. simpl.
  rewrite N.eqb_eq, !land_mask by done. split; [|by intros ->].
  intros Hm. apply N.mul_cancel_r in Hm; [done|]. by apply N.pow_nonzero.
Qed.

Example ip_run :
  ip_address (u "10.1.2.3") = Some (IpAddr V4 0x0a010203)
  ∧ ip_address (u "010.1.2.3") = None
  ∧ ip_address (u "2001:db8::1") = Some (IpAddr V6 0x20010db8000000000000000000000001)
  ∧ ip_address (u "::ffff:10.0.0.1") = Some (IpAddr V6 0xffff0a000001)
  ∧ ip_address (u "1:2:3:4:5:6:7:8:9") = None ∧ ip_address (u ":::") = None ∧ ip_address (u "::") = Some (IpAddr V6 0)
  ∧ (in_network (IpAddr V4 0x0a010203) <$> ip_network_of (u "10.1.0.7/16")) = Some true
  ∧ (in_network (IpAddr V4 0x0a010203) <$> ip_network_of (u "10.1.0.0/255.255.0.0")) = Some true
  ∧ (in_network (IpAddr V4 0x0a020203) <$> ip_network_of (u "10.1.0.0/0.0.255.255")) = Some false
  ∧ (in_network (IpAddr V6 0xffff0a000001) <$> ip_network_of (u "10.0.0.0/8")) = Some false
  ∧ ip_network_of (u "10.0.0.0/33") = None.
Proof. by vm_compute. Qed.
Close Scope N_scope.
