(* ===== verification/Config.v ===== *)
(** Application configuration, [libs/config/loader.py]: the validated sections
    with their defaults. YAML and the validating library are not part of the
    repository; the code that reads settings back from the database relies on
    the library accepting input that already has the declared types, which is
    what [ConfigLaws] states. *)

From stdpp Require Import prelude list strings.
From Stdlib Require Import ZArith Lia.
From Stdlib Require Strings.String.
From S2P Require Import Prelude PySeq PyBytes PyStr Json.

Open Scope Z_scope.

Record InstanceConfig : Type := { in_id : str; in_cluster_name : str; in_lan_ip : str }.

Record LdapConfig : Type := {
  ld_server : str;
  ld_mode : str;
  ld_port : Z;
  ld_tls_verify : bool;
  ld_bind_dn : str;
  ld_bind_password : str;
  ld_users_dn : str;
  ld_domain : str;
  ld_user_filter : str;
}.

Record DatabaseConfig : Type := { db_url : str; db_pool_size : Z; db_max_overflow : Z; db_echo : bool }.

(** [timeout] is a number as JSON writes it. *)
Record DnsConfig : Type := { dns_servers : list str; dns_timeout : json; dns_cache_ttl : Z }.

Record ProxyConfig : Type := {
  px_public_host : str;
  px_public_port : Z;
  px_cert_path : str;
  px_key_path : str;
  px_secure_cookies : bool;
}.

Record PortalConfig : Type := { po_host : str; po_port : Z }.

Record AdminConfig : Type := {
  ad_host : str;
  ad_port : Z;
  ad_allowed_networks : list str;
  ad_secure_cookies : bool;
}.

Record RdpRelayConfig : Type := {
  rl_host : str;
  rl_port : Z;
  rl_proxy_protocol : bool;
  rl_trusted_proxies : list str;
  rl_max_connections : Z;
  rl_idle_timeout : Z;
  rl_max_session_duration : Z;
}.

Record RedisConfig : Type := {
  rc_host : str;
  rc_port : Z;
  rc_password : str;
  rc_db : Z;
  rc_web_session_ttl : Z;
  rc_web_idle_ttl : Z;
  rc_rdp_token_ttl : Z;
}.

Record SecurityConfig : Type := {
  sc_encryption_key : str;
  sc_token_fingerprint_enforce : bool;
  sc_login_attempts_per_minute : Z;
  sc_login_lock_seconds : Z;
  sc_admin_groups : list str;
  sc_delete_token_on_disconnect : bool;
}.

Record AppConfig : Type := {
  c_instance : InstanceConfig;
  c_ldap : option LdapConfig;
  c_database : DatabaseConfig;
  c_dns : DnsConfig;
  c_proxy : ProxyConfig;
  c_portal : PortalConfig;
  c_admin : AdminConfig;
  c_rdp_relay : RdpRelayConfig;
  c_redis : RedisConfig;
  c_security : SecurityConfig;
}.

Definition default_instance : InstanceConfig :=
  {| in_id := u "node-1"; in_cluster_name := u "rdpproxy-prod"; in_lan_ip := u "0.0.0.0" |}.
Definition default_database (url : str) : DatabaseConfig :=
  {| db_url := url; db_pool_size := 20; db_max_overflow := 10; db_echo := false |}.
Definition default_dns : DnsConfig :=
  {| dns_servers := []; dns_timeout := JFloat (u "3.0"); dns_cache_ttl := 300 |}.
Definition default_proxy : ProxyConfig :=
  {| px_public_host := u "rdp.example.com"; px_public_port := 443; px_cert_path := []; px_key_path := [];
     px_secure_cookies := true |}.
Definition default_portal : PortalConfig := {| po_host := u "0.0.0.0"; po_port := 8001 |}.
Definition default_admin : AdminConfig :=
  {| ad_host := u "0.0.0.0"; ad_port := 9090; ad_allowed_networks := []; ad_secure_cookies := false |}.
Definition default_rdp_relay : RdpRelayConfig :=
  {| rl_host := u "0.0.0.0"; rl_port := 8002; rl_proxy_protocol := true; rl_trusted_proxies := []; rl_max_connections := 500;
     rl_idle_timeout := 3600; rl_max_session_duration := 0 |}.
Definition default_redis : RedisConfig :=
  {| rc_host := u "redis"; rc_port := 6379; rc_password := []; rc_db := 0;
     rc_web_session_ttl := 28800; rc_web_idle_ttl := 1800; rc_rdp_token_ttl := 300 |}.
Definition default_security (encryption_key : str) : SecurityConfig :=
  {| sc_encryption_key := encryption_key; sc_token_fingerprint_enforce := true;
     sc_login_attempts_per_minute := 8; sc_login_lock_seconds := 120; sc_admin_groups := [];
     sc_delete_token_on_disconnect := false |}.

(** [AppConfig(database=..., security=...)] with everything else left out. *)
Definition default_config (url encryption_key : str) : AppConfig := {|
  c_instance := default_instance; c_ldap := None; c_database := default_database url; c_dns := default_dns;
  c_proxy := default_proxy; c_portal := default_portal;
  c_admin := default_admin; c_rdp_relay := default_rdp_relay; c_redis := default_redis;
  c_security := default_security encryption_key |}.

(** ** [model_dump] *)

Definition ldap_dump (c : LdapConfig) : dict := [
  (u "server", JStr (ld_server c)); (u "mode", JStr (ld_mode c)); (u "port", JInt (ld_port c));
  (u "tls_verify", JBool (ld_tls_verify c)); (u "bind_dn", JStr (ld_bind_dn c));
  (u "bind_password", JStr (ld_bind_password c)); (u "users_dn", JStr (ld_users_dn c));
  (u "domain", JStr (ld_domain c)); (u "user_filter", JStr (ld_user_filter c))].

Definition dns_dump (c : DnsConfig) : dict := [
  (u "servers", JList (map JStr (dns_servers c))); (u "timeout", dns_timeout c);
  (u "cache_ttl", JInt (dns_cache_ttl c))].

Definition security_dump (c : SecurityConfig) : dict := [
  (u "encryption_key", JStr (sc_encryption_key c));
  (u "token_fingerprint_enforce", JBool (sc_token_fingerprint_enforce c));
  (u "login_attempts_per_minute", JInt (sc_login_attempts_per_minute c));
  (u "login_lock_seconds", JInt (sc_login_lock_seconds c));
  (u "admin_groups", JList (map JStr (sc_admin_groups c)));
  (u "delete_token_on_disconnect", JBool (sc_delete_token_on_disconnect c))].

(** ** Validation *)

(** [LdapConfig] and [DnsConfig] from a dict: the library's doing. *)
Class Config : Type := {
  ldap_config : dict → res LdapConfig;
  dns_config : dict → res DnsConfig;
}.

(** The configuration file: the reader of YAML, and the validation of the whole. *)
Class ConfigFile : Type := { yaml_load : str → res json; app_config : dict → res AppConfig }.
(** [load_config]; [file]: the text of the file, or the exception of reading it. *)
Definition load_config `{ConfigFile} (file : res str) : res AppConfig :=
  text ← file;
  data ← yaml_load text;
  match data with JObj d => app_config d | _ => Err ValueError end.

(** A field that is there with its declared type, or absent with its default. *)
Definition str_value (d : dict) (k : str) (default_ : option str) : option str :=
  match dict_get k d with Some (JStr s) => Some s | Some _ => None | None => default_ end.
Definition int_value (d : dict) (k : str) (default_ : Z) : option Z :=
  match dict_get k d with Some (JInt z) => Some z | Some _ => None | None => Some default_ end.
Definition bool_value (d : dict) (k : str) (default_ : bool) : option bool :=
  match dict_get k d with Some (JBool b) => Some b | Some _ => None | None => Some default_ end.

(** A section whose fields have exactly the declared types. *)
Definition typed_ldap (d : dict) : option LdapConfig :=
  server ← str_value d (u "server") None;
  mode ← str_value d (u "mode") (Some (u "plain"));
  port ← int_value d (u "port") 389;
  tls_verify ← bool_value d (u "tls_verify") false;
  bind_dn ← str_value d (u "bind_dn") None;
  bind_password ← str_value d (u "bind_password") None;
  users_dn ← str_value d (u "users_dn") None;
  domain ← str_value d (u "domain") None;
  user_filter ← str_value d (u "user_filter") (Some []);
  Some {| ld_server := server; ld_mode := mode; ld_port := port; ld_tls_verify := tls_verify;
          ld_bind_dn := bind_dn; ld_bind_password := bind_password; ld_users_dn := users_dn;
          ld_domain := domain; ld_user_filter := user_filter |}.

Class ConfigLaws `{Config} : Prop := {
  ldap_config_typed d c : typed_ldap d = Some c → ldap_config d = Ok c;
}.

(** A validator that accepts exactly typed input. *)
#[export] Instance strict_config : Config := {|
  ldap_config d := typed_ldap d ?? ValueError;
  dns_config d :=
    match dict_get (u "servers") d, int_value d (u "cache_ttl") 300 with
    | None, Some ttl => Ok {| dns_servers := []; dns_timeout := dict_get_or (u "timeout") (JFloat (u "3.0")) d;
                              dns_cache_ttl := ttl |}
    | _, _ => Err ValueError
    end;
|}.

#[export] Instance strict_config_laws : ConfigLaws.
Proof. constructor. intros d c E. simpl. by rewrite E. Qed.

Example ldap_dump_run c : typed_ldap (ldap_dump c) = Some c.
Proof. destruct c. vm_compute. reflexivity. Qed.
Close Scope Z_scope.
