(* ===== verification/Dns.v ===== *)
(** The DNS resolver, [libs/common/dns_resolver.py]: an address is its own
    answer, a cached answer is used for its lifetime, anything else is asked.
    [query] is what the library's resolver answers. *)

From stdpp Require Import prelude gmap list strings.
From Stdlib Require Import ZArith Lia.
From Stdlib Require Strings.String.
From S2P Require Import Prelude PySeq PyBytes PyStr PyIp.

Open Scope Z_scope.

Record cache_record : Type := CacheRecord { cr_ip : str; cr_ts : Z }.

Record DnsResolver : Type := {
  dr_cache_ttl : Z;
  dr_cache : gmap str cache_record;
}.

Definition is_ip (value : str) : bool := if ip_address value is Some _ then true else false.

(** [now] in milliseconds; [query h]: the first A record, or the exception. *)
Definition resolve (query : str → res str) (now : Z) (host : str) : io DnsResolver str :=
  let h := strip host in
  if bool_decide (h = []) then io_raise ValueError
  else if is_ip h then mret h
  else
    r ← io_get;
    match dr_cache r !! h with
    | Some item =>
        if now - cr_ts item <=? 1000 * dr_cache_ttl r then mret (cr_ip item)
        else
          ip ← io_lift (query h);
          _ ← io_modify (λ r, {| dr_cache_ttl := dr_cache_ttl r;
                                 dr_cache := <[h := CacheRecord ip now]> (dr_cache r) |});
          mret ip
    | None =>
        ip ← io_lift (query h);
        _ ← io_modify (λ r, {| dr_cache_ttl := dr_cache_ttl r;
                               dr_cache := <[h := CacheRecord ip now]> (dr_cache r) |});
        mret ip
    end.

(** ** Lemmas *)

Lemma resolve_address query now host r :
  is_ip (strip host) = true → strip host ≠ [] → resolve query now host r = (Ok (strip host), r).
Proof. intros Hip Hne. unfold resolve. by rewrite bool_decide_eq_false_2, Hip. Qed.

(** An answer is repeated for its lifetime, whatever the servers say then. *)
Lemma resolve_cached query query' now now' host ip r :
  strip host ≠ [] → is_ip (strip host) = false → dr_cache r !! strip host = None →
  query (strip host) = Ok ip → now' - now <= 1000 * dr_cache_ttl r →
  ∃ r', resolve query now host r = (Ok ip, r') ∧ resolve query' now' host r' = (Ok ip, r').
Proof.
  intros Hne Hip Hc Hq Hnow. eexists. split.
  - unfold resolve. rewrite bool_decide_eq_false_2, Hip, io_bind_run by done. unfold io_get. rewrite Hc.
    rewrite io_bind_run. unfold io_lift. rewrite Hq. reflexivity.
  - unfold resolve. rewrite bool_decide_eq_false_2, Hip, io_bind_run by done. unfold io_get.
    cbn [dr_cache dr_cache_ttl]. rewrite lookup_insert_eq. cbn [cr_ts cr_ip].
    by rewrite (proj2 (Z.leb_le _ _)).
Qed.
Close Scope Z_scope.
