(* ===== verification/Settings.v ===== *)
(** The settings manager, [libs/config/settings_manager.py], and the settings
    routes of the administration, [services/admin/routes/settings.py]: settings
    in the database, a cache in memory, hooks and a notification on change, and
    the seeding of an empty database from the configuration file. One call runs
    at one instant; [jsonb] values are kept as they are written. *)

From stdpp Require Import prelude gmap list strings.
From Stdlib Require Import ZArith Lia.
From Stdlib Require Strings.String.
From S2P Require Import Prelude PySeq PyBytes PyStr Json Config Encryption Database Models.

Open Scope Z_scope.

(** ** Dictionaries *)

(** [{**a, **b}] *)
Definition dict_merge (a b : dict) : dict := foldl (λ d kv, dict_set kv.1 kv.2 d) a b.
(** [d.pop(k, None)] on a copy. *)
Definition dict_pop (k : str) (d : dict) : dict := List.filter (λ kv, negb (bool_decide (kv.1 = k))) d.
Definition dict_has (k : str) (d : dict) : bool := if dict_get k d is Some _ then true else false.
(** [{k: v for k, v in a.items() if k not in b}] *)
Definition dict_missing (a b : dict) : dict := List.filter (λ kv, negb (dict_has kv.1 b)) a.

(** [int(float(lexeme))]: floating-point numbers are not modelled. *)
Class Floats : Type := { float_int : str → Z }.

(** [int(v)] when [isinstance(v, (int, float))]. *)
Definition number_int `{Floats} (v : json) : option Z :=
  match v with
  | JInt z => Some z
  | JBool b => Some (if b then 1 else 0)
  | JFloat s => Some (float_int s)
  | _ => None
  end.

Definition MANAGED_KEYS : list str :=
  [u "ldap"; u "dns"; u "proxy"; u "security"; u "redis_ttl"; u "portal"; u "relay"].

Definition SECRET_AAD : bytes := bl "portal_settings:ldap:bind_password".

(** The manager and what it reaches: the table, and the notifications sent. *)
Record settings (D : Type) : Type := Settings {
  se_db : D;
  se_cache : gmap str dict;
  se_loaded_at : Z;
  se_seeded : bool;
  se_published : list str;
}.
Arguments Settings {D}. Arguments se_db {D}. Arguments se_cache {D}.
Arguments se_loaded_at {D}. Arguments se_seeded {D}. Arguments se_published {D}.

(** How a manager is built: the base configuration and the key. *)
Record SettingsManager : Type := { sm_base : AppConfig; sm_key : bytes }.

Definition SETTINGS_TTL : Z := 30000.

Section Manager.
Context {D : Type} `{Table str PortalSetting D} `{AESGCM} `{Config} `{Floats}.
(** The process around the manager, and the callbacks it registers with
    [on_change]. *)
Context {A : Type} (hooks : str → list (dict → io (settings D * A) unit)).
Implicit Types (m : SettingsManager) (now : Z).

Definition with_db (s : settings D) (d : D) : settings D :=
  Settings d (se_cache s) (se_loaded_at s) (se_seeded s) (se_published s).
Definition with_cache (s : settings D) (c : gmap str dict) : settings D :=
  Settings (se_db s) c (se_loaded_at s) (se_seeded s) (se_published s).
Definition on_table {A} (x : io D A) : io (settings D) A :=
  io_zoom se_db (λ d s, with_db s d) (io_transaction x).
Definition on_settings {X} (x : io (settings D) X) : io (settings D * A) X :=
  io_zoom fst (λ s p, (s, p.2)) x.
Definition set_cache (key : str) (v : dict) : io (settings D) unit :=
  io_modify (λ s, with_cache s (<[key := v]> (se_cache s))).

(** ** Secrets *)

Definition encrypt_password m (nonce : bytes) (plaintext : json) : res str :=
  match plaintext with JStr p => encrypt (sm_key m) nonce p SECRET_AAD | _ => Err OtherError end.
Definition decrypt_password m (blob : json) : res str :=
  match blob with JStr b => decrypt (sm_key m) b SECRET_AAD | _ => Err TypeError end.

(** The stored form of an [ldap] section: no password, or an encrypted one. *)
Definition seal m (nonce : bytes) (key : str) (value : dict) : res dict :=
  if bool_decide (key = u "ldap") && dict_has (u "bind_password") value then
    let pwd := dict_get_or (u "bind_password") JNull value in
    let store_value := dict_pop (u "bind_password") value in
    if truthy pwd then
      blob ← encrypt_password m nonce pwd;
      Ok (dict_set (u "bind_password_enc") (JStr blob) store_value)
    else Ok store_value
  else Ok value.

(** [listen_port] is dropped when [public_port] is there. *)
Definition drop_listen_port (key : str) (by_ d : dict) : dict :=
  if bool_decide (key = u "proxy") && dict_has (u "public_port") by_
  then dict_pop (u "listen_port") d else d.

(** ** The fallback *)

Definition proxy_fallback (c : AppConfig) : dict := [
  (u "public_host", JStr (px_public_host (c_proxy c)));
  (u "public_port", JInt (px_public_port (c_proxy c)))].
Definition redis_fallback (c : AppConfig) : list (str * Z) := [
  (u "web_session_ttl", rc_web_session_ttl (c_redis c));
  (u "web_idle_ttl", rc_web_idle_ttl (c_redis c));
  (u "rdp_token_ttl", rc_rdp_token_ttl (c_redis c))].
Definition relay_fallback (c : AppConfig) : list (str * Z) := [
  (u "max_connections", rl_max_connections (c_rdp_relay c));
  (u "idle_timeout", rl_idle_timeout (c_rdp_relay c));
  (u "max_session_duration", rl_max_session_duration (c_rdp_relay c))].
Definition int_items (l : list (str * Z)) : dict := map (λ kv, (kv.1, JInt kv.2)) l.

Definition get_fallback (c : AppConfig) (key : str) : option dict :=
  if bool_decide (key = u "ldap") then ldap_dump <$> c_ldap c
  else if bool_decide (key = u "dns") then Some (dns_dump (c_dns c))
  else if bool_decide (key = u "proxy") then Some (proxy_fallback c)
  else if bool_decide (key = u "security") then Some (dict_pop (u "encryption_key") (security_dump (c_security c)))
  else if bool_decide (key = u "redis_ttl") then Some (int_items (redis_fallback c))
  else if bool_decide (key = u "relay") then Some (int_items (relay_fallback c))
  else if bool_decide (key = u "portal") then Some [(u "name", JStr (u "RDP-Proxy"))]
  else None.

(** ** Seeding *)

(** [session.get(PortalSetting, key)], then [row.value = v]. *)
Definition set_value (key : str) (v : json) : io D unit :=
  _ ← db_update (K := str) (λ r, bool_decide (ps_key r = key)) (λ r, {| ps_key := ps_key r; ps_value := v |});
  mret tt.

Definition seed_key m (nonce : bytes) (key : str) : io (settings D) unit :=
  match get_fallback (sm_base m) key with
  | None => mret tt
  | Some fallback =>
      if bool_decide (fallback = []) then mret tt
      else
        s ← io_get;
        match se_cache s !! key with
        | None =>
            store_value ← io_lift (seal m nonce key fallback);
            io_try (match db_get key (se_db s) with
                    | None =>
                        _ ← on_table (db_insert (K := str) {| ps_key := key; ps_value := JObj store_value |});
                        set_cache key store_value
                    | Some _ => mret tt
                    end) (λ _, mret tt)
        | Some cached =>
            let patch_source := if bool_decide (key = u "ldap") then dict_pop (u "bind_password") fallback else fallback in
            let missing := dict_missing patch_source cached in
            if bool_decide (missing = []) then mret tt
            else
              io_try (match db_get key (se_db s) with
                      | Some row =>
                          match ps_value row with
                          | JObj d =>
                              let patched := dict_merge d missing in
                              _ ← on_table (set_value key (JObj patched));
                              set_cache key patched
                          | _ => mret tt
                          end
                      | None => mret tt
                      end) (λ _, mret tt)
        end
  end.

Fixpoint seed_from_yaml m (nonce : bytes) (keys : list str) : io (settings D) unit :=
  match keys with
  | [] => mret tt
  | k :: ks => _ ← seed_key m nonce k; seed_from_yaml m nonce ks
  end.

(** ** Loading, reading, saving *)

(** The rows that hold an object. *)
Definition fresh_cache (l : list PortalSetting) : gmap str dict :=
  foldl (λ c r, match ps_value r with JObj d => <[ps_key r := d]> c | _ => c end) ∅ l.

Definition fix_proxy (c : gmap str dict) : gmap str dict :=
  match c !! u "proxy" with
  | Some pxy =>
      if dict_has (u "public_port") pxy && dict_has (u "listen_port") pxy
      then <[u "proxy" := dict_pop (u "listen_port") pxy]> c else c
  | None => c
  end.

Definition load m now (nonce : bytes) : io (settings D) unit :=
  s ← io_get;
  let fresh := fix_proxy (fresh_cache (db_select (K := str) (λ _, true) (se_db s))) in
  _ ← io_modify (λ s, Settings (se_db s) fresh now (se_seeded s) (se_published s));
  if se_seeded s then mret tt
  else
    _ ← seed_from_yaml m nonce MANAGED_KEYS;
    io_modify (λ s, Settings (se_db s) (se_cache s) (se_loaded_at s) true (se_published s)).

Definition get m now (nonce : bytes) (key : str) : io (settings D) dict :=
  s ← io_get;
  _ ← (if SETTINGS_TTL <? now - se_loaded_at s then load m now nonce else mret tt);
  s ← io_get;
  match se_cache s !! key with
  | Some raw =>
      if bool_decide (key = u "ldap") && dict_has (u "bind_password_enc") raw then
        pwd ← io_lift (decrypt_password m (dict_get_or (u "bind_password_enc") JNull raw));
        mret (dict_set (u "bind_password") (JStr pwd) (dict_pop (u "bind_password_enc") raw))
      else mret raw
  | None => mret (default [] (get_fallback (sm_base m) key))
  end.

(** [on_change]: the callbacks of a key are kept in the order of their registration. *)
Definition no_hooks : str → list (dict → io (settings D * A) unit) := λ _, [].
Definition on_change (key : str) (callback : dict → io (settings D * A) unit)
    (registered : str → list (dict → io (settings D * A) unit)) : str → list (dict → io (settings D * A) unit) :=
  λ k, if bool_decide (k = key) then registered k ++ [callback] else registered k.

(** [_run_hooks]: a callback that raises stops no other. *)
Fixpoint run_callbacks (cbs : list (dict → io (settings D * A) unit)) (data : dict) : io (settings D * A) unit :=
  match cbs with
  | [] => mret tt
  | cb :: cbs' => _ ← io_try (cb data) (λ _, mret tt); run_callbacks cbs' data
  end.
Definition run_hooks_of m now (nonce : bytes) (key : str) : io (settings D * A) unit :=
  data ← on_settings (get m now nonce key); run_callbacks (hooks key) data.

(** The row [save] leaves for a section, from what is there. *)
Definition stored_value (key : str) (store_value : dict) (row : option PortalSetting) : dict :=
  match row with
  | None => drop_listen_port key store_value store_value
  | Some r =>
      match ps_value r with
      | JObj d => drop_listen_port key store_value (dict_merge d store_value)
      | _ => store_value
      end
  end.

(** [save] up to the hooks: the row, then the cached section. *)
Definition save_section m now (nonce : bytes) (key : str) (value : dict) : io (settings D) unit :=
  store_value ← io_lift (seal m nonce key value);
  s ← io_get;
  _ ← on_table (
    match db_get key (se_db s) with
    | None => db_insert (K := str) {| ps_key := key; ps_value := JObj (stored_value key store_value None) |}
    | Some r => set_value key (JObj (stored_value key store_value (Some r)))
    end);
  let cached :=
    match se_cache s !! key with
    | Some c => drop_listen_port key store_value (dict_merge c store_value)
    | None => drop_listen_port key store_value store_value
    end in
  _ ← set_cache key cached;
  io_modify (λ s, Settings (se_db s) (se_cache s) now (se_seeded s) (se_published s)).
Definition note_published (key : str) : io (settings D) unit :=
  io_modify (λ s, Settings (se_db s) (se_cache s) (se_loaded_at s) (se_seeded s) (se_published s ++ [key])).

Definition save m now (nonce : bytes) (key : str) (value : dict) (publish : bool) : io (settings D * A) unit :=
  _ ← on_settings (save_section m now nonce key value);
  _ ← run_hooks_of m now nonce key;
  if publish then on_settings (note_published key) else mret tt.

(** ** Typed accessors *)

Definition ldap m (s : settings D) : option LdapConfig :=
  match se_cache s !! u "ldap" with
  | None => c_ldap (sm_base m)
  | Some raw =>
      match (resolved ← (if dict_has (u "bind_password_enc") raw then
                           pwd ← decrypt_password m (dict_get_or (u "bind_password_enc") JNull raw);
                           Ok (dict_set (u "bind_password") (JStr pwd) (dict_pop (u "bind_password_enc") raw))
                         else Ok raw);
             let resolved :=
               match dict_get (u "bind_password") resolved, c_ldap (sm_base m) with
               | None, Some base => dict_set (u "bind_password") (JStr (ld_bind_password base)) resolved
               | _, _ => resolved
               end in
             ldap_config resolved) with
      | Ok c => Some c
      | Err _ => c_ldap (sm_base m)
      end
  end.

Definition dns m (s : settings D) : DnsConfig :=
  match se_cache s !! u "dns" with
  | None => c_dns (sm_base m)
  | Some raw => match dns_config raw with Ok c => c | Err _ => c_dns (sm_base m) end
  end.

Definition proxy_params m (s : settings D) : dict :=
  let base := sm_base m in
  match se_cache s !! u "proxy" with
  | None => proxy_fallback base
  | Some raw => [
      (u "public_host", dict_get_or (u "public_host") (JStr (px_public_host (c_proxy base))) raw);
      (u "public_port", dict_get_or (u "public_port")
         (dict_get_or (u "listen_port") (JInt (px_public_port (c_proxy base))) raw) raw)]
  end.

Definition security_params m (s : settings D) : dict :=
  let defaults := dict_pop (u "encryption_key") (security_dump (c_security (sm_base m))) in
  match se_cache s !! u "security" with
  | None => defaults
  | Some raw => dict_merge defaults (dict_pop (u "encryption_key") raw)
  end.

Definition int_params (defaults : list (str * Z)) (raw : option dict) : list (str * Z) :=
  match raw with
  | None => defaults
  | Some raw => map (λ kv, (kv.1, default kv.2 (dict_get kv.1 raw ≫= number_int))) defaults
  end.

Definition redis_ttl m (s : settings D) : list (str * Z) :=
  int_params (redis_fallback (sm_base m)) (se_cache s !! u "redis_ttl").
Definition relay_params m (s : settings D) : list (str * Z) :=
  int_params (relay_fallback (sm_base m)) (se_cache s !! u "relay").

Definition get_all_for_ui m (s : settings D) : dict :=
  (match ldap m s with
   | Some l => [(u "ldap", JObj (dict_pop (u "bind_password") (ldap_dump l)))]
   | None => []
   end) ++ [
   (u "dns", JObj (dns_dump (dns m s)));
   (u "proxy", JObj (proxy_params m s));
   (u "security", JObj (security_params m s));
   (u "redis_ttl", JObj (int_items (redis_ttl m s)));
   (u "relay", JObj (int_items (relay_params m s)));
   (u "portal", match se_cache s !! u "portal" with
                | Some (kv :: d) => JObj (kv :: d)
                | _ => JObj [(u "name", JStr (u "RDP-Proxy"))]
                end)].

(** ** Routes *)

Definition MERGE_KEYS : list str :=
  [u "ldap"; u "security"; u "proxy"; u "redis_ttl"; u "portal"; u "dns"; u "relay"].

(** [_clean_dict]: nulls and blank texts are dropped. *)
Definition clean_dict (v : dict) : dict :=
  List.filter (λ kv, match kv.2 with
                     | JNull => false
                     | JStr s => negb (bool_decide (strip s = []))
                     | _ => true
                     end) v.

(** The loop of [put_settings]: the sections are saved one after the other, and an
    unknown one stops the request where it stands. *)
Fixpoint put_sections m now (nonce : bytes) (values : dict) : io (settings D * A) unit :=
  match values with
  | [] => mret tt
  | (k, v) :: rest =>
      let key := strip k in
      if bool_decide (key = []) then put_sections m now nonce rest
      else if negb (bool_decide (key ∈ MERGE_KEYS)) && negb (bool_decide (key = u "instance"))
      then io_raise (HTTPException 400)
      else
        let d := match v with JObj d => d | _ => [(u "value", v)] end in
        let d := if bool_decide (key ∈ MERGE_KEYS) then clean_dict d else d in
        _ ← save m now nonce key d true;
        put_sections m now nonce rest
  end.
(** [reapply]: [app.state.reapply_portal_settings]. *)
Definition put_settings m now (nonce : bytes) (values : dict) (reapply : io (settings D * A) unit) : io (settings D * A) unit :=
  _ ← put_sections m now nonce values; io_try reapply (λ _, mret tt).

(** [ldap_test] up to the connection: the settings it would use. *)
Definition ldap_test m now (nonce : bytes) (body : dict) : io (settings D) LdapConfig :=
  current ← get m now nonce (u "ldap");
  values ← (match dict_get (u "ldap") body with
            | None => mret []
            | Some (JObj d) => mret d
            | Some _ => io_raise OtherError
            end);
  let merged := dict_pop (u "bind_password_enc") (dict_merge current (clean_dict values)) in
  match ldap_config merged with Ok c => mret c | Err _ => io_raise (HTTPException 400) end.
End Manager.

(** ** Lemmas on dictionaries *)

Lemma dict_get_has k d : is_Some (dict_get k d) ↔ k ∈ d.*1.
Proof.
  induction d as [|[k' v] d IH]; simpl; [split; [by intros [] | by rewrite elem_of_nil]|].
  rewrite elem_of_cons. case_bool_decide as E.
  - subst. split; eauto.
  - rewrite IH. clear IH; naive_solver.
Qed.

Lemma dict_get_None k d : dict_get k d = None ↔ k ∉ d.*1.
Proof. rewrite <- dict_get_has, eq_None_not_Some. done. Qed.

Lemma dict_has_spec k d : dict_has k d = true ↔ k ∈ d.*1.
Proof. rewrite <- dict_get_has. unfold dict_has. destruct (dict_get k d); split; try done; eauto. Qed.

Lemma dict_has_false k d : dict_has k d = false ↔ k ∉ d.*1.
Proof. rewrite <- dict_has_spec. by destruct (dict_has k d). Qed.

Lemma elem_dict_merge a b k : k ∈ (dict_merge a b).*1 ↔ k ∈ a.*1 ∨ k ∈ b.*1.
Proof.
  unfold dict_merge. revert a. induction b as [|[k0 v0] b IH]; intros a; simpl; [set_solver|].
  rewrite IH, elem_dict_set, elem_of_cons. tauto.
Qed.

Lemma elem_dict_pop k k' d : k' ∈ (dict_pop k d).*1 ↔ k' ≠ k ∧ k' ∈ d.*1.
Proof.
  unfold dict_pop. induction d as [|[k0 v0] d IH]; simpl; [set_solver|].
  rewrite elem_of_cons. case_bool_decide as E; simpl.
  - rewrite IH. naive_solver.
  - rewrite elem_of_cons, IH. naive_solver.
Qed.

Lemma elem_dict_missing a b k : k ∈ (dict_missing a b).*1 → k ∈ a.*1 ∧ k ∉ b.*1.
Proof.
  unfold dict_missing. rewrite list_elem_of_fmap. intros ([k0 v0] & -> & Hin).
  apply list_elem_of_In, List.filter_In in Hin as [Hin Hn]. simpl in *. split.
  - apply list_elem_of_fmap. exists (k0, v0). split; [done|]. by apply list_elem_of_In.
  - by apply dict_has_false, negb_true_iff.
Qed.

Lemma dict_get_pop_ne k k' d : k' ≠ k → dict_get k' (dict_pop k d) = dict_get k' d.
Proof.
  intros Hne. unfold dict_pop. induction d as [|[k0 v0] d IH]; simpl; [done|].
  case_bool_decide as E; simpl.
  - subst. by rewrite bool_decide_eq_false_2.
  - by rewrite IH.
Qed.

Lemma elem_clean k form : k ∈ (clean_dict form).*1 → k ∈ form.*1.
Proof.
  unfold clean_dict. rewrite !list_elem_of_fmap. intros (kv & -> & Hin). exists kv. split; [done|].
  apply list_elem_of_In in Hin. apply list_elem_of_In. by apply List.filter_In in Hin as [].
Qed.
Lemma NoDup_clean form : NoDup form.*1 → NoDup (clean_dict form).*1.
Proof.
  intros Hn. induction form as [|[k v] form IH]; [constructor|]. cbn [fmap list_fmap fst] in Hn. apply NoDup_cons in Hn as [Hk Hn].
  unfold clean_dict. cbn [List.filter]. fold (clean_dict form). destruct (match (k, v).2 with JNull => _ | _ => _ end); [|by apply IH].
  cbn [fmap list_fmap fst]. apply NoDup_cons. split; [|by apply IH]. intros Hin. by apply Hk, elem_clean.
Qed.

(** The value of a merge, when the keys of the second are distinct. *)
Lemma dict_get_merge a b k :
  NoDup b.*1 → dict_get k (dict_merge a b) = match dict_get k b with Some v => Some v | None => dict_get k a end.
Proof.
  unfold dict_merge. revert a. induction b as [|[k0 v0] b IH]; intros a Hn; simpl; [done|].
  apply NoDup_cons in Hn as [Hk Hn]. rewrite IH by done. case_bool_decide as E.
  - subst k0. rewrite (proj2 (dict_get_None k b)), dict_get_set_eq by done. done.
  - by rewrite dict_get_set_ne.
Qed.

(** ** Lemmas on the manager *)

Abbreviation BIND_PASSWORD := (u "bind_password").

(** A section that shows no password. *)
Definition no_password (d : dict) : Prop := BIND_PASSWORD ∉ d.*1.

(** What stands under [bind_password_enc] in a section is as [P] says. *)
Definition encs (P : json → Prop) (d : dict) : Prop := Forall (λ kv, kv.1 = u "bind_password_enc" → P kv.2) d.

(** A section as it may be stored: no password in the clear, and an encrypted one
    as [P] says. *)
Definition clean (P : json → Prop) (d : dict) : Prop := no_password d ∧ encs P d.

Lemma enc_ne_password : u "bind_password_enc" ≠ BIND_PASSWORD.
Proof. vm_compute. discriminate. Qed.

Lemma drop_listen_port_sub key b d k : k ∈ (drop_listen_port key b d).*1 → k ∈ d.*1.
Proof. unfold drop_listen_port. destruct (_ && _); [|done]. by intros [_ ?]%elem_dict_pop. Qed.

(** *** What all entries of a section have in common *)

Lemma dict_set_all (Q : str * json → Prop) k v d : Q (k, v) → Forall Q d → Forall Q (dict_set k v d).
Proof.
  intros Hv Hd. induction Hd as [|[k0 v0] d H0 Hd IH]; cbn [dict_set]; [by constructor|].
  case_bool_decide as E; [subst; by constructor|]. by constructor.
Qed.

Lemma dict_merge_all (Q : str * json → Prop) a b : Forall Q a → Forall Q b → Forall Q (dict_merge a b).
Proof.
  intros Ha Hb. unfold dict_merge. revert a Ha. induction Hb as [|[k v] b H0 _ IH]; intros a Ha; [done|].
  apply IH. by apply dict_set_all.
Qed.

Lemma filter_keeps_all (Q : str * json → Prop) f (d : dict) : Forall Q d → Forall Q (List.filter f d).
Proof. induction 1 as [|kv d H0 _ IH]; cbn [List.filter]; [done|]. destruct (f kv); [by constructor | done]. Qed.

Lemma dict_pop_all (Q : str * json → Prop) k d : Forall Q d → Forall Q (dict_pop k d).
Proof. apply filter_keeps_all. Qed.

Lemma drop_listen_port_all (Q : str * json → Prop) key b d : Forall Q d → Forall Q (drop_listen_port key b d).
Proof. intros Hd. unfold drop_listen_port. destruct (_ && _); [by apply dict_pop_all | done]. Qed.

Lemma clean_merge P a b : clean P a → clean P b → clean P (dict_merge a b).
Proof.
  intros [Ha Ha'] [Hb Hb']. split; [unfold no_password in *; rewrite elem_dict_merge; tauto | by apply dict_merge_all].
Qed.

Lemma clean_drop P key b d : clean P d → clean P (drop_listen_port key b d).
Proof. intros [Hd Hd']. split; [by intros Hin%drop_listen_port_sub | by apply drop_listen_port_all]. Qed.

(** The configuration file has no encrypted password. *)
Lemma ldap_dump_encs P c : encs P (ldap_dump c).
Proof.
  unfold encs, ldap_dump. repeat (constructor; [cbn [fst]; intros E; vm_compute in E; discriminate|]). constructor.
Qed.

Section ManagerLaws.
Context {D : Type} `{!Table str PortalSetting D} `{!TableLaws str PortalSetting D} `{AESGCM} `{Config} `{Floats}.
Context {A : Type} (hooks : str → list (dict → io (settings D * A) unit)).
Implicit Types (m : SettingsManager) (now : Z) (s : settings D) (p : settings D * A).

(** What every password that the manager encrypts becomes. *)
Definition encrypts_to m (P : json → Prop) : Prop :=
  ∀ nonce pwd blob, encrypt_password m nonce pwd = Ok blob → P (JStr blob).

Lemma seal_clean P m nonce key value v :
  encrypts_to m P → (key = u "ldap" → encs P value) → seal m nonce key value = Ok v → key = u "ldap" → clean P v.
Proof.
  intros HP Hg E ->. specialize (Hg eq_refl). revert E. unfold seal. rewrite bool_decide_eq_true_2 by done. cbn [andb].
  destruct (dict_has BIND_PASSWORD value) eqn:Eh; [|intros [= <-]; split; [by apply dict_has_false | done]].
  destruct (truthy _).
  - intros (blob & Eb & [= <-])%bind_Ok. split.
    + unfold no_password. rewrite elem_dict_set, elem_dict_pop.
      intros [Hc|[Hc _]]; [symmetry in Hc; by apply enc_ne_password in Hc | done].
    + apply dict_set_all; [intros _; by eapply HP | by apply dict_pop_all].
  - intros [= <-]. split; [unfold no_password; rewrite elem_dict_pop; by intros [] | by apply dict_pop_all].
Qed.

(** What a stored row or a cached section of [ldap] must be. *)
Definition clean_row (P : json → Prop) (r : PortalSetting) : Prop :=
  ps_key r = u "ldap" → ∀ d, ps_value r = JObj d → clean P d.
Definition sealed_with (P : json → Prop) s : Prop :=
  keyed (rows (se_db s)) ∧ map_Forall (λ _ r, clean_row P r) (rows (se_db s))
  ∧ ∀ d, se_cache s !! u "ldap" = Some d → clean P d.
(** No password in the clear, whatever stands under [bind_password_enc]. *)
Definition sealed s : Prop := sealed_with (λ _, True) s.

(** A new value for a key, or nothing when the row does not fit. *)
Lemma set_value_cases key v (d : D) :
  keyed (rows d) →
  (∃ d', set_value key v d = (Ok tt, d')
    ∧ rows d' = alter (λ r, {| ps_key := ps_key r; ps_value := v |}) key (rows d))
  ∨ text_fits 128 key = false ∧ set_value key v d = (Err DataError, d).
Proof.
  intros Hk. unfold set_value. rewrite io_bind_run.
  set (p := λ r, bool_decide (ps_key r = key)). set (f := λ r, {| ps_key := ps_key r; ps_value := v |}).
  assert ((∀ r, rows d !! key = Some r → text_fits 128 (ps_key r) = true)
          ∨ ∃ r, rows d !! key = Some r ∧ text_fits 128 (ps_key r) = false) as [Hf|(r & Er & Hf)].
  { destruct (rows d !! key) as [r|]; [|by left]. destruct (text_fits 128 (ps_key r)) eqn:E;
      [left; by intros r' [= <-] | right; eauto]. }
  - left. destruct (db_update_one p f d key) as (d' & -> & Hd').
    + done.
    + intros r Hr. by apply bool_decide_eq_true in Hr.
    + done.
    + intros r Hr _. exact (Hf r Hr).
    + exact I.
    + exists d'. split; [done|]. rewrite Hd'. apply alter_ext. intros r Hr. unfold p, f.
      by rewrite (bool_decide_eq_true_2 (ps_key r = key) (Hk key r Hr)).
  - right. rewrite <- (Hk key r Er) at 1. split; [exact Hf|].
    rewrite (update_unfit p f d); [reflexivity|]. exists key, r. split; [done|]. split; [|exact Hf].
    apply bool_decide_eq_true. by apply (Hk key).
Qed.

Lemma insert_cases r (d : D) :
  (∃ d', db_insert (K := str) r d = (Ok tt, d') ∧ rows d' = <[ps_key r := r]> (rows d) ∧ rows d !! ps_key r = None)
  ∨ ∃ e, db_insert (K := str) r d = (Err e, d).
Proof.
  destruct (text_fits 128 (ps_key r)) eqn:Ef; [|right; exists DataError; by apply insert_unfit].
  destruct (rows d !! ps_key r) as [x|] eqn:Ex.
  - right. exists IntegrityError. apply insert_duplicate; [done|]. left. exists x. exact Ex.
  - left. destruct (insert_law r d) as (d' & E & Hd'); [done | done | exact I |]. eauto.
Qed.

Section Sealed.
Context (P : json → Prop).
Abbreviation sealed := (sealed_with P).

(** The two writes of the manager keep the stored sections clean. *)
Lemma sealed_set_value key v s :
  sealed s → (key = u "ldap" → ∀ d, v = JObj d → clean P d) → sealed (on_table (set_value key v) s).2.
Proof.
  intros (Hk & Hr & Hc) Hv. unfold on_table, io_zoom, io_transaction.
  destruct (set_value_cases key v (se_db s) Hk) as [(d' & -> & Hd')|[_ ->]]; [|by destruct s].
  cbn [snd]. split; [|split; [|done]]; cbn [se_db with_db]; rewrite Hd'; intros k r; rewrite lookup_alter_Some.
  - intros [(-> & r0 & Hr0 & ->)|[_ Hr0]]; [by apply (Hk _ r0) | by apply Hk].
  - intros [(-> & r0 & Hr0 & ->)|[_ Hr0]]; [|by apply (Hr k)]. intros Hl. simpl in *. apply Hv.
    rewrite <- Hl. symmetry. by apply (Hk _ r0).
Qed.

Lemma sealed_insert r s : sealed s → clean_row P r → sealed (on_table (db_insert (K := str) r) s).2.
Proof.
  intros (Hk & Hr & Hc) Hclean. unfold on_table, io_zoom, io_transaction.
  destruct (insert_cases r (se_db s)) as [(d' & -> & Hd' & _)|[e ->]]; [|by destruct s].
  cbn [snd]. split; [|split; [|done]]; cbn [se_db with_db]; rewrite Hd'.
  - exact (keyed_insert r _ Hk).
  - by apply map_Forall_insert_2.
Qed.

Lemma sealed_set_cache key v s : sealed s → (key = u "ldap" → clean P v) → sealed (set_cache key v s).2.
Proof.
  intros (Hk & Hr & Hc) Hv. split; [done|]. split; [done|]. intros d. cbn [se_cache with_cache set_cache io_modify snd].
  rewrite lookup_insert_Some. intros [[-> <-]|[_ Hd]]; [by apply Hv | by apply Hc].
Qed.
(** What a sealed state holds for a key. *)
Lemma sealed_row key s row d :
  sealed s → db_get key (se_db s) = Some row → ps_value row = JObj d → key = u "ldap" → clean P d.
Proof.
  intros (Hk & Hr & _). rewrite get_law. intros Hrow Hd ->. apply (Hr _ _ Hrow); [|done]. by apply Hk.
Qed.

Lemma sealed_cached key s d : sealed s → se_cache s !! key = Some d → key = u "ldap" → clean P d.
Proof. intros (_ & _ & Hc) Hd ->. by apply Hc. Qed.

Lemma sealed_write key (x : io D unit) v s :
  (∀ s, sealed s → sealed (on_table x s).2) → (key = u "ldap" → clean P v) →
  sealed s → sealed ((_ ← on_table x; set_cache key v) s).2.
Proof.
  intros Hx Hv. apply keeps_bind; [exact Hx|]. intros _ s' Hs'. by apply sealed_set_cache.
Qed.

Lemma clean_row_of key v : (key = u "ldap" → clean P v) → clean_row P {| ps_key := key; ps_value := JObj v |}.
Proof. intros Hv Hl d [= <-]. by apply Hv. Qed.

Context (m : SettingsManager) (Hm : encrypts_to m P).

Lemma fallback_encs key fallback : get_fallback (sm_base m) key = Some fallback → key = u "ldap" → encs P fallback.
Proof.
  intros E ->. unfold get_fallback in E. rewrite bool_decide_eq_true_2 in E by done.
  destruct (c_ldap (sm_base m)) as [c|]; [|done]. injection E as <-. apply ldap_dump_encs.
Qed.

Lemma seed_key_sealed nonce key : keeps sealed (seed_key m nonce key).
Proof.
  unfold seed_key. destruct (get_fallback (sm_base m) key) as [fallback|] eqn:Ef; [|auto with py].
  pose proof (fallback_encs key fallback Ef) as Hencs.
  apply keeps_if; [auto with py|]. apply keeps_get. intros s Hs.
  destruct (se_cache s !! key) as [cached|] eqn:Ec.
  - set (src := if bool_decide (key = u "ldap") then _ else fallback).
    assert (key = u "ldap" → clean P (dict_missing src cached)) as Hmissing.
    { intros Hl. unfold src. rewrite bool_decide_eq_true_2 by done. split.
      - intros [Hin _]%elem_dict_missing. by apply elem_dict_pop in Hin as [].
      - by apply filter_keeps_all, dict_pop_all, Hencs. }
    destruct (bool_decide (dict_missing src cached = [])); [exact Hs|].
    refine (keeps_try sealed _ _ _ _ s Hs); [|auto with py].
    destruct (db_get key (se_db s)) as [row|] eqn:Er; [|apply keeps_ret].
    destruct (ps_value row) as [| | | | | |d] eqn:Ev; try apply keeps_ret.
    assert (key = u "ldap" → clean P (dict_merge d (dict_missing src cached))) as Hp.
    { intros Hl. apply clean_merge; [by eapply sealed_row | by apply Hmissing]. }
    intros s' Hs'. apply sealed_write; [|done|done].
    intros s'' Hs''. apply sealed_set_value; [done|]. intros Hl d' [= <-]. by apply Hp.
  - rewrite io_bind_run. unfold io_lift. destruct (seal m nonce key fallback) as [v|e] eqn:Ev; [|exact Hs].
    pose proof (seal_clean P _ _ _ _ _ Hm Hencs Ev) as Hv. refine (keeps_try sealed _ _ _ _ s Hs); [|auto with py].
    destruct (db_get key (se_db s)); [apply keeps_ret|].
    intros s' Hs'. apply sealed_write; [|done|done].
    intros s'' Hs''. apply sealed_insert; [done|]. by apply clean_row_of.
Qed.

Lemma seed_sealed nonce keys : keeps sealed (seed_from_yaml m nonce keys).
Proof.
  induction keys as [|k ks IH]; simpl; [apply keeps_ret|].
  apply keeps_bind; [apply seed_key_sealed | by intros _].
Qed.

(** The rows of a sealed table make a sealed cache. *)
Lemma fresh_cache_clean l d :
  (∀ r, r ∈ l → clean_row P r) → fresh_cache l !! u "ldap" = Some d → clean P d.
Proof.
  intros Hl. unfold fresh_cache.
  assert (∀ c : gmap str dict, (∀ d, c !! u "ldap" = Some d → clean P d) →
    foldl (λ c r, match ps_value r with JObj d => <[ps_key r := d]> c | _ => c end) c l !! u "ldap" = Some d →
    clean P d) as Hfold; [|by apply Hfold].
  induction l as [|r l IH]; simpl; intros c Hc; [apply Hc|].
  apply IH; [intros r' Hr'; apply Hl; by constructor|]. intros d'.
  destruct (ps_value r) as [| | | | | |v] eqn:Ev; try apply Hc.
  rewrite lookup_insert_Some. intros [[Hk <-]|[_ Hd]]; [|by apply Hc].
  apply (Hl r); [constructor | done | done].
Qed.

Lemma fix_proxy_ldap c : fix_proxy c !! u "ldap" = c !! u "ldap".
Proof.
  unfold fix_proxy. destruct (c !! u "proxy") as [pxy|]; [|done]. destruct (_ && _); [|done].
  rewrite lookup_insert_ne; [done|]. vm_compute. discriminate.
Qed.

Lemma load_kept now nonce : keeps sealed (load m now nonce).
Proof.
  unfold load. apply keeps_get. intros s Hs. revert s Hs. intros s Hs.
  rewrite io_bind_run. unfold io_modify at 1.
  assert (sealed (Settings (se_db s) (fix_proxy (fresh_cache (db_select (λ _, true) (se_db s)))) now
                    (se_seeded s) (se_published s))) as Hs'.
  { destruct Hs as (Hk & Hr & _). split; [done|]. split; [done|]. intros d. cbn [se_cache].
    rewrite fix_proxy_ldap. apply fresh_cache_clean. intros r Hin. rewrite select_law in Hin.
    apply list_elem_of_fmap in Hin as ([k r'] & -> & Hin). apply elem_of_map_to_list in Hin.
    rewrite lookup_select_rows in Hin. destruct (rows (se_db s) !! k) as [r0|] eqn:E; [|discriminate].
    injection Hin as <-. by apply (Hr k). }
  revert Hs'. apply (keeps_if sealed); [auto with py|].
  apply keeps_bind; [apply seed_sealed|]. intros _. apply keeps_modify. intros s' Hs'. exact Hs'.
Qed.

Lemma get_kept now nonce key : keeps sealed (get m now nonce key).
Proof.
  unfold get. apply keeps_get. intros s Hs. revert Hs.
  apply keeps_bind; [apply keeps_if; [apply load_kept | apply keeps_ret]|].
  intros _. apply keeps_get. intros s' Hs'. destruct (se_cache s' !! key); [|done].
  revert Hs'. apply keeps_if; [|apply keeps_ret]. apply keeps_bind; [apply keeps_lift|]. intros. apply keeps_ret.
Qed.

(** A state is sealed when the settings in it are. *)
Definition sealed_in p : Prop := sealed p.1.

Lemma on_settings_sealed {X} (x : io (settings D) X) : keeps sealed x → keeps sealed_in (on_settings x).
Proof. apply (zoom_keeps fst (λ s p, (s, p.2)) x sealed). done. Qed.

Lemma run_callbacks_sealed cbs data :
  Forall (λ cb, ∀ d, keeps sealed_in (cb d)) cbs → keeps sealed_in (run_callbacks cbs data).
Proof.
  induction 1 as [|cb cbs Hcb _ IH]; simpl; [apply keeps_ret|].
  apply keeps_bind; [|by intros _]. apply keeps_try; [apply Hcb | intros; apply keeps_ret].
Qed.

Lemma stored_value_clean key v s :
  sealed s → (key = u "ldap" → clean P v) →
  key = u "ldap" → clean P (stored_value key v (db_get key (se_db s))).
Proof.
  intros Hs Hv Hl. specialize (Hv Hl). unfold stored_value.
  destruct (db_get key (se_db s)) as [r|] eqn:Er.
  - destruct (ps_value r) as [| | | | | |d] eqn:Ed; try exact Hv.
    apply clean_drop, clean_merge; [by eapply sealed_row | done].
  - by apply clean_drop.
Qed.

Lemma save_section_kept now nonce key value :
  (key = u "ldap" → encs P value) → keeps sealed (save_section m now nonce key value).
Proof.
  intros Hg s Hs. unfold save_section. rewrite io_bind_run. unfold io_lift.
  destruct (seal m nonce key value) as [v|e] eqn:Ev; [|exact Hs]. pose proof (seal_clean P _ _ _ _ _ Hm Hg Ev) as Hv.
  rewrite io_bind_run. unfold io_get.
  pose proof (stored_value_clean key v s Hs Hv) as Hstored.
  refine (keeps_bind sealed _ _ _ _ s Hs).
  { destruct (db_get key (se_db s)) as [r|]; intros s' Hs'.
    - apply sealed_set_value; [done|]. intros Hl d [= <-]. by apply Hstored.
    - apply sealed_insert; [done|]. by apply clean_row_of. }
  intros _. apply keeps_bind.
  { intros s' Hs'. apply sealed_set_cache; [done|]. intros Hl.
    destruct (se_cache s !! key) as [c|] eqn:Ec; apply clean_drop; [|by apply Hv].
    apply clean_merge; [exact (sealed_cached key s c Hs Ec Hl) | by apply Hv]. }
  intros _. apply keeps_modify. intros s' Hs'. exact Hs'.
Qed.

Lemma save_sealed now nonce key value publish :
  (key = u "ldap" → encs P value) →
  (∀ k, Forall (λ cb, ∀ d, keeps sealed_in (cb d)) (hooks k)) →
  keeps sealed_in (save hooks m now nonce key value publish).
Proof.
  intros Hg Hhooks. unfold save.
  apply keeps_bind; [by apply on_settings_sealed, save_section_kept|]. intros _. apply keeps_bind.
  { unfold run_hooks_of. apply keeps_bind; [apply on_settings_sealed, get_kept|]. intros. by apply run_callbacks_sealed. }
  intros _. apply keeps_if; [|apply keeps_ret]. apply on_settings_sealed, keeps_modify. intros s Hs. exact Hs.
Qed.

(** The [ldap] sections of a request hold, under [bind_password_enc], what [P] says. *)
Definition request_encs (values : dict) : Prop :=
  Forall (λ kv, strip kv.1 = u "ldap" → match kv.2 with JObj d => encs P d | _ => True end) values.

Lemma put_settings_sealed now nonce values reapply :
  request_encs values →
  (∀ k, Forall (λ cb, ∀ d, keeps sealed_in (cb d)) (hooks k)) → keeps sealed_in reapply →
  keeps sealed_in (put_settings hooks m now nonce values reapply).
Proof.
  intros Hv Hhooks Hre. unfold put_settings. apply keeps_bind.
  - induction Hv as [|[k v] rest Hk _ IH]; simpl; [apply keeps_ret|].
    apply keeps_if; [exact IH|]. apply keeps_if; [apply keeps_raise|].
    apply keeps_bind; [|by intros _]. apply save_sealed; [|done]. intros Hl. specialize (Hk Hl). cbn [snd] in Hk.
    assert (encs P (match v with JObj d => d | _ => [(u "value", v)] end)) as Hd.
    { destruct v as [| | | | | |d]; try exact Hk;
        (constructor; [cbn [fst]; intros E; vm_compute in E; discriminate | constructor]). }
    destruct (bool_decide _); [by apply filter_keeps_all | exact Hd].
  - intros _. apply keeps_try; [exact Hre | intros; apply keeps_ret].
Qed.
End Sealed.

Lemma on_settings_run {X} (x : io (settings D) X) s (a : A) r s' :
  x s = (r, s') → on_settings x (s, a) = (r, (s', a)).
Proof. intros E. unfold on_settings, io_zoom. cbn [fst snd]. by rewrite E. Qed.

(** Without a word on what is encrypted. *)
Lemma get_sealed m now nonce key : keeps sealed (get m now nonce key).
Proof. by apply get_kept. Qed.

Lemma save_section_sealed m now nonce key value : keeps sealed (save_section m now nonce key value).
Proof. apply save_section_kept; [done|]. intros _. by apply Forall_true. Qed.
End ManagerLaws.

(** ** Saving and reading the directory's settings *)

Section Directory.
Context {D : Type} `{!Table str PortalSetting D} `{!TableLaws str PortalSetting D} `{AESGCM} `{Config} `{Floats}.
Implicit Types (m : SettingsManager) (now : Z) (s : settings D).

(** Literals are compared as texts, never unfolded. *)
#[local] Opaque u.

Definition LDAP_FIELDS : list str := (ldap_dump {| ld_server := []; ld_mode := []; ld_port := 0;
  ld_tls_verify := false; ld_bind_dn := []; ld_bind_password := []; ld_users_dn := []; ld_domain := [];
  ld_user_filter := [] |}).*1.

Lemma ldap_dump_keys c : (ldap_dump c).*1 = LDAP_FIELDS.
Proof. reflexivity. Qed.

Lemma typed_ldap_ext d d' : Forall (λ k, dict_get k d = dict_get k d') LDAP_FIELDS → typed_ldap d = typed_ldap d'.
Proof.
  unfold LDAP_FIELDS. cbn [ldap_dump fmap list_fmap fst]. rewrite !Forall_cons.
  intros (E1 & E2 & E3 & E4 & E5 & E6 & E7 & E8 & E9 & _). unfold typed_ldap, str_value, int_value, bool_value.
  by rewrite E1, E2, E3, E4, E5, E6, E7, E8, E9.
Qed.

(** What [seal] makes of a full section. *)
Definition sealed_dump (c : LdapConfig) (blob : str) : dict :=
  dict_set (u "bind_password_enc") (JStr blob) (dict_pop BIND_PASSWORD (ldap_dump c)).

Lemma NoDup_dict_pop k d : NoDup d.*1 → NoDup (dict_pop k d).*1.
Proof.
  unfold dict_pop. induction d as [|[k0 v0] d IH]; simpl; intros Hn; [done|]. apply NoDup_cons in Hn as [Hk Hn].
  case_bool_decide as E; simpl; [by apply IH|]. constructor; [|by apply IH].
  intros Hin. apply Hk. by apply (elem_dict_pop k k0 d).
Qed.

Lemma enc_not_field : u "bind_password_enc" ∉ LDAP_FIELDS.
Proof. apply (bool_decide_eq_false_1 (u "bind_password_enc" ∈ LDAP_FIELDS)). vm_compute. reflexivity. Qed.

Lemma NoDup_fields : NoDup LDAP_FIELDS.
Proof. apply (bool_decide_eq_true_1 (NoDup LDAP_FIELDS)). vm_compute. reflexivity. Qed.

Lemma sealed_dump_get c blob k :
  k ∈ LDAP_FIELDS → k ≠ BIND_PASSWORD →
  dict_get k (sealed_dump c blob) = dict_get k (ldap_dump c) ∧ k ≠ u "bind_password_enc".
Proof.
  intros Hk Hne. assert (k ≠ u "bind_password_enc") as Hne'.
  { intros ->. by apply enc_not_field. }
  split; [|exact Hne']. unfold sealed_dump.
  rewrite dict_get_set_ne by exact Hne'. rewrite dict_get_pop_ne by exact Hne. reflexivity.
Qed.

(** A section that holds a configuration, its password sealed. *)
Definition holds (d : dict) (c : LdapConfig) (blob : str) : Prop :=
  (∀ k, k ∈ LDAP_FIELDS → k ≠ BIND_PASSWORD → dict_get k d = dict_get k (ldap_dump c))
  ∧ dict_get (u "bind_password_enc") d = Some (JStr blob).

Lemma holds_sealed c blob : holds (sealed_dump c blob) c blob.
Proof.
  split; [|apply dict_get_set_eq]. intros k Hk Hne. by destruct (sealed_dump_get c blob k Hk Hne).
Qed.

(** Whatever else a section held, the sealed one over it prevails. *)
Lemma holds_merge c blob old : holds (dict_merge old (sealed_dump c blob)) c blob.
Proof.
  assert (NoDup (sealed_dump c blob).*1) as Hn.
  { apply NoDup_dict_set, NoDup_dict_pop. rewrite ldap_dump_keys. exact NoDup_fields. }
  split.
  - intros k Hk Hne. destruct (sealed_dump_get c blob k Hk Hne) as [Hg _].
    rewrite dict_get_merge, Hg by exact Hn.
    rewrite <- (ldap_dump_keys c) in Hk. apply dict_get_has in Hk as [v ->]. reflexivity.
  - rewrite dict_get_merge by exact Hn. unfold sealed_dump. by rewrite dict_get_set_eq.
Qed.

Lemma holds_resolves d c blob :
  holds d c blob →
  typed_ldap (dict_set BIND_PASSWORD (JStr (ld_bind_password c)) (dict_pop (u "bind_password_enc") d)) = Some c.
Proof.
  intros [Hd _]. rewrite <- (ldap_dump_run c). apply typed_ldap_ext. apply Forall_forall. intros k Hk.
  destruct (decide (k = BIND_PASSWORD)) as [->|Hne]; [rewrite dict_get_set_eq; by destruct c|].
  rewrite dict_get_set_ne by exact Hne. rewrite dict_get_pop_ne; [by apply Hd|].
  intros ->. by apply enc_not_field.
Qed.

Lemma ldap_of_section `{!ConfigLaws} m s d c blob :
  se_cache s !! u "ldap" = Some d → holds d c blob →
  decrypt_password m (JStr blob) = Ok (ld_bind_password c) → ldap m s = Some c.
Proof.
  intros Hc Hd Hp. unfold ldap. rewrite Hc. pose proof Hd as [_ He].
  unfold dict_has, dict_get_or. rewrite He. cbn [default from_option]. unfold default, from_option, id.
  rewrite Hp. cbn [mbind res_bind]. rewrite dict_get_set_eq.
  by rewrite (ldap_config_typed _ c (holds_resolves d c blob Hd)).
Qed.

Lemma seal_dump_run `{!AESGCMLaws} m nonce c :
  length (sm_key m) = 32%nat → length nonce = 12%nat → Forall scalar (ld_bind_password c) → ld_bind_password c ≠ [] →
  ∃ blob, seal m nonce (u "ldap") (ldap_dump c) = Ok (sealed_dump c blob)
    ∧ decrypt_password m (JStr blob) = Ok (ld_bind_password c).
Proof.
  intros Hk Hn Ht Hne. destruct (decrypt_encrypt (sm_key m) nonce (ld_bind_password c) SECRET_AAD Hk Hn Ht)
    as (blob & Ee & Ed & _). exists blob. split; [|exact Ed].
  assert (dict_get BIND_PASSWORD (ldap_dump c) = Some (JStr (ld_bind_password c))) as Hget
    by (destruct c; vm_compute; reflexivity).
  unfold seal, dict_has, dict_get_or. rewrite bool_decide_eq_true_2 by reflexivity. rewrite Hget.
  cbn [andb default from_option]. unfold default, from_option, id, truthy.
  rewrite bool_decide_eq_false_2 by exact Hne. cbn [negb].
  unfold encrypt_password. by rewrite Ee.
Qed.

Lemma drop_listen_port_ldap b d : drop_listen_port (u "ldap") b d = d.
Proof.
  unfold drop_listen_port. rewrite bool_decide_eq_false_2; [done|]. vm_compute. discriminate.
Qed.

(** The cache that a load makes of the rows. *)
Lemma fresh_cache_lookup l r d :
  NoDup (map ps_key l) → r ∈ l → ps_value r = JObj d → fresh_cache l !! ps_key r = Some d.
Proof.
  unfold fresh_cache. generalize (∅ : gmap str dict). induction l as [|r0 l IH]; intros c Hn Hr Hd.
  { by apply elem_of_nil in Hr. }
  simpl in Hn. apply NoDup_cons in Hn as [Hr0 Hn]. apply elem_of_cons in Hr as [->|Hr]; [|by apply IH].
  simpl. rewrite Hd.
  assert (∀ (c : gmap str dict), c !! ps_key r0 = Some d →
    foldl (λ c r, match ps_value r with JObj d => <[ps_key r := d]> c | _ => c end) c l !! ps_key r0 = Some d) as Hkeep.
  2: { apply Hkeep. by rewrite lookup_insert_eq. }
  clear IH Hn. induction l as [|r1 l IH]; intros c' Hc'; [done|]. simpl.
  simpl in Hr0. apply not_elem_of_cons in Hr0 as [Hne Hr0]. apply IH; [done|].
  destruct (ps_value r1); try done. rewrite lookup_insert_ne; done.
Qed.

Lemma map_keys_of (l : list (str * PortalSetting)) :
  (∀ k x, (k, x) ∈ l → ps_key x = k) → map ps_key l.*2 = l.*1.
Proof.
  induction l as [|[k x] l IH]; intros Hl; [done|]. simpl. f_equal; [apply Hl; by constructor|].
  apply IH. intros k' x' Hin. apply Hl. by constructor.
Qed.

Definition tabled s : Prop := keyed (rows (se_db s)).

(** What loading reads from the table. *)
Lemma fresh_section s key r d :
  tabled s → rows (se_db s) !! key = Some r → ps_value r = JObj d →
  fresh_cache (db_select (λ _, true) (se_db s)) !! key = Some d.
Proof.
  intros Hk Hr Hd. rewrite <- (Hk _ _ Hr : ps_key r = key).
  pose proof (select_law (K := str) (λ _ : PortalSetting, true) (se_db s)) as Hsel.
  assert (∀ k x, (k, x) ∈ map_to_list (select_rows (λ _, true) (rows (se_db s))) → ps_key x = k) as Hkeys.
  { intros k x Hin. apply elem_of_map_to_list in Hin. rewrite lookup_select_rows in Hin.
    destruct (rows (se_db s) !! k) eqn:E; [|discriminate]. injection Hin as <-. by apply (Hk k). }
  apply fresh_cache_lookup; [| |done]; rewrite Hsel.
  - pose proof (NoDup_fst_map_to_list (select_rows (λ _, true) (rows (se_db s)))) as Hn. by rewrite map_keys_of.
  - apply list_elem_of_fmap. exists (key, r). split; [done|]. apply elem_of_map_to_list. by rewrite lookup_select_rows, Hr.
Qed.

Lemma load_ldap m now nonce s r d :
  tabled s → se_seeded s = true → rows (se_db s) !! u "ldap" = Some r → ps_value r = JObj d →
  ∃ s', load m now nonce s = (Ok tt, s') ∧ se_cache s' !! u "ldap" = Some d.
Proof.
  intros Hk Hseed Hr Hd. unfold load. rewrite io_bind_run. unfold io_get. rewrite io_bind_run.
  unfold io_modify at 1. rewrite Hseed. eexists. split; [reflexivity|]. cbn [se_cache].
  rewrite fix_proxy_ldap. by eapply fresh_section.
Qed.
Lemma ldap_fits : text_fits 128 (u "ldap") = true.
Proof. vm_compute. reflexivity. Qed.

(** [save] leaves the merged section in the table, and touches no other. *)
Lemma save_section_run m now nonce key value v s :
  tabled s → seal m nonce key value = Ok v → text_fits 128 key = true →
  ∃ s', save_section m now nonce key value s = (Ok tt, s')
    ∧ tabled s' ∧ se_seeded s' = se_seeded s ∧ se_loaded_at s' = now
    ∧ se_cache s' !! key = Some (drop_listen_port key v (if se_cache s !! key is Some c then dict_merge c v else v))
    ∧ ∃ r, rows (se_db s') !! key = Some r ∧ ps_value r = JObj (stored_value key v (rows (se_db s) !! key)).
Proof.
  intros Hk Hv Hf. unfold save_section. rewrite io_bind_run. unfold io_lift. rewrite Hv, io_bind_run. unfold io_get.
  set (x := match db_get key (se_db s) with Some r => _ | None => _ end).
  set (c := match se_cache s !! key with Some c => _ | None => _ end).
  assert (∃ d', x (se_db s) = (Ok tt, d') ∧ keyed (rows d')
    ∧ ∃ r, rows d' !! key = Some r ∧ ps_value r = JObj (stored_value key v (rows (se_db s) !! key))) as (d' & Ex & Hk' & Hr).
  { subst x. rewrite get_law. destruct (rows (se_db s) !! key) as [r|] eqn:Er.
    - destruct (set_value_cases key (JObj (stored_value key v (Some r))) (se_db s) Hk)
        as [(d' & -> & Hd')|[Hn _]]; [|congruence].
      eexists. split; [done|]. rewrite Hd'. split.
      + intros k r'. rewrite lookup_alter_Some. intros [(-> & r0 & Hr0 & ->)|[_ Hr0]]; [by apply (Hk _ r0) | by apply Hk].
      + rewrite lookup_alter_eq, Er. eexists. by split.
    - destruct (insert_law {| ps_key := key; ps_value := JObj (stored_value key v None) |} (se_db s))
        as (d' & -> & Hd'); [exact Hf | exact Er | exact I |].
      eexists. split; [done|]. rewrite Hd'. split; [exact (keyed_insert _ _ Hk)|].
      rewrite lookup_insert_eq. eexists. by split. }
  rewrite io_bind_run. unfold on_table, io_zoom, io_transaction. rewrite Ex. rewrite io_bind_run.
  unfold set_cache, io_modify at 1. unfold io_modify. eexists. split; [reflexivity|].
  split; [exact Hk'|]. split; [done|]. split; [done|]. split; [|exact Hr]. cbn [se_cache with_cache with_db].
  rewrite lookup_insert_eq. subst c. by destruct (se_cache s !! key).
Qed.

(** A fresh section is read back without a load. *)
Lemma get_ldap_fresh m now nonce c blob d s :
  se_loaded_at s = now → se_cache s !! u "ldap" = Some d → holds d c blob →
  decrypt_password m (JStr blob) = Ok (ld_bind_password c) →
  ∃ data, get m now nonce (u "ldap") s = (Ok data, s).
Proof.
  intros Hl Hc [_ Henc] Hp. unfold get. rewrite io_bind_run. unfold io_get at 1. rewrite Hl, Z.sub_diag.
  change (SETTINGS_TTL <? 0) with false. rewrite io_bind_run. unfold mret at 1, io_ret at 1.
  rewrite io_bind_run. unfold io_get.
  rewrite Hc, bool_decide_eq_true_2 by reflexivity. unfold dict_has, dict_get_or. rewrite Henc.
  cbn [andb default from_option]. unfold default, from_option, id. rewrite io_bind_run. unfold io_lift. rewrite Hp. eauto.
Qed.

(** The row and the cached section that [save] leaves. *)
Lemma save_ldap_run `{!AESGCMLaws} m now nonce c s :
  sealed s → length (sm_key m) = 32%nat → length nonce = 12%nat →
  Forall scalar (ld_bind_password c) → ld_bind_password c ≠ [] →
  ∃ s' blob d1 d2 r, save_section m now nonce (u "ldap") (ldap_dump c) s = (Ok tt, s')
    ∧ se_loaded_at s' = now ∧ decrypt_password m (JStr blob) = Ok (ld_bind_password c)
    ∧ se_cache s' !! u "ldap" = Some d1 ∧ holds d1 c blob
    ∧ rows (se_db s') !! u "ldap" = Some r ∧ ps_value r = JObj d2 ∧ holds d2 c blob.
Proof.
  intros (Hkd & _ & _) Hk Hn Ht Hne.
  destruct (seal_dump_run m nonce c Hk Hn Ht Hne) as (blob & Eseal & Edec).
  destruct (save_section_run m now nonce (u "ldap") (ldap_dump c) (sealed_dump c blob) s Hkd Eseal ldap_fits)
    as (s' & E & _ & _ & Hl & Hc & r & Hr & Hv).
  rewrite drop_listen_port_ldap in Hc. eexists s', blob, _, _, r. split; [exact E|]. split; [exact Hl|]. split; [exact Edec|].
  split; [exact Hc|]. split; [destruct (se_cache s !! u "ldap"); [apply holds_merge | apply holds_sealed]|].
  split; [exact Hr|]. split; [exact Hv|]. unfold stored_value.
  destruct (rows (se_db s) !! u "ldap") as [r0|]; [destruct (ps_value r0)|]; rewrite ?drop_listen_port_ldap;
    apply holds_sealed || apply holds_merge.
Qed.

(** Callbacks that leave the settings alone. *)
Definition untouched_by {A} (hooks : str → list (dict → io (settings D * A) unit)) : Prop :=
  ∀ k, Forall (λ cb, ∀ d p, (cb d p).2.1 = p.1) (hooks k).

Lemma untouched_no_hooks {A} : untouched_by (A := A) no_hooks.
Proof. intros k. constructor. Qed.

Lemma untouched_on_change {A} key (cb : dict → io (settings D * A) unit) hooks :
  (∀ d p, (cb d p).2.1 = p.1) → untouched_by hooks → untouched_by (on_change key cb hooks).
Proof.
  intros Hcb Hh k. unfold on_change. case_bool_decide; [|apply Hh].
  apply Forall_app. split; [apply Hh | by repeat constructor].
Qed.

Lemma run_callbacks_quiet {A} (cbs : list (dict → io (settings D * A) unit)) data p :
  Forall (λ cb, ∀ d p, (cb d p).2.1 = p.1) cbs → ∃ a, run_callbacks cbs data p = (Ok tt, (p.1, a)).
Proof.
  intros Hc. revert p. induction Hc as [|cb cbs Hcb _ IH]; intros p; [destruct p; by eexists|].
  cbn [run_callbacks]. rewrite io_bind_run. unfold io_try. specialize (Hcb data p).
  destruct (cb data p) as [[[]|e] p'] eqn:E; cbn [snd] in Hcb; destruct (IH p') as [a Ha]; exists a; by rewrite <- Hcb.
Qed.
End Directory.

(** ** Properties *)

(** What the manager made of a password with its key. *)
Definition ciphertext `{AESGCM} (m : SettingsManager) (v : json) : Prop :=
  ∃ nonce pwd blob, encrypt_password m nonce pwd = Ok blob ∧ v = JStr blob.

(** C15: whatever sections are loaded, read, saved, put or seeded, and whether
    or not that raises, neither the table nor the cache ever holds a directory
    password in the clear: the [ldap] section has no [bind_password], and all that
    ever gets under its [bind_password_enc] is what the encryption under the
    manager's key gave for a password, or what was there before or the caller
    wrote there himself ([own]). What the administration's page gets does not show
    the password. *)
Theorem settings_sealed {D : Type} `{!Table str PortalSetting D} `{!TableLaws str PortalSetting D}
    `{AESGCM} `{Config} `{Floats} {A : Type} (hooks : str → list (dict → io (settings D * A) unit))
    (m : SettingsManager) (now : Z) (nonce : bytes) (own : json → Prop) :
  let P v := own v ∨ ciphertext m v in
  (∀ k, Forall (λ cb, ∀ d, keeps (sealed_in P) (cb d)) (hooks k)) →
  keeps (sealed_with P) (load m now nonce)
  ∧ (∀ key, keeps (sealed_with P) (get m now nonce key))
  ∧ (∀ key value publish, (key = u "ldap" → encs P value) → keeps (sealed_in P) (save hooks m now nonce key value publish))
  ∧ (∀ values reapply, request_encs P values → keeps (sealed_in P) reapply →
       keeps (sealed_in P) (put_settings hooks m now nonce values reapply))
  ∧ ∀ (s : settings D) c, ldap m s = Some c →
      ∃ d rest, get_all_for_ui m s = (u "ldap", JObj d) :: rest ∧ no_password d.
Proof.
  intros P Hh. assert (encrypts_to m P) as Hm by (intros n pwd blob E; right; by exists n, pwd, blob).
  split; [by apply load_kept|]. split; [intros; by apply get_kept|].
  split; [intros; by apply save_sealed|]. split; [intros; by apply put_settings_sealed|].
  intros s c Hc. unfold get_all_for_ui. rewrite Hc. eexists _, _. split; [reflexivity|].
  unfold no_password. rewrite elem_dict_pop. by intros [].
Qed.

#[export] Instance zero_floats : Floats := {| float_int s := 0 |}.

Definition demo_ldap : LdapConfig := {|
  ld_server := u "dc1.example.com"; ld_mode := u "ssl"; ld_port := 636; ld_tls_verify := true;
  ld_bind_dn := u "cn=proxy"; ld_bind_password := u "s3cret"; ld_users_dn := u "ou=users";
  ld_domain := u "EXAMPLE"; ld_user_filter := [] |}.
Definition demo_manager : SettingsManager :=
  {| sm_base := default_config [] (u "00"); sm_key := replicate 32 (z2b 7) |}.
Definition demo_settings : settings (gmap str PortalSetting) := Settings ∅ ∅ 0 true [].

Lemma demo_settings_sealed : sealed demo_settings.
Proof.
  unfold sealed, sealed_with. change (rows (se_db demo_settings)) with (∅ : gmap str PortalSetting).
  split; [apply map_Forall_empty|]. split; [apply map_Forall_empty|]. intros d. discriminate.
Qed.

Lemma settings_sealed_witness :
  keeps (S := settings (gmap str PortalSetting) * unit) (sealed_in (λ v, False ∨ ciphertext demo_manager v))
    (save (λ _, []) demo_manager 5000 (replicate 12 (z2b 1)) (u "ldap") (ldap_dump demo_ldap) true).
Proof.
  refine (proj1 (proj2 (proj2 (settings_sealed (λ _, []) demo_manager 5000 (replicate 12 (z2b 1)) (λ _, False) _)))
            (u "ldap") (ldap_dump demo_ldap) true _).
  - intros k. constructor.
  - intros _. apply ldap_dump_encs.
Defined.

(** A directory configuration that is saved is what the accessor then
    returns, password included, whatever the section held before; and any other
    process returns it too once it has loaded the table. *)
Theorem ldap_save_roundtrip {D A : Type} `{!Table str PortalSetting D} `{!TableLaws str PortalSetting D}
    `{AESGCMLaws} `{ConfigLaws} `{Floats} (hooks : str → list (dict → io (settings D * A) unit)) (m : SettingsManager)
    (now : Z) (nonce : bytes) (c : LdapConfig) (publish : bool) (s : settings D) (a : A) :
  sealed s → untouched_by hooks → length (sm_key m) = 32%nat → length nonce = 12%nat →
  Forall scalar (ld_bind_password c) → ld_bind_password c ≠ [] →
  ∃ s' a', save hooks m now nonce (u "ldap") (ldap_dump c) publish (s, a) = (Ok tt, (s', a'))
    ∧ ldap m s' = Some c
    ∧ ∀ (other : settings D) later nonce', se_db other = se_db s' → se_seeded other = true →
        ∃ other', load m later nonce' other = (Ok tt, other') ∧ ldap m other' = Some c.
Proof.
  intros Hs Hq Hk Hn Ht Hne.
  destruct (save_ldap_run m now nonce c s Hs Hk Hn Ht Hne)
    as (s1 & blob & d1 & d2 & r & E & Hl & Hp & Hc & Hd1 & Hr & Hv & Hd2).
  destruct (get_ldap_fresh m now nonce c blob d1 s1 Hl Hc Hd1 Hp) as [data Eg].
  destruct (run_callbacks_quiet (hooks (u "ldap")) data (s1, a) (Hq _)) as [a' Ea].
  set (s' := if publish then Settings (se_db s1) (se_cache s1) (se_loaded_at s1) (se_seeded s1) (se_published s1 ++ [u "ldap"]) else s1).
  assert (se_db s' = se_db s1 ∧ se_cache s' = se_cache s1) as [Edb Eca] by by subst s'; destruct publish.
  exists s', a'. split.
  { unfold save. rewrite io_bind_run, (on_settings_run _ s a _ _ E). rewrite io_bind_run.
    unfold run_hooks_of. rewrite io_bind_run, (on_settings_run _ s1 a _ _ Eg), Ea.
    subst s'. by destruct publish. }
  split; [apply (ldap_of_section m s' d1 c blob); by rewrite ?Eca|].
  intros other later nonce' Hdb Hseed. destruct (load_ldap m later nonce' other r d2) as (other' & El & Hc').
  - unfold tabled. rewrite Hdb, Edb. pose proof (save_section_sealed m now nonce (u "ldap") (ldap_dump c) s Hs) as Hsave.
    rewrite E in Hsave. apply Hsave.
  - exact Hseed.
  - by rewrite Hdb, Edb.
  - exact Hv.
  - exists other'. split; [exact El|]. by eapply ldap_of_section.
Qed.

Lemma ldap_save_roundtrip_witness :
  ∃ s' a', save (λ _, []) demo_manager 5000 (replicate 12 (z2b 1)) (u "ldap") (ldap_dump demo_ldap) true (demo_settings, tt)
      = (Ok tt, (s', a'))
    ∧ ldap demo_manager s' = Some demo_ldap
    ∧ ∀ (other : settings (gmap str PortalSetting)) later nonce', se_db other = se_db s' → se_seeded other = true →
        ∃ other', load demo_manager later nonce' other = (Ok tt, other') ∧ ldap demo_manager other' = Some demo_ldap.
Proof.
  apply (@ldap_save_roundtrip (gmap str PortalSetting) unit setting_table setting_table_laws toy_gcm toy_gcm_laws
    strict_config strict_config_laws zero_floats (λ _, []) demo_manager 5000 (replicate 12 (z2b 1)) demo_ldap true demo_settings tt).
  - exact demo_settings_sealed.
  - intros k. constructor.
  - reflexivity.
  - reflexivity.
  - apply scalar_b_spec. vm_compute. reflexivity.
  - vm_compute. discriminate.
Defined.
Close Scope Z_scope.
