(* ===== verification/Ldap.v ===== *)
(** The directory, [libs/identity/ldap_auth.py]: authentication of a user with
    his groups, the group search of the administration, and the change of a
    password. The client library [ldap3] is a parameter: a typeclass of its calls
    and a class of the documented laws they obey, stated against the trace of what
    goes over each connection. *)

From stdpp Require Import prelude gmap list strings.
From Stdlib Require Import ZArith Lia.
From Stdlib Require Strings.String.
From S2P Require Import Prelude PySeq PyBytes PyStr Json PyUuid Config.

Open Scope Z_scope.

(** ** The library *)

Record ldap_server : Type := { srv_host : str; srv_port : Z; srv_ssl : bool; srv_verify : bool }.

(** A value of an attribute; anything but text and bytes by its [str]. *)
Inductive ldap_value : Type :=
  | LText (s : str)
  | LBytes (b : bytes)
  | LOther (text : str).

(** An entry: its name, and the values of the attributes that came with it. *)
Record ldap_entry : Type := { en_dn : str; en_attr : str → option (list ldap_value) }.

Inductive modification : Type := ModDelete (values : list bytes) | ModAdd (values : list bytes).

(** [Connection(server, user, password)] is opened here; the calls on it answer
    or raise. [str] of bytes and of lists, and the escaping of filters, are the
    library's and the language's tables. *)
Class LdapClient (W Conn : Type) : Type := {
  conn_server : Conn → ldap_server;
  conn_user : Conn → str;
  conn_password : Conn → str;
  ldap_open : ldap_server → str → str → io W Conn;
  ldap_closed : Conn → io W bool;
  ldap_start_tls : Conn → io W bool;
  ldap_bind : Conn → io W bool;
  ldap_search : Conn → str → str → list str → Z → io W (list ldap_entry);
  ldap_modify : Conn → str → str → list modification → io W bool;
  ldap_unbind : Conn → io W unit;
  escape_filter_chars : str → str;
  bytes_text : bytes → str;
  values_text : list ldap_value → str;
}.

(** What goes over the connections. A call that raises may have sent what it
    had to send. *)
Inductive ldap_event (Conn : Type) : Type :=
  | EOpen (c : Conn)
  | EStartTls (c : Conn) (ok : bool)
  | EBind (c : Conn) (ok : bool)
  | ESearch (c : Conn) (base filter : str) (entries : list ldap_entry)
  | EModify (c : Conn) (dn attribute : str) (changes : list modification)
  | EUnbind (c : Conn).
Arguments EOpen {Conn}. Arguments EStartTls {Conn}. Arguments EBind {Conn}.
Arguments ESearch {Conn}. Arguments EModify {Conn}. Arguments EUnbind {Conn}.

(** What a call that answers [a] puts into the trace. *)
Definition adds {W A E} (trace : W → list E) (m : io W A) (event : A → E) (failed : option E) : Prop :=
  ∀ w, match m w with
       | (Ok a, w') => trace w' = trace w ++ [event a]
       | (Err _, w') => trace w' = trace w ++ from_option (λ e, [e]) [] failed
       end.

Class LdapLaws (W Conn : Type) `{LdapClient W Conn} : Type := {
  ldap_trace : W → list (ldap_event Conn);
  open_law srv user password : adds ldap_trace (ldap_open srv user password) EOpen None;
  opened_law srv user password w c w' : ldap_open srv user password w = (Ok c, w') →
    conn_server c = srv ∧ conn_user c = user ∧ conn_password c = password;
  closed_law c w : ldap_trace (ldap_closed c w).2 = ldap_trace w;
  start_tls_law c : adds ldap_trace (ldap_start_tls c) (EStartTls c) (Some (EStartTls c false));
  bind_law c : adds ldap_trace (ldap_bind c) (EBind c) (Some (EBind c false));
  search_law c base filter attributes limit :
    adds ldap_trace (ldap_search c base filter attributes limit) (ESearch c base filter) (Some (ESearch c base filter []));
  modify_law c dn attribute changes :
    adds ldap_trace (ldap_modify c dn attribute changes) (λ _, EModify c dn attribute changes)
      (Some (EModify c dn attribute changes));
  unbind_law c : adds ldap_trace (ldap_unbind c) (λ _, EUnbind c) (Some (EUnbind c));
  (** RFC 4515: no special character is left. *)
  escape_law s c : c ∈ [40; 41; 42; 0]%N → c ∉ escape_filter_chars s;
}.

(** ** The program *)

Record LDAPUserInfo : Type := {
  li_username : str;
  li_user_dn : str;
  li_groups : list str;
  li_group_guids : list str;
}.

Record group_out : Type := { go_guid : str; go_dn : str; go_cn : str; go_description : option str }.

(** [uuid.UUID(bytes_le=b)] *)
Definition uuid_of_bytes_le (b : bytes) : res uuid :=
  if (length b =? 16)%nat
  then Ok (Z.to_N (be_decode (reverse (take 4 b) ++ reverse (slice b 4 6) ++ reverse (slice b 6 8) ++ drop 8 b)))
  else Err ValueError.

Section Ldap.
Context {W Conn : Type} `{LdapClient W Conn} `{CaseMap}.
Implicit Types (cfg : LdapConfig).

(** [.value] of an attribute: nothing, the value, or the list of the values. *)
Definition attr_value (l : list ldap_value) : option ldap_value :=
  match l with [] => None | [v] => Some v | _ => Some (LOther (values_text l)) end.
Definition value_text (v : ldap_value) : str :=
  match v with LText s => s | LBytes b => bytes_text b | LOther t => t end.
(** The truth of a value; dates and lists are true. *)
Definition value_true (v : ldap_value) : bool :=
  match v with LText [] | LBytes [] => false | _ => true end.

(** [str(entry.X.value)] when the entry has the attribute. *)
Definition attr_text (name : str) (e : ldap_entry) : option str :=
  (λ l, from_option value_text (u "None") (attr_value l)) <$> en_attr e name.
(** [str(e.X.value) if "X" in e and e.X.value else ...] *)
Definition true_text (name : str) (e : ldap_entry) : option str :=
  l ← en_attr e name; v ← attr_value l; if value_true v then Some (value_text v) else None.

Definition derive_base_dn (users_dn : str) : str :=
  match find (u "dc=") (lower users_dn) 0 with Some idx => drop idx users_dn | None => users_dn end.

Definition guid_from_ldap_raw (raw : option ldap_value) : res (option str) :=
  match raw with
  | Some (LBytes b) => Some ∘ uuid_str <$> uuid_of_bytes_le b
  | Some (LText s) =>
      let s := strip s in
      if bool_decide (s = []) then Ok None
      else match uuid_of_str s with Ok id => Ok (Some (uuid_str id)) | Err _ => Ok None end
  | _ => Ok None
  end.
Definition entry_guid (e : ldap_entry) : res (option str) :=
  guid_from_ldap_raw (en_attr e (u "objectGUID") ≫= attr_value).

(** ** Connections *)

Definition build_server cfg : ldap_server :=
  let ldaps := bool_decide (ld_mode cfg = u "ldaps") in
  {| srv_host := ld_server cfg;
     srv_port := if ld_port cfg =? 0 then (if ldaps then 636 else 389) else ld_port cfg;
     srv_ssl := ldaps; srv_verify := ld_tls_verify cfg |}.

(** [_bind]: an exception of the open becomes a [ValueError]. *)
Definition bind_as cfg (user password : str) : io W Conn :=
  conn ← io_try (ldap_open (build_server cfg) user password) (λ _, io_raise ValueError);
  closed ← ldap_closed conn;
  if closed : bool then io_raise ValueError
  else
    _ ← (if bool_decide (ld_mode cfg = u "starttls") then
           ok ← ldap_start_tls conn;
           if ok : bool then mret tt else (_ ← ldap_unbind conn; io_raise ValueError)
         else mret tt);
    ok ← ldap_bind conn;
    if ok : bool then mret conn else (_ ← ldap_unbind conn; io_raise ValueError).

(** The work on a connection bound with the service account. *)
Definition with_service cfg {A} (work : Conn → io W A) : io W A :=
  conn ← bind_as cfg (ld_bind_dn cfg) (ld_bind_password cfg);
  io_finally (work conn) (ldap_unbind conn).

(** ** Groups *)

Definition group_filter (chunk : list str) : str :=
  u "(&(objectClass=group)(|" ++ concat (map (λ dn, u "(distinguishedName=" ++ escape_filter_chars dn ++ u ")") chunk) ++ u "))".

Definition entry_name (e : ldap_entry) : str :=
  match attr_text (u "distinguishedName") e with Some t => t | None => en_dn e end.

(** What the entries of an answer add to [dn_to_guid]. *)
Fixpoint note_guids (es : list ldap_entry) (dn_to_guid : gmap str str) : res (gmap str str) :=
  match es with
  | [] => Ok dn_to_guid
  | e :: es' =>
      guid ← entry_guid e;
      note_guids es' (match entry_name e, guid with
                      | (_ :: _) as dn, Some ((_ :: _) as g) => <[dn := g]> dn_to_guid
                      | _, _ => dn_to_guid
                      end)
  end.

Fixpoint resolve_chunks cfg (conn : Conn) (chunks : list (list str)) (dn_to_guid : gmap str str) : io W (gmap str str) :=
  match chunks with
  | [] => mret dn_to_guid
  | chunk :: chunks' =>
      es ← ldap_search conn (derive_base_dn (ld_users_dn cfg)) (group_filter chunk)
             [u "objectGUID"; u "distinguishedName"] (Z.of_nat (length chunk));
      m ← io_lift (note_guids es dn_to_guid);
      resolve_chunks cfg conn chunks' m
  end.

(** The groups in order, thirty to a search. *)
Definition resolve_on cfg (conn : Conn) (group_dns : list str) : io W (list str) :=
  match group_dns with
  | [] => mret []
  | _ =>
      m ← resolve_chunks cfg conn (pages_of ((length group_dns + 29) / 30) 30 group_dns) ∅;
      mret (omap (λ dn, m !! dn) group_dns)
  end.

Definition resolve_group_guids cfg (group_dns : list str) : io W (list str) :=
  match group_dns with [] => mret [] | _ => with_service cfg (λ conn, resolve_on cfg conn group_dns) end.

Fixpoint groups_out (es : list ldap_entry) : res (list group_out) :=
  match es with
  | [] => Ok []
  | e :: es' =>
      guid ← entry_guid e;
      match guid with
      | Some (c :: g) =>
          let dn := default (en_dn e) (true_text (u "distinguishedName") e) in
          rest ← groups_out es';
          Ok ({| go_guid := c :: g; go_dn := dn; go_cn := default dn (true_text (u "cn") e);
                 go_description := true_text (u "description") e |} :: rest)
      | _ => groups_out es'
      end
  end.

Definition group_attributes : list str := [u "objectGUID"; u "distinguishedName"; u "cn"; u "description"].

Definition search_groups cfg (term : str) (limit : Z) : io W (list group_out) :=
  let q := strip term in
  if (length q <? 2)%nat then mret []
  else with_service cfg (λ conn,
    let safe := escape_filter_chars q in
    es ← ldap_search conn (derive_base_dn (ld_users_dn cfg))
           (u "(&(objectClass=group)(|(cn=*" ++ safe ++ u "*)(description=*" ++ safe ++ u "*)))")
           group_attributes (Z.max 1 (Z.min limit 200));
    io_lift (groups_out es)).

Definition list_groups cfg (limit : Z) : io W (list group_out) :=
  with_service cfg (λ conn,
    es ← ldap_search conn (derive_base_dn (ld_users_dn cfg)) (u "(objectClass=group)") group_attributes
           (Z.max 1 (Z.min limit 50000));
    io_lift (groups_out es)).

(** ** Users *)

Definition upn_of cfg (username : str) : str :=
  if contains (u "@") username then username else username ++ u "@" ++ ld_domain cfg.

Definition user_search_filter cfg (upn : str) : str :=
  let base := u "(userPrincipalName=" ++ escape_filter_chars upn ++ u ")" in
  match strip (ld_user_filter cfg) with
  | [] => base
  | extra => let extra := if starts_with (u "(") extra then extra else u "(" ++ extra ++ u ")" in
             u "(&" ++ base ++ extra ++ u ")"
  end.

Definition user_attributes : list str := [u "distinguishedName"; u "memberOf"; u "sAMAccountName"; u "userPrincipalName"].

Definition authenticate cfg (username password : str) : io W LDAPUserInfo :=
  if bool_decide (username = []) || bool_decide (password = []) then io_raise ValueError
  else
    let upn := upn_of cfg username in
    with_service cfg (λ svc_conn,
      entries ← ldap_search svc_conn (ld_users_dn cfg) (user_search_filter cfg upn) user_attributes 1;
      match entries with
      | [] => io_raise ValueError
      | entry :: _ =>
          let user_dn := en_dn entry in
          user_conn ← bind_as cfg user_dn password;
          _ ← ldap_unbind user_conn;
          let member_of := map value_text (default [] (en_attr entry (u "memberOf"))) in
          group_guids ← resolve_on cfg svc_conn member_of;
          mret {| li_username := default username (true_text (u "sAMAccountName") entry);
                  li_user_dn := user_dn; li_groups := member_of; li_group_guids := group_guids |}
      end).

Definition is_password_change_supported cfg : bool :=
  bool_decide (ld_mode cfg = u "starttls") || bool_decide (ld_mode cfg = u "ldaps").

Definition find_user_dn cfg (username : str) : io W (option str) :=
  with_service cfg (λ svc_conn,
    entries ← ldap_search svc_conn (ld_users_dn cfg) (user_search_filter cfg (upn_of cfg username))
                [u "distinguishedName"] 1;
    mret (en_dn <$> head entries)).

(** A password as [unicodePwd] takes it: in quotation marks, in UTF-16. *)
Definition quoted (password : str) : res bytes := utf16_le_encode (34%N :: password ++ [34%N]).

Definition change_password cfg (username current_password new_password : str) : io W unit :=
  if negb (is_password_change_supported cfg) then io_raise ValueError
  else
    user_dn ← find_user_dn cfg username;
    match user_dn with
    | Some (c :: dn) =>
        conn ← bind_as cfg (c :: dn) current_password;
        io_finally (
          old_quoted ← io_lift (quoted current_password);
          new_quoted ← io_lift (quoted new_password);
          ok ← ldap_modify conn (c :: dn) (u "unicodePwd") [ModDelete [old_quoted]; ModAdd [new_quoted]];
          if ok : bool then mret tt else io_raise ValueError) (ldap_unbind conn)
    | _ => io_raise ValueError
    end.
End Ldap.

(** ** Lemmas *)

Create HintDb ldap discriminated.

#[local] Opaque u.

Section Traces.
Context {W Conn : Type} `{LdapLaws W Conn} `{CaseMap}.
Implicit Types (cfg : LdapConfig) (c : Conn) (w : W) (t : list (ldap_event Conn)).

(** The connection is encrypted by what has gone over it. *)
Definition protected t c : Prop := srv_ssl (conn_server c) = true ∨ EStartTls c true ∈ t.

(** The connection on which an event sends a password. *)
Definition secret_of (e : ldap_event Conn) : option Conn :=
  match e with EBind c _ | EModify c _ _ _ => Some c | _ => None end.

(** No password has gone over a connection that was not encrypted by then. *)
Definition guarded t : Prop := ∀ pre e post c, t = pre ++ e :: post → secret_of e = Some c → protected pre c.

Lemma protected_more t t' c : protected t c → protected (t ++ t') c.
Proof. intros [Hs|Ht]; [by left | right]. apply elem_of_app. by left. Qed.

Lemma guarded_snoc t e : guarded t → (∀ c, secret_of e = Some c → protected t c) → guarded (t ++ [e]).
Proof.
  intros Ht He pre e' post c E Hs. destruct post as [|x post _] using rev_ind.
  - apply app_inj_tail in E as [-> ->]. by apply He.
  - rewrite app_comm_cons, app_assoc in E. apply app_inj_tail in E as [E _]. by apply (Ht pre e' post).
Qed.

(** What happened after [t0]. *)
Definition since t0 (e : ldap_event Conn) w : Prop := ∃ ext, ldap_trace w = t0 ++ ext ∧ e ∈ ext.
Definition grows {A} (m : io W A) : Prop := ∀ w, ∃ ext, ldap_trace (m w).2 = ldap_trace w ++ ext.

Lemma adds_grows {A} (m : io W A) event failed : adds ldap_trace m event failed → grows m.
Proof. intros Hm w. specialize (Hm w). destruct (m w) as [[a|e] w']; eauto. Qed.

Lemma grows_since {A} (m : io W A) t0 e : grows m → keeps (since t0 e) m.
Proof.
  intros Hm w (ext & E & He). destruct (Hm w) as [ext' E']. exists (ext ++ ext').
  rewrite E', E, app_assoc. split; [done|]. apply elem_of_app. by left.
Qed.

Lemma grows_ret {A} (a : A) : grows (mret a).
Proof. intros w. exists []. by rewrite app_nil_r. Qed.
Lemma grows_raise {A} e : grows (io_raise e : io W A).
Proof. intros w. exists []. by rewrite app_nil_r. Qed.
Lemma grows_lift {A} (r : res A) : grows (io_lift r : io W A).
Proof. intros w. exists []. by rewrite app_nil_r. Qed.
Lemma grows_bind {A B} (m : io W A) (f : A → io W B) : grows m → (∀ a, grows (f a)) → grows (m ≫= f).
Proof.
  intros Hm Hf w. rewrite io_bind_run. destruct (Hm w) as [ext E]. destruct (m w) as [[a|e] w']; [|by exists ext].
  destruct (Hf a w') as [ext' E']. exists (ext ++ ext'). cbn [snd] in E. by rewrite E', E, app_assoc.
Qed.
Lemma grows_try {A} (m : io W A) (h : exn → io W A) : grows m → (∀ e, grows (h e)) → grows (io_try m h).
Proof.
  intros Hm Hh w. unfold io_try. destruct (Hm w) as [ext E]. destruct (m w) as [[a|e] w']; [by exists ext|].
  destruct (Hh e w') as [ext' E']. exists (ext ++ ext'). cbn [snd] in E. by rewrite E', E, app_assoc.
Qed.
Lemma grows_finally {A} (m : io W A) (f : io W unit) : grows m → grows f → grows (io_finally m f).
Proof.
  intros Hm Hf w. unfold io_finally. destruct (Hm w) as [ext E]. destruct (m w) as [r w']. cbn [snd] in E.
  destruct (Hf w') as [ext' E']. exists (ext ++ ext'). rewrite app_assoc, <- E, <- E'. by destruct (f w') as [[x|e] w''].
Qed.

Lemma grows_open srv user pw : grows (ldap_open srv user pw).
Proof. eapply adds_grows, open_law. Qed.
Lemma grows_closed c : grows (ldap_closed c).
Proof. intros w. exists []. by rewrite app_nil_r, closed_law. Qed.
Lemma grows_start_tls c : grows (ldap_start_tls c).
Proof. eapply adds_grows, start_tls_law. Qed.
Lemma grows_bind_op c : grows (ldap_bind c).
Proof. eapply adds_grows, bind_law. Qed.
Lemma grows_search c base f attrs limit : grows (ldap_search c base f attrs limit).
Proof. eapply adds_grows, search_law. Qed.
Lemma grows_unbind c : grows (ldap_unbind c).
Proof. eapply adds_grows, unbind_law. Qed.
End Traces.
#[export] Hint Resolve grows_ret grows_raise grows_lift grows_bind grows_try grows_finally grows_open grows_closed
  grows_start_tls grows_bind_op grows_search grows_unbind grows_since : ldap.

(** Case analysis along a computation of the directory. *)
Ltac grows_step :=
  lazymatch goal with
  | |- grows (match ?x with _ => _ end) => destruct x
  | |- grows (if ?x then _ else _) => destruct x
  | |- grows (_ ≫= _) => apply grows_bind; [|intros ?]
  | |- grows (io_try _ _) => apply grows_try; [|intros ?]
  | |- grows (io_finally _ _) => apply grows_finally
  | |- grows _ => solve [auto with ldap]
  end.

Section DirectoryLaws.
Context {W Conn : Type} `{LdapLaws W Conn} `{CaseMap}.
Implicit Types (cfg : LdapConfig) (c : Conn) (w : W) (t : list (ldap_event Conn)).

Lemma grows_bind_as cfg user pw : grows (bind_as cfg user pw).
Proof. unfold bind_as. repeat grows_step. Qed.

Lemma grows_with_service cfg {A} (work : Conn → io W A) : (∀ c, grows (work c)) → grows (with_service cfg work).
Proof. intros Hw. unfold with_service. apply grows_bind; [apply grows_bind_as|]. intros c. apply grows_finally; [apply Hw | apply grows_unbind]. Qed.

Lemma grows_resolve cfg c dns : grows (resolve_on cfg c dns).
Proof.
  unfold resolve_on. destruct dns as [|dn dns]; [apply grows_ret|]. apply grows_bind; [|intros m; apply grows_ret].
  generalize (pages_of ((length (dn :: dns) + 29) / 30) 30 (dn :: dns)) (∅ : gmap str str).
  intros chunks. induction chunks as [|chunk chunks IH]; intros m; cbn [resolve_chunks]; repeat grows_step.
Qed.

(** *** What is encrypted *)

Definition encrypted cfg : Prop := ld_mode cfg = u "ldaps" ∨ ld_mode cfg = u "starttls".

Definition safe w : Prop := guarded (ldap_trace w).
Definition safe_on c w : Prop := guarded (ldap_trace w) ∧ protected (ldap_trace w) c.

Lemma adds_safe {A} (m : io W A) event failed :
  adds ldap_trace m event failed → (∀ a, secret_of (event a) = None) → from_option secret_of None failed = None →
  keeps safe m ∧ ∀ c, keeps (safe_on c) m.
Proof.
  intros Hm Ha Hf.
  assert (∀ w, safe w → ∃ t, ldap_trace (m w).2 = ldap_trace w ++ t ∧ guarded (ldap_trace w ++ t)) as Hstep.
  { intros w Hw. specialize (Hm w). destruct (m w) as [[a|e] w'].
    - exists [event a]. split; [done|]. apply guarded_snoc; [done|]. intros c Hc. by rewrite Ha in Hc.
    - destruct failed as [e'|]; [|exists []; by rewrite app_nil_r in *].
      exists [e']. split; [done|]. apply guarded_snoc; [done|]. intros c Hc. simpl in Hf. by rewrite Hf in Hc. }
  split.
  - intros w Hw. destruct (Hstep w Hw) as (t & E & Ht). unfold safe. by rewrite E.
  - intros c w [Hw Hp]. destruct (Hstep w Hw) as (t & E & Ht). unfold safe_on. rewrite E. split; [done|].
    by apply protected_more.
Qed.

Lemma secret_safe {A} c (m : io W A) event failed :
  adds ldap_trace m event (Some failed) → (∀ a, secret_of (event a) = Some c) → secret_of failed = Some c →
  keeps (safe_on c) m.
Proof.
  intros Hm Ha Hf w [Hw Hp]. specialize (Hm w). unfold safe_on. destruct (m w) as [[a|e] w']; cbn [snd]; rewrite Hm.
  - split; [|by apply protected_more]. apply guarded_snoc; [done|]. intros c' Hc. rewrite Ha in Hc. by injection Hc as <-.
  - split; [|by apply protected_more]. apply guarded_snoc; [done|]. intros c' Hc. rewrite Hf in Hc. by injection Hc as <-.
Qed.

Lemma open_safe srv user pw : keeps safe (ldap_open srv user pw).
Proof. by eapply adds_safe; [apply open_law | |]. Qed.
Lemma closed_safe c : keeps safe (ldap_closed c).
Proof. intros w Hw. unfold safe. by rewrite closed_law. Qed.
Lemma start_tls_safe c : keeps safe (ldap_start_tls c).
Proof. by eapply adds_safe; [apply start_tls_law | |]. Qed.
Lemma search_safe c base f attrs limit : keeps safe (ldap_search c base f attrs limit).
Proof. by eapply adds_safe; [apply search_law | |]. Qed.
Lemma unbind_safe c : keeps safe (ldap_unbind c).
Proof. by eapply adds_safe; [apply unbind_law | |]. Qed.
Lemma bind_safe c : keeps (safe_on c) (ldap_bind c).
Proof. by eapply secret_safe; [apply bind_law | |]. Qed.
Lemma modify_safe c dn attr ch : keeps (safe_on c) (ldap_modify c dn attr ch).
Proof. by eapply secret_safe; [apply modify_law | |]. Qed.

Lemma safe_after {A} c (m : io W A) : keeps safe m → hoare (safe_on c) m (λ _, safe) safe.
Proof. intros Hm. by apply (hoare_weaken safe _ m (λ _, safe) _ safe); [apply hoare_keeps | intros w [] | |]. Qed.

(** After [_bind] the connection is encrypted. *)
Lemma bind_as_safe cfg user pw : encrypted cfg → hoare safe (bind_as cfg user pw) safe_on safe.
Proof.
  intros Hmode. unfold bind_as.
  apply (hoare_bind _ _ _ (λ c w, safe w ∧ conn_server c = build_server cfg)).
  { intros w Hw. unfold io_try. pose proof (open_safe (build_server cfg) user pw w Hw) as Hs.
    destruct (ldap_open _ _ _ w) as [[c|e] w'] eqn:E; [|done]. split; [done|].
    apply opened_law in E. tauto. }
  intros c. apply hoare_fact. intros Hsrv. apply hoare_step; [apply closed_safe|]. intros [].
  { by apply hoare_raise. }
  apply (hoare_bind _ _ _ (λ _, safe_on c)).
  - destruct (decide (ld_mode cfg = u "starttls")) as [Es|Es].
    + rewrite bool_decide_eq_true_2 by exact Es. apply (hoare_bind _ _ _ (λ (ok : bool) w, if ok then safe_on c w else safe w)).
      * intros w Hw. pose proof (start_tls_safe c w Hw) as Hs. pose proof (start_tls_law c w) as Ht.
        destruct (ldap_start_tls c w) as [[[]|e] w']; [|done..]. split; [done|]. right. rewrite Ht.
        apply elem_of_app. right. by apply list_elem_of_singleton.
      * intros []; [by apply hoare_ret|]. apply hoare_step; [apply unbind_safe|]. intros _. by apply hoare_raise.
    + rewrite bool_decide_eq_false_2 by exact Es. apply hoare_ret. intros w Hw. split; [done|]. left.
      rewrite Hsrv. unfold build_server. cbn [srv_ssl]. apply bool_decide_eq_true_2. by destruct Hmode.
  - intros _. apply (hoare_bind _ _ _ (λ _, safe_on c)).
    + eapply hoare_weaken; [apply hoare_keeps, bind_safe | done | done |]. by intros w [].
    + intros []; [by apply hoare_ret|]. eapply hoare_weaken; [|intros w [Hw _]; exact Hw | done | done].
      apply hoare_step; [apply unbind_safe|]. intros _. by apply hoare_raise.
Qed.

Lemma with_service_safe cfg {A} (work : Conn → io W A) :
  encrypted cfg → (∀ c, keeps safe (work c)) → keeps safe (with_service cfg work).
Proof.
  intros Hmode Hw. apply keeps_hoare. unfold with_service. eapply hoare_bind; [by apply bind_as_safe|].
  intros c. apply safe_after, keeps_finally; [apply Hw | apply unbind_safe].
Qed.

Lemma resolve_on_safe cfg c dns : keeps safe (resolve_on cfg c dns).
Proof.
  unfold resolve_on. destruct dns as [|dn dns]; [apply keeps_ret|]. apply keeps_bind; [|intros m; apply keeps_ret].
  generalize (pages_of ((length (dn :: dns) + 29) / 30) 30 (dn :: dns)) (∅ : gmap str str).
  intros chunks. induction chunks as [|chunk chunks IH]; intros m; cbn [resolve_chunks]; [apply keeps_ret|].
  apply keeps_bind; [apply search_safe|]. intros es. apply keeps_bind; [apply keeps_lift|]. apply IH.
Qed.

Lemma authenticate_safe cfg username password : encrypted cfg → keeps safe (authenticate cfg username password).
Proof.
  intros Hmode. unfold authenticate. destruct (_ || _); [apply keeps_raise|]. apply with_service_safe; [done|].
  intros c. apply keeps_bind; [apply search_safe|]. intros [|entry es]; [apply keeps_raise|].
  apply keeps_hoare. eapply hoare_bind; [by apply bind_as_safe|]. intros uc.
  apply safe_after, keeps_bind; [apply unbind_safe|]. intros _. apply keeps_bind; [apply resolve_on_safe|].
  intros guids. apply keeps_ret.
Qed.

Lemma change_password_safe cfg username old new : keeps safe (change_password cfg username old new).
Proof.
  unfold change_password. destruct (is_password_change_supported cfg) eqn:Es; cbn [negb]; [|apply keeps_raise].
  assert (encrypted cfg) as Hmode.
  { unfold is_password_change_supported in Es. apply orb_true_iff in Es.
    rewrite !bool_decide_eq_true in Es. unfold encrypted. tauto. }
  apply keeps_bind.
  { unfold find_user_dn. apply with_service_safe; [done|]. intros c. apply keeps_bind; [apply search_safe|].
    intros es. apply keeps_ret. }
  intros [[|x dn]|]; [apply keeps_raise | | apply keeps_raise].
  apply keeps_hoare. eapply hoare_bind; [by apply bind_as_safe|]. intros c.
  apply (hoare_finally _ _ _ (λ _, safe_on c) _ (safe_on c)).
  - apply hoare_keeps. repeat (apply keeps_bind; [apply keeps_lift|]; intros ?).
    apply keeps_bind; [apply modify_safe|]. intros []; [apply keeps_ret | apply keeps_raise].
  - intros _. apply safe_after, unbind_safe.
  - apply safe_after, unbind_safe.
Qed.

(** *** Who is authenticated *)

Lemma since_more {A} (m : io W A) t0 e w r w' : grows m → m w = (r, w') → since t0 e w → since t0 e w'.
Proof. intros Hm E Hw. pose proof (grows_since m t0 e Hm w Hw) as Hs. by rewrite E in Hs. Qed.

Lemma since_earlier {A} (m : io W A) w r w' e w'' :
  grows m → m w = (r, w') → since (ldap_trace w') e w'' → since (ldap_trace w) e w''.
Proof.
  intros Hm E (ext & Ht & He). destruct (Hm w) as [ext' E']. rewrite E in E'. cbn [snd] in E'.
  exists (ext' ++ ext). rewrite Ht, E', app_assoc. split; [done|]. apply elem_of_app. by right.
Qed.

Lemma adds_since {A} (m : io W A) event failed w a w' :
  adds ldap_trace m event failed → m w = (Ok a, w') → since (ldap_trace w) (event a) w'.
Proof. intros Hm E. specialize (Hm w). rewrite E in Hm. exists [event a]. split; [done | by constructor]. Qed.

Lemma bind_as_bound cfg user pw w c w' :
  bind_as cfg user pw w = (Ok c, w') →
  since (ldap_trace w) (EBind c true) w' ∧ conn_user c = user ∧ conn_password c = pw.
Proof.
  unfold bind_as. rewrite io_bind_run. unfold io_try at 1.
  destruct (ldap_open _ _ _ w) as [[c1|e] w1] eqn:E1; [|done]. rewrite io_bind_run.
  destruct (ldap_closed c1 w1) as [[[]|e] w2] eqn:E2; [done| |done]. rewrite io_bind_run.
  match goal with |- context [(if ?b then ?x else ?y) w2] => set (tls := if b then x else y) end.
  assert (grows tls) as Hg by (unfold tls; repeat grows_step).
  destruct (tls w2) as [[[]|e] w3] eqn:E3; [|done]. rewrite io_bind_run.
  destruct (ldap_bind c1 w3) as [[[]|e] w4] eqn:E4; [| |done].
  2: { rewrite io_bind_run. by destruct (ldap_unbind c1 w4) as [[]]. }
  intros [= <- <-]. destruct (opened_law _ _ _ _ _ _ E1) as (_ & Hu & Hp). split; [|done].
  eapply since_earlier; [apply grows_open | exact E1|]. eapply since_earlier; [apply grows_closed | exact E2|].
  eapply since_earlier; [exact Hg | exact E3|]. eapply adds_since; [apply bind_law | exact E4].
Qed.

Lemma finally_Ok {A} (m : io W A) (f : io W unit) w a w' :
  io_finally m f w = (Ok a, w') → ∃ w1, m w = (Ok a, w1) ∧ f w1 = (Ok tt, w').
Proof.
  unfold io_finally. destruct (m w) as [r w1]. destruct (f w1) as [[[]|e] w2] eqn:E; [|done].
  intros [= -> ->]. eauto.
Qed.

(** What a success of [authenticate] rests on. *)
Definition vouched cfg username password (info : LDAPUserInfo) t0 w : Prop :=
  username ≠ [] ∧ password ≠ [] ∧ ∃ svc user_conn entry es,
    conn_user svc = ld_bind_dn cfg ∧ since t0 (EBind svc true) w
    ∧ since t0 (ESearch svc (ld_users_dn cfg) (user_search_filter cfg (upn_of cfg username)) (entry :: es)) w
    ∧ conn_user user_conn = en_dn entry ∧ conn_password user_conn = password ∧ since t0 (EBind user_conn true) w
    ∧ li_user_dn info = en_dn entry ∧ li_username info = default username (true_text (u "sAMAccountName") entry)
    ∧ li_groups info = map value_text (default [] (en_attr entry (u "memberOf"))).

Lemma authenticate_vouched cfg username password w info w' :
  authenticate cfg username password w = (Ok info, w') → vouched cfg username password info (ldap_trace w) w'.
Proof.
  unfold authenticate. destruct (decide (username = [])) as [->|Hu]; [done|].
  destruct (decide (password = [])) as [->|Hp]; [by rewrite orb_true_r|].
  rewrite (bool_decide_eq_false_2 _ Hu), (bool_decide_eq_false_2 _ Hp). cbn [orb]. unfold with_service.
  rewrite io_bind_run. destruct (bind_as cfg (ld_bind_dn cfg) (ld_bind_password cfg) w) as [[svc|e] w1] eqn:E1; [|done].
  intros (w9 & E & E9)%finally_Ok. rewrite io_bind_run in E.
  destruct (ldap_search _ _ _ _ _ w1) as [[[|entry es]|e] w2] eqn:E2; [done| |done]. rewrite io_bind_run in E.
  destruct (bind_as cfg (en_dn entry) password w2) as [[uc|e] w3] eqn:E3; [|done]. rewrite io_bind_run in E.
  destruct (ldap_unbind uc w3) as [[[]|e] w4] eqn:E4; [|done]. rewrite io_bind_run in E.
  destruct (resolve_on _ _ _ w4) as [[guids|e] w5] eqn:E5; [|done]. injection E as <- <-.
  destruct (bind_as_bound _ _ _ _ _ _ E1) as (B1 & U1 & _). destruct (bind_as_bound _ _ _ _ _ _ E3) as (B3 & U3 & P3).
  assert (∀ ev, since (ldap_trace w) ev w3 → since (ldap_trace w) ev w') as Hend.
  { intros ev Hs. eapply since_more; [apply grows_unbind | exact E9|]. eapply since_more; [apply grows_resolve | exact E5|].
    eapply since_more; [apply grows_unbind | exact E4 | exact Hs]. }
  assert (∀ ev, since (ldap_trace w) ev w2 → since (ldap_trace w) ev w') as Hend2.
  { intros ev Hs. apply Hend. eapply since_more; [apply grows_bind_as | exact E3 | exact Hs]. }
  split; [done|]. split; [done|]. exists svc, uc, entry, es. split; [done|]. split.
  { apply Hend2. eapply since_more; [apply grows_search | exact E2 | exact B1]. }
  split.
  { apply Hend2. eapply since_earlier; [apply grows_bind_as | exact E1|].
    eapply (adds_since _ _ _ _ _ _ (search_law _ _ _ _ _) E2). }
  split; [done|]. split; [done|]. split; [|done].
  apply Hend. eapply since_earlier; [apply grows_bind_as | exact E1|].
  eapply since_earlier; [apply grows_search | exact E2 | exact B3].
Qed.

(** *** Groups, thirty at a time *)

(** The answer to a search for the groups of a chunk. *)
Definition answers (dir : str → option str) (chunk : list str) (es : list ldap_entry) : Prop :=
  (∀ e, e ∈ es → ∃ x g, entry_guid e = Ok (Some (x :: g)) ∧ entry_name e ≠ [] ∧ dir (entry_name e) = Some (x :: g))
  ∧ ∀ dn, dn ∈ chunk → is_Some (dir dn) → ∃ e, e ∈ es ∧ entry_name e = dn.

Definition truthful (dir : str → option str) (m : gmap str str) : Prop := ∀ dn g, m !! dn = Some g → dir dn = Some g.

Lemma note_guids_run dir es m :
  (∀ e, e ∈ es → ∃ x g, entry_guid e = Ok (Some (x :: g)) ∧ entry_name e ≠ [] ∧ dir (entry_name e) = Some (x :: g)) →
  truthful dir m →
  ∃ m', note_guids es m = Ok m' ∧ truthful dir m' ∧ (∀ dn, is_Some (m !! dn) → is_Some (m' !! dn))
    ∧ ∀ e, e ∈ es → is_Some (m' !! entry_name e).
Proof.
  revert m. induction es as [|e es IH]; intros m Hes Hm.
  { exists m. repeat split; try done. intros e He. by apply not_elem_of_nil in He. }
  destruct (Hes e) as (x & g & Eg & Hn & Hd); [constructor|]. cbn [note_guids]. rewrite Eg. cbn [mbind res_bind].
  destruct (entry_name e) as [|y n] eqn:En; [done|].
  destruct (IH (<[y :: n := x :: g]> m)) as (m' & -> & Ht & Hmono & Hin).
  { intros e' He'. apply Hes. by constructor. }
  { intros dn g'. destruct (decide (dn = y :: n)) as [->|Hne].
    - rewrite lookup_insert_eq. by intros [= <-].
    - rewrite lookup_insert_ne by done. apply Hm. }
  exists m'. split; [done|]. split; [done|]. split.
  - intros dn Hdn. apply Hmono. destruct (decide (dn = y :: n)) as [->|Hne]; [by rewrite lookup_insert_eq|].
    by rewrite lookup_insert_ne.
  - intros e' He'. apply elem_of_cons in He' as [->|He']; [|by apply Hin]. rewrite En. apply Hmono.
    by rewrite lookup_insert_eq.
Qed.

(** While [I] holds, a search for groups answers, and truthfully, when it is for
    thirty or fewer. *)
Definition group_search_works cfg c (dir : str → option str) (I : W → Prop) : Prop :=
  ∀ chunk w, I w → (length chunk <= 30)%nat →
    ∃ es w', I w' ∧ ldap_search c (derive_base_dn (ld_users_dn cfg)) (group_filter chunk) [u "objectGUID"; u "distinguishedName"]
        (Z.of_nat (length chunk)) w = (Ok es, w') ∧ answers dir chunk es.

Lemma resolve_chunks_run cfg c dir I chunks m w :
  group_search_works cfg c dir I → I w → Forall (λ chunk, (length chunk <= 30)%nat) chunks → truthful dir m →
  ∃ m' w', resolve_chunks cfg c chunks m w = (Ok m', w') ∧ truthful dir m'
    ∧ (∀ dn, is_Some (m !! dn) → is_Some (m' !! dn))
    ∧ ∀ dn, dn ∈ concat chunks → is_Some (dir dn) → is_Some (m' !! dn).
Proof.
  intros Hworks Hw HF. revert m w Hw. induction HF as [|chunk chunks Hlen _ IH]; intros m w Hw Hm.
  { exists m, w. repeat split; try done. intros dn Hdn. by apply not_elem_of_nil in Hdn. }
  cbn [resolve_chunks]. rewrite io_bind_run. destruct (Hworks chunk w Hw Hlen) as (es & w1 & Hw1 & -> & Hes & Hall).
  rewrite io_bind_run. unfold io_lift. destruct (note_guids_run dir es m Hes Hm) as (m1 & -> & Hm1 & Hmono & Hin).
  destruct (IH m1 w1 Hw1 Hm1) as (m' & w' & -> & Hm' & Hmono' & Hin'). exists m', w'. split; [done|]. split; [done|]. split.
  - intros dn Hdn. by apply Hmono', Hmono.
  - intros dn Hdn Hs. cbn [concat] in Hdn. apply elem_of_app in Hdn as [Hdn|Hdn]; [|by apply Hin'].
    destruct (Hall dn Hdn Hs) as (e & He & <-). by apply Hmono', Hin.
Qed.

Lemma resolve_on_run cfg c dir I dns w :
  group_search_works cfg c dir I → I w → ∃ w', resolve_on cfg c dns w = (Ok (omap dir dns), w').
Proof.
  intros Hworks Hw. destruct dns as [|dn0 dns0]; [by exists w|]. unfold resolve_on.
  set (dns := dn0 :: dns0). set (n := ((length dns + 29) / 30)%nat).
  destruct (resolve_chunks_run cfg c dir I (pages_of n 30 dns) ∅ w Hworks Hw) as (m & w' & E & Hm & _ & Hin).
  { apply Forall_forall. intros chunk Hc. unfold pages_of in Hc. apply list_elem_of_In, in_map_iff in Hc as (i & <- & _).
    rewrite length_take. lia. }
  { by intros dn g. }
  rewrite io_bind_run, E. exists w'. unfold mret, io_ret. do 2 f_equal.
  assert (concat (pages_of n 30 dns) = dns) as Hcat.
  { apply concat_pages. unfold n. pose proof (Nat.div_mod_eq (length dns + 29) 30).
    pose proof (Nat.mod_upper_bound (length dns + 29) 30). lia. }
  rewrite Hcat in Hin. clearbody dns. clear E Hcat n. induction dns as [|dn dns IH]; [done|].
  cbn [omap list_omap]. rewrite IH by (intros dn' Hdn'; apply Hin; by constructor).
  assert (m !! dn = dir dn) as ->; [|done]. destruct (m !! dn) as [g|] eqn:Em; [by rewrite (Hm dn g)|].
  destruct (dir dn) as [g|] eqn:Ed; [|done]. destruct (Hin dn) as [g' Hg']; [constructor | by rewrite Ed | congruence].
Qed.
End DirectoryLaws.

(** ** A concrete directory *)

(** The accounts, and the answer to a filter under a base. *)
Record conn : Type := { cn_server : ldap_server; cn_user : str; cn_password : str }.
Record directory : Type := Directory {
  dr_accounts : str → str → bool;
  dr_answers : str → str → list ldap_entry;
  dr_log : list (ldap_event conn);
}.
Definition noting {A} (event : ldap_event conn) (a : A) : io directory A := λ d,
  (Ok a, Directory (dr_accounts d) (dr_answers d) (dr_log d ++ [event])).

Definition escape_char (c : N) : str :=
  if bool_decide (c ∈ [40; 41; 42; 0; 92]%N) then 92%N :: hex_fixed 2 c else [c].

#[export] Instance directory_client : LdapClient directory conn := {|
  conn_server := cn_server; conn_user := cn_user; conn_password := cn_password;
  ldap_open srv user password :=
    let c := {| cn_server := srv; cn_user := user; cn_password := password |} in noting (EOpen c) c;
  ldap_closed c := mret false;
  ldap_start_tls c := noting (EStartTls c true) true;
  ldap_bind c d := let ok := dr_accounts d (cn_user c) (cn_password c) in noting (EBind c ok) ok d;
  ldap_search c base filter attributes limit d :=
    let es := dr_answers d base filter in noting (ESearch c base filter es) es d;
  ldap_modify c dn attribute changes := noting (EModify c dn attribute changes) true;
  ldap_unbind c := noting (EUnbind c) tt;
  escape_filter_chars s := concat (map escape_char s);
  bytes_text b := []; values_text l := [];
|}.

#[export] Instance directory_laws : LdapLaws directory conn.
Proof.
  refine {| ldap_trace := dr_log |}; try (intros; intros d; reflexivity).
  - intros srv user pw w c w' [= <- <-]. done.
  - done.
  - intros s c Hc. cbn [escape_filter_chars directory_client]. induction s as [|x s IH]; cbn [map concat].
    { apply not_elem_of_nil. }
    rewrite elem_of_app. intros [Hx|Hx]; [|done]. unfold escape_char in Hx. case_bool_decide as Hs.
    + apply elem_of_cons in Hx as [->|Hx]; [by vm_compute in Hc; set_solver|].
      pose proof (hex_fixed_hex 2 x) as Hh. rewrite Forall_forall in Hh. apply Hh, is_hex_cases in Hx as [Hr _].
      set_unfold. lia.
    + apply list_elem_of_singleton in Hx as ->. apply Hs. set_unfold. tauto.
Defined.

(** ** Properties *)

(** C14: with LDAPS or STARTTLS configured, no operation ever sends a password
    over a connection that is not encrypted by then, whatever the directory
    answers and wherever a call raises; and the change of a password never does
    under any configuration. *)
Theorem ldap_secrets_encrypted {W Conn : Type} `{LdapLaws W Conn} `{CaseMap} (cfg : LdapConfig) (w : W) :
  guarded (ldap_trace w) →
  (∀ username old new, guarded (ldap_trace (change_password cfg username old new w).2))
  ∧ (ld_mode cfg = u "ldaps" ∨ ld_mode cfg = u "starttls" →
      (∀ username password, guarded (ldap_trace (authenticate cfg username password w).2))
      ∧ (∀ username, guarded (ldap_trace (find_user_dn cfg username w).2))
      ∧ (∀ dns, guarded (ldap_trace (resolve_group_guids cfg dns w).2))
      ∧ (∀ term limit, guarded (ldap_trace (search_groups cfg term limit w).2))
      ∧ (∀ limit, guarded (ldap_trace (list_groups cfg limit w).2))).
Proof.
  intros Hw. split; [intros; by apply change_password_safe|]. intros Hmode.
  assert (∀ A (work : Conn → io W A), (∀ c, keeps safe (work c)) → guarded (ldap_trace (with_service cfg work w).2)) as Hws
    by (intros A work Hk; by apply (with_service_safe cfg work Hmode Hk)).
  split; [|split; [|split; [|split]]].
  - intros. by apply authenticate_safe.
  - intros. apply Hws. intros c. apply keeps_bind; [apply search_safe|]. intros es. apply keeps_ret.
  - intros [|dn dns]; [exact Hw|]. apply Hws. intros c. apply resolve_on_safe.
  - intros term limit. unfold search_groups. destruct (_ <? _)%nat; [exact Hw|]. apply Hws. intros c.
    apply keeps_bind; [apply search_safe|]. intros es. apply keeps_lift.
  - intros limit. apply Hws. intros c. apply keeps_bind; [apply search_safe|]. intros es. apply keeps_lift.
Qed.

Definition demo_entry (dn : str) : ldap_entry := {|
  en_dn := dn;
  en_attr k := if bool_decide (k = u "objectGUID") then Some [LText (uuid_str 5%N)]
               else if bool_decide (k = u "memberOf") then Some [LText dn] else None |}.
Definition demo_directory : directory := {|
  dr_accounts user password := true; dr_answers base filter := [demo_entry (u "CN=ivan,DC=x")]; dr_log := [] |}.
Definition demo_ldap (mode : str) : LdapConfig := {|
  ld_server := u "dc1"; ld_mode := mode; ld_port := 0; ld_tls_verify := true; ld_bind_dn := u "CN=svc,DC=x";
  ld_bind_password := u "s"; ld_users_dn := u "DC=x"; ld_domain := u "x"; ld_user_filter := [] |}.

Lemma ldap_secrets_encrypted_witness :
  (∀ username old new, guarded (ldap_trace (@change_password _ _ _ (demo_ldap (u "starttls")) username old new demo_directory).2))
  ∧ (ld_mode (demo_ldap (u "starttls")) = u "ldaps" ∨ ld_mode (demo_ldap (u "starttls")) = u "starttls" →
      (∀ username password, guarded (ldap_trace (@authenticate _ _ _ ascii_lower (demo_ldap (u "starttls")) username password demo_directory).2))
      ∧ (∀ username, guarded (ldap_trace (@find_user_dn _ _ _ (demo_ldap (u "starttls")) username demo_directory).2))
      ∧ (∀ dns, guarded (ldap_trace (@resolve_group_guids _ _ _ ascii_lower (demo_ldap (u "starttls")) dns demo_directory).2))
      ∧ (∀ term limit, guarded (ldap_trace (@search_groups _ _ _ ascii_lower (demo_ldap (u "starttls")) term limit demo_directory).2))
      ∧ (∀ limit, guarded (ldap_trace (@list_groups _ _ _ ascii_lower (demo_ldap (u "starttls")) limit demo_directory).2))).
Proof.
  apply (@ldap_secrets_encrypted _ _ _ _ ascii_lower (demo_ldap (u "starttls")) demo_directory).
  intros pre e post c E. by destruct pre.
Defined.

(** A user is authenticated only when the directory found an entry for his
    principal name, as the service account and under the configured base and
    filter, and then accepted his non-empty password for that entry's name. *)
Theorem authenticate_sound {W Conn : Type} `{LdapLaws W Conn} `{CaseMap} (cfg : LdapConfig) (username password : str)
    (w w' : W) (info : LDAPUserInfo) :
  authenticate cfg username password w = (Ok info, w') →
  username ≠ [] ∧ password ≠ [] ∧ ∃ svc user_conn entry es,
    conn_user svc = ld_bind_dn cfg ∧ since (ldap_trace w) (EBind svc true) w'
    ∧ since (ldap_trace w) (ESearch svc (ld_users_dn cfg) (user_search_filter cfg (upn_of cfg username)) (entry :: es)) w'
    ∧ conn_user user_conn = en_dn entry ∧ conn_password user_conn = password
    ∧ since (ldap_trace w) (EBind user_conn true) w'
    ∧ li_user_dn info = en_dn entry ∧ li_username info = default username (true_text (u "sAMAccountName") entry)
    ∧ li_groups info = map value_text (default [] (en_attr entry (u "memberOf"))).
Proof. apply authenticate_vouched. Qed.

Definition demo_authenticated : res LDAPUserInfo * directory :=
  @authenticate _ _ _ ascii_lower (demo_ldap (u "ldaps")) (u "ivan") (u "p@ss") demo_directory.
Definition demo_info : LDAPUserInfo := {|
  li_username := u "ivan"; li_user_dn := u "CN=ivan,DC=x"; li_groups := [u "CN=ivan,DC=x"]; li_group_guids := [uuid_str 5%N] |}.

Lemma authenticate_sound_witness :
  u "ivan" ≠ [] ∧ u "p@ss" ≠ [] ∧ ∃ svc user_conn entry es,
    conn_user svc = ld_bind_dn (demo_ldap (u "ldaps")) ∧ since (ldap_trace demo_directory) (EBind svc true) demo_authenticated.2
    ∧ since (ldap_trace demo_directory) (ESearch svc (ld_users_dn (demo_ldap (u "ldaps")))
        (user_search_filter (demo_ldap (u "ldaps")) (upn_of (demo_ldap (u "ldaps")) (u "ivan"))) (entry :: es)) demo_authenticated.2
    ∧ conn_user user_conn = en_dn entry ∧ conn_password user_conn = u "p@ss"
    ∧ since (ldap_trace demo_directory) (EBind user_conn true) demo_authenticated.2
    ∧ li_user_dn demo_info = en_dn entry ∧ li_username demo_info = default (u "ivan") (true_text (u "sAMAccountName") entry)
    ∧ li_groups demo_info = map value_text (default [] (en_attr entry (u "memberOf"))).
Proof.
  apply (@authenticate_sound _ _ _ _ ascii_lower (demo_ldap (u "ldaps")) (u "ivan") (u "p@ss") demo_directory
    demo_authenticated.2 demo_info).
  change (demo_authenticated = (Ok demo_info, demo_authenticated.2)).
  rewrite (surjective_pairing demo_authenticated) at 1. f_equal.
Defined.

(** The groups of a user are resolved as if one by one: thirty to a search
    gives, in order, the identifier of every group that the directory knows. *)
Theorem resolve_groups_chunked {W Conn : Type} `{LdapClient W Conn} `{CaseMap} (cfg : LdapConfig) (c : Conn)
    (dir : str → option str) (I : W → Prop) (dns : list str) (w : W) :
  group_search_works cfg c dir I → I w → ∃ w', resolve_on cfg c dns w = (Ok (omap dir dns), w').
Proof. apply resolve_on_run. Qed.

Definition demo_conn : conn := {| cn_server := build_server (demo_ldap (u "ldaps")); cn_user := []; cn_password := [] |}.
Definition demo_dir (dn : str) : option str := if bool_decide (dn = u "CN=ivan,DC=x") then Some (uuid_str 5%N) else None.

Lemma resolve_groups_chunked_witness :
  ∃ w', @resolve_on _ _ _ ascii_lower (demo_ldap (u "ldaps")) demo_conn [u "CN=other"; u "CN=ivan,DC=x"] demo_directory
    = (Ok (omap demo_dir [u "CN=other"; u "CN=ivan,DC=x"]), w').
Proof.
  apply (@resolve_groups_chunked _ _ _ ascii_lower (demo_ldap (u "ldaps")) demo_conn demo_dir
    (λ d, dr_answers d = dr_answers demo_directory)); [|reflexivity].
  intros chunk d Hd _. eexists _, _. split; [|split; [reflexivity|]]; [exact Hd|]. rewrite Hd. split.
  - intros e He. apply list_elem_of_singleton in He as ->. do 2 eexists. split; [vm_compute; reflexivity|].
    split; [discriminate | vm_compute; reflexivity].
  - intros dn Hdn. unfold demo_dir. case_bool_decide as E; [|by intros []]. intros _.
    exists (demo_entry (u "CN=ivan,DC=x")). split; [constructor|]. rewrite E. vm_compute. reflexivity.
Defined.
Close Scope Z_scope.
