(* ===== verification/AdminSettings.v ===== *)
(** The settings page of the administration, [services/admin/routes/settings.py],
    beyond the storing of [Settings]: what the page shows, and the two
    checks of the directory, with the settings in use and with those of the form. *)

From stdpp Require Import prelude gmap list strings.
From Stdlib Require Import ZArith Lia.
From Stdlib Require Strings.String.
From S2P Require Import Prelude PySeq PyBytes PyStr Json Encryption Sessions Database Models Config Settings Ldap.

Open Scope Z_scope.

Section Routes.
Context {D W Conn : Type} `{!Table str PortalSetting D} `{AESGCM} `{Config} `{Floats} `{LdapClient W Conn} `{CaseMap}.

Definition get_settings (m : SettingsManager) (s : settings D) : dict := get_all_for_ui m s.

(** One call to the directory; whatever it raises is answered [400]. *)
Definition reach_directory (cfg : LdapConfig) : io W unit :=
  io_try (_ ← list_groups cfg 1; mret tt) (λ _, io_raise (HTTPException 400)).

(** [ldap_auth]: the authenticator of the application, if there is one. *)
Definition ldap_check (ldap_auth : option LdapConfig) : io W unit :=
  match ldap_auth with
  | None => io_raise (HTTPException 500)
  | Some cfg => reach_directory cfg
  end.

(** [ldap_test]: the settings that are in force with those of the form over
    them are tried, and not stored. *)
Definition ldap_test_form (m : SettingsManager) (now : Z) (nonce : bytes) (body : dict) : io (settings D * W) unit :=
  cfg ← io_zoom fst (λ s p, (s, p.2)) (ldap_test m now nonce body);
  io_zoom snd (λ w p, (p.1, w)) (reach_directory cfg).
End Routes.

(** ** Lemmas *)

#[local] Opaque u.

Section FormLaws.
Context {D : Type} `{!Table str PortalSetting D} `{!TableLaws str PortalSetting D} `{AESGCMLaws} `{ConfigLaws} `{Floats}.
Implicit Types (m : SettingsManager) (now : Z) (s : settings D).

(** The section that the form is tried as: what is in force, the password in the
    clear, and the form over it. *)
Definition tried_section (raw : dict) (pw : str) (form : dict) : dict :=
  dict_pop (u "bind_password_enc") (dict_merge (dict_set BIND_PASSWORD (JStr pw) (dict_pop (u "bind_password_enc") raw)) (clean_dict form)).

Lemma get_ldap_clear m now nonce raw blob pw s :
  (SETTINGS_TTL <? now - se_loaded_at s) = false → se_cache s !! u "ldap" = Some raw →
  dict_get (u "bind_password_enc") raw = Some (JStr blob) → decrypt_password m (JStr blob) = Ok pw →
  get m now nonce (u "ldap") s = (Ok (dict_set BIND_PASSWORD (JStr pw) (dict_pop (u "bind_password_enc") raw)), s).
Proof.
  intros Hf Hc He Hp. unfold get. rewrite io_bind_run. unfold io_get at 1. rewrite Hf.
  rewrite io_bind_run. unfold mret at 1, io_ret at 1. rewrite io_bind_run. unfold io_get.
  rewrite Hc, bool_decide_eq_true_2 by reflexivity. unfold dict_has, dict_get_or. rewrite He.
  cbn [andb default from_option]. unfold default, from_option, id. rewrite io_bind_run. unfold io_lift. by rewrite Hp.
Qed.

Lemma ldap_test_run m now nonce raw blob pw form c s :
  (SETTINGS_TTL <? now - se_loaded_at s) = false → se_cache s !! u "ldap" = Some raw →
  dict_get (u "bind_password_enc") raw = Some (JStr blob) → decrypt_password m (JStr blob) = Ok pw →
  typed_ldap (tried_section raw pw form) = Some c →
  ldap_test m now nonce [(u "ldap", JObj form)] s = (Ok c, s).
Proof.
  intros Hf Hc He Hp Ht. unfold ldap_test. rewrite io_bind_run, (get_ldap_clear m now nonce raw blob pw s Hf Hc He Hp).
  rewrite io_bind_run. cbn [dict_get]. rewrite bool_decide_eq_true_2 by reflexivity. unfold mret at 1, io_ret at 1. cbv zeta.
  fold (tried_section raw pw form). by rewrite (ldap_config_typed _ c Ht).
Qed.

Lemma clean_text form k p : dict_get k (clean_dict form) = Some (JStr p) → p ≠ [].
Proof.
  induction form as [|[k' v] form IH]; [done|]. unfold clean_dict. cbn [List.filter]. fold (clean_dict form).
  destruct (match (k', v).2 with JNull => _ | _ => _ end) eqn:E; [|exact IH]. cbn [dict_get]. case_bool_decide; [|exact IH].
  intros [= ->] ->. by vm_compute in E.
Qed.

(** What [seal] makes of a form, and the password that the sealed section holds. *)
Definition form_password (form : dict) (pw : str) : str :=
  match dict_get BIND_PASSWORD (clean_dict form) with Some (JStr p) => p | _ => pw end.

Lemma seal_form m nonce form :
  length (sm_key m) = 32%nat → length nonce = 12%nat → NoDup form.*1 → u "bind_password_enc" ∉ form.*1 →
  from_option (λ v, ∃ p, v = JStr p ∧ Forall scalar p) True (dict_get BIND_PASSWORD (clean_dict form)) →
  ∃ v, seal m nonce (u "ldap") (clean_dict form) = Ok v ∧ NoDup v.*1
    ∧ (∀ k, k ∈ LDAP_FIELDS → k ≠ BIND_PASSWORD → dict_get k v = dict_get k (clean_dict form))
    ∧ match dict_get BIND_PASSWORD (clean_dict form) with
      | None => dict_get (u "bind_password_enc") v = None
      | Some _ => ∃ blob, dict_get (u "bind_password_enc") v = Some (JStr blob)
          ∧ ∀ pw, decrypt_password m (JStr blob) = Ok (form_password form pw)
      end.
Proof.
  intros Hk Hn Hnd Henc Hpw. unfold seal. rewrite bool_decide_eq_true_2 by reflexivity. unfold dict_has, dict_get_or, form_password.
  assert (NoDup (clean_dict form).*1) as Hnd' by by apply NoDup_clean.
  destruct (dict_get BIND_PASSWORD (clean_dict form)) as [v|] eqn:Ep; cbn [andb].
  2: { exists (clean_dict form). split; [done|]. split; [done|]. split; [done|]. apply dict_get_None. intros Hin. by apply Henc, elem_clean. }
  cbn [from_option] in Hpw. destruct Hpw as (p & -> & Hp). pose proof (clean_text form BIND_PASSWORD p Ep) as Hne.
  destruct (decrypt_encrypt (sm_key m) nonce p SECRET_AAD Hk Hn Hp) as (blob & Ee & Ed & _).
  assert (truthy (default JNull (Some (JStr p))) = true) as -> by (cbn; by rewrite bool_decide_eq_false_2).
  exists (dict_set (u "bind_password_enc") (JStr blob) (dict_pop BIND_PASSWORD (clean_dict form))).
  split; [unfold encrypt_password, default, from_option, id; by rewrite Ee|].
  split; [by apply NoDup_dict_set, NoDup_dict_pop|]. split.
  - intros k Hf Hb. assert (k ≠ u "bind_password_enc") by (intros ->; by apply enc_not_field).
    rewrite dict_get_set_ne by assumption. apply dict_get_pop_ne. assumption.
  - exists blob. split; [apply dict_get_set_eq|]. intros pw. exact Ed.
Qed.

(** Storing the form and reading the section back gives what the form is tried as. *)
Lemma stored_typed raw pw form v :
  NoDup v.*1 → NoDup form.*1 →
  (∀ k, k ∈ LDAP_FIELDS → k ≠ BIND_PASSWORD → dict_get k v = dict_get k (clean_dict form)) →
  from_option (λ v, ∃ p, v = JStr p ∧ Forall scalar p) True (dict_get BIND_PASSWORD (clean_dict form)) →
  typed_ldap (dict_set BIND_PASSWORD (JStr (form_password form pw)) (dict_pop (u "bind_password_enc") (dict_merge raw v)))
  = typed_ldap (tried_section raw pw form).
Proof.
  intros Hnv Hnf Hv Hpw. apply NoDup_clean in Hnf. apply typed_ldap_ext, Forall_forall. intros k Hk.
  assert (k ≠ u "bind_password_enc") as Hne by (intros ->; by apply enc_not_field).
  unfold tried_section. rewrite (dict_get_pop_ne (u "bind_password_enc") k (dict_merge _ (clean_dict form))), (dict_get_merge _ (clean_dict form)) by assumption.
  destruct (decide (k = BIND_PASSWORD)) as [->|Hb].
  - rewrite !dict_get_set_eq. unfold form_password. destruct (dict_get BIND_PASSWORD (clean_dict form)) as [v0|]; [|done].
    cbn [from_option] in Hpw. by destruct Hpw as (p & -> & _).
  - rewrite !dict_get_set_ne by assumption. rewrite !dict_get_pop_ne by assumption. rewrite dict_get_merge, Hv by assumption. reflexivity.
Qed.

Lemma ldap_of_clear m s d blob p c :
  se_cache s !! u "ldap" = Some d → dict_get (u "bind_password_enc") d = Some (JStr blob) → decrypt_password m (JStr blob) = Ok p →
  typed_ldap (dict_set BIND_PASSWORD (JStr p) (dict_pop (u "bind_password_enc") d)) = Some c → ldap m s = Some c.
Proof.
  intros Hc He Hp Ht. unfold ldap. rewrite Hc. unfold dict_has, dict_get_or. rewrite He. unfold default, from_option, id.
  rewrite Hp. cbn [mbind res_bind]. rewrite dict_get_set_eq. by rewrite (ldap_config_typed _ c Ht).
Qed.

Lemma typed_password d c : typed_ldap d = Some c → dict_get BIND_PASSWORD d = Some (JStr (ld_bind_password c)).
Proof.
  unfold typed_ldap. intros E. repeat (apply bind_Some in E as (? & ? & E)). injection E as <-. cbn [ld_bind_password].
  match goal with H : str_value d BIND_PASSWORD None = Some _ |- _ => revert H end.
  unfold str_value. destruct (dict_get BIND_PASSWORD d) as [[]|]; try discriminate. by intros [= ->].
Qed.

(** The password of a form that can be tried is a text. *)
Lemma form_password_text raw pw form c :
  NoDup form.*1 → typed_ldap (tried_section raw pw form) = Some c → Forall scalar (ld_bind_password c) →
  from_option (λ v, ∃ p, v = JStr p ∧ Forall scalar p) True (dict_get BIND_PASSWORD (clean_dict form)).
Proof.
  intros Hn Ht Hs. pose proof (typed_password _ c Ht) as Hp. unfold tried_section in Hp.
  rewrite dict_get_pop_ne in Hp by (apply not_eq_sym, enc_ne_password). rewrite dict_get_merge in Hp by (by apply NoDup_clean).
  destruct (dict_get BIND_PASSWORD (clean_dict form)) as [v|]; [|exact I]. injection Hp as ->. by exists (ld_bind_password c).
Qed.

(** Storing the form: the section in the cache and in the table. *)
Lemma save_form_run m now nonce raw blob pw form c s r :
  tabled s → length (sm_key m) = 32%nat → length nonce = 12%nat → NoDup form.*1 → u "bind_password_enc" ∉ form.*1 →
  se_cache s !! u "ldap" = Some raw → rows (se_db s) !! u "ldap" = Some r → ps_value r = JObj raw →
  dict_get (u "bind_password_enc") raw = Some (JStr blob) → decrypt_password m (JStr blob) = Ok pw →
  typed_ldap (tried_section raw pw form) = Some c → Forall scalar (ld_bind_password c) →
  ∃ s' d blob' p r', save_section m now nonce (u "ldap") (clean_dict form) s = (Ok tt, s')
    ∧ tabled s' ∧ se_seeded s' = se_seeded s ∧ se_loaded_at s' = now ∧ se_cache s' !! u "ldap" = Some d
    ∧ dict_get (u "bind_password_enc") d = Some (JStr blob') ∧ decrypt_password m (JStr blob') = Ok p
    ∧ typed_ldap (dict_set BIND_PASSWORD (JStr p) (dict_pop (u "bind_password_enc") d)) = Some c
    ∧ rows (se_db s') !! u "ldap" = Some r' ∧ ps_value r' = JObj d.
Proof.
  intros Hk Hkey Hnonce Hn Henc Hc Hr Hv He Hp Ht Hs. pose proof (form_password_text raw pw form c Hn Ht Hs) as Hpw.
  destruct (seal_form m nonce form Hkey Hnonce Hn Henc Hpw) as (v & Ev & Hnv & Hfields & Hblob).
  destruct (save_section_run m now nonce (u "ldap") (clean_dict form) v s Hk Ev ldap_fits)
    as (s' & E & Hk' & Hseed & Hl & Hc' & r' & Hr' & Hv').
  rewrite Hc, drop_listen_port_ldap in Hc'. unfold stored_value in Hv'. rewrite Hr, Hv, drop_listen_port_ldap in Hv'.
  pose proof (stored_typed raw pw form v Hnv Hn Hfields Hpw) as Htyped. rewrite Ht in Htyped.
  destruct (dict_get BIND_PASSWORD (clean_dict form)) as [v0|] eqn:Eb.
  - destruct Hblob as (blob' & Hb & Hd). exists s', (dict_merge raw v), blob', (form_password form pw), r'.
    split; [exact E|]. split; [exact Hk'|]. split; [exact Hseed|]. split; [exact Hl|]. split; [exact Hc'|].
    split; [rewrite dict_get_merge, Hb by exact Hnv; reflexivity|]. split; [apply Hd|]. split; [exact Htyped|]. by split.
  - exists s', (dict_merge raw v), blob, pw, r'.
    split; [exact E|]. split; [exact Hk'|]. split; [exact Hseed|]. split; [exact Hl|]. split; [exact Hc'|].
    split; [rewrite dict_get_merge, Hblob by exact Hnv; exact He|]. split; [exact Hp|].
    unfold form_password in Htyped. rewrite Eb in Htyped. split; [exact Htyped|]. by split.
Qed.
End FormLaws.

(** ** Properties *)

(** C16: the test of the directory's settings tries exactly what storing the form
    would put in force: the settings in force with the form over them, where a
    field that is left blank, the password included, keeps its value. It stores
    nothing; and when the form is then stored, the accessor of this process
    and of any that loads the table returns the configuration that was tried. *)
Theorem ldap_test_previews {D A : Type} `{!Table str PortalSetting D} `{!TableLaws str PortalSetting D}
    `{AESGCMLaws} `{ConfigLaws} `{Floats} (hooks : str → list (dict → io (settings D * A) unit)) (m : SettingsManager)
    (now : Z) (nonce : bytes) (raw : dict) (blob pw : str) (form : dict) (c : LdapConfig) (s : settings D) (a : A) (r : PortalSetting) :
  tabled s → untouched_by hooks → length (sm_key m) = 32%nat → length nonce = 12%nat →
  (SETTINGS_TTL <? now - se_loaded_at s) = false →
  se_cache s !! u "ldap" = Some raw → rows (se_db s) !! u "ldap" = Some r → ps_value r = JObj raw →
  dict_get (u "bind_password_enc") raw = Some (JStr blob) → decrypt_password m (JStr blob) = Ok pw →
  NoDup form.*1 → u "bind_password_enc" ∉ form.*1 →
  typed_ldap (tried_section raw pw form) = Some c → Forall scalar (ld_bind_password c) →
  ldap_test m now nonce [(u "ldap", JObj form)] s = (Ok c, s)
  ∧ ∃ s' a', put_sections hooks m now nonce [(u "ldap", JObj form)] (s, a) = (Ok tt, (s', a'))
    ∧ ldap m s' = Some c
    ∧ ∀ (other : settings D) later nonce', se_db other = se_db s' → se_seeded other = true →
        ∃ other', load m later nonce' other = (Ok tt, other') ∧ ldap m other' = Some c.
Proof.
  intros Hk Hq Hkey Hnonce Hf Hc Hr Hv He Hp Hn Henc Ht Hs.
  split; [exact (ldap_test_run m now nonce raw blob pw form c s Hf Hc He Hp Ht)|].
  destruct (save_form_run m now nonce raw blob pw form c s r Hk Hkey Hnonce Hn Henc Hc Hr Hv He Hp Ht Hs)
    as (s1 & d & blob' & p & r' & E & Hk' & _ & Hl & Hc' & He' & Hp' & Ht' & Hr' & Hv').
  assert ((SETTINGS_TTL <? now - se_loaded_at s1) = false) as Hf' by (rewrite Hl, Z.sub_diag; reflexivity).
  pose proof (get_ldap_clear m now nonce d blob' p s1 Hf' Hc' He' Hp') as Eg.
  destruct (run_callbacks_quiet (hooks (u "ldap")) (dict_set BIND_PASSWORD (JStr p) (dict_pop (u "bind_password_enc") d)) (s1, a) (Hq _)) as [a' Ea].
  exists (Settings (se_db s1) (se_cache s1) (se_loaded_at s1) (se_seeded s1) (se_published s1 ++ [u "ldap"])), a'. split; [|split].
  - cbn [put_sections]. assert (strip (u "ldap") = u "ldap") as -> by (vm_compute; reflexivity). cbv zeta.
    assert (bool_decide (u "ldap" = []) = false) as -> by (vm_compute; reflexivity).
    assert (bool_decide (u "ldap" ∈ MERGE_KEYS) = true) as -> by (vm_compute; reflexivity). cbn [negb andb].
    unfold save. rewrite io_bind_run, io_bind_run, (on_settings_run _ s a _ _ E). rewrite io_bind_run.
    unfold run_hooks_of. rewrite io_bind_run, (on_settings_run _ s1 a _ _ Eg), Ea. reflexivity.
  - exact (ldap_of_clear m _ d blob' p c Hc' He' Hp' Ht').
  - intros other later nonce' Hdb Hseed. destruct (load_ldap m later nonce' other r' d) as (other' & El & Hco).
    + unfold tabled. rewrite Hdb. exact Hk'.
    + exact Hseed.
    + rewrite Hdb. exact Hr'.
    + exact Hv'.
    + exists other'. split; [exact El|]. exact (ldap_of_clear m _ d blob' p c Hco He' Hp' Ht').
Qed.

#[local] Transparent u.

Definition demo_raw : dict :=
  match seal demo_manager (replicate 12 (z2b 1)) (u "ldap") (ldap_dump Settings.demo_ldap) with Ok d => d | Err _ => [] end.
Definition demo_blob : str := match dict_get (u "bind_password_enc") demo_raw with Some (JStr b) => b | _ => [] end.
Definition demo_stored : settings (gmap str PortalSetting) :=
  Settings {[ u "ldap" := {| ps_key := u "ldap"; ps_value := JObj demo_raw |} ]} {[ u "ldap" := demo_raw ]} 0 true [].
(** Another server, and the field of the password left blank. *)
Definition demo_form : dict := [(u "server", JStr (u "dc2.example.com")); (u "bind_password", JStr (u " ")); (u "port", JInt 389)].
Definition demo_tried : LdapConfig := {|
  ld_server := u "dc2.example.com"; ld_mode := u "ssl"; ld_port := 389; ld_tls_verify := true;
  ld_bind_dn := u "cn=proxy"; ld_bind_password := u "s3cret"; ld_users_dn := u "ou=users"; ld_domain := u "EXAMPLE"; ld_user_filter := [] |}.

Lemma ldap_test_previews_witness :
  ldap_test demo_manager 5 (replicate 12 (z2b 2)) [(u "ldap", JObj demo_form)] demo_stored = (Ok demo_tried, demo_stored)
  ∧ ∃ s' a', put_sections (A := unit) (λ _, []) demo_manager 5 (replicate 12 (z2b 2)) [(u "ldap", JObj demo_form)] (demo_stored, tt) = (Ok tt, (s', a'))
    ∧ ldap demo_manager s' = Some demo_tried
    ∧ ∀ (other : settings (gmap str PortalSetting)) later nonce', se_db other = se_db s' → se_seeded other = true →
        ∃ other', load demo_manager later nonce' other = (Ok tt, other') ∧ ldap demo_manager other' = Some demo_tried.
Proof.
  apply (@ldap_test_previews (gmap str PortalSetting) unit setting_table setting_table_laws toy_gcm toy_gcm_laws
    strict_config strict_config_laws zero_floats (λ _, []) demo_manager 5 (replicate 12 (z2b 2)) demo_raw demo_blob (u "s3cret")
    demo_form demo_tried demo_stored tt {| ps_key := u "ldap"; ps_value := JObj demo_raw |}).
  - intros k row Hk. change (rows (se_db demo_stored)) with ({[ u "ldap" := {| ps_key := u "ldap"; ps_value := JObj demo_raw |} ]} : gmap str PortalSetting) in Hk.
    apply lookup_singleton_Some in Hk as [<- <-]. reflexivity.
  - intros k. constructor.
  - reflexivity.
  - reflexivity.
  - reflexivity.
  - apply lookup_singleton_eq.
  - change (rows (se_db demo_stored)) with ({[ u "ldap" := {| ps_key := u "ldap"; ps_value := JObj demo_raw |} ]} : gmap str PortalSetting). apply lookup_singleton_eq.
  - reflexivity.
  - vm_compute. reflexivity.
  - vm_compute. reflexivity.
  - apply (bool_decide_eq_true_1 (NoDup _)). vm_compute. reflexivity.
  - apply (bool_decide_eq_true_1 (_ ∉ _)). vm_compute. reflexivity.
  - vm_compute. reflexivity.
  - apply scalar_b_spec. vm_compute. reflexivity.
Defined.
Close Scope Z_scope.
