(* ===== verification/Handler.v ===== *)
(** The life of one RDP connection, [services/rdp_relay/handler.py]: the client's
    address, the token and its session, the fingerprint, tracking, the network
    steps, and the final record. What happens on the network (draining, TLS,
    authentication against the server, the relay) is a parameter: it may change
    the shared state and may raise. [ConnectionError] stands for the resets and
    broken pipes that the handler takes for a disconnected client. *)

From stdpp Require Import prelude gmap list strings.
From Stdlib Require Import ZArith Lia.
From Stdlib Require Strings.String.
From S2P Require Import Prelude PySeq PyBytes PyStr Json PyUuid PyIp Redis Keys Database Models Encodings Stream Tpkt X224 ProxyProtocol Sessions Tracker Config Dns Settings Plugins Relay Encryption.

Open Scope Z_scope.

(** One connection: the shared stores, the client's stream, what was written to
    the client, whether it was aborted, and the local [tracked_cid]. *)
Record conn (R DS DH DE : Type) : Type := Conn {
  cn_tracking : tracking R DS DH DE;
  cn_stream : bytes;
  cn_written : list bytes;
  cn_aborted : bool;
  cn_cid : option str;
  cn_plugins : plugins_state;
  cn_dns : DnsResolver;
}.
Arguments Conn {R DS DH DE}. Arguments cn_tracking {R DS DH DE}. Arguments cn_stream {R DS DH DE}.
Arguments cn_written {R DS DH DE}. Arguments cn_aborted {R DS DH DE}. Arguments cn_cid {R DS DH DE}.
Arguments cn_plugins {R DS DH DE}. Arguments cn_dns {R DS DH DE}.

(** What the handler reads of the settings manager, at one moment. *)
Record settings_view : Type := { sv_security : dict; sv_ldap : option LdapConfig }.
Definition view_settings {D} `{AESGCM} `{Config} (m : SettingsManager) (s : settings D) : settings_view :=
  {| sv_security := security_params m s; sv_ldap := ldap m s |}.

(** The handler: configuration, store, tracker, and the settings manager as it
    answers before and after the relay ([None]: the handler has none). *)
Record RdpConnectionHandler : Type := {
  hd_cfg : AppConfig;
  hd_sessions : SessionStore;
  hd_tracker : ConnectionTracker;
  hd_settings : option settings_view;
  hd_settings_after : option settings_view;
}.

(** The clock when the connection arrives and when the relay is over, the
    monotonic clock then, and the identifier that is drawn. *)
Record moment : Type := { mo_start : Z; mo_end : Z; mo_mono_start : Z; mo_mono_end : Z; mo_id : uuid }.

(** ** The client's address *)

Definition is_trusted_proxy (cfg : AppConfig) (ip_str : str) : bool :=
  match ip_address ip_str with
  | None => false
  | Some addr =>
      existsb (λ net_str, match ip_network_of net_str with
                          | Some net => in_network addr net
                          | None => false
                          end) (rl_trusted_proxies (c_rdp_relay cfg))
  end.

(** [peer]: the host of [peername], when it is there. *)
Definition resolve_client_ip (cfg : AppConfig) (peer : option str) : io bytes str :=
  let peer_ip := default (u "unknown") peer in
  if rl_proxy_protocol (c_rdp_relay cfg) && is_trusted_proxy cfg peer_ip then
    io_try (pp_info ← read_proxy_protocol; mret (src_addr pp_info)) (λ _, mret peer_ip)
  else mret peer_ip.

Section Handler.
Context {R DS DH DE : Type} `{Redis R} `{!Table uuid RdpServer DS}
  `{!Table uuid ConnectionHistory DH} `{!Log ConnectionEvent DE} `{AESGCM}.

Abbreviation conn := (conn R DS DH DE).

(** The network. *)
Record Network : Type := {
  net_query : str → res str;
  net_drain : io conn unit;
  net_start_tls : io conn unit;
  net_authenticate : str → Z → str → str → str → io conn unit;
  net_relay : SessionContext → io conn RelayResult;
}.
Implicit Types (h : RdpConnectionHandler) (net : Network) (mo : moment).

Definition on_tracking {A} (m : io (tracking R DS DH DE) A) : io conn A :=
  io_zoom cn_tracking (λ t c, Conn t (cn_stream c) (cn_written c) (cn_aborted c) (cn_cid c) (cn_plugins c) (cn_dns c)) m.
Definition on_store {A} (m : io (world R) A) : io conn A := on_tracking (on_redis m).
Definition on_stream {A} (m : io bytes A) : io conn A :=
  io_zoom cn_stream (λ b c, Conn (cn_tracking c) b (cn_written c) (cn_aborted c) (cn_cid c) (cn_plugins c) (cn_dns c)) m.
Definition on_plugins {A} (m : io plugins_state A) : io conn A :=
  io_zoom cn_plugins (λ p c, Conn (cn_tracking c) (cn_stream c) (cn_written c) (cn_aborted c) (cn_cid c) p (cn_dns c)) m.
Definition on_dns {A} (m : io DnsResolver A) : io conn A :=
  io_zoom cn_dns (λ d c, Conn (cn_tracking c) (cn_stream c) (cn_written c) (cn_aborted c) (cn_cid c) (cn_plugins c) d) m.
Definition abort_writer : io conn unit :=
  io_modify (λ c, Conn (cn_tracking c) (cn_stream c) (cn_written c) true (cn_cid c) (cn_plugins c) (cn_dns c)).
Definition client_write (data : bytes) : io conn unit :=
  io_modify (λ c, Conn (cn_tracking c) (cn_stream c) (cn_written c ++ [data]) (cn_aborted c) (cn_cid c) (cn_plugins c) (cn_dns c)).
Definition set_cid (cid : str) : io conn unit :=
  io_modify (λ c, Conn (cn_tracking c) (cn_stream c) (cn_written c) (cn_aborted c) (Some cid) (cn_plugins c) (cn_dns c)).

(** ** Admission: token, session, fingerprint *)

(** A text or nothing: what [create_session] stores in these fields. *)
Definition opt_str_field (j : json) : res (option str) :=
  match j with JNull => Ok None | JStr s => Ok (Some s) | _ => Err OtherError end.

Definition security_of (v : option settings_view) : dict := from_option sv_security [] v.

(** The session, the token and the requested protocols, or nothing when the
    client was refused. *)
Definition admit_client h mo (peer : option str) : io conn (option (SessionData * str * Z * str)) :=
  client_ip ← on_stream (resolve_client_ip (hd_cfg h) peer);
  x224_request ← on_stream (read_tpkt []);
  token ← io_lift (extract_cookie_token x224_request);
  client_requested_protocols ← io_lift (extract_requested_protocols x224_request);
  session ← on_store (get_session (hd_sessions h) (mo_start mo) token);
  match session with
  | None => _ ← abort_writer; mret None
  | Some session =>
      let sec := security_of (hd_settings h) in
      let fp_enforce := truthy (dict_get_or (u "token_fingerprint_enforce")
        (JBool (sc_token_fingerprint_enforce (c_security (hd_cfg h)))) sec) in
      if fp_enforce then
        client_fp ← io_lift (build_rdp_client_fingerprint x224_request token);
        if truthy (sd_fingerprint session) then
          matches ← on_store (token_fingerprint_matches (mo_start mo) token client_fp);
          if negb matches then _ ← abort_writer; mret None
          else mret (Some (session, token, client_requested_protocols, client_ip))
        else
          _ ← on_store (set_token_fingerprint (mo_start mo) token client_fp);
          mret (Some (session, token, client_requested_protocols, client_ip))
      else mret (Some (session, token, client_requested_protocols, client_ip))
  end.

(** ** Tracking and connecting *)

Definition track h mo (session : SessionData) (token client_ip : str) : io conn str :=
  server_id ← io_lift (opt_str_field (sd_server_id session));
  server_display ← io_lift (opt_str_field (sd_server_display session));
  tracked ← on_tracking (start (hd_tracker h) (mo_start mo) (mo_id mo) (sd_username session) server_id
                           server_display (sd_target_host session) (sd_target_port session) client_ip);
  let tracked_cid := tc_connection_id tracked in
  _ ← set_cid tracked_cid;
  _ ← on_store (client_setex (mo_start mo) (CONN_TOKEN tracked_cid) (rc_rdp_token_ttl (c_redis (hd_cfg h))) token);
  _ ← on_tracking (event (hd_tracker h) (mo_start mo) tracked_cid (u "token_resolved")
        [(u "target", JStr (sd_target_host session ++ u ":" ++ str_of_Z (sd_target_port session)))]);
  mret tracked_cid.

Definition ldap_domain_of h : str :=
  let from_settings := match hd_settings h with
                       | Some v => from_option ld_domain [] (sv_ldap v)
                       | None => []
                       end in
  if bool_decide (from_settings = []) then from_option ld_domain [] (c_ldap (hd_cfg h)) else from_settings.

(** Up to the authenticated connection to the server; the resolved host. *)
Definition connect h net mo (session : SessionData) (tracked_cid : str) : io conn str :=
  let note ty detail := on_tracking (event (hd_tracker h) (mo_start mo) tracked_cid ty detail) in
  resolved_host ← on_dns (resolve (net_query net) (mo_start mo) (sd_target_host session));
  _ ← (if negb (bool_decide (resolved_host = sd_target_host session)) then
         note (u "dns_resolved") [(u "host", JStr (sd_target_host session)); (u "ip", JStr resolved_host)]
       else mret tt);
  confirm ← io_lift build_x224_cc_ssl;
  _ ← client_write confirm;
  _ ← net_drain net;
  _ ← note (u "x224_cc_sent") [];
  _ ← net_start_tls net;
  _ ← note (u "client_tls_established") [];
  _ ← net_authenticate net resolved_host (sd_target_port session) (sd_username session) (sd_password session)
        (ldap_domain_of h);
  _ ← note (u "credssp_authenticated") [];
  mret resolved_host.

(** ** The relay and the outcome *)

Definition kill_key_set (now : Z) (tracked_cid : str) : io conn bool :=
  raw ← on_store (client_get now (KILL_SESSION tracked_cid));
  mret (if some_text raw is Some _ then true else false).

(** [_kill_requested], the answer the relay's poller gets. *)
Definition kill_requested (now mono : Z) (tracked_cid : str) : io conn bool :=
  killed ← kill_key_set now tracked_cid;
  if killed : bool then mret true
  else
    c ← io_get;
    mret (is_idle mono (ps_monitor (cn_plugins c)) || is_duration_exceeded mono (ps_monitor (cn_plugins c))).

Definition reason_text (r : reason) : str :=
  match r with REof => u "eof" | RKilled => u "killed" | RFailed _ => u "error" end.
Definition direction_text (d : direction) : str :=
  match d with ClientToBackend => u "client_to_backend" | BackendToClient => u "backend_to_client" end.

Definition relay_detail (r : RelayResult) : dict := [
  (u "bytes_to_client", JInt (bytes_to_client r));
  (u "bytes_to_backend", JInt (bytes_to_backend r));
  (u "legs", JList (map (λ l, JObj [
     (u "direction", JStr (direction_text l.1.1));
     (u "bytes", JInt l.1.2);
     (u "reason", JStr (reason_text l.2))]) (legs r)))].

Definition outcome_of mo (tracked_cid : str) (r : RelayResult) : io conn (str * str) :=
  if was_killed r then
    admin_kill ← kill_key_set (mo_end mo) tracked_cid;
    c ← io_get;
    mret (if admin_kill : bool then (u "killed", u "admin_kill")
          else if is_duration_exceeded (mo_mono_end mo) (ps_monitor (cn_plugins c))
          then (u "closed", u "max_duration")
          else (u "closed", u "idle_timeout"))
  else mret (u "closed", u "normal").

Definition run_relay h net mo (session : SessionData) (tracked_cid client_ip resolved_host : str)
    (client_requested_protocols : Z) : io conn RelayResult :=
  let ctx := {|
    ctx_connection_id := tracked_cid; ctx_username := sd_username session; ctx_client_ip := client_ip;
    ctx_target_host := resolved_host; ctx_target_port := sd_target_port session;
    ctx_instance_id := in_id (c_instance (hd_cfg h));
    ctx_client_requested_protocols := Some client_requested_protocols;
    ctx_client_socket := true; ctx_backend_socket := true |} in
  _ ← on_plugins (registry_on_session_start (relay_plugins (mo_mono_start mo)) ctx);
  result ← net_relay net ctx;
  _ ← on_plugins (registry_on_session_end (relay_plugins (mo_mono_end mo)) ctx);
  _ ← on_tracking (event (hd_tracker h) (mo_end mo) tracked_cid (u "relay_finished") (relay_detail result));
  mret result.

Definition conclude h mo (tracked_cid token : str) (result : RelayResult) : io conn unit :=
  fin ← outcome_of mo tracked_cid result;
  let '(fin_status, fin_reason) := fin in
  _ ← on_tracking (finish (hd_tracker h) (mo_end mo) tracked_cid fin_status (Some fin_reason)
        (bytes_to_client result) (bytes_to_backend result));
  let sec := security_of (hd_settings_after h) in
  _ ← (if truthy (dict_get_or (u "delete_token_on_disconnect") (JBool false) sec)
       then on_store (delete_session (mo_end mo) token) else mret tt);
  on_store (client_delete (mo_end mo) [CONN_TOKEN tracked_cid]).

(** The body of the [try]. *)
Definition handle_body h net mo (peer : option str) : io conn unit :=
  admitted ← admit_client h mo peer;
  match admitted with
  | None => mret tt
  | Some (session, token, client_requested_protocols, client_ip) =>
      tracked_cid ← track h mo session token client_ip;
      resolved_host ← connect h net mo session tracked_cid;
      result ← run_relay h net mo session tracked_cid client_ip resolved_host client_requested_protocols;
      conclude h mo tracked_cid token result
  end.

(** The [except] clauses: an early disconnect, or anything else. *)
Definition client_gone (e : exn) : bool :=
  match e with IncompleteReadError | ConnectionError => true | _ => false end.

Definition handle_error h mo (e : exn) : io conn unit :=
  c ← io_get;
  _ ← match cn_cid c with
      | None => mret tt
      | Some tracked_cid =>
          io_try (
            _ ← (if client_gone e then
                   on_tracking (finish (hd_tracker h) (mo_end mo) tracked_cid (u "closed")
                     (Some (u "client_disconnect")) 0 0)
                 else
                   _ ← on_tracking (event (hd_tracker h) (mo_end mo) tracked_cid (u "error") []);
                   on_tracking (finish (hd_tracker h) (mo_end mo) tracked_cid (u "error")
                     (Some (u "exception")) 0 0));
            on_store (client_delete (mo_end mo) [CONN_TOKEN tracked_cid]))
          (λ _, mret tt)
      end;
  abort_writer.

(** [RdpConnectionHandler.__call__] *)
Definition handle h net mo (peer : option str) : io conn unit :=
  io_try (handle_body h net mo peer) (handle_error h mo).
End Handler.
Arguments Network : clear implicits.

(** ** Lemmas *)

Section HandlerLaws.
Context {R DS DH DE : Type} `{RedisLaws R}
  `{!Table uuid RdpServer DS} `{!TableLaws uuid RdpServer DS}
  `{!Table uuid ConnectionHistory DH} `{!TableLaws uuid ConnectionHistory DH}
  `{!Log ConnectionEvent DE} `{!LogLaws ConnectionEvent DE event_fits} `{AESGCM}.
Abbreviation conn := (conn R DS DH DE).
Implicit Types (h : RdpConnectionHandler) (mo : moment) (c : conn).

(** The stores are in order, and the tracked connection has its row. *)
Definition watched (cid : option str) c : Prop :=
  settled (cn_tracking c) ∧ cn_cid c = cid
  ∧ match cid with
    | None => True
    | Some t => ∃ id, t = uuid_str id ∧ (id < 2 ^ 128)%N ∧ is_Some (history_of (cn_tracking c) !! id)
    end.

(** The connection's record is closed: its row is ended, and neither its active
    key nor its token key is left. *)
Definition closed_row tk (now : Z) c (id : uuid) : Prop :=
  ∃ row, history_of (cn_tracking c) !! id = Some row ∧ h_ended_at row ≠ None
    ∧ h_status row ∈ statuses
    ∧ keys_of now (cn_tracking c) !! ACTIVE_SESSION (tk_instance_id tk) (uuid_str id) = None.

(** *** What does not touch the stores *)

Lemma watched_stream {A} cid (m : io bytes A) : keeps (watched cid) (on_stream m).
Proof. intros c Hc. unfold on_stream, io_zoom. by destruct (m (cn_stream c)). Qed.

Lemma watched_dns {A} cid (m : io DnsResolver A) : keeps (watched cid) (on_dns m).
Proof. intros c Hc. unfold on_dns, io_zoom. by destruct (m (cn_dns c)). Qed.

Lemma watched_plugins {A} cid (m : io plugins_state A) : keeps (watched cid) (on_plugins m).
Proof. intros c Hc. unfold on_plugins, io_zoom. by destruct (m (cn_plugins c)). Qed.

Lemma watched_abort cid : keeps (watched cid) abort_writer.
Proof. intros c Hc. exact Hc. Qed.

Lemma watched_write cid data : keeps (watched cid) (client_write data).
Proof. intros c Hc. exact Hc. Qed.

(** *** The stores *)

Lemma watched_store {A} cid (m : io (world R) A) : keeps alone m → keeps (watched cid) (on_store m).
Proof.
  intros Hm c (((Hf & Hw) & Hs) & Hc & Ht). unfold on_store, on_tracking, io_zoom. rewrite on_redis_run by done.
  specialize (Hm (tr_redis (cn_tracking c)) Hw). split; [|done]. by split.
Qed.

Lemma watched_event cid tk now t ty detail : keeps (watched cid) (on_tracking (event tk now t ty detail)).
Proof.
  intros c (Hs & Hc & Ht). unfold on_tracking, io_zoom.
  destruct (event_frame tk now t ty detail (cn_tracking c)) as (e & fs & He & Hfs).
  destruct (event tk now t ty detail (cn_tracking c)) as [r t']. simpl in *. subst t'.
  rewrite Hfs by apply Hs. split; [|by split]. split; [|exact (proj2 Hs)]. split; [done | apply Hs].
Qed.

Hint Resolve watched_stream watched_dns watched_plugins watched_abort watched_write watched_store
  watched_event : py.

Lemma watched_kill_key cid now t : keeps (watched cid) (kill_key_set now t).
Proof. unfold kill_key_set. apply keeps_bind; [solve [auto with py]|]. intros ?; apply keeps_ret. Qed.

Lemma watched_outcome cid mo t r : keeps (watched cid) (outcome_of mo t r).
Proof.
  unfold outcome_of. apply keeps_if; [|apply keeps_ret]. apply keeps_bind; [apply watched_kill_key|].
  intros b. apply keeps_bind; [apply keeps_read|]. intros ?; apply keeps_ret.
Qed.

Lemma watched_admit h mo peer : keeps (watched None) (admit_client h mo peer).
Proof.
  unfold admit_client. apply keeps_bind; [solve [auto with py]|]. intros ip. apply keeps_bind; [solve [auto with py]|]. intros req.
  apply keeps_bind; [solve [auto with py]|]. intros token. apply keeps_bind; [solve [auto with py]|]. intros crp.
  apply keeps_bind; [solve [auto with py]|]. intros [session|].
  2: { apply keeps_bind; [solve [auto with py]|]. intros ?; apply keeps_ret. }
  apply keeps_if; [|apply keeps_ret]. apply keeps_bind; [solve [auto with py]|]. intros fp. apply keeps_if.
  - apply keeps_bind; [solve [auto with py]|]. intros b. apply keeps_if; [|apply keeps_ret].
    apply keeps_bind; [solve [auto with py]|]. intros ?; apply keeps_ret.
  - apply keeps_bind; [solve [auto with py]|]. intros ?; apply keeps_ret.
Qed.
(** *** The steps *)

(** In order, tracked or not yet. *)
Definition sound c : Prop := watched (cn_cid c) c.

Lemma watched_sound cid c : watched cid c → sound c.
Proof. intros (Hs & Hc & Ht). unfold sound, watched. rewrite Hc. auto. Qed.

Definition ready_tracker (tk : ConnectionTracker) : Prop := has_db tk = true ∧ has_redis tk = true.

Lemma track_sound h mo session token client_ip :
  ready_tracker (hd_tracker h) → (mo_id mo < 2 ^ 128)%N →
  hoare (watched None) (track h mo session token client_ip) (λ cid, watched (Some cid)) sound.
Proof.
  intros [Hdb Hre] Hid. unfold track.
  eapply hoare_bind; [eapply hoare_weaken; [apply hoare_keeps, keeps_lift | exact (λ s Hs, Hs) | exact (λ _ s Hs, Hs) | apply watched_sound]|].
  intros server_id.
  eapply hoare_bind; [eapply hoare_weaken; [apply hoare_keeps, keeps_lift | exact (λ s Hs, Hs) | exact (λ _ s Hs, Hs) | apply watched_sound]|].
  intros server_display.
  eapply (hoare_bind _ _ _ (λ tracked c, settled (cn_tracking c)
    ∧ tc_connection_id tracked = uuid_str (mo_id mo) ∧ is_Some (history_of (cn_tracking c) !! mo_id mo))).
  { intros c (Hs & Hc & _). unfold on_tracking, io_zoom.
    pose proof (start_cases (hd_tracker h) (mo_start mo) (mo_id mo) (sd_username session) server_id server_display
      (sd_target_host session) (sd_target_port session) client_ip (cn_tracking c) Hs Hdb Hre Hid) as Hst.
    destruct (start _ _ _ _ _ _ _ _ _ _) as [[tracked|e] t'].
    - destruct Hst as (Ht & Hs' & Hrow). by split.
    - subst t'. apply (watched_sound None). by split. }
  intros tracked. apply (hoare_bind _ _ _ (λ _, watched (Some (tc_connection_id tracked)))).
  { intros c (Hs & Ht & Hrow). unfold set_cid, io_modify. split; [exact Hs|]. split; [done|].
    exists (mo_id mo). by split. }
  intros _. eapply hoare_weaken; [|exact (λ s Hs, Hs) | exact (λ _ s Hs, Hs) | apply watched_sound].
  apply hoare_step; [solve [auto with py]|]. intros _.
  apply hoare_step; [solve [auto with py]|]. intros _. by apply hoare_ret.
Qed.

Definition result_fits (r : RelayResult) : bool :=
  int64_fits (bytes_to_client r) && int64_fits (bytes_to_backend r).

(** What the network may do: anything that keeps the predicate. The relay reports
    byte counts that fit their columns. *)
Record tame (P : conn → Prop) (net : Network R DS DH DE) : Prop := {
  tame_drain : keeps P (net_drain net);
  tame_tls : keeps P (net_start_tls net);
  tame_authenticate host port user pwd domain : keeps P (net_authenticate net host port user pwd domain);
  tame_relay ctx : hoare P (net_relay net ctx) (λ r c, P c ∧ result_fits r = true) P;
}.

(** A network that leaves the stores in order and the tracked row in its place. *)
Definition orderly (net : Network R DS DH DE) : Prop := ∀ cid, tame (watched cid) net.

Lemma connect_sound h net mo session cid :
  orderly net → keeps (watched (Some cid)) (connect h net mo session cid).
Proof.
  intros Hnet. destruct (Hnet (Some cid)) as [Hdrain Htls Hauth _]. unfold connect. apply keeps_bind; [solve [auto with py]|]. intros host.
  apply keeps_bind; [apply keeps_if; solve [auto with py]|]. intros _.
  apply keeps_bind; [solve [auto with py]|]. intros confirm.
  do 7 (apply keeps_bind; [solve [auto with py]|]; intros _). intros c Hc. exact Hc.
Qed.

Lemma run_relay_sound h net mo session cid client_ip host crp :
  orderly net →
  hoare (watched (Some cid)) (run_relay h net mo session cid client_ip host crp)
    (λ r c, watched (Some cid) c ∧ result_fits r = true) (watched (Some cid)).
Proof.
  intros Hnet. destruct (Hnet (Some cid)) as [_ _ _ Hrelay]. unfold run_relay. apply hoare_step; [solve [auto with py]|]. intros _.
  eapply hoare_bind; [apply Hrelay|]. intros r. apply hoare_fact. intros Hr.
  apply hoare_step; [solve [auto with py]|]. intros _. apply hoare_step; [solve [auto with py]|]. intros _.
  by apply hoare_ret.
Qed.

(** *** The end *)

(** The tracked connection is over for good. *)
Definition over (tk : ConnectionTracker) (now : Z) (cid : str) c : Prop :=
  settled (cn_tracking c) ∧ cn_cid c = Some cid ∧ ∃ id, cid = uuid_str id ∧ (id < 2 ^ 128)%N ∧ closed_row tk now c id.

Lemma finish_over tk now cid status reason btc btb :
  ready_tracker tk → finish_fits status reason btc btb = true → status ∈ statuses →
  hoare (watched (Some cid)) (on_tracking (finish tk now cid status reason btc btb))
    (λ _, over tk now cid) (λ _, False).
Proof.
  intros [Hdb Hre] Hff Hstatus c (Hs & Hc & id & -> & Hid & row & Hrow). unfold on_tracking, io_zoom.
  destruct (finish_run tk now id status reason btc btb (cn_tracking c) Hs Hdb Hre Hid Hff)
    as (t' & -> & Hs' & Hh & Hk & _).
  split; [exact Hs'|]. split; [exact Hc|]. exists id. split; [done|]. split; [done|].
  exists (finished now status reason btc btb row). cbn [cn_tracking]. rewrite Hh, lookup_alter_eq, Hrow.
  split; [done|]. unfold finished. case_bool_decide as E; cbn [ended h_ended_at h_status];
    (split; [done|]; split; [|by rewrite Hk, lookup_delete_eq]); [rewrite E; exact (list_elem_of_lookup_2 statuses 0 _ eq_refl) | done].
Qed.

(** A deletion keeps what is over, and makes sure of the key it deletes. *)
Lemma delete_over tk now cid ks :
  hoare (over tk now cid) (on_store (client_delete now ks))
    (λ _ c, over tk now cid c ∧ ∀ k, k ∈ ks → keys_of now (cn_tracking c) !! k = None) (λ _, False).
Proof.
  intros c (Hs & Hc & id & -> & Hid & row & Hrow & He & Hst & Hk). unfold on_store, on_tracking, io_zoom.
  pose proof Hs as [[Hf Hw] Hrows]. rewrite on_redis_run, client_delete_alone by done. cbn [fst snd].
  split; [|intros k Hin; unfold keys_of; cbn [cn_tracking tr_redis w_store with_store]].
  - split; [by split|]. split; [done|]. exists id. split; [done|]. split; [done|]. exists row.
    split; [exact Hrow|]. split; [done|]. split; [done|]. unfold keys_of in *.
    cbn [cn_tracking tr_redis w_store with_store]. rewrite delete_live.
    clear -Hk. induction ks as [|k ks IH]; [done|]. simpl. rewrite lookup_delete_None. by right.
  - rewrite delete_live. clear -Hin. induction ks as [|k' ks IH]; [by apply elem_of_nil in Hin|].
    simpl. rewrite lookup_delete_None. apply elem_of_cons in Hin as [->|Hin]; [by left | right; by apply IH].
Qed.

Definition concluded tk now cid c : Prop := over tk now cid c ∧ keys_of now (cn_tracking c) !! CONN_TOKEN cid = None.

Lemma over_sound tk now cid c : over tk now cid c → sound c.
Proof.
  intros (Hs & Hc & id & -> & Hid & row & Hrow & _). apply (watched_sound (Some (uuid_str id))).
  split; [done|]. split; [done|]. exists id. split; [done|]. split; [done|]. by exists row.
Qed.

(** The statuses and reasons a relay can end with. *)
Definition outcomes : list (str * str) := [
  (u "killed", u "admin_kill"); (u "closed", u "max_duration"); (u "closed", u "idle_timeout");
  (u "closed", u "normal")].

Lemma outcome_listed P mo t r :
  keeps P (kill_key_set (mo_end mo) t) →
  hoare P (outcome_of mo t r) (λ fin c, P c ∧ fin ∈ outcomes) P.
Proof.
  intros Hkeep. unfold outcome_of. destruct (was_killed r).
  - apply hoare_step; [exact Hkeep|]. intros b. apply hoare_step; [apply keeps_read|]. intros c.
    apply hoare_ret. intros c' Hc'. split; [exact Hc'|]. destruct b; [exact (list_elem_of_lookup_2 outcomes 0 _ eq_refl)|].
    destruct (is_duration_exceeded _ _);
      [exact (list_elem_of_lookup_2 outcomes 1 _ eq_refl) | exact (list_elem_of_lookup_2 outcomes 2 _ eq_refl)].
  - apply hoare_ret. intros c Hc. split; [exact Hc | exact (list_elem_of_lookup_2 outcomes 3 _ eq_refl)].
Qed.

Lemma outcome_fits fin r : fin ∈ outcomes → result_fits r = true →
  finish_fits fin.1 (Some fin.2) (bytes_to_client r) (bytes_to_backend r) = true
  ∧ fin.1 ∈ statuses.
Proof.
  intros Hfin Hr. apply andb_true_iff in Hr as [Hr1 Hr2]. unfold finish_fits. rewrite Hr1, Hr2, !andb_true_r.
  revert fin Hfin. apply Forall_forall. unfold outcomes.
  repeat (constructor; [split; [vm_compute; reflexivity|]|]); [| | | |constructor].
  - exact (list_elem_of_lookup_2 statuses 0 _ eq_refl).
  - exact (list_elem_of_lookup_2 statuses 1 _ eq_refl).
  - exact (list_elem_of_lookup_2 statuses 1 _ eq_refl).
  - exact (list_elem_of_lookup_2 statuses 1 _ eq_refl).
Qed.

Lemma conclude_over h mo cid token r :
  ready_tracker (hd_tracker h) →
  hoare (λ c, watched (Some cid) c ∧ result_fits r = true) (conclude h mo cid token r)
    (λ _, concluded (hd_tracker h) (mo_end mo) cid) sound.
Proof.
  intros Hready. apply hoare_fact. intros Hr. unfold conclude.
  eapply hoare_bind.
  { eapply hoare_weaken; [apply outcome_listed, watched_kill_key | exact (λ s Hs, Hs) | exact (λ _ s Hs, Hs) | apply watched_sound]. }
  intros [status reason]. apply hoare_fact. intros Hfin.
  destruct (outcome_fits _ r Hfin Hr) as [Hff Hst]. cbn [fst snd] in Hff, Hst.
  eapply hoare_bind.
  { eapply hoare_weaken; [by apply (finish_over _ (mo_end mo) cid status (Some reason)) | exact (λ s Hs, Hs)
      | exact (λ _ s Hs, Hs) | done]. }
  intros ?. apply (hoare_bind _ _ _ (λ _, over (hd_tracker h) (mo_end mo) cid)).
  { destruct (truthy _).
    - eapply hoare_weaken; [apply (delete_over (hd_tracker h) (mo_end mo) cid) | exact (λ s Hs, Hs) | by intros ? ? [] | done].
    - by apply hoare_ret. }
  intros _. eapply hoare_weaken; [apply (delete_over (hd_tracker h) (mo_end mo) cid) | exact (λ s Hs, Hs) | | done].
  intros _ c [Ho Hk]. split; [exact Ho|]. apply Hk. by constructor.
Qed.

(** What the [except] clauses leave of a sound state. *)
Definition finalised tk now c : Prop :=
  match cn_cid c with None => True | Some cid => concluded tk now cid c end.

(** An event of a tracked connection is recorded. *)
Lemma event_watched tk now cid ty detail :
  has_db tk = true → text_fits 64 ty = true →
  hoare (watched (Some cid)) (on_tracking (event tk now cid ty detail)) (λ _, watched (Some cid)) (λ _, False).
Proof.
  intros Hdb Hty c Hc. pose proof (watched_event (Some cid) tk now cid ty detail c Hc) as Hk.
  destruct Hc as (Hs & Hc & id & -> & Hid & Hrow). unfold on_tracking, io_zoom in *.
  destruct (event_run tk now id ty detail (cn_tracking c) (proj1 (proj1 Hs)) Hdb Hid Hrow Hty) as (e & E & _).
  rewrite E in Hk |- *. exact Hk.
Qed.

Lemma error_text_fits : text_fits 64 (u "error") = true ∧ finish_fits (u "closed") (Some (u "client_disconnect")) 0 0 = true
  ∧ finish_fits (u "error") (Some (u "exception")) 0 0 = true.
Proof. split; [|split]; vm_compute; reflexivity. Qed.

Lemma error_final h mo e c :
  ready_tracker (hd_tracker h) → sound c →
  ∃ c', handle_error h mo e c = (Ok tt, c') ∧ finalised (hd_tracker h) (mo_end mo) c'.
Proof.
  intros Hready Hc. unfold handle_error, sound in *. rewrite io_bind_run. unfold io_get at 1. rewrite io_bind_run.
  destruct (cn_cid c) as [cid|] eqn:Ecid.
  2: { eexists. split; [reflexivity|]. unfold finalised. cbn [cn_cid]. by rewrite Ecid. }
  set (m := _ ← (if client_gone e then _ else _); on_store _).
  assert (hoare (watched (Some cid)) m (λ _, concluded (hd_tracker h) (mo_end mo) cid) (λ _, False)) as Hm.
  { destruct error_text_fits as (Hty & Hcl & Her). unfold m.
    apply (hoare_bind _ _ _ (λ _, over (hd_tracker h) (mo_end mo) cid)).
    - destruct (client_gone e).
      + apply finish_over; [done | exact Hcl | exact (list_elem_of_lookup_2 statuses 1 _ eq_refl)].
      + eapply hoare_bind; [apply event_watched; [apply Hready | exact Hty]|]. intros ?.
        apply finish_over; [done | exact Her | exact (list_elem_of_lookup_2 statuses 2 _ eq_refl)].
    - intros _. eapply hoare_weaken; [apply (delete_over (hd_tracker h) (mo_end mo) cid) | exact (λ s Hs, Hs) | | done].
      intros _ c' [Ho Hk]. split; [exact Ho|]. apply Hk. by constructor. }
  unfold io_try. specialize (Hm c Hc). destruct (m c) as [[[]|x] c']; [|done].
  eexists. split; [reflexivity|]. unfold finalised. cbn [cn_cid].
  destruct Hm as [(Hs & -> & Hr) Hk]. split; [split; [exact Hs | split; [reflexivity | exact Hr]] | exact Hk].
Qed.

Lemma body_final h net mo peer :
  ready_tracker (hd_tracker h) → (mo_id mo < 2 ^ 128)%N → orderly net →
  hoare (watched None) (handle_body h net mo peer) (λ _, finalised (hd_tracker h) (mo_end mo)) sound.
Proof.
  intros Hready Hid Hnet. unfold handle_body.
  eapply hoare_bind.
  { eapply hoare_weaken; [apply hoare_keeps, (watched_admit h mo peer) | exact (λ s Hs, Hs) | exact (λ _ s Hs, Hs)
      | apply watched_sound]. }
  intros [[[[session token] crp] client_ip]|].
  2: { apply hoare_ret. intros c (_ & Hc & _). unfold finalised. by rewrite Hc. }
  eapply hoare_bind; [by apply track_sound|]. intros cid.
  eapply hoare_bind.
  { eapply hoare_weaken; [apply hoare_keeps, (connect_sound h net mo session cid Hnet) | exact (λ s Hs, Hs)
      | exact (λ _ s Hs, Hs) | apply watched_sound]. }
  intros host. eapply hoare_bind.
  { eapply hoare_weaken; [by apply (run_relay_sound h net mo session cid client_ip host crp) | exact (λ s Hs, Hs)
      | exact (λ _ s Hs, Hs) | apply watched_sound]. }
  intros r. eapply hoare_weaken; [by apply conclude_over | exact (λ s Hs, Hs) | | exact (λ s Hs, Hs)].
  intros ? c Hc. unfold finalised. pose proof Hc as [(_ & -> & _) _]. exact Hc.
Qed.
Lemma handle_final h net mo peer c :
  ready_tracker (hd_tracker h) → (mo_id mo < 2 ^ 128)%N → orderly net → watched None c →
  ∃ c', handle h net mo peer c = (Ok tt, c') ∧ finalised (hd_tracker h) (mo_end mo) c'.
Proof.
  intros Hready Hid Hnet Hc. unfold handle, io_try.
  pose proof (body_final h net mo peer Hready Hid Hnet c Hc) as Hb.
  destruct (handle_body h net mo peer c) as [[[]|e] c']; [eauto|]. by apply error_final.
Qed.

(** *** Whatever fails *)

Lemma handle_error_returns h mo e c : ∃ c', handle_error h mo e c = (Ok tt, c').
Proof.
  unfold handle_error. rewrite io_bind_run. unfold io_get at 1. rewrite io_bind_run.
  destruct (cn_cid c) as [cid|]; [|eexists; reflexivity]. unfold io_try.
  match goal with |- context [match ?m c with _ => _ end] => destruct (m c) as [[[]|] ?] end; eexists; reflexivity.
Qed.

Lemma handle_returns h net mo peer c : ∃ c', handle h net mo peer c = (Ok tt, c').
Proof.
  unfold handle, io_try. destruct (handle_body h net mo peer c) as [[[]|e] c']; [eauto | apply handle_error_returns].
Qed.

Section Account.
Context (tk : ConnectionTracker) (id : uuid) (Hid : (id < 2 ^ 128)%N).
Definition account c : Prop := accounted tk id (cn_tracking c).

Lemma account_tracking {A} (m : io (tracking R DS DH DE) A) : keeps (accounted tk id) m → keeps account (on_tracking m).
Proof. intros Hm. by apply (zoom_keeps cn_tracking). Qed.

Lemma account_store {A} (m : io (world R) A) : keeps account (on_store m).
Proof. apply account_tracking, accounted_redis. Qed.

Lemma account_event tk' now cid ty detail : keeps account (on_tracking (event tk' now cid ty detail)).
Proof. apply account_tracking, accounted_event. Qed.

Lemma account_stream {A} (m : io bytes A) : keeps account (on_stream m).
Proof. by apply zoom_other. Qed.

Lemma account_dns {A} (m : io DnsResolver A) : keeps account (on_dns m).
Proof. by apply zoom_other. Qed.

Lemma account_plugins {A} (m : io plugins_state A) : keeps account (on_plugins m).
Proof. by apply zoom_other. Qed.

Lemma account_note (f : conn → conn) : (∀ c, cn_tracking (f c) = cn_tracking c) → keeps account (io_modify f).
Proof. intros Hf. apply keeps_modify. intros c. unfold account. by rewrite Hf. Qed.

Lemma account_abort : keeps account abort_writer.
Proof. by apply account_note. Qed.

Lemma account_write data : keeps account (client_write data).
Proof. by apply account_note. Qed.

Lemma account_cid cid : keeps account (set_cid cid).
Proof. by apply account_note. Qed.

Hint Resolve account_store account_event account_stream account_dns account_plugins account_abort account_write
  account_cid : py.

Ltac steps := repeat first
  [ solve [auto with py]
  | apply keeps_bind; [|intros ?]
  | apply keeps_if
  | match goal with |- context [match ?x with _ => _ end] => destruct x end ].

Lemma account_admit h mo peer : keeps account (admit_client h mo peer).
Proof. unfold admit_client. steps. Qed.

Lemma account_track h mo session token client_ip :
  hd_tracker h = tk → mo_id mo = id → keeps account (track h mo session token client_ip).
Proof.
  intros Htk Hmo. unfold track. rewrite Htk, Hmo. apply keeps_bind; [solve [auto with py]|]. intros server_id.
  apply keeps_bind; [solve [auto with py]|]. intros server_display.
  apply keeps_bind; [by apply account_tracking, start_accounted|]. intros tracked. steps.
Qed.

Lemma account_connect h net mo session cid : tame account net → keeps account (connect h net mo session cid).
Proof. intros [Hdrain Htls Hauth _]. unfold connect. steps. Qed.

Lemma account_relay h net mo session cid client_ip host crp :
  tame account net →
  hoare account (run_relay h net mo session cid client_ip host crp) (λ r c, account c ∧ result_fits r = true) account.
Proof.
  intros [_ _ _ Hrelay]. unfold run_relay. apply hoare_step; [solve [auto with py]|]. intros _.
  eapply hoare_bind; [apply Hrelay|]. intros r. apply hoare_fact. intros Hr.
  apply hoare_step; [solve [auto with py]|]. intros _. apply hoare_step; [solve [auto with py]|]. intros _.
  by apply hoare_ret.
Qed.

Lemma account_finish now cid status reason btc btb :
  finish_fits status reason btc btb = true → status ∈ statuses →
  keeps account (on_tracking (finish tk now cid status reason btc btb)).
Proof. intros Hff Hst. by apply account_tracking, finish_accounted. Qed.

Lemma account_conclude h mo cid token r :
  hd_tracker h = tk → result_fits r = true → keeps account (conclude h mo cid token r).
Proof.
  intros Htk Hr. apply keeps_hoare. unfold conclude. rewrite Htk. eapply hoare_bind.
  { apply outcome_listed. unfold kill_key_set. steps. }
  intros [status reason]. apply hoare_fact. intros Hfin.
  destruct (outcome_fits _ r Hfin Hr) as [Hff Hst]. cbn [fst snd] in Hff, Hst.
  apply hoare_keeps. apply keeps_bind; [by apply account_finish|]. intros _. steps.
Qed.

Lemma account_error h mo e : hd_tracker h = tk → keeps account (handle_error h mo e).
Proof.
  intros Htk. unfold handle_error. rewrite Htk. destruct error_text_fits as (_ & Hcl & Her).
  apply keeps_bind; [apply keeps_read|]. intros c. apply keeps_bind; [|intros _; apply account_abort].
  destruct (cn_cid c) as [cid|]; [|apply keeps_ret]. apply keeps_try; [|intros ?; apply keeps_ret].
  apply keeps_bind; [|intros _; apply account_store]. apply keeps_if.
  - apply account_finish; [exact Hcl | exact (list_elem_of_lookup_2 statuses 1 _ eq_refl)].
  - apply keeps_bind; [apply account_event|]. intros _.
    apply account_finish; [exact Her | exact (list_elem_of_lookup_2 statuses 2 _ eq_refl)].
Qed.

Lemma account_handle h net mo peer :
  hd_tracker h = tk → mo_id mo = id → tame account net → keeps account (handle h net mo peer).
Proof.
  intros Htk Hmo Hnet. unfold handle. apply keeps_try; [|intros e; by apply account_error].
  apply keeps_hoare. unfold handle_body. apply hoare_step; [apply account_admit|].
  intros [[[[session token] crp] client_ip]|]; [|by apply hoare_ret].
  apply hoare_step; [by apply account_track|]. intros cid. apply hoare_step; [by apply account_connect|]. intros host.
  eapply hoare_bind; [by apply account_relay|]. intros r. apply hoare_fact. intros Hr.
  by apply hoare_keeps, account_conclude.
Qed.
End Account.

(** *** Refusals *)

(** Enforcement of the fingerprint, as the handler decides it. *)
Definition enforced h : bool :=
  truthy (dict_get_or (u "token_fingerprint_enforce")
    (JBool (sc_token_fingerprint_enforce (c_security (hd_cfg h)))) (security_of (hd_settings h))).

(** Reading the request: the client's address, the frame, the token. *)
Definition request h (peer : option str) c (req : bytes) (token : str) : Prop :=
  ∃ ip s1 s2, resolve_client_ip (hd_cfg h) peer (cn_stream c) = (Ok ip, s1)
    ∧ read_tpkt [] s1 = (Ok req, s2) ∧ extract_cookie_token req = Ok token.

(** What lets a client past the door: its token is live in Redis and opens into a
    session and, where fingerprints are enforced and one is stored, the stored one
    is the digest of this client's. *)
Definition ticket h mo (r : R) (req : bytes) (token : str) : Prop :=
  ∃ e session, live (mo_start mo) r !! TOKEN token = Some e
    ∧ session_of (hd_sessions h) token (e_value e) = Ok session
    ∧ (enforced h = true → truthy (sd_fingerprint session) = true →
       ∃ fp d, build_rdp_client_fingerprint req token = Ok fp ∧ fingerprint_digest fp = Ok d
         ∧ sd_fingerprint session = JStr d).

(** Nothing but the exchanges that are over, and the stream, has changed. *)
Definition undisturbed (r : R) c c' : Prop :=
  tr_redis (cn_tracking c') = quiet r ∧ tr_db (cn_tracking c') = tr_db (cn_tracking c)
  ∧ cn_written c' = cn_written c ∧ cn_cid c' = cn_cid c.

(** A command that only reads, whatever exchange fails. *)
Lemma reads_undisturbed {A} (m : io (world R) A) (r : R) c :
  (m (quiet r)).2 = quiet r →
  hoare (undisturbed r c) (on_store m) (λ a c', undisturbed r c c' ∧ (m (quiet r)).1 = Ok a) (undisturbed r c).
Proof.
  intros Hm c' (Hr & Hd & Hw & Hc). unfold on_store, on_tracking, on_redis, exchange, io_zoom.
  destruct c' as [[w d fs] stream written aborted cid plugins dns].
  cbn [cn_tracking tr_redis tr_db tr_faults cn_written cn_cid] in *. subst w.
  destruct fs as [|[[e|e]|] fs]; cbn [tr_redis tr_db tr_faults fst snd]; try (split; [reflexivity | done]);
    destruct (m (quiet r)) as [[a|e'] w']; cbn in Hm; subst w'; repeat split; done.
Qed.

Lemma get_session_reads st now token (r : R) : (get_session st now token (quiet r)).2 = quiet r.
Proof.
  unfold get_session. rewrite io_bind_run, client_get_alone by done. by destruct (some_text _).
Qed.

Lemma matches_reads now token fp (r : R) : (token_fingerprint_matches now token fp (quiet r)).2 = quiet r.
Proof.
  unfold token_fingerprint_matches. rewrite io_bind_run, client_get_alone by done.
  destruct (some_text _) as [raw|]; [|done]. rewrite io_bind_run. unfold io_lift at 1.
  destruct (load_payload raw) as [payload|]; [|done]. destruct (negb _); [done|]. rewrite io_bind_run. unfold io_lift.
  by destruct (fingerprint_digest fp).
Qed.

(** What the two readers returned, of the store. *)
Lemma get_session_some st now token (r : R) session :
  (get_session st now token (quiet r)).1 = Ok (Some session) →
  ∃ e, live now r !! TOKEN token = Some e ∧ session_of st token (e_value e) = Ok session.
Proof.
  unfold get_session. rewrite io_bind_run, client_get_alone by done. cbn [w_store quiet].
  destruct (live now r !! TOKEN token) as [e|]; [|done]. cbn [fmap option_fmap option_map].
  destruct (e_value e) as [|x v] eqn:Ev; [done|]. cbn [some_text]. unfold io_lift. cbn [fst].
  destruct (session_of st token (x :: v)) as [s|] eqn:Es; [|done]. intros [= <-]. exists e. by rewrite Ev.
Qed.

Lemma matches_true st now token fp (r : R) e session :
  live now r !! TOKEN token = Some e → session_of st token (e_value e) = Ok session →
  (token_fingerprint_matches now token fp (quiet r)).1 = Ok true →
  ∃ d, fingerprint_digest fp = Ok d ∧ sd_fingerprint session = JStr d.
Proof.
  intros He Hs. unfold token_fingerprint_matches. rewrite io_bind_run, client_get_alone by done. cbn [w_store quiet].
  rewrite He. cbn [fmap option_fmap option_map]. destruct (some_text _) as [raw|] eqn:Er; [|done].
  assert (raw = e_value e) as -> by (destruct (e_value e); [done | by injection Er]).
  rewrite io_bind_run. unfold io_lift at 1. apply bind_Ok in Hs as (payload & -> & Hs).
  repeat (apply bind_Ok in Hs as (? & _ & Hs)). injection Hs as <-. cbn [sd_fingerprint].
  destruct (negb _); [done|]. rewrite io_bind_run. unfold io_lift.
  destruct (fingerprint_digest fp) as [d|]; [|done]. intros [= Hne]. exists d. split; [done|].
  unfold json_ne_str in Hne. destruct (dict_get_or _ _ _); try done.
  rewrite negb_involutive, bool_decide_eq_true in Hne. by rewrite Hne.
Qed.

(** The admission: a ticket, or a refusal, or an exception. *)
Lemma admit_cases h mo peer c (r : R) :
  tr_redis (cn_tracking c) = quiet r →
  match admit_client h mo peer c with
  | (Ok (Some _), _) => ∃ req token, request h peer c req token ∧ ticket h mo r req token
  | (Ok None, c') => undisturbed r c c' ∧ cn_aborted c' = true
  | (Err _, c') => undisturbed r c c' ∨ ∃ req token, request h peer c req token ∧ ticket h mo r req token
  end.
Proof.
  intros Hr. unfold admit_client. rewrite io_bind_run. unfold on_stream at 1, io_zoom.
  destruct (resolve_client_ip (hd_cfg h) peer (cn_stream c)) as [[ip|e] s1] eqn:Eip; [|by left].
  rewrite io_bind_run. unfold on_stream at 1, io_zoom. cbn [cn_stream].
  destruct (read_tpkt [] s1) as [[req|e] s2] eqn:Ereq; [|by left].
  rewrite io_bind_run. unfold io_lift at 1. destruct (extract_cookie_token req) as [token|e] eqn:Etok; [|by left].
  rewrite io_bind_run. destruct (extract_requested_protocols_Ok req) as (crp & Ecrp & _). unfold io_lift at 1. rewrite Ecrp.
  assert (request h peer c req token) as Hreq by (exists ip, s1, s2; done).
  set (c1 := Conn _ s2 _ _ _ _ _). assert (undisturbed r c c1) as Hc1 by done. clearbody c1. revert c1 Hc1.

  match goal with |- ∀ c1, _ → match ?m c1 with _ => _ end =>
    assert (hoare (undisturbed r c) m (λ o c', match o with
      | Some _ => ∃ req token, request h peer c req token ∧ ticket h mo r req token
      | None => undisturbed r c c' ∧ cn_aborted c' = true end)
      (λ c', undisturbed r c c' ∨ ∃ req token, request h peer c req token ∧ ticket h mo r req token)) as Hm
  end.
  2: { intros c1 Hc1. specialize (Hm c1 Hc1). match goal with |- match ?x with _ => _ end => by destruct x as [[[]|] ?] end. }
  eapply hoare_bind.
  { eapply hoare_weaken; [apply reads_undisturbed, get_session_reads | done | done | by left]. }
  intros [session|].
  2: { intros c' [Hc' _]. exact (conj Hc' eq_refl). }
  apply hoare_fact. intros Hget. apply get_session_some in Hget as (e & He & Hs). fold (enforced h).
  assert ((enforced h = true → truthy (sd_fingerprint session) = true →
     ∃ fp d, build_rdp_client_fingerprint req token = Ok fp ∧ fingerprint_digest fp = Ok d
         ∧ sd_fingerprint session = JStr d) →
    ∃ req token, request h peer c req token ∧ ticket h mo r req token) as Hticket.
  { intros Hfp. exists req, token. split; [exact Hreq|]. by exists e, session. }
  destruct (enforced h); [|apply hoare_ret; intros _ _; by apply Hticket].
  destruct (build_rdp_client_fingerprint req token) as [fp|e'] eqn:Efp; [|by left].
  eapply hoare_bind; [by apply (hoare_ret fp (undisturbed r c) (λ a c', undisturbed r c c' ∧ a = fp))|].
  intros a. apply hoare_fact. intros ->.
  destruct (truthy (sd_fingerprint session)) eqn:Etr.
  - eapply hoare_bind.
    { eapply hoare_weaken; [apply reads_undisturbed, matches_reads | done | done | by left]. }
    intros b. apply hoare_fact. intros Hb.
    destruct b; cbn [negb].
    + apply hoare_ret. intros _ _. apply Hticket. intros _ _. exists fp.
      destruct (matches_true _ _ _ _ _ _ _ He Hs Hb) as (d & Hd & Hsd). by exists d.
    + intros c' Hc'. exact (conj Hc' eq_refl).
  - intros c' _. rewrite io_bind_run. by destruct (on_store _ c') as [[x|x] c'']; [|right]; apply Hticket.
Qed.

(** A client without a ticket is refused. *)
Lemma handle_refused h net mo peer c (r : R) :
  tr_redis (cn_tracking c) = quiet r → cn_cid c = None →
  (∀ req token, request h peer c req token → ¬ ticket h mo r req token) →
  ∃ c', handle h net mo peer c = (Ok tt, c')
    ∧ cn_aborted c' = true ∧ cn_written c' = cn_written c ∧ cn_cid c' = None
    ∧ tr_db (cn_tracking c') = tr_db (cn_tracking c) ∧ tr_redis (cn_tracking c') = tr_redis (cn_tracking c).
Proof.
  intros Hr Hcid Hno. pose proof (admit_cases h mo peer c r Hr) as Ha. unfold handle, io_try, handle_body.
  rewrite io_bind_run. destruct (admit_client h mo peer c) as [[[admitted|]|e] c1].
  - destruct Ha as (req & token & Hreq & Ht). by apply Hno in Ht.
  - destruct Ha as ((Hr' & Hd & Hw & Hc) & Hab). exists c1. rewrite Hr', Hr. split; [done|]. by rewrite Hc.
  - destruct Ha as [(Hr' & Hd & Hw & Hc)|(req & token & Hreq & Ht)]; [|by apply Hno in Ht].
    unfold handle_error. rewrite io_bind_run. unfold io_get at 1. rewrite io_bind_run, Hc, Hcid.
    eexists. split; [reflexivity|]. cbn. by rewrite Hr', Hr, Hc.
Qed.

(** A client sends one request. *)
Lemma request_unique h peer c req token req' token' :
  request h peer c req token → request h peer c req' token' → req = req' ∧ token = token'.
Proof.
  intros (ip & s1 & s2 & E1 & E2 & E3) (ip' & s1' & s2' & E1' & E2' & E3').
  rewrite E1 in E1'. injection E1' as <- <-. rewrite E2 in E2'. injection E2' as <- <-. split; congruence.
Qed.
End HandlerLaws.

(** ** Properties *)

(** A request with the token of a stored session, from a plain client. *)
Definition demo_token : str := token_urlsafe demo_random.
Definition demo_redis : store :=
  w_store (create_session demo_store 1000 demo_random demo_nonce (u "ivan") (u "p@ss") (u "10.0.0.5")
             3389 None (Some (u "Desktop")) (quiet ∅)).2.
Definition demo_request : bytes :=
  match build_tpkt (bz [0x20; 0xe0; 0; 0; 0; 0; 0] ++ bl "Cookie: msts=" ++ map n_byte demo_token
                      ++ bz [13; 10; 1; 0; 8; 0; 11; 0; 0; 0]) with
  | Ok frame => frame
  | Err _ => []
  end.
Definition demo_handler : RdpConnectionHandler := {|
  hd_cfg := default_config [] (u "00"); hd_sessions := demo_store; hd_tracker := demo_tracker;
  hd_settings := None; hd_settings_after := None |}.
Definition demo_moment : moment :=
  {| mo_start := 2000; mo_end := 9000; mo_mono_start := 0; mo_mono_end := 7000; mo_id := 7%N |}.

Abbreviation demo_conn_type :=
  (conn store (gmap uuid RdpServer) (gmap uuid ConnectionHistory) (list ConnectionEvent)).
Definition demo_conn (r : store) : demo_conn_type :=
  Conn (Tracking (quiet r) (TrackingDb ∅ ∅ []) []) demo_request [] false None
    (PS mcs_init (monitor_init 3600 0) ∅) {| dr_cache_ttl := 300; dr_cache := ∅ |}.

(** A network without incident but for the outcome of the authentication. *)
Definition demo_network (auth : res unit)
    : Network store (gmap uuid RdpServer) (gmap uuid ConnectionHistory) (list ConnectionEvent) := {|
  net_query h := Err OtherError; net_drain := mret tt; net_start_tls := mret tt;
  net_authenticate host port user pwd domain := io_lift auth;
  net_relay ctx := mret {| bytes_to_client := 10; bytes_to_backend := 20;
                           legs := [(ClientToBackend, 20, REof); (BackendToClient, 10, REof)] |} |}.

Lemma demo_tame P auth : tame P (demo_network auth).
Proof.
  split; intros; try apply keeps_ret; [apply keeps_lift|]. by apply hoare_ret.
Qed.

(** The same connection while PostgreSQL and Redis fail: the update that ends the
    row is refused. *)
Definition demo_outage : demo_conn_type :=
  let c := demo_conn demo_redis in
  Conn (Tracking (tr_redis (cn_tracking c)) (tr_db (cn_tracking c))
          (replicate 10 None ++ repeat (Some (Refused ConnectionError)) 10))
    (cn_stream c) (cn_written c) (cn_aborted c) (cn_cid c) (cn_plugins c) (cn_dns c).

(** C1: the records of a connection close, and what an outage can leave of them
    is bounded. However the network behaves and whichever exchanges with Redis and
    PostgreSQL fail, before or after the server acted, the handler returns. When
    no exchange with them fails, wherever else an exception falls, the row of a
    connection it tracked is ended with a final status, and its active key and its
    token key are gone. When exchanges fail, the row of the new identifier is
    absent, or ended with a final status, or still active under the handler's own
    instance without an end, which is what the next start of that instance ends. *)
Theorem connection_finalised {R DS DH DE : Type} `{RedisLaws R}
    `{!Table uuid RdpServer DS} `{!TableLaws uuid RdpServer DS}
    `{!Table uuid ConnectionHistory DH} `{!TableLaws uuid ConnectionHistory DH}
    `{!Log ConnectionEvent DE} `{!LogLaws ConnectionEvent DE event_fits} `{AESGCM}
    (h : RdpConnectionHandler) (net : Network R DS DH DE) (mo : moment) (peer : option str) (c : conn R DS DH DE) :
  ready_tracker (hd_tracker h) → (mo_id mo < 2 ^ 128)%N → cn_cid c = None →
  ∃ c', handle h net mo peer c = (Ok tt, c')
    ∧ (orderly net → settled (cn_tracking c) → ∀ cid, cn_cid c' = Some cid →
        ∃ id row, cid = uuid_str id ∧ history_of (cn_tracking c') !! id = Some row
          ∧ h_ended_at row ≠ None ∧ h_status row ∈ statuses
          ∧ keys_of (mo_end mo) (cn_tracking c') !! ACTIVE_SESSION (tk_instance_id (hd_tracker h)) cid = None
          ∧ keys_of (mo_end mo) (cn_tracking c') !! CONN_TOKEN cid = None)
    ∧ (tame (account (hd_tracker h) (mo_id mo)) net →
       orderly_rows (cn_tracking c) → history_of (cn_tracking c) !! mo_id mo = None →
       match history_of (cn_tracking c') !! mo_id mo with
       | None => True
       | Some row => h_ended_at row ≠ None ∧ h_status row ∈ statuses ∨ stale (hd_tracker h) row = true
       end).
Proof.
  intros Hready Hid Hc. destruct (handle_returns h net mo peer c) as [c' E]. exists c'. split; [exact E|]. split.
  - intros Hnet Hs cid Hcid.
    destruct (handle_final h net mo peer c Hready Hid Hnet) as (c'' & E' & Hf); [by split|].
    rewrite E in E'. injection E' as <-. unfold finalised in Hf. rewrite Hcid in Hf.
    destruct Hf as [(_ & _ & id & -> & _ & row & Hrow & He & Hst & Hk) Hk']. exists id, row. auto 10.
  - intros Hnet Hrows Hfresh.
    pose proof (account_handle _ _ Hid h net mo peer eq_refl eq_refl Hnet c) as Ha. rewrite E in Ha.
    destruct (history_of (cn_tracking c') !! mo_id mo) as [row|] eqn:Er; [|done].
    destruct Ha as [_ Ha]; [split; [done|]; intros row'; by rewrite Hfresh|].
    destruct (Ha row Er); tauto.
Qed.

Lemma connection_finalised_witness :
  (∃ c', handle demo_handler (demo_network (Ok tt)) demo_moment (Some (u "203.0.113.7")) (demo_conn demo_redis) = (Ok tt, c')
    ∧ ∀ cid, cn_cid c' = Some cid →
        ∃ id row, cid = uuid_str id ∧ history_of (cn_tracking c') !! id = Some row
          ∧ h_ended_at row ≠ None ∧ h_status row ∈ statuses
          ∧ keys_of (mo_end demo_moment) (cn_tracking c')
              !! ACTIVE_SESSION (tk_instance_id (hd_tracker demo_handler)) cid = None
          ∧ keys_of (mo_end demo_moment) (cn_tracking c') !! CONN_TOKEN cid = None)
  ∧ (∃ c', handle demo_handler (demo_network (Ok tt)) demo_moment (Some (u "203.0.113.7")) demo_outage = (Ok tt, c')
    ∧ match history_of (cn_tracking c') !! mo_id demo_moment with
      | None => True
      | Some row => h_ended_at row ≠ None ∧ h_status row ∈ statuses ∨ stale (hd_tracker demo_handler) row = true
      end).
Proof.
  assert (∀ fs, orderly_rows (Tracking (quiet demo_redis) (TrackingDb ∅ ∅ [] :
    tracking_db (gmap uuid RdpServer) (gmap uuid ConnectionHistory) (list ConnectionEvent)) fs)) as Hrows.
  { intros fs. unfold orderly_rows. change (history_of _) with (∅ : gmap uuid ConnectionHistory).
    split; apply map_Forall_empty. }
  split.
  - destruct (connection_finalised demo_handler (demo_network (Ok tt)) demo_moment (Some (u "203.0.113.7"))
      (demo_conn demo_redis)) as (c' & E & Hc & _); [by split | reflexivity | reflexivity |].
    exists c'. split; [exact E|]. apply Hc; [intros cid; apply demo_tame|]. split; [by split | exact (Hrows [])].
  - destruct (connection_finalised demo_handler (demo_network (Ok tt)) demo_moment (Some (u "203.0.113.7"))
      demo_outage) as (c' & E & _ & Hc); [by split | reflexivity | reflexivity |].
    exists c'. split; [exact E|]. apply Hc; [apply demo_tame | exact (Hrows _) | reflexivity].
Defined.

(** The third case happens: the connection is over and its row is still active. *)
Example outage_leaves_stale :
  (λ row, (h_status row, h_ended_at row)) <$> history_of (cn_tracking
    (handle demo_handler (demo_network (Ok tt)) demo_moment (Some (u "203.0.113.7")) demo_outage).2) !! 7%N
  = Some (u "active", None).
Proof. vm_compute. reflexivity. Qed.

(** C2: nothing but a ticket gets past the door. Unless the client's first frame
    carries a token whose key is live in Redis, whose value opens into a session
    under the handler's key and, where fingerprints are enforced and one is
    stored, whose stored fingerprint is the digest of this client's, the handler
    returns with the client aborted, sent nothing and not tracked, and with the
    database and Redis as they were: whatever bytes it sends or withholds, and
    whichever exchange with Redis fails. *)
Theorem intruder_refused {R DS DH DE : Type} `{RedisLaws R}
    `{!Table uuid RdpServer DS} `{!Table uuid ConnectionHistory DH} `{!Log ConnectionEvent DE} `{AESGCM}
    (h : RdpConnectionHandler) (net : Network R DS DH DE) (mo : moment) (peer : option str) (c : conn R DS DH DE)
    (r : R) :
  tr_redis (cn_tracking c) = quiet r → cn_cid c = None →
  (∀ req token, request h peer c req token → ¬ ticket h mo r req token) →
  ∃ c', handle h net mo peer c = (Ok tt, c')
    ∧ cn_aborted c' = true ∧ cn_written c' = cn_written c ∧ cn_cid c' = None
    ∧ tr_db (cn_tracking c') = tr_db (cn_tracking c) ∧ tr_redis (cn_tracking c') = tr_redis (cn_tracking c).
Proof. apply handle_refused. Qed.

Lemma intruder_refused_witness :
  ∃ c', handle demo_handler (demo_network (Ok tt)) demo_moment (Some (u "203.0.113.7")) (demo_conn ∅) = (Ok tt, c')
    ∧ cn_aborted c' = true ∧ cn_written c' = cn_written (demo_conn ∅) ∧ cn_cid c' = None
    ∧ tr_db (cn_tracking c') = tr_db (cn_tracking (demo_conn ∅))
    ∧ tr_redis (cn_tracking c') = tr_redis (cn_tracking (demo_conn ∅)).
Proof.
  apply (intruder_refused demo_handler (demo_network (Ok tt)) demo_moment (Some (u "203.0.113.7")) (demo_conn ∅) ∅).
  - reflexivity.
  - reflexivity.
  - intros req token _ (e & session & He & _). assert (live 2000 (∅ : store) !! TOKEN token = None) as Hn.
    { exact (lookup_live_map 2000 ∅ (TOKEN token)). }
    change (mo_start demo_moment) with 2000 in He. rewrite Hn in He. discriminate He.
Defined.

(** A server that drops the connection while the relay authenticates to it
    is recorded as the client's disconnect; the same run with an authentication
    that succeeds ends as normal. *)
Theorem backend_drop_blamed :
  let reason_after auth :=
    h_disconnect_reason <$> history_of (cn_tracking
      (handle demo_handler (demo_network auth) demo_moment (Some (u "203.0.113.7")) (demo_conn demo_redis)).2) !! 7%N in
  reason_after (Err IncompleteReadError) = Some (Some (u "client_disconnect"))
  ∧ reason_after (Ok tt) = Some (Some (u "normal")).
Proof. split; vm_compute; reflexivity. Qed.
Close Scope Z_scope.
