(* ===== verification/Limits.v ===== *)
(** The limits on a session: what the session monitor of the relay process has seen
    ([services/rdp_relay/plugins/session_monitor.py], which [run_server] creates
    once), and what the poller of a connection and the record of its end make of it
    ([services/rdp_relay/handler.py]). The calls of all connections to the plugins
    are one sequence, each at its time on the monotonic clock in milliseconds. *)

From stdpp Require Import prelude gmap list sorting strings.
From Stdlib Require Import ZArith Lia Sorting.Sorted.
From Stdlib Require Strings.String.
From S2P Require Import Prelude PySeq PyBytes PyStr Mcs Redis PyUuid Database Models Plugins Relay Tracker Handler.

Open Scope Z_scope.

(** What reaches the plugins of a process: a session of any connection that starts
    or ends, one of its packets, a change of the settings. *)
Inductive plugin_call : Type :=
  | SessionStart (ctx : SessionContext)
  | ClientPacket (ctx : SessionContext) (data : bytes)
  | BackendPacket (ctx : SessionContext) (data : bytes)
  | SessionEnd (ctx : SessionContext)
  | Timeouts (idle max_duration : Z).

Definition make_call (now : Z) (k : plugin_call) : io plugins_state unit :=
  match k with
  | SessionStart ctx => registry_on_session_start (relay_plugins now) ctx
  | ClientPacket ctx data => _ ← registry_on_client_packet (relay_plugins now) data ctx; mret tt
  | BackendPacket ctx data => _ ← registry_on_backend_packet (relay_plugins now) data ctx; mret tt
  | SessionEnd ctx => registry_on_session_end (relay_plugins now) ctx
  | Timeouts idle max_duration => io_modify (λ s, set_monitor s (update_timeouts (ps_monitor s) idle max_duration))
  end.
Fixpoint make_calls (calls : list (Z * plugin_call)) : io plugins_state unit :=
  match calls with
  | [] => mret tt
  | (now, k) :: calls' => _ ← make_call now k; make_calls calls'
  end.

(** The calls that count as activity, and those from which a duration is counted. *)
Definition is_start (k : plugin_call) : bool := match k with SessionStart _ => true | _ => false end.
Definition is_activity (k : plugin_call) : bool :=
  match k with SessionStart _ | ClientPacket _ _ | BackendPacket _ _ => true | _ => false end.

(** All calls of a kind are more than so many seconds ago. *)
Definition long_ago (kind : plugin_call → bool) (seconds t : Z) (calls : list (Z * plugin_call)) : Prop :=
  Forall (λ c, kind c.2 = true → 1000 * seconds < t - c.1) calls.

(** ** Lemmas *)

#[local] Opaque u.

(** What a call leaves in the monitor. *)
Definition monitor_after (now : Z) (k : plugin_call) (m : MonitorState) : MonitorState := {|
  idle_timeout := match k with Timeouts idle _ => idle | _ => idle_timeout m end;
  max_session_duration := match k with Timeouts _ max_duration => max_duration | _ => max_session_duration m end;
  last_activity := if is_activity k then now else last_activity m;
  started_at := if is_start k then now else started_at m |}.

Lemma make_call_monitor now k s :
  (make_call now k s).1 = Ok tt ∧ ps_monitor (make_call now k s).2 = monitor_after now k (ps_monitor s).
Proof.
  destruct k as [ctx|ctx data|ctx data|ctx|idle max_duration]; cbn [make_call].
  - by rewrite relay_session_start.
  - by rewrite io_bind_run, relay_client_packet.
  - rewrite io_bind_run. unfold registry_on_backend_packet, relay_plugins. cbn [run_packet]. unfold_io. unfold io_try.
    unfold p_on_backend_packet, McsPatchPlugin, SessionMonitorPlugin, ConnectionQualityPlugin, mcs_on_backend_packet. unfold_io.
    destruct s as [[c []] m t]; cbn [backend_first ps_mcs]; [|done]. by destruct (patch_mcs_server _ _).
  - destruct s as [mcs [i d l st] t]. done.
  - by destruct s as [mcs [i d l st] t].
Qed.

Lemma make_calls_cons now k calls s :
  make_calls ((now, k) :: calls) s = make_calls calls (make_call now k s).2.
Proof.
  cbn [make_calls]. rewrite io_bind_run. pose proof (make_call_monitor now k s) as [E _].
  destruct (make_call now k s) as [r s']. cbn [fst snd] in *. by rewrite E.
Qed.

(** The limits in force are the latest that have been set. *)
Lemma long_ago_cons kind seconds t now k calls :
  long_ago kind seconds t ((now, k) :: calls) ↔ (kind k = true → 1000 * seconds < t - now) ∧ long_ago kind seconds t calls.
Proof. unfold long_ago. by rewrite Forall_cons. Qed.

(** A field of the monitor that calls of one kind set to their time tells when the
    last of them was. *)
Lemma field_last (kind : plugin_call → bool) (field : MonitorState → Z) seconds t calls s :
  (∀ now k m, field (monitor_after now k m) = if kind k then now else field m) →
  StronglySorted Z.le (map fst calls) → Forall (λ c, field (ps_monitor s) <= c.1) calls →
  1000 * seconds < t - field (ps_monitor (make_calls calls s).2)
  ↔ 1000 * seconds < t - field (ps_monitor s) ∧ long_ago kind seconds t calls.
Proof.
  intros Hfield. revert s. induction calls as [|[now k] calls IH]; intros s Hsort Hle.
  { cbn [make_calls]. split; [intros Ht; split; [exact Ht | constructor] | by intros [Ht _]]. }
  rewrite make_calls_cons, long_ago_cons. cbn [map fst] in Hsort. apply StronglySorted_inv in Hsort as [Hsort Hnow].
  apply Forall_cons in Hle as [Hle0 Hle]. cbn [fst] in Hle0. rewrite Forall_map in Hnow.
  destruct (make_call_monitor now k s) as [_ Em]. specialize (Hfield now k (ps_monitor s)).
  assert (Forall (λ c, field (ps_monitor (make_call now k s).2) <= c.1) calls) as Hle'.
  { rewrite Em, Hfield. destruct (kind k); [exact Hnow | exact Hle]. }
  rewrite (IH _ Hsort Hle'), Em, Hfield. destruct (kind k).
  - split; [intros [H1 H2] | intros (H1 & H2 & H3)]; (split; [|auto]); [lia | by apply H2].
  - split; [intros [H1 H2]; by repeat split | by intros (H1 & _ & H3)].
Qed.

(** After a first session has started. *)
Lemma field_since_start (kind : plugin_call → bool) (field : MonitorState → Z) seconds t now ctx calls s :
  (∀ now k m, field (monitor_after now k m) = if kind k then now else field m) → kind (SessionStart ctx) = true →
  StronglySorted Z.le (map fst ((now, SessionStart ctx) :: calls)) →
  1000 * seconds < t - field (ps_monitor (make_calls ((now, SessionStart ctx) :: calls) s).2)
  ↔ long_ago kind seconds t ((now, SessionStart ctx) :: calls).
Proof.
  intros Hfield Hk Hsort. cbn [map fst] in Hsort. apply StronglySorted_inv in Hsort as [Hsort Hnow]. rewrite Forall_map in Hnow.
  rewrite make_calls_cons, long_ago_cons. destruct (make_call_monitor now (SessionStart ctx) s) as [_ Em].
  assert (field (ps_monitor (make_call now (SessionStart ctx) s).2) = now) as E by (by rewrite Em, Hfield, Hk).
  rewrite (field_last kind field seconds t calls _ Hfield Hsort); rewrite E; [|exact Hnow]. rewrite Hk. intuition.
Qed.

Definition idle_at (t : Z) (calls : list (Z * plugin_call)) (m : MonitorState) : Prop :=
  0 < idle_timeout m ∧ long_ago is_activity (idle_timeout m) t calls.
Definition over_at (t : Z) (calls : list (Z * plugin_call)) (m : MonitorState) : Prop :=
  0 < max_session_duration m ∧ long_ago is_start (max_session_duration m) t calls.

Lemma monitor_tells now ctx calls s t :
  StronglySorted Z.le (map fst ((now, SessionStart ctx) :: calls)) →
  let all := (now, SessionStart ctx) :: calls in
  let m := ps_monitor (make_calls all s).2 in
  (is_idle t m = true ↔ idle_at t all m) ∧ (is_duration_exceeded t m = true ↔ over_at t all m).
Proof.
  intros Hsort all m.
  assert (1000 * idle_timeout m < t - last_activity m ↔ long_ago is_activity (idle_timeout m) t all) as Hi
    by exact (field_since_start is_activity last_activity _ t now ctx calls s (λ _ _ _, eq_refl) eq_refl Hsort).
  assert (1000 * max_session_duration m < t - started_at m ↔ long_ago is_start (max_session_duration m) t all) as Hd
    by exact (field_since_start is_start started_at _ t now ctx calls s (λ _ _ _, eq_refl) eq_refl Hsort).
  unfold is_idle, is_duration_exceeded, idle_at, over_at. rewrite <- Hi, <- Hd. clearbody m. split.
  - by rewrite andb_true_iff, !Z.ltb_lt.
  - destruct (Z.leb_spec (max_session_duration m) 0); [split; [discriminate | lia]|]. rewrite Z.ltb_lt. intuition.
Qed.

(** ** Properties *)

(** C9: the limits end a session exactly when they say, but they are kept for the
    process. Whatever the connections of a process have done since the first
    session started, the poller of a connection without a kill signal is told to
    end it exactly when nothing at all was active for longer than the idle timeout
    in force, or when the latest start of any session is longer ago than the
    longest duration in force; and a relay that was ended so is put down to the
    one or the other. *)
Theorem session_limits {R DS DH DE : Type} `{Redis R} `{!Table uuid RdpServer DS} `{!Table uuid ConnectionHistory DH}
    `{!Log ConnectionEvent DE} (now : Z) (ctx : SessionContext) (calls : list (Z * plugin_call)) (s : plugins_state)
    (c : conn R DS DH DE) (cid : str) :
  let all := (now, SessionStart ctx) :: calls in
  let m := ps_monitor (cn_plugins c) in
  StronglySorted Z.le (map fst all) → cn_plugins c = (make_calls all s).2 →
  (∀ t mono, kill_key_set t cid c = (Ok false, c) →
     ∃ told, kill_requested t mono cid c = (Ok told, c) ∧ (told = true ↔ idle_at mono all m ∨ over_at mono all m))
  ∧ (∀ mo r, kill_key_set (mo_end mo) cid c = (Ok false, c) → was_killed r = true →
       ∃ reason, outcome_of mo cid r c = (Ok (u "closed", reason), c)
         ∧ (reason = u "max_duration" ∧ over_at (mo_mono_end mo) all m
            ∨ reason = u "idle_timeout" ∧ ¬ over_at (mo_mono_end mo) all m)).
Proof.
  intros all m Hsort Hc. assert (∀ t, (is_idle t m = true ↔ idle_at t all m) ∧ (is_duration_exceeded t m = true ↔ over_at t all m)) as Hm.
  { intros t. unfold m. rewrite Hc. by apply monitor_tells. }
  split.
  - intros t mono Hk. unfold kill_requested. rewrite io_bind_run, Hk, io_bind_run. unfold io_get. fold m.
    eexists. split; [reflexivity|]. destruct (Hm mono) as [Hi Hd]. by rewrite orb_true_iff, Hi, Hd.
  - intros mo r Hk Hr. unfold outcome_of. rewrite Hr, io_bind_run, Hk, io_bind_run. unfold io_get. fold m.
    destruct (Hm (mo_mono_end mo)) as [_ Hd]. destruct (is_duration_exceeded (mo_mono_end mo) m).
    + exists (u "max_duration"). split; [exact eq_refl|]. left. split; [exact eq_refl | by apply Hd].
    + exists (u "idle_timeout"). split; [exact eq_refl|]. right. split; [exact eq_refl|]. intros Ho. by apply Hd in Ho.
Qed.

(** Two sessions, a minute of idle time allowed and no longer session than an hour:
    the second keeps the first from being ended, for idleness as for duration. *)
Definition demo_other : SessionContext := {|
  ctx_connection_id := u "b"; ctx_username := u "olga"; ctx_client_ip := u "203.0.113.8"; ctx_target_host := u "10.0.0.6";
  ctx_target_port := 3389; ctx_instance_id := u "node-1"; ctx_client_requested_protocols := Some 1;
  ctx_client_socket := true; ctx_backend_socket := true |}.
Definition demo_calls : list (Z * plugin_call) :=
  [(1000, SessionStart demo_ctx); (2000, ClientPacket demo_ctx (bl "x")); (3000000, SessionStart demo_other);
   (3700000, BackendPacket demo_other (bl "y"))].
Definition demo_limited (calls : list (Z * plugin_call)) : demo_conn_type :=
  let c := demo_conn ∅ in
  Conn (cn_tracking c) (cn_stream c) (cn_written c) (cn_aborted c) (cn_cid c)
    (make_calls calls (PS mcs_init (monitor_init 60 3600) ∅)).2 (cn_dns c).

Example demo_limits_shared :
  ((kill_requested 1000 3650000 (u "a") (demo_limited (take 2 demo_calls))).1,
   (kill_requested 1000 3710000 (u "a") (demo_limited demo_calls)).1) = (Ok true, Ok false).
Proof. vm_compute. reflexivity. Qed.

Lemma session_limits_witness :
  let all := demo_calls in
  let c := demo_limited demo_calls in
  let m := ps_monitor (cn_plugins c) in
  (∀ t mono, kill_key_set t (u "a") c = (Ok false, c) →
     ∃ told, kill_requested t mono (u "a") c = (Ok told, c) ∧ (told = true ↔ idle_at mono all m ∨ over_at mono all m))
  ∧ (∀ mo r, kill_key_set (mo_end mo) (u "a") c = (Ok false, c) → was_killed r = true →
       ∃ reason, outcome_of mo (u "a") r c = (Ok (u "closed", reason), c)
         ∧ (reason = u "max_duration" ∧ over_at (mo_mono_end mo) all m
            ∨ reason = u "idle_timeout" ∧ ¬ over_at (mo_mono_end mo) all m)).
Proof.
  apply (session_limits 1000 demo_ctx (drop 1 demo_calls) (PS mcs_init (monitor_init 60 3600) ∅) (demo_limited demo_calls) (u "a")).
  - repeat constructor; vm_compute; discriminate.
  - reflexivity.
Defined.
Close Scope Z_scope.
