(* ===== verification/RdpFile.v ===== *)
(** [.rdp] files, [libs/rdp/rdp_file.py]: the schema of the parameters, their
    defaults, the merge of the templates that apply to a user, and the text of
    the file, in which the address, the token and the security settings are
    always the proxy's own. *)

From stdpp Require Import prelude list.
From Stdlib Require Import ZArith Lia.
From S2P Require Import Prelude PySeq PyBytes PyStr Json PyUuid Database Models Settings.

Open Scope Z_scope.

Definition RDP_PARAM_SCHEMA : list (str * json) := [
  (u "display", JObj [
    (u "label", JStr (u "Настройка отображения"));
    (u "params", JObj [
      (u "screen mode id", JObj [(u "label", JStr (u "Режим экрана")); (u "type", JStr (u "select")); (u "options", JList [JObj [(u "value", JInt 1); (u "label", JStr (u "Оконный режим"))]; JObj [(u "value", JInt 2); (u "label", JStr (u "Полный экран"))]]); (u "default", JInt 2); (u "ui_hidden", JBool true)]);
      (u "desktopwidth", JObj [(u "label", JStr (u "Ширина")); (u "type", JStr (u "number")); (u "min", JInt 640); (u "max", JInt 7680); (u "default", JInt 1920); (u "ui_hidden", JBool true)]);
      (u "desktopheight", JObj [(u "label", JStr (u "Высота")); (u "type", JStr (u "number")); (u "min", JInt 480); (u "max", JInt 4320); (u "default", JInt 1080); (u "ui_hidden", JBool true)]);
      (u "session bpp", JObj [(u "label", JStr (u "Глубина цвета")); (u "type", JStr (u "select")); (u "options", JList [JObj [(u "value", JInt 15); (u "label", JStr (u "High color (15 bit)"))]; JObj [(u "value", JInt 16); (u "label", JStr (u "High color (16 bit)"))]; JObj [(u "value", JInt 24); (u "label", JStr (u "True color (24 bit)"))]; JObj [(u "value", JInt 32); (u "label", JStr (u "Наивысшее качество (32 бит)"))]]); (u "default", JInt 32); (u "ui_hidden", JBool true)]);
      (u "use multimon", JObj [(u "label", JStr (u "Использовать все мои мониторы")); (u "type", JStr (u "toggle")); (u "default", JInt 0); (u "ui_hidden", JBool true)])])]);
  (u "local_resources", JObj [
    (u "label", JStr (u "Локальные ресурсы"));
    (u "params", JObj [
      (u "audiomode", JObj [(u "label", JStr (u "Воспроизведение звука")); (u "type", JStr (u "select")); (u "options", JList [JObj [(u "value", JInt 0); (u "label", JStr (u "На локальном ПК"))]; JObj [(u "value", JInt 1); (u "label", JStr (u "Не воспроизводить"))]; JObj [(u "value", JInt 2); (u "label", JStr (u "На удаленном ПК"))]]); (u "default", JInt 0)]);
      (u "audiocapturemode", JObj [(u "label", JStr (u "Запись звука")); (u "type", JStr (u "toggle")); (u "default", JInt 0)]);
      (u "keyboardhook", JObj [(u "label", JStr (u "Сочетания клавиш Windows")); (u "type", JStr (u "select")); (u "options", JList [JObj [(u "value", JInt 0); (u "label", JStr (u "Локально"))]; JObj [(u "value", JInt 1); (u "label", JStr (u "Удаленно"))]; JObj [(u "value", JInt 2); (u "label", JStr (u "Только fullscreen"))]]); (u "default", JInt 2)]);
      (u "redirectclipboard", JObj [(u "label", JStr (u "Буфер обмена")); (u "type", JStr (u "toggle")); (u "default", JInt 1)]);
      (u "redirectprinters", JObj [(u "label", JStr (u "Принтеры")); (u "type", JStr (u "toggle")); (u "default", JInt 1)]);
      (u "redirectdrives", JObj [(u "label", JStr (u "Диски")); (u "type", JStr (u "toggle")); (u "default", JInt 1)]);
      (u "redirectsmartcards", JObj [(u "label", JStr (u "Смарт-карты")); (u "type", JStr (u "toggle")); (u "default", JInt 1)])])]);
  (u "experience", JObj [
    (u "label", JStr (u "Взаимодействие"));
    (u "params", JObj [
      (u "disable wallpaper", JObj [(u "label", JStr (u "Отключить обои")); (u "type", JStr (u "toggle")); (u "default", JInt 0)]);
      (u "allow font smoothing", JObj [(u "label", JStr (u "Сглаживание шрифтов")); (u "type", JStr (u "toggle")); (u "default", JInt 1)]);
      (u "allow desktop composition", JObj [(u "label", JStr (u "Композиция рабочего стола")); (u "type", JStr (u "toggle")); (u "default", JInt 1)]);
      (u "bitmapcachepersistenable", JObj [(u "label", JStr (u "Постоянный bitmap cache")); (u "type", JStr (u "toggle")); (u "default", JInt 1)]);
      (u "autoreconnection enabled", JObj [(u "label", JStr (u "Автопереподключение")); (u "type", JStr (u "toggle")); (u "default", JInt 1)])])])].

Definition SYSTEM_KEYS : list str :=
  [u "full address"; u "loadbalanceinfo"; u "negotiate security layer"; u "enablecredsspsupport"; u "authentication level"].

(** [str(v)] of what is neither text nor an integer: the text of a float is
    normalised, and the representation of containers quotes what Unicode does
    not call printable, by tables this library does not carry. *)
Class PyText : Type := { float_text : str → str; container_text : json → str }.

Section File.
Context `{Floats} `{PyText} `{CaseMap}.

Definition py_str (v : json) : str :=
  match v with
  | JNull => u "None"
  | JBool b => if b then u "True" else u "False"
  | JInt z => str_of_Z z
  | JFloat s => float_text s
  | JStr s => s
  | JList _ | JObj _ => container_text v
  end.

(** [d[k]] of a dictionary that has it, as the loops over the schema read it. *)
Definition member (k : str) (v : json) : dict :=
  match v with
  | JObj d => match dict_get k d with Some (JObj p) => p | _ => [] end
  | _ => []
  end.
Definition default_of (meta : json) : Z :=
  match meta with JObj d => default 0 (number_int (dict_get_or (u "default") (JInt 0) d)) | _ => 0 end.

Definition default_rdp_params : dict :=
  foldl (λ out section,
    foldl (λ out kv, dict_set kv.1 (JInt (default_of kv.2)) out) out (member (u "params") section.2)) [] RDP_PARAM_SCHEMA.

Definition to_line (key : str) (value : json) : str :=
  match value with
  | JBool b => key ++ u ":i:" ++ (if b then u "1" else u "0")
  | JInt z => key ++ u ":i:" ++ str_of_Z z
  | JFloat s => key ++ u ":i:" ++ str_of_Z (float_int s)
  | _ => key ++ u ":s:" ++ py_str value
  end.

(** [{str(v).strip().lower() for v in l if str(v).strip()}] *)
Definition group_set (l : list str) : list str :=
  map lower (List.filter (λ s, negb (bool_decide (s = []))) (map strip l)).

Definition intersects (a b : list str) : bool := existsb (λ x, bool_decide (x ∈ b)) a.

(** A template that applies: it has no groups, or one of the user's. *)
Definition applies (groups : list str) (t : RdpTemplate) : bool :=
  let binds := map (λ g, lower (uuid_str g)) (t_groups t) in
  match binds with [] => true | _ => intersects binds groups end.

Definition merge_templates (templates : list RdpTemplate) (groups : list str) (merged : dict) : dict :=
  let merged := match List.find t_is_default templates with
                | Some t => dict_merge merged (t_params t)
                | None => merged
                end in
  foldl (λ merged t,
    if t_is_default t then merged
    else if applies groups t then dict_merge merged (t_params t) else merged)
    merged (sorted_by (λ a b, (t_priority a <=? t_priority b)) templates).

(** What the file always says, in the order it is written. *)
Definition pinned (proxy_host proxy_port token : str) : list (str * json) := [
  (u "networkautodetect", JInt 0);
  (u "bandwidthautodetect", JInt 1);
  (u "connection type", JInt 6);
  (u "use redirection server name", JInt 0);
  (u "full address", JStr (proxy_host ++ u ":" ++ proxy_port));
  (u "loadbalanceinfo", JStr token);
  (u "negotiate security layer", JInt 1);
  (u "enablecredsspsupport", JInt 0);
  (u "authentication level", JInt 2)].

Definition newline : N := 10.

Definition rdp_lines (merged : dict) : str :=
  join_with [newline] (map (λ kv, to_line kv.1 kv.2) merged) ++ [newline].

Definition build_rdp_content (templates : option (list RdpTemplate)) (user_group_guids : list str)
    (proxy_host proxy_port token : str) : str :=
  let merged := default_rdp_params in
  let merged := match templates with
                | None => merged
                | Some ts => merge_templates ts (group_set user_group_guids) merged
                end in
  rdp_lines (dict_merge merged (pinned proxy_host proxy_port token)).
End File.

(** ** Lemmas *)

(** A character that a text does not have, by computation. *)
Ltac plain := apply (bool_decide_eq_true_1 (_ ∉ _)); vm_compute; reflexivity.

#[local] Opaque u.
Section FileLaws.
Context `{Floats} `{PyText} `{CaseMap}.

(** The keys that the proxy decides. *)
Abbreviation PINNED_KEYS := (pinned [] [] []).*1.

(** A parameter that stays on its line, and whose name does not go on after one of
    these keys and a colon. *)
Definition tidy (kv : str * json) : Prop :=
  Forall (λ k, starts_with (k ++ [58%N]) kv.1 = false) PINNED_KEYS ∧ newline ∉ to_line kv.1 kv.2.

Lemma dict_set_Forall (P : str * json → Prop) k v d : P (k, v) → Forall P d → Forall P (dict_set k v d).
Proof.
  intros Hp. induction d as [|[k0 v0] d IH]; simpl; intros Hd; [by constructor|].
  apply Forall_cons in Hd as [Hd0 Hd]. case_bool_decide as E; constructor; auto. by subst.
Qed.

Lemma dict_merge_Forall (P : str * json → Prop) a b : Forall P a → Forall P b → Forall P (dict_merge a b).
Proof.
  unfold dict_merge. revert a. induction b as [|[k v] b IH]; intros a Ha Hb; simpl; [done|].
  apply Forall_cons in Hb as [Hk Hb]. apply IH; [|done]. by apply dict_set_Forall.
Qed.

Lemma NoDup_dict_merge a b : NoDup a.*1 → NoDup (dict_merge a b).*1.
Proof.
  unfold dict_merge. revert a. induction b as [|[k v] b IH]; intros a Ha; simpl; [done|].
  apply IH. by apply NoDup_dict_set.
Qed.

Lemma merge_templates_ind (P : dict → Prop) ts groups d :
  (∀ d t, t ∈ ts → P d → P (dict_merge d (t_params t))) → P d → P (merge_templates ts groups d).
Proof.
  intros Hstep Hd. unfold merge_templates.
  set (le := λ a b, t_priority a <=? t_priority b).
  assert (P (match List.find t_is_default ts with Some t => dict_merge d (t_params t) | None => d end)) as Hd'.
  { destruct (List.find t_is_default ts) as [t|] eqn:E; [|done]. apply Hstep; [|done].
    apply List.find_some in E as [E _]. by apply list_elem_of_In. }
  revert Hd'. generalize (match List.find t_is_default ts with Some t => dict_merge d (t_params t) | None => d end).
  assert (∀ t, t ∈ sorted_by le ts → t ∈ ts) as Hsub by (intros t; by rewrite elem_of_sorted_by).
  induction (sorted_by le ts) as [|t l IH]; intros d' Hd'; simpl; [done|].
  apply IH; [intros t' Ht'; apply Hsub; by right|].
  destruct (t_is_default t); [done|]. destruct (applies groups t); [|done]. apply Hstep; [|done]. apply Hsub. by left.
Qed.

Lemma default_params_keys : NoDup default_rdp_params.*1.
Proof. apply (bool_decide_eq_true_1 (NoDup default_rdp_params.*1)). vm_compute. reflexivity. Qed.

Lemma default_params_tidy : Forall tidy default_rdp_params.
Proof.
  assert (forallb (λ kv, bool_decide (Forall (λ k, starts_with (k ++ [58%N]) kv.1 = false) PINNED_KEYS)
    && bool_decide (newline ∉ to_line kv.1 kv.2)) default_rdp_params = true) as Hb by (vm_compute; reflexivity).
  apply Forall_forall. intros kv Hin. apply list_elem_of_In in Hin.
  pose proof (proj1 (List.forallb_forall _ _) Hb kv Hin) as Hkv. apply andb_prop in Hkv as [Hk1%bool_decide_eq_true Hk2%bool_decide_eq_true].
  by split.
Qed.

Lemma str_of_Z_plain c z : ¬ (48 <= c < 58)%N → c ≠ 45%N → c ∉ str_of_Z z.
Proof.
  intros Hc H45 Hin. unfold str_of_Z in Hin.
  assert (∀ n, c ∉ str_of_N n) as Hn.
  { intros n Hin'. apply Hc. by apply (proj1 (Forall_forall _ _) (str_of_N_range n)). }
  destruct (z <? 0); [apply elem_of_cons in Hin as [?|Hin]|]; [done | by apply Hn in Hin | by apply Hn in Hin].
Qed.

Lemma to_line_prefix k v : ∃ rest, to_line k v = k ++ 58%N :: rest.
Proof. destruct v; unfold to_line; eexists; (reflexivity || (change (u ":i:") with [58; 105; 58]%N; reflexivity) || (change (u ":s:") with [58; 115; 58]%N; reflexivity)). Qed.

Lemma starts_with_key k k' v :
  58%N ∉ k → starts_with (k ++ [58%N]) k' = false → starts_with (k ++ [58%N]) (to_line k' v) = bool_decide (k = k').
Proof.
  intros Hk Hk'. destruct (to_line_prefix k' v) as [rest ->]. case_bool_decide as E.
  - subst. apply starts_with_spec. exists rest. by rewrite <- app_assoc.
  - apply not_true_is_false. intros [r Hr]%starts_with_spec. apply E. rewrite <- app_assoc in Hr. cbn [app] in Hr.
    apply app_eq_inv in Hr as [(l & -> & Hl)|(l & -> & Hl)]; destruct l as [|x l]; rewrite ?app_nil_r; try done.
    + exfalso. injection Hl as <- _. apply (eq_true_false_abs _) in Hk'; [done|]. apply starts_with_spec. exists l. by rewrite <- app_assoc.
    + exfalso. injection Hl as <- _. apply Hk. apply elem_of_app. right. left.
Qed.

Lemma pinned_plain : Forall (λ k, 58%N ∉ k ∧ newline ∉ k) PINNED_KEYS.
Proof. apply (bool_decide_eq_true_1 (Forall (λ k, 58%N ∉ k ∧ newline ∉ k) PINNED_KEYS)). vm_compute. reflexivity. Qed.

(** A name with no colon goes on after no key and a colon. *)
Lemma no_colon_apart k k' : 58%N ∉ k' → starts_with (k ++ [58%N]) k' = false.
Proof.
  intros Hk. apply not_true_is_false. intros [r ->]%starts_with_spec. apply Hk. rewrite <- app_assoc.
  apply elem_of_app. right. left.
Qed.

Lemma tidy_named kv : 58%N ∉ kv.1 → newline ∉ to_line kv.1 kv.2 → tidy kv.
Proof. intros Hk Hl. split; [|exact Hl]. apply Forall_forall. intros k _. by apply no_colon_apart. Qed.

(** The lines of a dictionary whose keys are distinct, by key. *)
Lemma lines_of_key d k v :
  Forall tidy d → NoDup d.*1 → k ∈ PINNED_KEYS → dict_get k d = Some v →
  List.filter (starts_with (k ++ [58%N])) (map (λ kv, to_line kv.1 kv.2) d) = [to_line k v].
Proof.
  intros Ht Hn Hk. destruct (proj1 (Forall_forall _ _) pinned_plain k Hk) as [H58 _].
  assert (∀ kv, tidy kv → starts_with (k ++ [58%N]) (to_line kv.1 kv.2) = bool_decide (k = kv.1)) as Hline
    by (intros kv [Hkv _]; apply starts_with_key; [exact H58 | by apply (proj1 (Forall_forall _ _) Hkv)]).
  clear H58. induction d as [|[k0 v0] d IH]; simpl; [discriminate|].
  apply Forall_cons in Ht as [Ht0 Ht]. apply NoDup_cons in Hn as [Hn0 Hn].
  pose proof (Hline (k0, v0) Ht0) as El0. cbn [fst snd] in El0. rewrite El0. clear El0. case_bool_decide as E.
  - intros [= ->]. subst k0. f_equal. clear IH. induction d as [|[k1 v1] d IH]; simpl; [done|].
    apply Forall_cons in Ht as [Ht1 Ht]. apply NoDup_cons in Hn as [_ Hn].
    pose proof (Hline (k1, v1) Ht1) as El1. cbn [fst snd] in El1. rewrite El1. clear El1. rewrite bool_decide_eq_false_2.
    + apply IH; [done | intros Hin; apply Hn0; by right | done].
    + intros ->. apply Hn0. left.
  - intros Hg. by apply IH.
Qed.

Lemma split_rdp_lines d :
  d ≠ [] → Forall tidy d → split_on newline (rdp_lines d) = map (λ kv, to_line kv.1 kv.2) d ++ [[]].
Proof.
  intros Hd Ht. unfold rdp_lines. destruct d as [|kv d]; [done|].
  set (ls := map _ (kv :: d)). assert (ls ≠ []) as Hne by done.
  assert (Forall (λ l, newline ∉ l) ls) as Hls.
  { unfold ls. clear -Ht. induction (kv :: d) as [|x l IH]; simpl; [constructor|].
    apply Forall_cons in Ht as [[_ Hx] Ht]. constructor; [done | by apply IH]. }
  replace (join_with [newline] ls ++ [newline]) with (join_with [newline] (ls ++ [[]])).
  - apply split_on_join; [by destruct ls|]. apply Forall_app. split; [done|]. constructor; [apply not_elem_of_nil | constructor].
  - clear Hls. clearbody ls. clear -Hne. induction ls as [|l ls IH]; [done|]. destruct ls as [|l' ls]; [done|].
    change (l ++ [newline] ++ join_with [newline] ((l' :: ls) ++ [[]]) = (l ++ [newline] ++ join_with [newline] (l' :: ls)) ++ [newline]).
    rewrite IH by done. by rewrite <- !app_assoc.
Qed.

Definition one_line (s : str) : Prop := newline ∉ s.

Lemma pinned_keys host port token : (pinned host port token).*1 = PINNED_KEYS.
Proof. unfold pinned. cbn [fmap list_fmap fst]. reflexivity. Qed.

Lemma pinned_NoDup : NoDup PINNED_KEYS.
Proof. apply (bool_decide_eq_true_1 (NoDup PINNED_KEYS)). vm_compute. reflexivity. Qed.

Lemma to_line_one k v : newline ∉ k → newline ∉ py_str v → newline ∉ to_line k v.
Proof.
  intros Hk Hv. assert (newline ∉ u ":i:" ∧ newline ∉ u ":s:") as [Hi Hs]
    by (split; plain).
  assert (∀ z, newline ∉ str_of_Z z) as Hz by (intros z; apply str_of_Z_plain; unfold newline; lia).
  destruct v; unfold to_line; rewrite !not_elem_of_app; repeat split; try done; try apply Hz.
  destruct b; plain.
Qed.

Lemma pinned_tidy host port token :
  one_line host → one_line port → one_line token → Forall tidy (pinned host port token).
Proof.
  intros Hh Hp Ht. unfold pinned.
  assert (∀ k v, 58%N ∉ k → newline ∉ k → newline ∉ py_str v → tidy (k, v)) as Htidy
    by (intros k v ? ? ?; apply tidy_named; [done | by apply to_line_one]).
  assert (∀ z, newline ∉ str_of_Z z) as Hz by (intros z; apply str_of_Z_plain; unfold newline; lia).
  assert (newline ∉ host ++ u ":" ++ port) as Haddr
    by (rewrite !not_elem_of_app; split; [exact Hh|]; split; [plain | exact Hp]).
  repeat (apply Forall_cons; split; [apply Htidy; [plain | plain | first [exact Haddr | exact Ht | apply Hz]]|]).
  constructor.
Qed.

(** The lines of a file under one of the pinned keys. *)
Lemma pinned_line ts groups host port token k v :
  (∀ l t, ts = Some l → t ∈ l → Forall tidy (t_params t)) →
  one_line host → one_line port → one_line token →
  dict_get k (pinned host port token) = Some v →
  List.filter (starts_with (k ++ [58%N])) (split_on newline (build_rdp_content ts groups host port token)) = [to_line k v].
Proof.
  intros Hts Hh Hp Ht Hk. unfold build_rdp_content.
  set (merged := match ts with Some l => _ | None => _ end).
  assert (Forall tidy merged ∧ NoDup merged.*1) as [Hm Hn].
  { unfold merged. destruct ts as [l|]; [|split; [apply default_params_tidy | apply default_params_keys]].
    apply (merge_templates_ind (λ d, Forall tidy d ∧ NoDup d.*1)).
    - intros d t Hin [Hd1 Hd2]. split; [apply dict_merge_Forall; [done | by apply (Hts l)] | by apply NoDup_dict_merge].
    - split; [apply default_params_tidy | apply default_params_keys]. }
  assert (Forall tidy (dict_merge merged (pinned host port token))) as Hall
    by (apply dict_merge_Forall; [done | by apply pinned_tidy]).
  assert (dict_get k (dict_merge merged (pinned host port token)) = Some v) as Hget.
  { rewrite dict_get_merge; [by rewrite Hk|]. rewrite pinned_keys. exact pinned_NoDup. }
  rewrite split_rdp_lines; [|by intros E; rewrite E in Hget | exact Hall]. rewrite List.filter_app.
  assert (k ∈ PINNED_KEYS) as Hin.
  { rewrite <- (pinned_keys host port token). apply dict_get_has. by eexists. }
  rewrite (lines_of_key _ k v).
  - destruct k; reflexivity.
  - exact Hall.
  - by apply NoDup_dict_merge.
  - exact Hin.
  - exact Hget.
Qed.
End FileLaws.

(** ** Properties *)

(** C26: whatever the templates of the administrator say, as long as a parameter
    stays on its own line and its name does not go on after one of these keys and a
    colon, the file has exactly one line under each key the proxy decides: its own
    address, the user's token, and the security settings. (Neither is checked when
    a template is saved: [template_line_injection], [template_name_injection].) *)
Theorem rdp_file_pinned `{Floats} `{PyText} `{CaseMap} (ts : option (list RdpTemplate)) (groups : list str)
    (host port token k : str) (v : json) :
  (∀ l t, ts = Some l → t ∈ l → Forall tidy (t_params t)) →
  one_line host → one_line port → one_line token →
  dict_get k (pinned host port token) = Some v →
  List.filter (starts_with (k ++ [58%N])) (split_on newline (build_rdp_content ts groups host port token)) = [to_line k v].
Proof. apply pinned_line. Qed.

#[export] Instance plain_text : PyText := {| float_text s := s; container_text _ := [] |}.

Definition demo_template (params : dict) : RdpTemplate := {|
  t_id := 1%N; t_name := u "office"; t_is_default := false; t_priority := 0; t_params := params; t_groups := [] |}.

Lemma rdp_file_pinned_witness :
  List.filter (starts_with (u "full address" ++ [58%N]))
    (split_on newline (@build_rdp_content zero_floats plain_text ascii_lower
      (Some [demo_template [(u "full address", JStr (u "evil")); (u "audiomode", JInt 1)]]) [] (u "rdp.corp") (u "8002") (u "tok")))
  = [u "full address:s:rdp.corp:8002"].
Proof.
  change [u "full address:s:rdp.corp:8002"] with [@to_line zero_floats plain_text (u "full address") (JStr (u "rdp.corp" ++ u ":" ++ u "8002"))].
  apply (@rdp_file_pinned zero_floats plain_text ascii_lower).
  - intros l t [= <-]. rewrite list_elem_of_singleton. intros ->.
    apply Forall_cons. split; [apply tidy_named; plain|]. apply Forall_cons. split; [apply tidy_named; plain|]. constructor.
  - plain.
  - plain.
  - plain.
  - vm_compute. reflexivity.
Defined.

(** So does one with a name that starts as the address's line does. *)
Example template_name_injection :
  List.filter (starts_with (u "full address" ++ [58%N]))
    (split_on newline (@build_rdp_content zero_floats plain_text ascii_lower
      (Some [demo_template [(u "full address:s:evil", JStr (u "x"))]]) [] (u "rdp.corp") (u "8002") (u "tok")))
  = [u "full address:s:evil:s:x"; u "full address:s:rdp.corp:8002"].
Proof. vm_compute. reflexivity. Qed.

(** A template whose text spans two lines adds an address of its own. *)
Example template_line_injection :
  List.filter (starts_with (u "full address" ++ [58%N]))
    (split_on newline (@build_rdp_content zero_floats plain_text ascii_lower
      (Some [demo_template [(u "alternate shell", JStr (u "x" ++ [newline] ++ u "full address:s:evil"))]]) []
      (u "rdp.corp") (u "8002") (u "tok")))
  = [u "full address:s:evil"; u "full address:s:rdp.corp:8002"].
Proof. vm_compute. reflexivity. Qed.
Close Scope Z_scope.
