(* ===== verification/Http.v ===== *)
(** What the web services read of a request and put into a response:
    [services/portal/middleware/], and the request helpers that
    [services/portal/dependencies.py] and [services/admin/dependencies.py] each
    have. Starlette and FastAPI are not modelled: a request is a record of what
    they hand over, and an error response is an [HTTPException]. *)

From stdpp Require Import prelude list.
From Stdlib Require Import ZArith Lia.
From S2P Require Import Prelude PySeq PyBytes PyStr.

Open Scope Z_scope.

(** Headers by their lower-case names; the peer's host; [request.state.client_ip]. *)
Record request : Type := Request {
  rq_method : str;
  rq_path : str;
  rq_headers : str → option str;
  rq_cookies : str → option str;
  rq_client_host : option str;
  rq_client_ip : option str;
}.

(** A cookie that is set: its name, value and lifetime. *)
Record response : Type := Response {
  rs_status : Z;
  rs_location : option str;
  rs_set_cookies : list (str * str * Z);
  rs_deleted_cookies : list str;
}.

Definition header (k : str) (rq : request) : str := default [] (rq_headers rq k).

(** [x or y] on text. *)
Definition str_or (x : option str) (y : str) : str :=
  match x with Some (c :: s) => c :: s | _ => y end.

(** [xff.split(",")[0].strip()] *)
Definition first_hop (xff : str) : str :=
  match split_first 44%N xff with Some (a, _) => strip a | None => strip xff end.

(** ** Middlewares of the portal *)

Definition set_client_ip (ip : str) (rq : request) : request :=
  Request (rq_method rq) (rq_path rq) (rq_headers rq) (rq_cookies rq) (rq_client_host rq) (Some ip).

Definition real_ip (rq : request) : request :=
  let xff := header (u "x-forwarded-for") rq in
  let real_ip := header (u "x-real-ip") rq in
  if negb (bool_decide (real_ip = [])) then set_client_ip (strip real_ip) rq
  else if negb (bool_decide (xff = [])) then set_client_ip (first_hop xff) rq
  else match rq_client_host rq with
       | Some (c :: s) => set_client_ip (c :: s) rq
       | _ => set_client_ip (u "unknown") rq
       end.

Definition correlation_id (random_hex : str) (rq : request) : str := str_or (rq_headers rq (u "x-correlation-id")) random_hex.

(** ** Helpers of the portal *)

Definition COOKIE_NAME : str := u "rdp_web_session".
Definition CSRF_COOKIE_NAME : str := u "rdp_csrf".

Definition portal_client_ip (rq : request) : str :=
  str_or (rq_client_ip rq) (str_or (rq_client_host rq) (u "unknown")).

Definition fingerprint_headers : list str := [u "user-agent"; u "sec-ch-ua"; u "sec-ch-ua-platform"; u "accept-language"].
Definition browser_fingerprint (rq : request) : str :=
  join_with (u "||") (map (λ k, header k rq) fingerprint_headers).

(** ** Helpers of the administration *)

Definition ADMIN_COOKIE_NAME : str := u "rdp_admin_session".
Definition ADMIN_CSRF_COOKIE_NAME : str := u "rdp_admin_csrf".

Definition admin_client_ip (rq : request) : str :=
  match rq_client_ip rq with
  | Some (c :: s) => c :: s
  | _ =>
      let xff := header (u "x-forwarded-for") rq in
      if negb (bool_decide (xff = [])) then first_hop xff
      else str_or (rq_client_host rq) (u "unknown")
  end.

Definition admin_browser_fingerprint (rq : request) : str :=
  join_with (u "||") (map (λ k, header k rq) fingerprint_headers).

(** The double-submit check of the forms: [not csrf_cookie or csrf_cookie != csrf_token]. *)
Definition form_expired (cookie : str) (rq : request) (csrf_token : str) : bool :=
  let csrf_cookie := default [] (rq_cookies rq cookie) in
  bool_decide (csrf_cookie = []) || negb (bool_decide (csrf_cookie = csrf_token)).

(** ** Lemmas *)

(** Whatever follows the first comma, and whatever the proxy has recorded. *)
Lemma first_hop_comma ip rest :
  44%N ∉ ip → strip ip = ip → first_hop (ip ++ 44%N :: rest) = ip.
Proof.
  intros Hc Hs. unfold first_hop. by rewrite (proj2 (split_first_Some 44%N _ ip rest)) by done.
Qed.

Lemma form_expired_false cookie rq token :
  form_expired cookie rq token = false ↔ rq_cookies rq cookie = Some token ∧ token ≠ [].
Proof.
  unfold form_expired. set (c := default [] (rq_cookies rq cookie)).
  assert (c ≠ [] → rq_cookies rq cookie = Some c) as Hc
    by (unfold c; destruct (rq_cookies rq cookie); simpl; congruence).
  assert (∀ t, rq_cookies rq cookie = Some t → c = t) as Ht by (unfold c; by intros t ->).
  case_bool_decide as E1; simpl; [|case_bool_decide as E2; simpl].
  - split; [discriminate|]. intros [Hs Hne]. rewrite (Ht _ Hs) in E1. done.
  - split; [|done]. intros _. subst token. split; [by apply Hc | done].
  - split; [discriminate|]. intros [Hs _]. by rewrite (Ht _ Hs) in E2.
Qed.
Close Scope Z_scope.
