(* ===== verification/Portal.v ===== *)
(** The portal, [services/portal/routes/auth.py], [services/portal/routes/servers.py]
    and the session helpers of [services/portal/dependencies.py]: login against
    the directory, the list of the servers a user may see, and the [.rdp] file
    with the token that the relay will ask for. The directory is an interface;
    [Ldap] is its implementation. *)

From stdpp Require Import prelude gmap list strings.
From Stdlib Require Import ZArith Lia.
From Stdlib Require Strings.String.
From S2P Require Import Prelude PySeq PyBytes PyStr Json Encodings PyUuid Redis Keys LoginLimiter Encryption Sessions Database Models Config Settings Ldap RdpFile Http.

Open Scope Z_scope.

(** What the portal asks of a directory. *)
Class Authenticator (W : Type) : Type := {
  auth_user : LdapConfig → str → str → io W LDAPUserInfo;
}.
#[export] Instance ldap_authenticator {W Conn : Type} `{LdapClient W Conn} `{CaseMap} : Authenticator W := {|
  auth_user := authenticate |}.

(** The process: its configuration, its stores, and the directory when there is
    one ([app.state.ldap_auth]). *)
Record portal_app : Type := {
  pa_cfg : AppConfig;
  pa_store : SessionStore;
  pa_manager : SettingsManager;
  pa_ldap : option LdapConfig;
}.

Record portal (R D DS DT W : Type) : Type := Portal {
  po_redis : world R;
  po_settings : settings D;
  po_servers : DS;
  po_templates : DT;
  po_directory : W;
}.
Arguments Portal {R D DS DT W}. Arguments po_redis {R D DS DT W}. Arguments po_settings {R D DS DT W}.
Arguments po_servers {R D DS DT W}. Arguments po_templates {R D DS DT W}. Arguments po_directory {R D DS DT W}.

Record visible_server : Type := { vs_id : str; vs_name : str; vs_host : str; vs_port : Z; vs_groups : list str }.

(** A file to download: its name and its text. *)
Record rdp_download_file : Type := { dl_filename : str; dl_content : str }.

(** What the three reads of a download raise, when they do: of the settings, of
    the server's row, of the templates. *)
Record outage : Type := { no_settings : option exn; no_server : option exn; no_templates : option exn }.
Definition no_outage : outage := {| no_settings := None; no_server := None; no_templates := None |}.

(** The names that have no space in front or behind, in lower case. *)
Definition server_visible `{CaseMap} (server_group_guids user_group_guids : list str) : bool :=
  match server_group_guids with
  | [] => true
  | _ => intersects (group_set user_group_guids) (group_set server_group_guids)
  end.

Section Portal.
Context {R D DS DT W : Type} `{Redis R} `{!Table str PortalSetting D} `{!Table uuid RdpServer DS}
  `{!Table uuid RdpTemplate DT} `{Authenticator W} `{AESGCM} `{Config} `{Floats} `{PyText} `{CaseMap} `{Collation}.
Abbreviation state := (portal R D DS DT W).
Implicit Types (app : portal_app) (now : Z) (rq : request).

Definition po_on_redis {A} (m : io (world R) A) : io state A :=
  io_zoom po_redis (λ w s, Portal w (po_settings s) (po_servers s) (po_templates s) (po_directory s)) m.
Definition po_on_settings {A} (m : io (settings D) A) : io state A :=
  io_zoom po_settings (λ d s, Portal (po_redis s) d (po_servers s) (po_templates s) (po_directory s)) m.
Definition po_on_directory {A} (m : io W A) : io state A :=
  io_zoom po_directory (λ d s, Portal (po_redis s) (po_settings s) (po_servers s) (po_templates s) d) m.

(** ** Sessions of requests *)

Definition get_current_session app now rq : io state (option WebSessionData) :=
  match rq_cookies rq COOKIE_NAME with
  | Some (c :: sid) => po_on_redis (get_web_session (pa_store app) now (c :: sid) (browser_fingerprint rq))
  | _ => mret None
  end.

Definition require_session app now rq : io state WebSessionData :=
  session ← get_current_session app now rq;
  match session with Some s => mret s | None => io_raise (HTTPException 401) end.

Definition is_ldap_configured app : bool := if pa_ldap app is Some _ then true else false.

Definition default_name : str := u "RDP-Proxy".
(** The name in the settings, or the default. *)
Definition shown_name (portal : dict) : json :=
  let name := match portal with [] => JStr default_name | _ => dict_get_or (u "name") (JStr default_name) portal end in
  if truthy name then name else JStr default_name.
(** [nonce]: what seeding an empty database would draw. *)
Definition get_portal_name app now (nonce : bytes) : io state json :=
  portal ← po_on_settings (Settings.get (pa_manager app) now nonce (u "portal"));
  mret (shown_name portal).

(** ** Login *)

(** The form with its anti-forgery cookie. *)
Definition login_form rq (random : bytes) (status : Z) : response :=
  Response status None [(CSRF_COOKIE_NAME, str_or (rq_cookies rq CSRF_COOKIE_NAME) (token_urlsafe random), 600)] [].

Definition render_login_page app now (nonce : bytes) rq (random : bytes) (status : Z) : io state response :=
  _ ← get_portal_name app now nonce;
  mret (login_form rq random status).

(** A limit from the settings; the settings page lets only numbers through. *)
Definition limit_of (k : str) (sec : dict) : res Z :=
  match dict_get k sec with Some v => number_int v ?? OtherError | None => Err KeyError end.

(** A password that the directory did not take. *)
Definition login_failed app now (nonce : bytes) rq (random : bytes) (username : str) : io state response :=
  s ← io_get;
  let sec := security_params (pa_manager app) (po_settings s) in
  max_attempts ← io_lift (limit_of (u "login_attempts_per_minute") sec);
  lock_seconds ← io_lift (limit_of (u "login_lock_seconds") sec);
  _ ← po_on_redis (record_failure portal_limiter now (portal_client_ip rq) username max_attempts lock_seconds);
  render_login_page app now nonce rq random 401.

(** A password that the directory took. *)
Definition login_accepted app now rq (random sid_random aes_nonce : bytes) (username password : str) (info : LDAPUserInfo)
    : io state response :=
  _ ← po_on_redis (clear portal_limiter now (portal_client_ip rq) username);
  sid ← po_on_redis (create_web_session (pa_store app) now sid_random aes_nonce (li_username info) password
          (li_groups info) (li_group_guids info) (browser_fingerprint rq));
  s ← io_get;
  let ttl := redis_ttl (pa_manager app) (po_settings s) in
  let web_ttl := from_option snd 28800 (List.find (λ kv, bool_decide (kv.1 = u "web_session_ttl")) ttl) in
  mret (Response 303 (Some (u "/"))
          [(COOKIE_NAME, sid, web_ttl); (CSRF_COOKIE_NAME, token_urlsafe random, 600)] []).

(** [POST /login]; [random], [sid_random] and [aes_nonce] are what is drawn. *)
Definition login app now (nonce : bytes) rq (random sid_random aes_nonce : bytes) (username password csrf_token : str)
    : io state response :=
  if form_expired CSRF_COOKIE_NAME rq csrf_token then render_login_page app now nonce rq random 400
  else
    let ip := portal_client_ip rq in
    locked ← po_on_redis (is_locked portal_limiter now ip username);
    if locked : bool then render_login_page app now nonce rq random 429
    else
      match pa_ldap app with
      | None => render_login_page app now nonce rq random 503
      | Some ldap =>
          user_info ← io_try (info ← po_on_directory (auth_user ldap (strip username) password); mret (Some info))
                             (λ _, mret None);
          match user_info with
          | None => login_failed app now nonce rq random username
          | Some info => login_accepted app now rq random sid_random aes_nonce username password info
          end
      end.

(** [GET /logout] *)
Definition logout now rq : io state response :=
  _ ← match rq_cookies rq COOKIE_NAME with
      | Some (c :: sid) => po_on_redis (delete_web_session now (c :: sid))
      | _ => mret tt
      end;
  mret (Response 303 (Some (u "/")) [] [COOKIE_NAME; CSRF_COOKIE_NAME]).

(** ** Servers *)

(** [ORDER BY sort_order, tech_name] *)
Definition server_before (a b : RdpServer) : bool :=
  (s_sort_order a <? s_sort_order b) || ((s_sort_order a =? s_sort_order b) && text_le (s_tech_name a) (s_tech_name b)).

Definition server_guids (r : RdpServer) : list str := map uuid_str (s_groups r).

Definition show_server (r : RdpServer) : visible_server := {|
  vs_id := s_tech_name r; vs_name := s_display_name r; vs_host := s_address r; vs_port := s_port r;
  vs_groups := server_guids r |}.

Definition list_visible_servers (user_group_guids : list str) (d : DS) : list visible_server :=
  map show_server (List.filter (λ r, server_visible (server_guids r) user_group_guids)
    (sorted_by server_before (db_select (K := uuid) s_is_enabled d))).

(** [GET /]: the form, or the list. *)
Definition index app now (nonce : bytes) rq (random : bytes) : io state (response + list visible_server) :=
  session ← get_current_session app now rq;
  _ ← get_portal_name app now nonce;
  match session with
  | None => mret (inl (login_form rq random 200))
  | Some session => s ← io_get; mret (inr (list_visible_servers (ws_group_guids session) (po_servers s)))
  end.

Definition find_server (server_id : str) (d : DS) : option RdpServer :=
  head (db_select (K := uuid) (λ r, bool_decide (s_tech_name r = server_id)) d).

(** The server of a download, or the refusal. *)
Definition check_access (server_id : str) (user_group_guids : list str) (d : DS) : res RdpServer :=
  match find_server server_id d with
  | None => Err (HTTPException 404)
  | Some s =>
      if negb (s_is_enabled s) then Err (HTTPException 404)
      else if negb (server_visible (server_guids s) user_group_guids) then Err (HTTPException 403)
      else Ok s
  end.

Definition db_read (failure : option exn) : io state unit :=
  match failure with Some e => io_raise e | None => mret tt end.

(** The download of a session; [db]: the reads of the database that fail. *)
Definition session_download app now (nonce : bytes) (db : outage) (session : WebSessionData) (tok_random aes_nonce : bytes)
    (server_id : str) : io state rdp_download_file :=
  _ ← db_read (no_settings db);
  _ ← po_on_settings (load (pa_manager app) now nonce);
  _ ← db_read (no_server db);
  s ← io_get;
  let proxy := proxy_params (pa_manager app) (po_settings s) in
  server ← io_lift (check_access server_id (ws_group_guids session) (po_servers s));
  token ← po_on_redis (create_session (pa_store app) now tok_random aes_nonce (ws_username session) (ws_password session)
            (s_address server) (s_port server) (Some (uuid_str (s_id server))) (Some (s_display_name server)));
  public_host ← io_lift (field_of (u "public_host") proxy);
  public_port ← io_lift (field_of (u "public_port") proxy);
  _ ← db_read (no_templates db);
  s ← io_get;
  let content := build_rdp_content (Some (db_select (K := uuid) (λ _, true) (po_templates s))) (ws_group_guids session)
                   (py_str public_host) (py_str public_port) token in
  mret {| dl_filename := server_id ++ u ".rdp"; dl_content := content |}.

(** [GET /rdp/{server_id}] *)
Definition rdp_download app now (nonce : bytes) (db : outage) rq (tok_random aes_nonce : bytes) (server_id : str)
    : io state rdp_download_file :=
  session ← require_session app now rq;
  session_download app now nonce db session tok_random aes_nonce server_id.
End Portal.

(** ** Lemmas *)

#[local] Opaque u.

Section Frames.
Context {R : Type} `{RedisLaws R}.

(** A limiter touches only its own keys. *)
Lemma calm_is_locked `{CaseMap} l now ip username k e : keeps (calm now k e) (is_locked l now ip username).
Proof.
  unfold is_locked. apply keeps_bind; [apply calm_reading|]. intros []; [apply keeps_ret | apply calm_reading].
Qed.

Lemma calm_record_failure `{CaseMap} l now ip username mx t k e :
  ¬ limiter_key l k → keeps (calm now k e) (record_failure l now ip username mx t).
Proof.
  intros Hk. assert (∀ a, fail_ip l a ≠ k ∧ fail_user l a ≠ k ∧ lock_ip l a ≠ k ∧ lock_user l a ≠ k) as Hne.
  { intros a. repeat split; intros E; apply Hk; exists a; auto 6. }
  unfold record_failure. cbv zeta. apply keeps_bind; [apply calm_incr, Hne|]. intros n.
  apply keeps_bind; [apply calm_incr, Hne|]. intros n'. apply keeps_bind; [apply calm_expire, Hne|]. intros _.
  apply keeps_bind; [apply calm_expire, Hne|]. intros _.
  apply keeps_bind; [apply keeps_if; [apply calm_setex, Hne | apply keeps_ret]|]. intros _.
  apply keeps_if; [apply calm_setex, Hne | apply keeps_ret].
Qed.

Lemma calm_clear `{CaseMap} l now ip username k e : ¬ limiter_key l k → keeps (calm now k e) (clear l now ip username).
Proof.
  intros Hk. apply calm_delete. rewrite !not_elem_of_cons. split; [|split; [|apply not_elem_of_nil]].
  - intros ->. apply Hk. exists ip. by left.
  - intros ->. apply Hk. exists (uname username). right. by left.
Qed.
End Frames.

Lemma uuid_text n : text (uuid_str n).
Proof.
  apply ascii_text. eapply Forall_impl; [apply uuid_str_chars|]. intros c [Hc| ->]; [|done].
  apply is_hex_cases in Hc as [Hr _]. lia.
Qed.

Lemma token_one_line random : one_line (token_urlsafe random).
Proof.
  unfold one_line. intros Hin. pose proof (token_urlsafe_chars random) as Hc. rewrite Forall_forall in Hc.
  apply Hc, token_char_spec in Hin. unfold newline in Hin. lia.
Qed.

Lemma token_ne_web token sid : WEB_SESSION sid ≠ TOKEN token.
Proof. key_ne. Qed.

(** *** Keys that stay as they are *)

Section Unchanged.
Context {R D DS DT W : Type} `{RedisLaws R}.
Implicit Types (now : Z) (s : portal R D DS DT W).

(** The keys that [K] picks hold what [m] says. *)
Definition unchanged (K : str → Prop) now (m : gmap str entry) s : Prop :=
  alone (po_redis s) ∧ ∀ k, K k → live now (w_store (po_redis s)) !! k = m !! k.

(** The keys of RDP tokens, and of portal sessions. *)
Definition token_key (k : str) : Prop := ∃ token, k = TOKEN token.
Definition web_key (k : str) : Prop := ∃ sid, k = WEB_SESSION sid.

Lemma unchanged_start K now s : alone (po_redis s) → unchanged K now (live now (w_store (po_redis s))) s.
Proof. by split. Qed.

Lemma unchanged_redis {A} K now m (x : io (world R) A) :
  ex K → (∀ k e, K k → keeps (calm now k e) x) → keeps (unchanged K now m) (po_on_redis x).
Proof.
  intros [k0 Hk0] Hx s [Hs Ht]. unfold unchanged, po_on_redis, io_zoom.
  destruct (x (po_redis s)) as [a w] eqn:E. cbn [snd po_redis] in *. split.
  - pose proof (Hx k0 _ Hk0 (po_redis s) (conj Hs eq_refl)) as [Ha _]. by rewrite E in Ha.
  - intros k Hk. pose proof (Hx k _ Hk (po_redis s) (conj Hs (Ht k Hk))) as [_ Hl]. by rewrite E in Hl.
Qed.

Lemma unchanged_settings {A} K now m (x : io (settings D) A) : keeps (unchanged K now m) (po_on_settings x).
Proof. by apply zoom_other. Qed.

Lemma unchanged_directory {A} K now m (x : io W A) : keeps (unchanged K now m) (po_on_directory x).
Proof. by apply zoom_other. Qed.

Lemma unchanged_read K now m failure : keeps (unchanged K now m) (db_read failure).
Proof. destruct failure; [apply keeps_raise | apply keeps_ret]. Qed.
End Unchanged.

Lemma web_no_limiter k : web_key k → ¬ limiter_key portal_limiter k.
Proof.
  intros [sid ->] (a & [E|[E|[E|E]]]); revert E; cbn [fail_ip fail_user lock_ip lock_user portal_limiter]; key_ne.
Qed.

Section PortalLaws.
Context {R D DS DT W : Type} `{RedisLaws R} `{!Table str PortalSetting D} `{!Table uuid RdpServer DS} `{!TableLaws uuid RdpServer DS}
  `{!Table uuid RdpTemplate DT} `{Authenticator W} `{AESGCMLaws} `{Config} `{Floats} `{PyText} `{CaseMap} `{Collation}.
Implicit Types (app : portal_app) (now : Z) (rq : request) (s : portal R D DS DT W).

Lemma on_redis_keeps {A} (I : world R → Prop) (m : io (world R) A) :
  keeps I m → keeps (λ s, I (po_redis s)) (po_on_redis m).
Proof. intros Hm s Hs. specialize (Hm _ Hs). unfold po_on_redis, io_zoom. by destruct (m (po_redis s)). Qed.

Lemma on_settings_keeps {A} (I : world R → Prop) (m : io (settings D) A) :
  keeps (λ s : portal R D DS DT W, I (po_redis s)) (po_on_settings m).
Proof. intros s Hs. unfold po_on_settings, io_zoom. by destruct (m (po_settings s)). Qed.


(** The session of the browser that asks: under its cookie Redis holds, live, a
    payload whose fingerprint is the browser's and whose last use is recent enough,
    and the session is what that payload says. *)
Definition live_session app now rq (r : R) (session : WebSessionData) : Prop :=
  ∃ sid raw payload, rq_cookies rq COOKIE_NAME = Some sid ∧ sid ≠ []
    ∧ e_value <$> live now r !! WEB_SESSION sid = Some raw ∧ load_payload raw = Ok payload
    ∧ admits (pa_store app) now (browser_fingerprint rq) payload
    ∧ web_session_of (pa_store app) sid payload = Ok session.

Lemma current_session_live app now rq s session s1 :
  alone (po_redis s) → get_current_session app now rq s = (Ok (Some session), s1) →
  live_session app now rq (w_store (po_redis s)) session.
Proof.
  intros Ha. unfold get_current_session. destruct (rq_cookies rq COOKIE_NAME) as [[|c sid]|] eqn:Eck; [done| |done].
  unfold po_on_redis, io_zoom, get_web_session. rewrite io_bind_run.
  destruct (read_session _ _ _ _ _) as [[[payload|]|e] w] eqn:Er; [|done..]. unfold io_lift.
  destruct (web_session_of _ _ _) as [ws|e] eqn:Ew; [|done]. intros [= -> _].
  destruct (read_session_inv _ _ _ _ _ _ _ Ha Er) as (raw & Hraw & Hp & Had).
  exists (c :: sid), raw, payload. done.
Qed.

Lemma tokens_unchanged_session app now rq m :
  keeps (unchanged (D := D) (DS := DS) (DT := DT) (W := W) token_key now m) (get_current_session app now rq).
Proof.
  unfold get_current_session. destruct (rq_cookies rq COOKIE_NAME) as [[|c sid]|]; try apply keeps_ret.
  apply unchanged_redis; [by exists (TOKEN []), []|]. intros k e [token ->]. apply calm_web_session, token_ne_web.
Qed.

(** Reading the session of a request changes only Redis. *)
Lemma session_frame app now rq s :
  po_settings (get_current_session app now rq s).2 = po_settings s ∧ po_servers (get_current_session app now rq s).2 = po_servers s.
Proof.
  unfold get_current_session. destruct (rq_cookies rq COOKIE_NAME) as [[|c sid]|]; [done| |done].
  unfold po_on_redis, io_zoom. by destruct (get_web_session _ _ _ _ _).
Qed.

(** *** Servers *)

Lemma elem_visible groups d v :
  v ∈ list_visible_servers groups d ↔ ∃ k r, rows d !! k = Some r ∧ s_is_enabled r = true
    ∧ server_visible (server_guids r) groups = true ∧ v = show_server r.
Proof.
  unfold list_visible_servers. rewrite list_elem_of_In, in_map_iff. split.
  - intros (r & <- & Hin). apply List.filter_In in Hin as [Hin Hv]. apply list_elem_of_In in Hin.
    rewrite elem_of_sorted_by in Hin. apply elem_of_db_select in Hin as (k & Hr & He). eauto 10.
  - intros (k & r & Hr & He & Hv & ->). exists r. split; [done|]. apply List.filter_In. split; [|done].
    apply list_elem_of_In, elem_of_sorted_by, elem_of_db_select. eauto.
Qed.

Lemma find_server_Some id d r :
  find_server id d = Some r → ∃ k, rows d !! k = Some r ∧ s_tech_name r = id.
Proof.
  unfold find_server. intros Hh.
  assert (r ∈ db_select (K := uuid) (λ r, bool_decide (s_tech_name r = id)) d) as Hin.
  { destruct (db_select _ d) as [|r0 l]; [done|]. injection Hh as <-. constructor. }
  apply elem_of_db_select in Hin as (k & Hr & Hb). apply bool_decide_eq_true in Hb. eauto.
Qed.

Lemma find_server_row id d k r :
  constraints (rows d) → rows d !! k = Some r → s_tech_name r = id → find_server id d = Some r.
Proof.
  intros [Hu _] Hr Hn. unfold find_server.
  set (l := db_select (K := uuid) _ d).
  assert (r ∈ l) as Hin by (apply elem_of_db_select; exists k; split; [done | by apply bool_decide_eq_true]).
  destruct l as [|r0 l'] eqn:El; [by apply not_elem_of_nil in Hin|]. cbn [head].
  assert (r0 ∈ l) as Hin0 by (rewrite El; constructor).
  apply elem_of_db_select in Hin0 as (k0 & Hr0 & Hb). apply bool_decide_eq_true in Hb.
  assert (k0 = k) as -> by (apply (Hu k0 r0 Hr0 k r Hr); congruence). congruence.
Qed.

Lemma check_access_Ok id groups d r :
  check_access id groups d = Ok r →
  find_server id d = Some r ∧ s_is_enabled r = true ∧ server_visible (server_guids r) groups = true.
Proof.
  unfold check_access. destruct (find_server id d) as [r0|]; [|done].
  destruct (s_is_enabled r0) eqn:He; [|done]. destruct (server_visible _ _) eqn:Hv; [|done].
  intros [= <-]. done.
Qed.

(** *** The download *)

Lemma load_seeded m now nonce (st : settings D) :
  se_seeded st = true → ∃ st', load m now nonce st = (Ok tt, st') ∧ se_seeded st' = true.
Proof.
  intros Hs. unfold load. rewrite io_bind_run. unfold io_get. rewrite io_bind_run. unfold io_modify at 1.
  rewrite Hs. eexists. split; [reflexivity|]. done.
Qed.

Lemma create_session_calm st now random nonce username password host port sid disp k e :
  k ≠ TOKEN (token_urlsafe random) →
  keeps (calm now k e) (create_session st now random nonce username password host port sid disp).
Proof.
  intros Hk. unfold create_session. cbv zeta. apply keeps_bind; [apply keeps_lift|]. intros aad.
  apply keeps_bind; [apply keeps_lift|]. intros enc. apply keeps_bind; [by apply calm_setex|]. intros ?; apply keeps_ret.
Qed.

(** The tokens but the one that a download creates. *)
Definition other_tokens (tok_random : bytes) (k : str) : Prop := token_key k ∧ k ≠ TOKEN (token_urlsafe tok_random).

Lemma other_tokens_ex tok_random : ex (other_tokens tok_random).
Proof.
  exists (TOKEN (0%N :: token_urlsafe tok_random)). split; [by eexists|]. intros E.
  apply app_inv_head, (f_equal length) in E. simpl in E. lia.
Qed.

(** A server that the user may open is there. *)
Definition granted (server_id : str) (session : WebSessionData) (d : DS) : Prop :=
  ∃ k server, rows d !! k = Some server ∧ s_tech_name server = server_id ∧ s_is_enabled server = true
    ∧ server_visible (server_guids server) (ws_group_guids session) = true.

(** A download writes its token after the server was granted, and nothing else. *)
Lemma session_download_guarded app now nonce db session tok_random aes_nonce server_id m d :
  let U1 s := granted server_id session d ∧ unchanged (other_tokens tok_random) now m s in
  hoare (λ s, unchanged token_key now m s ∧ po_servers s = d)
    (session_download app now nonce db session tok_random aes_nonce server_id : io (portal R D DS DT W) rdp_download_file)
    (λ _, U1) (λ s, U1 s ∨ unchanged token_key now m s).
Proof.
  intros U1. set (P s := unchanged token_key now m s ∧ po_servers s = d).
  assert (∀ A (x : io (portal R D DS DT W) A), keeps P x → hoare P x (λ _, P) (λ s, U1 s ∨ unchanged token_key now m s)) as Hbefore.
  { intros A x Hx. eapply hoare_weaken; [by apply hoare_keeps | done | done |]. intros s [Hs _]. by right. }
  assert (∀ A (x : io (portal R D DS DT W) A), keeps U1 x → hoare U1 x (λ _, U1) (λ s, U1 s ∨ unchanged token_key now m s)) as Hafter.
  { intros A x Hx. eapply hoare_weaken; [by apply hoare_keeps | done | done |]. by left. }
  assert (∀ o, keeps P (db_read o)) as Hread by (intros []; [apply keeps_raise | apply keeps_ret]).
  unfold session_download. eapply hoare_bind; [apply Hbefore, Hread|]. intros ?.
  eapply hoare_bind; [apply Hbefore; by apply zoom_other|]. intros ?. eapply hoare_bind; [apply Hbefore, Hread|]. intros ?.
  eapply (hoare_bind _ _ _ (λ s' s, P s ∧ po_servers s' = d)); [by intros s Hs; split; [|apply Hs]|].
  intros s'. apply hoare_fact. intros Hd. cbv zeta. rewrite Hd.
  destruct (check_access server_id (ws_group_guids session) d) as [server|e] eqn:Eacc; [|intros s [Hs _]; by right].
  apply check_access_Ok in Eacc as (Hf & He & Hv). apply find_server_Some in Hf as (k & Hr & Hn).
  assert (granted server_id session d) as Hg by (exists k, server; done).
  assert (∀ s, P s → U1 s) as HU1 by (intros s [[Hs1 Hs2] _]; split; [done|]; split; [done|]; intros k2 [Hk2 _]; by apply Hs2).
  eapply hoare_bind; [eapply hoare_weaken; [apply (Hafter _ (io_lift (Ok server))), keeps_lift | exact HU1 | done | done]|].
  intros server'. eapply hoare_bind; [apply Hafter|].
  { intros s [_ Hs]. split; [done|]. revert s Hs. apply unchanged_redis; [apply other_tokens_ex|].
    intros k' e [_ Hk']. by apply create_session_calm. }
  intros token. apply Hafter. apply keeps_bind; [apply keeps_lift|]. intros host. apply keeps_bind; [apply keeps_lift|].
  intros port. apply keeps_bind; [destruct (no_templates db); [apply keeps_raise | apply keeps_ret]|]. intros _.
  apply keeps_bind; [apply keeps_read | intros ?; apply keeps_ret].
Qed.

(** The proxy's address is there after any load. *)
Lemma proxy_fields m (st : settings D) :
  ∃ host port, field_of (u "public_host") (proxy_params m st) = Ok host ∧ field_of (u "public_port") (proxy_params m st) = Ok port.
Proof.
  assert (∀ h p, ∃ host port, field_of (u "public_host") [(u "public_host", h); (u "public_port", p)] = Ok host
    ∧ field_of (u "public_port") [(u "public_host", h); (u "public_port", p)] = Ok port) as Hf
    by (intros h p; exists h, p; split; vm_compute; reflexivity).
  unfold proxy_params, proxy_fallback. destruct (se_cache st !! u "proxy") as [raw|]; apply Hf.
Qed.

(** A download, step by step, when the settings have been seeded. *)
Lemma rdp_download_run app now nonce rq tok_random aes_nonce server_id s session s1 :
  get_current_session app now rq s = (Ok (Some session), s1) → se_seeded (po_settings s1) = true →
  ∃ st host port, load (pa_manager app) now nonce (po_settings s1) = (Ok tt, st)
    ∧ field_of (u "public_host") (proxy_params (pa_manager app) st) = Ok host
    ∧ field_of (u "public_port") (proxy_params (pa_manager app) st) = Ok port
    ∧ rdp_download app now nonce no_outage rq tok_random aes_nonce server_id s
      = match check_access server_id (ws_group_guids session) (po_servers s1) with
        | Err e => (Err e, Portal (po_redis s1) st (po_servers s1) (po_templates s1) (po_directory s1))
        | Ok server =>
            match create_session (pa_store app) now tok_random aes_nonce (ws_username session) (ws_password session)
                    (s_address server) (s_port server) (Some (uuid_str (s_id server))) (Some (s_display_name server)) (po_redis s1) with
            | (Err e, w) => (Err e, Portal w st (po_servers s1) (po_templates s1) (po_directory s1))
            | (Ok token, w) =>
                (Ok {| dl_filename := server_id ++ u ".rdp";
                       dl_content := build_rdp_content (Some (db_select (K := uuid) (λ _, true) (po_templates s1)))
                         (ws_group_guids session) (py_str host) (py_str port) token |},
                 Portal w st (po_servers s1) (po_templates s1) (po_directory s1))
            end
        end.
Proof.
  intros Es Hseed. destruct (load_seeded (pa_manager app) now nonce (po_settings s1) Hseed) as (st & El & _).
  destruct (proxy_fields (pa_manager app) st) as (host & port & Eh & Ep). exists st, host, port.
  split; [done|]. split; [done|]. split; [done|].
  unfold rdp_download, require_session, session_download. cbn [db_read no_outage no_settings no_server no_templates].
  rewrite !io_bind_run, Es. unfold mret at 1, io_ret at 1. rewrite io_bind_run.
  unfold mret at 1, io_ret at 1. rewrite io_bind_run.
  unfold po_on_settings, io_zoom. rewrite El, io_bind_run. unfold mret at 1, io_ret at 1. rewrite io_bind_run. unfold io_get at 1. cbn [po_settings po_servers]. rewrite io_bind_run.
  unfold io_lift at 1. destruct (check_access _ _ _) as [server|e]; [|done]. rewrite io_bind_run.
  unfold po_on_redis, io_zoom. cbn [po_redis].
  destruct (create_session _ _ _ _ _ _ _ _ _ _ _) as [[token|e] w]; [|done].
  rewrite io_bind_run. unfold io_lift at 1. rewrite Eh, io_bind_run. unfold io_lift at 1. rewrite Ep, io_bind_run. done.
Qed.

(** The one line of the file that carries the token. *)
Lemma file_names_token (templates : list RdpTemplate) groups host port tok_random :
  (∀ tpl, tpl ∈ templates → Forall tidy (t_params tpl)) → one_line host → one_line port →
  List.filter (starts_with (u "loadbalanceinfo" ++ [58%N]))
    (split_on newline (build_rdp_content (Some templates) groups host port (token_urlsafe tok_random)))
  = [u "loadbalanceinfo:s:" ++ token_urlsafe tok_random].
Proof.
  intros Htidy Hh Hp. rewrite (pinned_line _ _ _ _ _ (u "loadbalanceinfo") (JStr (token_urlsafe tok_random))).
  - unfold to_line. by rewrite app_assoc.
  - intros l tpl [= <-]. apply Htidy.
  - exact Hh.
  - exact Hp.
  - apply token_one_line.
  - reflexivity.
Qed.

Lemma read_session_quiet st now key fp (w : world R) :
  alone w → (read_session st now key fp w).2 = quiet (w_store (read_session st now key fp w).2).
Proof.
  intros Hw. pose proof (calm_read_session st now key fp (key ++ [0%N]) _
    ltac:(intros E; apply (f_equal length) in E; rewrite length_app in E; simpl in E; lia) w (conj Hw eq_refl)) as [Ha _].
  revert Ha. unfold read_session, with_pipeline. 
  match goal with |- context [let '(_, _) := ?m w in _] => destruct (m w) as [a w'] end. intros Ha. unfold alone in Ha.
  cbn [snd w_env w_store] in *. unfold quiet. by rewrite Ha.
Qed.

Lemma session_quiet app now rq s session s1 :
  alone (po_redis s) → get_current_session app now rq s = (Ok (Some session), s1) → po_redis s1 = quiet (w_store (po_redis s1)).
Proof.
  intros Ha. unfold get_current_session. destruct (rq_cookies rq COOKIE_NAME) as [[|c sid]|]; [done| |done].
  unfold po_on_redis, io_zoom, get_web_session. rewrite io_bind_run.
  pose proof (read_session_quiet (pa_store app) now (WEB_SESSION (c :: sid)) (browser_fingerprint rq) (po_redis s) Ha) as Hq.
  destruct (read_session _ _ _ _ _) as [[[payload|]|e] w]; [|done..]. unfold io_lift.
  destruct (web_session_of _ _ _) as [ws|e]; [|done]. intros [= _ <-]. exact Hq.
Qed.

Lemma int32_small z : int32_fits z = true → small_int z.
Proof.
  unfold int32_fits, small_int. rewrite andb_true_iff, Z.leb_le, Z.ltb_lt. intros [Hlo Hhi].
  pose proof (size_nat_le (Z.abs_N z) 33) as Hs. assert (Z.abs_N z < 2 ^ N.of_nat 33)%N as Hlt; [|specialize (Hs Hlt)].
  - change (2 ^ N.of_nat 33)%N with 8589934592%N. change (2 ^ 31) with 2147483648 in *. lia.
  - assert (33 < 4300)%nat by (apply Nat.ltb_lt; vm_compute; reflexivity). lia.
Qed.
End PortalLaws.

(** *** Login *)

Section LoginLaws.
Context {R D DS DT W : Type} `{RedisLaws R} `{!Table str PortalSetting D} `{Authenticator W} `{AESGCM} `{Config} `{Floats} `{CaseMap}.
Implicit Types (app : portal_app) (now : Z) (rq : request) (s : portal R D DS DT W).

(** A form is never a redirection, and asks the directory nothing. *)
Lemma render_status app now nonce rq random status s resp s' :
  render_login_page app now nonce rq random status s = (Ok resp, s') →
  rs_status resp = status ∧ po_directory s' = po_directory s ∧ po_redis s' = po_redis s.
Proof.
  unfold render_login_page, get_portal_name. rewrite !io_bind_run. unfold po_on_settings, io_zoom.
  destruct (Settings.get _ _ _ _ _) as [[portal|e] st]; [|done]. by intros [= <- <-].
Qed.

(** Forms and failures leave the sessions alone. *)
Lemma render_unchanged K app now nonce rq random status m :
  keeps (unchanged (D := D) (DS := DS) (DT := DT) (W := W) K now m) (render_login_page app now nonce rq random status).
Proof.
  unfold render_login_page, get_portal_name. apply keeps_bind; [|intros ?; apply keeps_ret].
  apply keeps_bind; [apply unchanged_settings | intros ?; apply keeps_ret].
Qed.

Lemma web_key_ex : ex web_key.
Proof. by exists (WEB_SESSION []), []. Qed.

Lemma login_failed_status app now nonce rq random username :
  yields (λ resp, rs_status resp = 401) (login_failed (D := D) (DS := DS) (DT := DT) (W := W) app now nonce rq random username).
Proof.
  unfold login_failed. do 4 (apply yields_bind; intros ?). intros s1 resp s' E. by apply render_status in E as [].
Qed.

Lemma login_failed_unchanged app now nonce rq random username m :
  keeps (unchanged (D := D) (DS := DS) (DT := DT) (W := W) web_key now m) (login_failed app now nonce rq random username).
Proof.
  unfold login_failed. apply keeps_bind; [apply keeps_read|]. intros s. cbv zeta.
  apply keeps_bind; [apply keeps_lift|]. intros mx. apply keeps_bind; [apply keeps_lift|]. intros t.
  apply keeps_bind; [|intros _; apply render_unchanged].
  apply unchanged_redis; [apply web_key_ex|]. intros k e Hk. by apply calm_record_failure, web_no_limiter.
Qed.

Lemma create_web_session_calm st now random nonce username password groups guids fp k e :
  k ≠ WEB_SESSION (token_urlsafe random) →
  keeps (calm (R := R) now k e) (create_web_session st now random nonce username password groups guids fp).
Proof.
  intros Hk. unfold create_web_session. cbv zeta. apply keeps_bind; [apply keeps_lift|]. intros aad.
  apply keeps_bind; [apply keeps_lift|]. intros enc. apply keeps_bind; [apply keeps_lift|]. intros digest.
  apply keeps_bind; [by apply calm_setex | intros ?; apply keeps_ret].
Qed.

(** The directory vouches for the user of a form that passed both checks. *)
Definition let_in app now rq username password token s s' : Prop :=
  form_expired CSRF_COOKIE_NAME rq token = false
  ∧ (is_locked portal_limiter now (portal_client_ip rq) username (po_redis s)).1 = Ok false
  ∧ ∃ cfg info, pa_ldap app = Some cfg
    ∧ auth_user cfg (strip username) password (po_directory s) = (Ok info, po_directory s').

(** The answer is no redirection, and no session was opened or changed. *)
Definition kept_out now (m : gmap str entry) (o : res response * portal R D DS DT W) : Prop :=
  (∀ resp, o.1 = Ok resp → rs_status resp ≠ 303) ∧ unchanged web_key now m o.2.

Lemma render_kept_out app now nonce rq random status m s :
  status ≠ 303 → unchanged web_key now m s → kept_out now m (render_login_page app now nonce rq random status s).
Proof.
  intros Hne Hu. split; [|by apply render_unchanged]. intros resp E.
  destruct (render_login_page app now nonce rq random status s) as [o s1] eqn:Er. cbn in E. subst o.
  by apply render_status in Er as [-> _].
Qed.

Lemma failed_kept_out app now nonce rq random username m s :
  unchanged web_key now m s → kept_out now m (login_failed app now nonce rq random username s).
Proof.
  intros Hu. split; [|by apply login_failed_unchanged]. intros resp E.
  destruct (login_failed app now nonce rq random username s) as [o s1] eqn:Er. cbn in E. subst o.
  by rewrite (login_failed_status _ _ _ _ _ _ _ _ _ Er).
Qed.

(** The one session that a login opens. *)
Definition other_sessions (sid_random : bytes) (k : str) : Prop := web_key k ∧ k ≠ WEB_SESSION (token_urlsafe sid_random).

Lemma other_sessions_ex sid_random : ex (other_sessions sid_random).
Proof.
  exists (WEB_SESSION (0%N :: token_urlsafe sid_random)). split; [by eexists|]. intros E.
  apply app_inv_head, (f_equal length) in E. simpl in E. lia.
Qed.

Lemma accepted_unchanged app now rq random sid_random aes_nonce username password info m :
  keeps (unchanged (D := D) (DS := DS) (DT := DT) (W := W) (other_sessions sid_random) now m)
    (login_accepted app now rq random sid_random aes_nonce username password info).
Proof.
  unfold login_accepted. apply keeps_bind.
  { apply unchanged_redis; [apply other_sessions_ex|]. intros k e [Hk _]. by apply calm_clear, web_no_limiter. }
  intros _. apply keeps_bind.
  { apply unchanged_redis; [apply other_sessions_ex|]. intros k e [_ Hk]. by apply create_web_session_calm. }
  intros sid. apply keeps_bind; [apply keeps_read|]. intros ?. apply keeps_ret.
Qed.

Lemma accepted_directory app now rq random sid_random aes_nonce username password info d :
  keeps (λ s : portal R D DS DT W, po_directory s = d)
    (login_accepted app now rq random sid_random aes_nonce username password info).
Proof.
  unfold login_accepted. apply keeps_bind; [by apply zoom_other|]. intros _. apply keeps_bind; [by apply zoom_other|].
  intros sid. apply keeps_bind; [apply keeps_read|]. intros ?. apply keeps_ret.
Qed.

(** The directory is asked: an exception is the answer [None]. *)
Lemma ask_directory {A} cfg username password (k : option LDAPUserInfo → io (portal R D DS DT W) A) s :
  (user_info ← io_try (info ← po_on_directory (auth_user cfg username password); mret (Some info)) (λ _, mret None);
   k user_info) s
  = let '(o, d) := auth_user cfg username password (po_directory s) in
    k (match o with Ok info => Some info | Err _ => None end)
      (Portal (po_redis s) (po_settings s) (po_servers s) (po_templates s) d).
Proof.
  rewrite io_bind_run. unfold io_try. rewrite io_bind_run. unfold po_on_directory, io_zoom.
  by destruct (auth_user cfg username password (po_directory s)) as [[info|e] d].
Qed.

(** A login opens its one session for a user who is let in, or none. *)
Lemma login_cases app now nonce rq random sid_random aes_nonce username password token s :
  alone (po_redis s) →
  let o := login app now nonce rq random sid_random aes_nonce username password token s in
  (let_in app now rq username password token s o.2
    ∧ unchanged (other_sessions sid_random) now (live now (w_store (po_redis s))) o.2)
  ∨ kept_out now (live now (w_store (po_redis s))) o.
Proof.
  intros Ha. cbv zeta. set (m := live now (w_store (po_redis s))).
  pose proof (unchanged_start web_key now s Ha) as Hu0. fold m in Hu0. unfold login.
  destruct (form_expired _ _ _) eqn:Ef; [right; by apply render_kept_out|].
  cbv zeta. rewrite io_bind_run. set (ask := is_locked portal_limiter now (portal_client_ip rq) username).
  pose proof (unchanged_redis (D := D) (DS := DS) (DT := DT) (W := W) web_key now m ask web_key_ex
    (λ k e _, calm_is_locked _ _ _ _ _ _) s Hu0) as Hu1.
  assert (∃ w, po_on_redis ask s = ((ask (po_redis s)).1, Portal w (po_settings s) (po_servers s) (po_templates s) (po_directory s)))
    as [w Ew] by (unfold po_on_redis, io_zoom; destruct (ask (po_redis s)); by eexists).
  rewrite Ew in Hu1 |- *.
  destruct (ask (po_redis s)).1 as [[]|e] eqn:El; [right; by apply render_kept_out| |right; split; [done | exact Hu1]].
  destruct (pa_ldap app) as [cfg|] eqn:Ecfg; [|right; by apply render_kept_out].
  rewrite ask_directory. cbn [po_redis po_settings po_servers po_templates po_directory].
  destruct (auth_user cfg (strip username) password (po_directory s)) as [[info|e] d'] eqn:Ea;
    [|right; exact (failed_kept_out app now nonce rq random username m
        (Portal w (po_settings s) (po_servers s) (po_templates s) d') Hu1)].
  left. split.
  - split; [done|]. split; [exact El|]. exists cfg, info. split; [done|]. rewrite Ea. f_equal. symmetry.
    exact (accepted_directory app now rq random sid_random aes_nonce username password info d'
      (Portal w (po_settings s) (po_servers s) (po_templates s) d') eq_refl).
  - apply (accepted_unchanged app now rq random sid_random aes_nonce username password info m).
    destruct Hu1 as [Hal Hu1]. split; [exact Hal|]. intros k [Hk _]. by apply Hu1.
Qed.

(** A password that the directory takes. *)
Lemma login_run app now nonce rq random sid_random aes_nonce username password token s r cfg info d' sid r1 :
  po_redis s = quiet r → form_expired CSRF_COOKIE_NAME rq token = false →
  is_locked portal_limiter now (portal_client_ip rq) username (quiet r) = (Ok false, quiet r) →
  pa_ldap app = Some cfg → auth_user cfg (strip username) password (po_directory s) = (Ok info, d') →
  create_web_session (pa_store app) now sid_random aes_nonce (li_username info) password (li_groups info) (li_group_guids info)
    (browser_fingerprint rq)
    (quiet (redis_delete now [fail_ip portal_limiter (portal_client_ip rq); fail_user portal_limiter (uname username)] r))
    = (Ok sid, quiet r1) →
  ∃ resp, login app now nonce rq random sid_random aes_nonce username password token s
      = (Ok resp, Portal (quiet r1) (po_settings s) (po_servers s) (po_templates s) d')
    ∧ rs_status resp = 303 ∧ ∃ age, (COOKIE_NAME, sid, age) ∈ rs_set_cookies resp.
Proof.
  intros Hs Hform Hlock Hcfg Hauth Hcreate. unfold login. rewrite Hform, io_bind_run.
  unfold po_on_redis at 1, io_zoom. rewrite Hs, Hlock, Hcfg, io_bind_run. unfold io_try. rewrite io_bind_run.
  unfold po_on_directory at 1, io_zoom. cbn [po_directory]. rewrite Hauth. unfold mret at 1, io_ret at 1.
  unfold login_accepted. rewrite io_bind_run. unfold po_on_redis at 1, io_zoom. cbn [po_redis]. unfold clear at 1.
  rewrite client_delete_alone by done. rewrite io_bind_run. unfold po_on_redis at 1, io_zoom. cbn [po_redis].
  change (with_store (quiet r) (redis_delete now [fail_ip portal_limiter (portal_client_ip rq); fail_user portal_limiter (uname username)] (w_store (quiet r))))
    with (quiet (redis_delete now [fail_ip portal_limiter (portal_client_ip rq); fail_user portal_limiter (uname username)] r)).
  rewrite Hcreate, io_bind_run. unfold io_get. eexists. split; [reflexivity|]. split; [done|]. eexists. constructor.
Qed.
End LoginLaws.

(** ** Properties *)

(** C25: the list and the download agree: the portal shows a user exactly the
    servers whose file it lets him download. *)
Theorem listing_agrees {DS : Type} `{!Table uuid RdpServer DS} `{!TableLaws uuid RdpServer DS} `{CaseMap} `{Collation}
    (groups : list str) (d : DS) (server_id : str) :
  constraints (rows d) →
  (∃ v, v ∈ list_visible_servers groups d ∧ vs_id v = server_id) ↔ is_ok (check_access server_id groups d) = true.
Proof.
  intros Hc. split.
  - intros (v & Hv & Hid). apply elem_visible in Hv as (k & r & Hr & He & Hvis & ->). cbn [vs_id show_server] in Hid.
    unfold check_access. by rewrite (find_server_row server_id d k r), He, Hvis.
  - destruct (check_access server_id groups d) as [r|e] eqn:E; [intros _|done].
    apply check_access_Ok in E as (Hf & He & Hv). apply find_server_Some in Hf as (k & Hr & Hn).
    exists (show_server r). split; [|done]. apply elem_visible. eauto 10.
Qed.


(** What the portal hands out, the relay accepts: the file of a download
    names the new token on its only [loadbalanceinfo] line, and for as long as the
    token lives the relay reads from it the user, his password and the server he
    chose. *)
Theorem download_connects {R D DS DT W : Type} `{RedisLaws R} `{!Table str PortalSetting D} `{!Table uuid RdpServer DS}
    `{!Table uuid RdpTemplate DT} `{AESGCMLaws} `{Config} `{Floats} `{PyText} `{CaseMap}
    (app : portal_app) (now t : Z) (nonce tok_random aes_nonce : bytes) (rq : request) (server_id : str)
    (s s1 : portal R D DS DT W) (session : WebSessionData) (server : RdpServer) :
  alone (po_redis s) → se_seeded (po_settings s) = true →
  get_current_session app now rq s = (Ok (Some session), s1) → text (ws_username session) → text (ws_password session) →
  check_access server_id (ws_group_guids session) (po_servers s1) = Ok server → row_fits server = true →
  ready (pa_store app) aes_nonce → 0 < rdp_token_ttl (pa_store app) → now <= t →
  (∀ tpl, tpl ∈ db_select (K := uuid) (λ _, true) (po_templates s1) → Forall tidy (t_params tpl)) →
  (∀ st host port, load (pa_manager app) now nonce (po_settings s1) = (Ok tt, st) →
     field_of (u "public_host") (proxy_params (pa_manager app) st) = Ok host →
     field_of (u "public_port") (proxy_params (pa_manager app) st) = Ok port → one_line (py_str host) ∧ one_line (py_str port)) →
  ∃ file s', rdp_download app now nonce no_outage rq tok_random aes_nonce server_id s = (Ok file, s')
    ∧ List.filter (starts_with (u "loadbalanceinfo" ++ [58%N])) (split_on newline (dl_content file))
      = [u "loadbalanceinfo:s:" ++ token_urlsafe tok_random]
    ∧ get_session (pa_store app) t (token_urlsafe tok_random) (po_redis s')
      = (Ok (if t <=? now + 1000 * rdp_token_ttl (pa_store app)
             then Some {| sd_token := token_urlsafe tok_random; sd_username := ws_username session;
                          sd_target_host := s_address server; sd_target_port := s_port server;
                          sd_password := ws_password session; sd_fingerprint := JNull;
                          sd_server_id := JStr (uuid_str (s_id server)); sd_server_display := JStr (s_display_name server) |}
             else None), po_redis s').
Proof.
  intros Ha Hseed Es Hu Hp Hacc Hfits Hready Httl Ht Htidy Hline.
  pose proof (session_frame app now rq s) as [Hset _]. rewrite Es in Hset. cbn [snd] in Hset.
  destruct (rdp_download_run app now nonce rq tok_random aes_nonce server_id s session s1 Es) as (st & host & port & El & Eh & Ep & ->);
    [by rewrite Hset|]. rewrite Hacc, (session_quiet app now rq s session s1 Ha Es).
  set (r := w_store (po_redis s1)).
  cbn [row_fits server_schema] in Hfits. rewrite !andb_true_iff in Hfits. destruct Hfits as [[[[_ Hd] Haddr] Hport] _].
  assert (∀ n x, text_fits n x = true → text x) as Htext.
  { intros n x Hx. unfold text_fits in Hx. rewrite !andb_true_iff in Hx. apply scalar_b_spec. tauto. }
  destruct (token_session_roundtrip (pa_store app) r now t (s_port server) tok_random aes_nonce (ws_username session) (ws_password session)
    (s_address server) (Some (uuid_str (s_id server))) (Some (s_display_name server))) as (r' & -> & Hget); try done.
  { by apply (Htext 255%nat). }
  { by apply int32_small. }
  { apply uuid_text. }
  { by apply (Htext 255%nat). }
  eexists _, _. split; [reflexivity|]. cbn [dl_content po_redis]. split; [|exact Hget].
  destruct (Hline st host port El Eh Ep) as [Hh Hpt].
  by apply file_names_token.
Qed.

(** C3: no login without the directory: a portal session is opened, and the
    answer is the redirection of a login, only when the form's field equals the
    form cookie and is not empty (the double submit: both are the client's), the
    address and the name are not locked, and the directory accepted the password for
    the entry it found for the name. Every other request, whatever it raises, leaves
    all portal sessions in Redis as they were; a login that is let in touches none
    but the one it opens. *)
Theorem portal_login_sound {R D DS DT W Conn : Type} `{RedisLaws R} `{!Table str PortalSetting D} `{LdapLaws W Conn} `{AESGCM}
    `{Config} `{Floats} `{CaseMap} (app : portal_app) (now : Z) (nonce random sid_random aes_nonce : bytes) (rq : request)
    (username password csrf_token : str) (s : portal R D DS DT W) :
  alone (po_redis s) →
  let o := login app now nonce rq random sid_random aes_nonce username password csrf_token s in
  let sessions s' sid := live now (w_store (po_redis s')) !! WEB_SESSION sid in
  (rq_cookies rq CSRF_COOKIE_NAME = Some csrf_token ∧ csrf_token ≠ []
   ∧ (is_locked portal_limiter now (portal_client_ip rq) username (po_redis s)).1 = Ok false
   ∧ (∃ cfg info, pa_ldap app = Some cfg
      ∧ vouched cfg (strip username) password info (ldap_trace (po_directory s)) (po_directory o.2))
   ∧ ∀ sid, sid ≠ token_urlsafe sid_random → sessions o.2 sid = sessions s sid)
  ∨ (∀ resp, o.1 = Ok resp → rs_status resp ≠ 303) ∧ ∀ sid, sessions o.2 sid = sessions s sid.
Proof.
  intros Ha. destruct (login_cases app now nonce rq random sid_random aes_nonce username password csrf_token s Ha)
    as [[(Hf & Hl & cfg & info & Hc & Hau) [_ Hk]]|[Hr [_ Hk]]]; [left | right].
  - apply form_expired_false in Hf as [Hf Hne]. split; [done|]. split; [done|]. split; [done|]. split.
    + exists cfg, info. split; [done|]. by apply authenticate_vouched.
    + intros sid Hsid. apply Hk. split; [by exists sid|]. intros E. by apply app_inv_head in E.
  - split; [done|]. intros sid. apply Hk. by exists sid.
Qed.


(** ** A portal for the witnesses *)

#[local] Existing Instance ascii_lower.

(** The order of code points. *)
Fixpoint code_point_le (a b : str) : bool :=
  match a, b with
  | [], _ => true
  | _ :: _, [] => false
  | x :: a', y :: b' => if (x <? y)%N then true else (x =? y)%N && code_point_le a' b'
  end.
#[export] Instance ascii_collation : Collation := {| text_le := code_point_le; sql_lower := ascii_lower |}.

Definition demo_portal_app : portal_app := {|
  pa_cfg := default_config [] (u "00"); pa_store := demo_store; pa_manager := demo_manager;
  pa_ldap := Some (demo_ldap (u "ldaps")) |}.
Definition demo_server : RdpServer := {|
  s_id := 3%N; s_tech_name := u "acc-1"; s_display_name := u "Accounting"; s_address := u "10.0.0.5"; s_port := 3389;
  s_is_enabled := true; s_sort_order := 1; s_groups := [5%N] |}.
Definition demo_servers : gmap uuid RdpServer := {[ 3%N := demo_server ]}.
Definition demo_templates : gmap uuid RdpTemplate := {[ 1%N := demo_template [(u "full address", JStr (u "evil"))] ]}.
Abbreviation demo_state := (portal store (gmap str PortalSetting) (gmap uuid RdpServer) (gmap uuid RdpTemplate) directory).
Definition demo_portal : demo_state := Portal (quiet ∅) demo_settings demo_servers demo_templates demo_directory.

Definition demo_browser (cookies : list (str * str)) : request :=
  let look l k := snd <$> List.find (λ kv : str * str, bool_decide (kv.1 = k)) l in
  Request (u "POST") (u "/login") (look [(u "user-agent", u "Firefox")]) (look cookies) (Some (u "203.0.113.7")) None.
Definition demo_form : request := demo_browser [(CSRF_COOKIE_NAME, u "c")].
Definition demo_visit : request := demo_browser [(COOKIE_NAME, token_urlsafe demo_random)].

Definition demo_login : res response * demo_state :=
  login demo_portal_app 1000 [] demo_form [] demo_random demo_nonce (u "ivan") (u "p@ss") (u "c") demo_portal.
Definition demo_response : response :=
  Response 303 (Some (u "/")) [(COOKIE_NAME, token_urlsafe demo_random, 28800); (CSRF_COOKIE_NAME, token_urlsafe [], 600)] [].
Definition demo_visited : res (option WebSessionData) * demo_state :=
  get_current_session demo_portal_app 5000 demo_visit demo_login.2.
Definition demo_web_session : WebSessionData := {|
  ws_session_id := token_urlsafe demo_random; ws_username := u "ivan"; ws_groups := [u "CN=ivan,DC=x"];
  ws_group_guids := [uuid_str 5%N]; ws_password := u "p@ss" |}.

Lemma demo_login_ok : demo_login = (Ok demo_response, demo_login.2).
Proof. rewrite (surjective_pairing demo_login) at 1. f_equal. Qed.

Lemma demo_visited_ok : demo_visited = (Ok (Some demo_web_session), demo_visited.2).
Proof. rewrite (surjective_pairing demo_visited) at 1. f_equal. Qed.

Lemma listing_agrees_witness :
  (∃ v, v ∈ list_visible_servers [uuid_str 5%N] demo_servers ∧ vs_id v = u "acc-1")
  ↔ is_ok (check_access (u "acc-1") [uuid_str 5%N] demo_servers) = true.
Proof.
  apply (listing_agrees [uuid_str 5%N] demo_servers (u "acc-1")).
  change (rows demo_servers) with demo_servers. unfold demo_servers. split.
  - unfold unique_on. apply map_Forall_singleton, map_Forall_singleton. reflexivity.
  - apply map_Forall_singleton. apply NoDup_singleton.
Defined.

Definition demo_db_down : outage := {| no_settings := None; no_server := None; no_templates := Some OtherError |}.


Lemma download_connects_witness :
  ∃ file s', rdp_download demo_portal_app 5000 [] no_outage demo_visit demo_random demo_nonce (u "acc-1") demo_login.2 = (Ok file, s')
    ∧ List.filter (starts_with (u "loadbalanceinfo" ++ [58%N])) (split_on newline (dl_content file))
      = [u "loadbalanceinfo:s:" ++ token_urlsafe demo_random]
    ∧ get_session (pa_store demo_portal_app) 60000 (token_urlsafe demo_random) (po_redis s')
      = (Ok (if 60000 <=? 5000 + 1000 * rdp_token_ttl (pa_store demo_portal_app)
             then Some {| sd_token := token_urlsafe demo_random; sd_username := ws_username demo_web_session;
                          sd_target_host := s_address demo_server; sd_target_port := s_port demo_server;
                          sd_password := ws_password demo_web_session; sd_fingerprint := JNull;
                          sd_server_id := JStr (uuid_str (s_id demo_server)); sd_server_display := JStr (s_display_name demo_server) |}
             else None), po_redis s').
Proof.
  apply (download_connects demo_portal_app 5000 60000 [] demo_random demo_nonce demo_visit (u "acc-1") demo_login.2
    demo_visited.2 demo_web_session demo_server).
  - vm_compute. reflexivity.
  - vm_compute. reflexivity.
  - exact demo_visited_ok.
  - apply scalar_b_spec. vm_compute. reflexivity.
  - apply scalar_b_spec. vm_compute. reflexivity.
  - vm_compute. reflexivity.
  - vm_compute. reflexivity.
  - split; reflexivity.
  - reflexivity.
  - discriminate.
  - assert (po_templates demo_visited.2 = demo_templates) as -> by (vm_compute; reflexivity).
    intros tpl (k & Hk & _)%elem_of_db_select. change (demo_templates !! k = Some tpl) in Hk.
    unfold demo_templates in Hk. apply lookup_singleton_Some in Hk as [_ <-]. apply Forall_singleton. apply tidy_named; plain.
  - assert (po_settings demo_visited.2 = demo_settings) as -> by (vm_compute; reflexivity).
    intros st host port E Eh Ep. vm_compute in E. injection E as <-. vm_compute in Eh, Ep.
    injection Eh as <-. injection Ep as <-. split; unfold one_line; plain.
Defined.

Lemma portal_login_sound_witness :
  let o := login demo_portal_app 1000 [] demo_form [] demo_random demo_nonce (u "ivan") (u "p@ss") (u "c") demo_portal in
  let sessions s' sid := live 1000 (w_store (po_redis s')) !! WEB_SESSION sid in
  (rq_cookies demo_form CSRF_COOKIE_NAME = Some (u "c") ∧ u "c" ≠ []
   ∧ (is_locked portal_limiter 1000 (portal_client_ip demo_form) (u "ivan") (po_redis demo_portal)).1 = Ok false
   ∧ (∃ cfg info, pa_ldap demo_portal_app = Some cfg
      ∧ vouched cfg (strip (u "ivan")) (u "p@ss") info (ldap_trace (po_directory demo_portal)) (po_directory o.2))
   ∧ ∀ sid, sid ≠ token_urlsafe demo_random → sessions o.2 sid = sessions demo_portal sid)
  ∨ (∀ resp, o.1 = Ok resp → rs_status resp ≠ 303) ∧ ∀ sid, sessions o.2 sid = sessions demo_portal sid.
Proof.
  apply (portal_login_sound demo_portal_app 1000 [] [] demo_random demo_nonce demo_form (u "ivan") (u "p@ss") (u "c")
    demo_portal); reflexivity.
Defined.

Close Scope Z_scope.
