(* ===== verification/Accounts.v ===== *)
(** Administrator accounts: the gate every administration route passes
    ([services/admin/dependencies.py]), login, logout and the change of the
    password ([services/admin/routes/auth.py]), the accounts themselves
    ([services/admin/routes/admin_users.py]), and the first account
    ([services/portal/app.py]). A handler runs at one instant against the
    shared Redis and one transaction of the database; [argon2] is a parameter. *)

From stdpp Require Import prelude gmap list strings.
From Stdlib Require Import ZArith Lia.
From Stdlib Require Strings.String.
From S2P Require Import Prelude PySeq PyBytes PyStr Json Encodings PyUuid PyIp Redis Keys LoginLimiter Encryption Sessions Database Models Config Http.

Open Scope Z_scope.

(** [argon2.PasswordHasher]: hashing with a random salt; verification answers,
    or raises when the stored text is not a hash. *)
Class PasswordHasher : Type := {
  argon2_hash : bytes → str → res str;
  argon2_verify : str → str → res bool;
}.
Class PasswordHasherLaws `{PasswordHasher} : Prop := {
  argon2_verify_hash salt p h : argon2_hash salt p = Ok h → argon2_verify h p = Ok true;
}.

(** The process: its configuration and its session store. *)
Record admin_app : Type := { app_cfg : AppConfig; app_store : SessionStore }.

(** What the administration shares: Redis, and tables. *)
Record panel (R D : Type) : Type := Panel { pn_redis : world R; pn_db : D }.
Arguments Panel {R D}. Arguments pn_redis {R D}. Arguments pn_db {R D}.

Definition panel_redis {R D A} (m : io (world R) A) : io (panel R D) A :=
  io_zoom pn_redis (λ w p, Panel w (pn_db p)) m.
Definition panel_db {R D A} (m : io D A) : io (panel R D) A :=
  io_zoom pn_db (λ d p, Panel (pn_redis p) d) m.
(** [async with factory() as session] with a commit at the end. *)
Definition transaction {R D A} (m : io D A) : io (panel R D) A := panel_db (io_transaction m).

(** ** The gate *)

Fixpoint ip_in_any (addr : ip_addr) (ip_str : str) (networks : list str) : bool :=
  match networks with
  | [] => false
  | net_str :: rest =>
      match ip_network_of net_str with
      | Some net => if in_network addr net then true else ip_in_any addr ip_str rest
      | None => if bool_decide (ip_str = net_str) then true else ip_in_any addr ip_str rest
      end
  end.
Definition ip_in_networks (ip_str : str) (networks : list str) : bool :=
  match ip_address ip_str with
  | None => false
  | Some addr => ip_in_any addr ip_str networks
  end.

Definition allowed_from (ip : str) (networks : list str) : bool :=
  match networks with [] => true | _ => ip_in_networks ip networks end.

Section Gate.
Context {R : Type} `{Redis R} `{AESGCM}.

Definition require_admin (app : admin_app) now (rq : request) : io (world R) AdminWebSessionData :=
  match rq_cookies rq ADMIN_COOKIE_NAME with
  | Some (c :: sid) =>
      sess ← get_admin_web_session (app_store app) now (c :: sid) (admin_browser_fingerprint rq);
      match sess with
      | None => io_raise (HTTPException 401)
      | Some sess =>
          let client_ip := admin_client_ip rq in
          if negb (allowed_from client_ip (ad_allowed_networks (c_admin (app_cfg app))))
          then io_raise (HTTPException 403)
          else
            user_ips ← io_lift (str_list (as_allowed_ips sess));
            if negb (allowed_from client_ip user_ips) then io_raise (HTTPException 403)
            else mret sess
      end
  | _ => io_raise (HTTPException 401)
  end.

Definition get_admin_session_optional (app : admin_app) now (rq : request) : io (world R) (option AdminWebSessionData) :=
  match rq_cookies rq ADMIN_COOKIE_NAME with
  | Some (c :: sid) => get_admin_web_session (app_store app) now (c :: sid) (admin_browser_fingerprint rq)
  | _ => mret None
  end.

(** A route with [Depends(require_admin)]. *)
Definition authorised {D A} (app : admin_app) now (rq : request)
    (handler : AdminWebSessionData → io (panel R D) A) : io (panel R D) A :=
  admin ← panel_redis (require_admin app now rq); handler admin.
End Gate.

(** ** Passwords *)

Section Accounts.
Context {R D : Type} `{Redis R} `{!Table uuid AdminUser D} `{AESGCM} `{CaseMap} `{Collation} `{PasswordHasher}.
Implicit Types (app : admin_app) (now : Z) (rq : request).

Definition hash_password (salt : bytes) (plain : str) : res str := argon2_hash salt plain.
Definition verify_password (password_hash plain : str) : res bool := argon2_verify password_hash plain.

(** ** Login *)

Definition login_page_response (app : admin_app) rq (random : bytes) (status : Z) : response :=
  Response status None
    [(ADMIN_CSRF_COOKIE_NAME, str_or (rq_cookies rq ADMIN_CSRF_COOKIE_NAME) (token_urlsafe random), 600)] [].

(** [GET /login] *)
Definition login_page app now rq (random : bytes) : io (panel R D) response :=
  match rq_cookies rq ADMIN_COOKIE_NAME with
  | Some (c :: sid) =>
      sess ← panel_redis (get_admin_web_session (app_store app) now (c :: sid) (admin_browser_fingerprint rq));
      match sess with
      | Some s =>
          if negb (as_must_change_password s)
          then mret (Response 303 (Some (u "/admin/dashboard")) [] [])
          else mret (login_page_response app rq random 200)
      | None => mret (login_page_response app rq random 200)
      end
  | _ => mret (login_page_response app rq random 200)
  end.

Definition with_login (now : Z) (r : AdminUser) : AdminUser :=
  {| a_id := a_id r; a_username := a_username r; a_password_hash := a_password_hash r; a_is_active := a_is_active r;
     a_must_change_password := a_must_change_password r; a_allowed_ips := a_allowed_ips r; a_last_login_at := Some now |}.

(** The account that a name and a password open. *)
Definition find_user (uname : str) (d : D) : option AdminUser :=
  head (db_select (K := uuid) (λ r, bool_decide (sql_lower (a_username r) = lower uname)) d).

Definition check_login (username password : str) : io D (option AdminUser) :=
  d ← io_get;
  match find_user (strip username) d with
  | None => mret None
  | Some user =>
      if negb (a_is_active user) then mret None
      else
        ok ← io_lift (verify_password (a_password_hash user) password);
        mret (if ok : bool then Some user else None)
  end.

Definition touch_login now (user : AdminUser) : io D unit :=
  _ ← db_update (K := uuid) (λ r, bool_decide (a_id r = a_id user)) (with_login now); mret tt.

(** [user.allowed_ips or []] *)
Definition allowed_list (user : AdminUser) : res (list str) :=
  if truthy (a_allowed_ips user) then str_list (a_allowed_ips user) else Ok [].

(** [POST /login] *)
Definition login_submit app now rq (random sid_random : bytes) (username password csrf_token : str) : io (panel R D) response :=
  if form_expired ADMIN_CSRF_COOKIE_NAME rq csrf_token then mret (login_page_response app rq random 400)
  else
    let ip := admin_client_ip rq in
    locked ← panel_redis (is_locked admin_limiter now ip username);
    if locked : bool then mret (login_page_response app rq random 429)
    else
      user ← transaction (
        user ← check_login username password;
        match user with Some user => _ ← touch_login now user; mret (Some user) | None => mret None end);
      match user with
      | None =>
          _ ← panel_redis (record_failure admin_limiter now ip username
                 (sc_login_attempts_per_minute (c_security (app_cfg app))) (sc_login_lock_seconds (c_security (app_cfg app))));
          mret (login_page_response app rq random 401)
      | Some user =>
          ips ← io_lift (allowed_list user);
          _ ← panel_redis (clear admin_limiter now ip username);
          sid ← panel_redis (create_admin_web_session (app_store app) now sid_random (uuid_str (a_id user)) (a_username user)
                   (a_must_change_password user) (admin_browser_fingerprint rq) ips);
          mret (Response 303 (Some (if a_must_change_password user then u "/admin/change-password" else u "/admin/dashboard"))
                  [(ADMIN_COOKIE_NAME, sid, rc_web_session_ttl (c_redis (app_cfg app)));
                   (ADMIN_CSRF_COOKIE_NAME, token_urlsafe random, 600)] [])
      end.

(** [GET /logout] *)
Definition logout now rq : io (panel R D) response :=
  _ ← match rq_cookies rq ADMIN_COOKIE_NAME with
      | Some (c :: sid) => panel_redis (delete_admin_web_session now (c :: sid))
      | _ => mret tt
      end;
  mret (Response 303 (Some (u "/admin/login")) [] [ADMIN_COOKIE_NAME; ADMIN_CSRF_COOKIE_NAME]).

(** ** Change of the password *)

Definition with_password (hash : str) (must_change : bool) (r : AdminUser) : AdminUser :=
  {| a_id := a_id r; a_username := a_username r; a_password_hash := hash; a_is_active := a_is_active r;
     a_must_change_password := must_change; a_allowed_ips := a_allowed_ips r; a_last_login_at := a_last_login_at r |}.

Definition set_user (id : uuid) (f : AdminUser → AdminUser) : io D unit :=
  _ ← db_update (K := uuid) (λ r, bool_decide (a_id r = id)) f; mret tt.

(** [GET /change-password] *)
Definition change_password_page rq (random : bytes) : response :=
  Response 200 None
    [(ADMIN_CSRF_COOKIE_NAME, str_or (rq_cookies rq ADMIN_CSRF_COOKIE_NAME) (token_urlsafe random), 600)] [].

(** [POST /change-password]: the status of the page, or [303]. *)
Definition change_password_submit now rq (salt : bytes) (current_password new_password new_password2 csrf_token : str)
    (admin : AdminWebSessionData) : io (panel R D) Z :=
  if form_expired ADMIN_CSRF_COOKIE_NAME rq csrf_token then mret 400
  else if negb (bool_decide (new_password = new_password2)) then mret 400
  else if (length new_password <? 8)%nat then mret 400
  else
    changed ← transaction (
      id ← io_lift (uuid_of_str (as_admin_user_id admin));
      d ← io_get;
      match db_get id d with
      | None => io_raise (HTTPException 404)
      | Some user =>
          ok ← io_lift (verify_password (a_password_hash user) current_password);
          if negb ok then mret false
          else
            hash ← io_lift (hash_password salt new_password);
            _ ← set_user id (with_password hash false);
            mret true
      end);
    if negb changed then mret 401
    else
      _ ← panel_redis (update_admin_must_change now (as_session_id admin) false);
      mret 303.

(** ** The accounts *)

Record AdminUserOut : Type := {
  ao_id : str; ao_username : str; ao_is_active : bool; ao_must_change_password : bool;
  ao_allowed_ips : json; ao_last_login_at : option str }.
Definition user_out (r : AdminUser) : AdminUserOut :=
  {| ao_id := uuid_str (a_id r); ao_username := a_username r; ao_is_active := a_is_active r;
     ao_must_change_password := a_must_change_password r;
     ao_allowed_ips := if truthy (a_allowed_ips r) then a_allowed_ips r else JList [];
     ao_last_login_at := iso_utc <$> a_last_login_at r |}.

(** A body that validation refuses is answered with [422]. *)
Definition valid_body (b : bool) : io D unit := if b then mret tt else io_raise (HTTPException 422).
Definition valid_ips (l : list str) : bool := forallb (λ v, if ip_network_of v is Some _ then true else false) l.
Definition between (lo hi n : nat) : bool := (lo <=? n)%nat && (n <=? hi)%nat.

Record AdminUserCreate : Type := { cr_username : str; cr_password : str; cr_is_active : bool; cr_allowed_ips : list str }.
Definition create_valid (b : AdminUserCreate) : bool :=
  between 1 128 (length (cr_username b)) && between 8 256 (length (cr_password b)) && valid_ips (cr_allowed_ips b).

Record AdminUserUpdate : Type := { up_is_active : option bool; up_allowed_ips : option (list str) }.
Definition update_valid (b : AdminUserUpdate) : bool := from_option valid_ips true (up_allowed_ips b).

Definition list_admin_users : io D (list AdminUserOut) :=
  d ← io_get;
  mret (map user_out (sorted_by (λ a b, text_le (a_username a) (a_username b)) (db_select (K := uuid) (λ _, true) d))).

Definition create_admin_user (new_id : uuid) (salt : bytes) (b : AdminUserCreate) : io D AdminUserOut :=
  io_transaction (
    _ ← valid_body (create_valid b);
    d ← io_get;
    let name := strip (cr_username b) in
    match db_select (K := uuid) (λ r, bool_decide (sql_lower (a_username r) = lower name)) d with
    | _ :: _ => io_raise (HTTPException 409)
    | [] =>
        hash ← io_lift (hash_password salt (cr_password b));
        let row := {| a_id := new_id; a_username := name; a_password_hash := hash; a_is_active := cr_is_active b;
                      a_must_change_password := false; a_allowed_ips := JList (map JStr (cr_allowed_ips b));
                      a_last_login_at := None |} in
        _ ← db_insert (K := uuid) row;
        mret (user_out row)
    end).

Definition user_id_of (user_id : str) : io D uuid :=
  match uuid_of_str user_id with Ok id => mret id | Err _ => io_raise (HTTPException 400) end.
Definition load_user (id : uuid) : io D AdminUser :=
  d ← io_get; match db_get id d with Some r => mret r | None => io_raise (HTTPException 404) end.
Definition active_count (d : D) : nat := length (db_select (K := uuid) a_is_active d).

(** The checks of an update or a removal, which see the table as it is then. *)
Definition check_disable (id : uuid) (admin_id : str) (disable : bool) (r : AdminUser) : io D unit :=
  if disable && a_is_active r then
    if bool_decide (uuid_str id = admin_id) then io_raise (HTTPException 400)
    else
      d ← io_get;
      if (active_count d <=? 1)%nat then io_raise (HTTPException 400) else mret tt
  else mret tt.

Definition updated (b : AdminUserUpdate) (r : AdminUser) : AdminUser :=
  {| a_id := a_id r; a_username := a_username r; a_password_hash := a_password_hash r;
     a_is_active := default (a_is_active r) (up_is_active b);
     a_must_change_password := a_must_change_password r;
     a_allowed_ips := from_option (λ l, JList (map JStr l)) (a_allowed_ips r) (up_allowed_ips b);
     a_last_login_at := a_last_login_at r |}.

Definition check_update (user_id admin_id : str) (b : AdminUserUpdate) : io D (uuid * AdminUser) :=
  _ ← valid_body (update_valid b);
  id ← user_id_of user_id;
  r ← load_user id;
  _ ← check_disable id admin_id (bool_decide (up_is_active b = Some false)) r;
  mret (id, r).

Definition update_admin_user (user_id admin_id : str) (b : AdminUserUpdate) : io D AdminUserOut :=
  io_transaction (
    found ← check_update user_id admin_id b;
    _ ← set_user found.1 (updated b);
    mret (user_out (updated b found.2))).

Definition reset_admin_password (user_id : str) (salt : bytes) (new_password : str) : io D unit :=
  io_transaction (
    _ ← valid_body (between 8 256 (length new_password));
    id ← user_id_of user_id;
    _ ← load_user id;
    hash ← io_lift (hash_password salt new_password);
    set_user id (with_password hash true)).

Definition check_delete (user_id admin_id : str) : io D uuid :=
  id ← user_id_of user_id;
  _ ← (if bool_decide (uuid_str id = admin_id) then io_raise (HTTPException 400) else mret tt);
  r ← load_user id;
  d ← io_get;
  _ ← (if a_is_active r && (active_count d <=? 1)%nat then io_raise (HTTPException 400) else mret tt);
  mret id.

Definition delete_admin_user (user_id admin_id : str) : io D unit :=
  io_transaction (
    id ← check_delete user_id admin_id;
    _ ← db_delete (K := uuid) (λ r, bool_decide (a_id r = id));
    mret tt).

(** ** The first account *)

(** [_bootstrap_default_admin] *)
Definition bootstrap_default_admin (new_id : uuid) (salt : bytes) : io D unit :=
  io_transaction (
    d ← io_get;
    match db_select (K := uuid) (λ _, true) d with
    | _ :: _ => mret tt
    | [] =>
        hash ← io_lift (hash_password salt (u "admin"));
        db_insert (K := uuid) {| a_id := new_id; a_username := u "admin"; a_password_hash := hash; a_is_active := true;
          a_must_change_password := true; a_allowed_ips := JList []; a_last_login_at := None |}
    end).
End Accounts.

(** ** Lemmas on the accounts *)

Section AccountLaws.
Context {R D : Type} `{RedisLaws R} `{!Table uuid AdminUser D} `{!TableLaws uuid AdminUser D}
  `{AESGCM} `{CaseMap} `{Collation} `{PasswordHasher}.
Implicit Types (d : D) (b : AdminUserUpdate).

(** Rows are under their keys, and an account that may administer is left. *)
Definition manned d : Prop :=
  keyed (rows d) ∧ ∃ k r, rows d !! k = Some r ∧ a_is_active r = true.

Definition activity_kept (f : AdminUser → AdminUser) : Prop :=
  ∀ r, a_id (f r) = a_id r ∧ (a_is_active r = true → a_is_active (f r) = true).

Lemma admin_constraints_decidable (m : gmap uuid AdminUser) : Decision (constraints m).
Proof. apply admin_user_constraints_dec. Defined.

Lemma manned_set_user id f : activity_kept f → keeps manned (set_user id f).
Proof.
  intros Hf d [Hk (k & r & Hr & Ha)]. unfold set_user. rewrite io_bind_run.
  destruct (db_update_cases (λ r, bool_decide (a_id r = id)) f d admin_constraints_decidable (λ r, proj1 (Hf r)))
    as [(n & d' & -> & E)|[e ->]]; [|by split; [|exists k, r]]. simpl. unfold manned. rewrite E. split.
  - apply keyed_update; [done | apply Hf].
  - exists k. rewrite lookup_update_rows, Hr. simpl. eexists. split; [done|].
    destruct (bool_decide _); [by apply Hf | done].
Qed.

(** Taking the rights of one account away when two have them. *)
Lemma manned_without id f d :
  (∀ r, a_id (f r) = a_id r) → keyed (rows d) → (2 <= active_count d)%nat → manned (set_user id f d).2.
Proof.
  intros Hf Hk Hc. destruct (select_another a_is_active d id Hc) as (k & r & Hne & Hr & Ha).
  unfold set_user. rewrite io_bind_run.
  destruct (db_update_cases (λ r, bool_decide (a_id r = id)) f d admin_constraints_decidable Hf)
    as [(n & d' & -> & E)|[e ->]]; [|by split; [|exists k, r]]. simpl. unfold manned. rewrite E. split.
  - by apply keyed_update.
  - exists k, r. split; [|done]. rewrite lookup_update_rows, Hr. simpl.
    rewrite bool_decide_eq_false_2; [done|]. intros Hid. apply Hne. rewrite <- Hid. symmetry. by apply (Hk k r).
Qed.

Lemma manned_deleted id d :
  keyed (rows d) → (2 <= active_count d)%nat →
  manned (db_delete (K := uuid) (λ r, bool_decide (a_id r = id)) d).2.
Proof.
  intros Hk Hc. destruct (select_another a_is_active d id Hc) as (k & r & Hne & Hr & Ha).
  destruct (delete_law (λ r, bool_decide (a_id r = id)) d) as (d' & -> & E). simpl. unfold manned. rewrite E. split.
  - by apply keyed_reject.
  - exists k, r. split; [|done]. rewrite lookup_reject_rows, Hr. simpl.
    rewrite bool_decide_eq_false_2; [done|]. intros Hid. apply Hne. rewrite <- Hid. symmetry. by apply (Hk k r).
Qed.

(** The checks read only. *)
Lemma reads_valid (b : bool) : ∀ d : D, (valid_body b d).2 = d.
Proof. by destruct b. Qed.

Lemma check_disable_run id admin_id disable r d :
  ∃ res, check_disable id admin_id disable r d = (res, d)
    ∧ (res = Ok tt → disable = true → a_is_active r = true → uuid_str id ≠ admin_id ∧ (2 <= active_count d)%nat).
Proof.
  unfold check_disable. destruct disable, (a_is_active r); simpl; try by eexists.
  case_bool_decide as E; [by eexists|]. unfold_io.
  destruct (Nat.leb_spec (active_count d) 1) as [Hc|Hc]; eexists; (split; [done|]); [done|].
  intros _ _ _. split; [done|]. simpl in *. lia.
Qed.

Lemma check_update_run user_id admin_id b d :
  ∃ res, check_update user_id admin_id b d = (res, d)
    ∧ ∀ id r, res = Ok (id, r) →
        uuid_of_str user_id = Ok id ∧ rows d !! id = Some r ∧ update_valid b = true
        ∧ (up_is_active b = Some false → a_is_active r = true → uuid_str id ≠ admin_id ∧ (2 <= active_count d)%nat).
Proof.
  unfold check_update, valid_body, user_id_of, load_user. destruct (update_valid b) eqn:Ev; [|by eexists].
  unfold_io. destruct (uuid_of_str user_id) as [id|e]; [|by eexists]. rewrite get_law.
  destruct (rows d !! id) as [r|] eqn:Er; [|by eexists].
  destruct (check_disable_run id admin_id (bool_decide (up_is_active b = Some false)) r d) as ([[]|e] & -> & Hc); [|by eexists].
  eexists. split; [done|]. intros id' r' [= <- <-]. split; [done|]. split; [exact Er|]. split; [done|].
  intros Hf Ha. apply Hc; [done | by apply bool_decide_eq_true | done].
Qed.

(** An account without rights may change as it likes. *)
Lemma manned_set_user_idle id f r d :
  (∀ r, a_id (f r) = a_id r) → rows d !! id = Some r → a_is_active r = false → manned d → manned (set_user id f d).2.
Proof.
  intros Hf Hid Hidle [Hk (k & r' & Hr & Ha)]. unfold set_user. rewrite io_bind_run.
  destruct (db_update_cases (λ r, bool_decide (a_id r = id)) f d admin_constraints_decidable Hf)
    as [(n & d' & -> & E)|[e ->]]; [|by split; [|exists k, r']]. simpl. unfold manned. rewrite E. split.
  - by apply keyed_update.
  - exists k, r'. split; [|done]. rewrite lookup_update_rows, Hr. simpl.
    rewrite bool_decide_eq_false_2; [done|]. intros Heq. pose proof (Hk k r' Hr) as Hkey. simpl in Hkey.
    assert (k = id) as -> by congruence. congruence.
Qed.

Lemma manned_update user_id admin_id b : keeps manned (update_admin_user user_id admin_id b).
Proof.
  apply keeps_transaction. intros d Hd. rewrite io_bind_run.
  destruct (check_update_run user_id admin_id b d) as ([[id r]|e] & -> & Hc); [|done].
  destruct (Hc id r eq_refl) as (_ & Hr & _ & Hdis). clear Hc. rewrite io_bind_run. cbn [fst].
  assert (manned (set_user id (updated b) d).2) as Hm.
  { destruct (up_is_active b) as [[]|] eqn:Eb.
    - apply (manned_set_user id); [|done]. intros r'. unfold updated. simpl. rewrite Eb. done.
    - destruct (a_is_active r) eqn:Ea.
      + apply manned_without; [done | apply Hd | by apply Hdis].
      + apply (manned_set_user_idle id (updated b) r d); done.
    - apply (manned_set_user id); [|done]. intros r'. unfold updated. simpl. by rewrite Eb. }
  by destruct (set_user id (updated b) d) as [[[]|e] d'].
Qed.

Lemma manned_insert r : keeps manned (db_insert (K := uuid) r).
Proof.
  intros d [Hk (k & r' & Hr & Ha)].
  destruct (db_insert_cases r d admin_constraints_decidable) as [(d' & -> & E & Hn)|[e ->]]; [|by split; [|exists k, r']].
  simpl. unfold manned. rewrite E. split; [by apply keyed_insert|].
  exists k, r'. split; [|done]. rewrite lookup_insert_ne; [done|]. intros <-. congruence.
Qed.

(** The checks that change nothing keep anything. *)
Lemma keeps_valid (I : D → Prop) (c : bool) : keeps I (valid_body (D := D) c).
Proof. destruct c; [apply keeps_ret | apply keeps_raise]. Qed.

Lemma keeps_id (I : D → Prop) user_id : keeps I (user_id_of (D := D) user_id).
Proof. unfold user_id_of. destruct (uuid_of_str user_id); [apply keeps_ret | apply keeps_raise]. Qed.

Lemma keeps_load (I : D → Prop) id : keeps I (load_user (D := D) id).
Proof. apply keeps_get. intros d Hd. by destruct (db_get id d). Qed.

Lemma keeps_check_login (I : D → Prop) username pwd : keeps I (check_login (D := D) username pwd).
Proof.
  apply keeps_get. intros d Hd. destruct (find_user _ d) as [r|]; [|done]. destruct (a_is_active r); simpl; [|done].
  revert d Hd. apply keeps_bind; [apply keeps_lift|]. intros ok. apply keeps_ret.
Qed.
Hint Resolve manned_insert keeps_valid keeps_id keeps_load keeps_check_login : py.

(** The rows a statement selects, none or some. *)
Ltac cases_select := cbv zeta; match goal with |- context [@db_select ?K ?Row ?D ?T ?p ?d] => destruct (@db_select K Row D T p d) end.

(** What a route does to the table, by what it does to a row. *)
Lemma create_keeps (I : D → Prop) new_id salt c :
  (∀ r, a_id r = new_id → keeps I (db_insert (K := uuid) r)) → keeps I (create_admin_user (D := D) new_id salt c).
Proof.
  intros Hi. apply keeps_transaction. apply keeps_bind; [auto with py|]. intros _. apply keeps_get. intros d Hd.
  cases_select; [|done]. revert d Hd. apply keeps_bind; [auto with py|]. intros hash.
  apply keeps_bind; [auto with py|]. intros _. apply keeps_ret.
Qed.

Lemma reset_keeps (I : D → Prop) user_id salt pwd :
  (∀ id h m, keeps I (set_user id (with_password h m))) → keeps I (reset_admin_password (D := D) user_id salt pwd).
Proof.
  intros Hu. apply keeps_transaction. apply keeps_bind; [auto with py|]. intros _. apply keeps_bind; [auto with py|]. intros id.
  apply keeps_bind; [auto with py|]. intros _. apply keeps_bind; [auto with py|]. intros hash. apply Hu.
Qed.

Lemma check_delete_run user_id admin_id d :
  ∃ res, check_delete user_id admin_id d = (res, d)
    ∧ ∀ id, res = Ok id → ∃ r, uuid_of_str user_id = Ok id ∧ rows d !! id = Some r ∧ uuid_str id ≠ admin_id
        ∧ (a_is_active r = true → (2 <= active_count d)%nat).
Proof.
  unfold check_delete, user_id_of, load_user. unfold_io. destruct (uuid_of_str user_id) as [id|e]; [|by eexists].
  case_bool_decide as Es; [by eexists|]. rewrite get_law. destruct (rows d !! id) as [r|] eqn:Er; [|by eexists].
  destruct (a_is_active r) eqn:Ea; cbn [andb].
  - destruct (Nat.leb_spec (active_count d) 1) as [Hc|Hc]; [by eexists|]. eexists. split; [done|].
    intros id' [= <-]. exists r. split; [done|]. split; [exact Er|]. split; [done|]. intros _. simpl in *. lia.
  - eexists. split; [done|]. intros id' [= <-]. exists r. split; [done|]. split; [exact Er|]. split; [done|]. congruence.
Qed.

Lemma manned_delete user_id admin_id : keeps manned (delete_admin_user (D := D) user_id admin_id).
Proof.
  apply keeps_transaction. intros d Hd. rewrite io_bind_run.
  destruct (check_delete_run user_id admin_id d) as ([id|e] & -> & Hc); [|done].
  destruct (Hc id eq_refl) as (r & _ & Hr & _ & Hact). clear Hc. rewrite io_bind_run.
  assert (manned (db_delete (K := uuid) (λ r, bool_decide (a_id r = id)) d).2) as Hm.
  { destruct (a_is_active r) eqn:Ea; [apply manned_deleted; [apply Hd | by apply Hact]|].
    destruct Hd as [Hk (k & r' & Hr' & Ha')].
    destruct (delete_law (λ r, bool_decide (a_id r = id)) d) as (d' & -> & E). simpl. unfold manned. rewrite E.
    split; [by apply keyed_reject|]. exists k, r'. split; [|done]. rewrite lookup_reject_rows, Hr'. simpl.
    rewrite bool_decide_eq_false_2; [done|]. intros Heq. pose proof (Hk k r' Hr') as Hkey. simpl in Hkey.
    assert (k = id) as -> by congruence. congruence. }
  by destruct (db_delete (λ r, bool_decide (a_id r = id)) d) as [[n|e] d'].
Qed.

Lemma bootstrap_keeps (I : D → Prop) new_id salt :
  (∀ r, a_id r = new_id → keeps I (db_insert (K := uuid) r)) → keeps I (bootstrap_default_admin (D := D) new_id salt).
Proof.
  intros Hi. apply keeps_transaction. apply keeps_get. intros d Hd. cases_select; [|done].
  revert d Hd. apply keeps_bind; [auto with py|]. intros hash. by apply Hi.
Qed.

(** What is true of the table, of a process that has it. *)
Definition in_panel (I : D → Prop) (p : panel R D) : Prop := I (pn_db p).

Lemma in_panel_redis (I : D → Prop) {A} (m : io (world R) A) : keeps (in_panel I) (panel_redis m).
Proof. intros p Hp. unfold panel_redis, io_zoom. by destruct (m (pn_redis p)). Qed.

Lemma in_panel_transaction (I : D → Prop) {A} (m : io D A) : keeps I m → keeps (in_panel I) (transaction m).
Proof.
  intros Hm%keeps_transaction p Hp. unfold transaction, panel_db, io_zoom. specialize (Hm (pn_db p) Hp).
  by destruct (io_transaction m (pn_db p)).
Qed.
Hint Resolve in_panel_redis : py.

Lemma login_keeps (I : D → Prop) app now rq rnd sid_rnd username pwd token :
  (∀ id, keeps I (set_user id (with_login now))) →
  keeps (in_panel I) (login_submit app now rq rnd sid_rnd username pwd token).
Proof.
  intros Hu. unfold login_submit. apply keeps_if; [apply keeps_ret|]. apply keeps_bind; [auto with py|]. intros locked.
  apply keeps_if; [apply keeps_ret|]. apply keeps_bind.
  - apply in_panel_transaction. apply keeps_bind; [auto with py|]. intros [r|]; [|apply keeps_ret].
    apply keeps_bind; [|intros _; apply keeps_ret]. apply (Hu (a_id r)).
  - intros [r|].
    + apply keeps_bind; [auto with py|]. intros ips. apply keeps_bind; [auto with py|]. intros _.
      apply keeps_bind; [auto with py|]. intros sid. apply keeps_ret.
    + apply keeps_bind; [auto with py|]. intros _. apply keeps_ret.
Qed.

Lemma change_keeps (I : D → Prop) now rq salt cur new new2 token admin :
  (∀ id h m, keeps I (set_user id (with_password h m))) →
  keeps (in_panel I) (change_password_submit (R := R) (D := D) now rq salt cur new new2 token admin).
Proof.
  intros Hu. unfold change_password_submit. do 3 (apply keeps_if; [apply keeps_ret|]). apply keeps_bind.
  - apply in_panel_transaction. apply keeps_bind; [auto with py|]. intros id. apply keeps_get. intros d Hd.
    destruct (db_get id d) as [r|]; [|done]. revert d Hd. apply keeps_bind; [auto with py|]. intros ok.
    apply keeps_if; [apply keeps_ret|]. apply keeps_bind; [auto with py|]. intros hash.
    apply keeps_bind; [apply Hu|]. intros _. apply keeps_ret.
  - intros changed. apply keeps_if; [apply keeps_ret|]. apply keeps_bind; [auto with py|]. intros _. apply keeps_ret.
Qed.

(** *** Who may administer *)

Definition active d (k : uuid) : Prop := ∃ r, rows d !! k = Some r ∧ a_is_active r = true.

(** What an account is: active, disabled, or not there. *)
Definition standing d (k : uuid) : option bool := a_is_active <$> rows d !! k.

(** The accounts of [P] stand as they stood in [d0]. *)
Definition stands (P : uuid → Prop) (d0 d : D) : Prop :=
  keyed (rows d) ∧ ∀ k, P k → standing d k = standing d0 k.

Lemma standing_active d d' k : standing d k = standing d' k → (active d k ↔ active d' k).
Proof.
  unfold standing, active. intros E.
  destruct (rows d !! k) as [r|], (rows d' !! k) as [r'|]; try discriminate E; [|naive_solver].
  injection E as E. split; intros (x & [= <-] & Hx); [exists r' | exists r]; split; congruence.
Qed.

Lemma stands_set_user (P : uuid → Prop) d0 id f :
  (∀ r, a_id (f r) = a_id r) → (∀ k r, P k → a_is_active (f r) = a_is_active r ∨ k ≠ id) → keeps (stands P d0) (set_user id f).
Proof.
  intros Hf Hp d [Hk Hd]. unfold set_user. rewrite io_bind_run.
  destruct (db_update_cases (λ r, bool_decide (a_id r = id)) f d admin_constraints_decidable Hf)
    as [(n & d' & -> & E)|[e ->]]; [|by split]. simpl. split; [rewrite E; by apply keyed_update|].
  intros k HP. rewrite <- (Hd k HP). unfold standing. rewrite E, lookup_update_rows.
  destruct (rows d !! k) as [r|] eqn:Er; [|done]. simpl. pose proof (Hk k r Er) as Hkey. simpl in Hkey.
  case_bool_decide as Ei; [|done]. destruct (Hp k r HP) as [->|Hne]; [done | congruence].
Qed.

Lemma stands_delete (P : uuid → Prop) d0 id :
  (∀ k, P k → k ≠ id) → keeps (stands P d0) (db_delete (K := uuid) (λ r, bool_decide (a_id r = id))).
Proof.
  intros Hp d [Hk Hd]. destruct (delete_law (λ r, bool_decide (a_id r = id)) d) as (d' & -> & E). simpl.
  split; [rewrite E; by apply keyed_reject|]. intros k HP. rewrite <- (Hd k HP). unfold standing.
  rewrite E, lookup_reject_rows. destruct (rows d !! k) as [r|] eqn:Er; [|done]. simpl.
  pose proof (Hk k r Er) as Hkey. simpl in Hkey. rewrite bool_decide_eq_false_2; [done|]. intros <-. by apply (Hp k HP).
Qed.

Lemma stands_insert (P : uuid → Prop) d0 r :
  (∀ k, P k → standing d0 k ≠ None) → keeps (stands P d0) (db_insert (K := uuid) r).
Proof.
  intros Hp d [Hk Hd]. destruct (db_insert_cases r d admin_constraints_decidable) as [(d' & -> & E & Hn)|[e ->]]; [|by split].
  simpl. split; [rewrite E; by apply keyed_insert|]. intros k HP. rewrite <- (Hd k HP). unfold standing. rewrite E.
  rewrite lookup_insert_ne; [done|]. intros <-. apply (Hp _ HP). rewrite <- (Hd _ HP). unfold standing. by rewrite Hn.
Qed.

(** An update and a removal touch the account they name. *)
Lemma stands_update (P : uuid → Prop) d0 user_id admin_id b :
  (∀ k, P k → uuid_of_str user_id ≠ Ok k) → keeps (stands P d0) (update_admin_user user_id admin_id b).
Proof.
  intros Hp. apply keeps_transaction. intros d Hd. rewrite io_bind_run.
  destruct (check_update_run user_id admin_id b d) as ([[id r]|e] & -> & Hc); [|done].
  destruct (Hc id r eq_refl) as (Hid & _). rewrite io_bind_run. cbn [fst].
  assert (stands P d0 (set_user id (updated b) d).2) as Hs.
  { apply stands_set_user; [done | | exact Hd]. intros k r' HP. right. intros ->. by apply (Hp id HP). }
  by destruct (set_user id (updated b) d) as [[[]|e] d'].
Qed.

Lemma stands_remove (P : uuid → Prop) d0 user_id admin_id :
  (∀ k, P k → uuid_of_str user_id ≠ Ok k) → keeps (stands P d0) (delete_admin_user (D := D) user_id admin_id).
Proof.
  intros Hp. apply keeps_transaction. intros d Hd. rewrite io_bind_run.
  destruct (check_delete_run user_id admin_id d) as ([id|e] & -> & Hc); [|done].
  destruct (Hc id eq_refl) as (r & Hid & _). rewrite io_bind_run.
  assert (stands P d0 (db_delete (K := uuid) (λ r, bool_decide (a_id r = id)) d).2) as Hs.
  { apply stands_delete; [|exact Hd]. intros k HP ->. by apply (Hp id HP). }
  by destruct (db_delete (λ r, bool_decide (a_id r = id)) d) as [[n|e] d'].
Qed.

(** An operation that leaves an account that may administer, and changes whether
    one may for none of those of [P]. *)
Definition leaves {S A} (db : S → D) (P : D → uuid → Prop) (m : io S A) : Prop :=
  ∀ s, manned (db s) → manned (db (m s).2) ∧ ∀ k, P (db s) k → (active (db (m s).2) k ↔ active (db s) k).

Lemma leaves_intro {S A} (db : S → D) (P : D → uuid → Prop) (m : io S A) :
  keeps (λ s, manned (db s)) m → (∀ d0, keeps (λ s, stands (P d0) d0 (db s)) m) → leaves db P m.
Proof.
  intros Hm Hs s Hd. split; [by apply Hm|]. intros k HP. apply standing_active.
  apply (Hs (db s) s); [|exact HP]. split; [apply Hd | done].
Qed.

Definition anyone : D → uuid → Prop := λ _ _, True.
(** The accounts that a request does not name, and those that are there already. *)
Definition unnamed (user_id : str) : D → uuid → Prop := λ _ k, uuid_of_str user_id ≠ Ok k.
Definition present : D → uuid → Prop := λ d k, is_Some (rows d !! k).

Lemma present_stands d0 k : present d0 k → standing d0 k ≠ None.
Proof. intros [r Hr]. unfold standing. by rewrite Hr. Qed.

(** ** The gate *)

(** What lets a request through: a session stored under its cookie, of this
    browser and not idle, and an address both lists allow. *)
Definition let_through app now rq (r : R) (sess : AdminWebSessionData) : Prop :=
  ∃ sid raw payload ips,
    rq_cookies rq ADMIN_COOKIE_NAME = Some sid
    ∧ e_value <$> live now r !! ADMIN_WEB_SESSION sid = Some raw ∧ load_payload raw = Ok payload
    ∧ admin_session_of sid payload = Ok sess
    ∧ admits (app_store app) now (admin_browser_fingerprint rq) payload
    ∧ str_list (as_allowed_ips sess) = Ok ips
    ∧ allowed_from (admin_client_ip rq) (ad_allowed_networks (c_admin (app_cfg app))) = true
    ∧ allowed_from (admin_client_ip rq) ips = true.

Lemma require_admin_inv app now rq w sess w' :
  w_env w = [] → require_admin app now rq w = (Ok sess, w') → let_through app now rq (w_store w) sess.
Proof.
  intros Hw. unfold require_admin. destruct (rq_cookies rq ADMIN_COOKIE_NAME) as [[|c sid]|] eqn:Ec; [discriminate| |discriminate].
  set (cookie := c :: sid) in *. rewrite io_bind_run. unfold get_admin_web_session. rewrite io_bind_run.
  destruct (read_session _ _ _ _ _) as [[[payload|]|e] w1] eqn:Er; [|discriminate|discriminate].
  destruct (read_session_inv _ _ _ _ _ _ _ Hw Er) as (raw & Hraw & Hload & Hadm).
  unfold io_lift. destruct (admin_session_of cookie payload) as [s|e] eqn:Es; simpl; [|discriminate].
  destruct (allowed_from _ (ad_allowed_networks _)) eqn:En; simpl; [|discriminate]. unfold_io.
  destruct (str_list (as_allowed_ips s)) as [ips|e] eqn:Ei; [|discriminate].
  destruct (allowed_from _ ips) eqn:Eu; simpl; [|discriminate]. intros [= <- <-].
  by exists cookie, raw, payload, ips.
Qed.

(** *** Two administrators at once *)

Definition off : AdminUserUpdate := {| up_is_active := Some false; up_allowed_ips := None |}.

Lemma constraints_updated (f : AdminUser → AdminUser) p (m : gmap uuid AdminUser) :
  (∀ r, a_username (f r) = a_username r) → constraints m → constraints (update_rows p f m).
Proof.
  intros Hf Hm k r. rewrite lookup_update_rows. destruct (m !! k) as [r0|] eqn:E; simpl; [|done]. intros [= <-] k' r'.
  rewrite lookup_update_rows. destruct (m !! k') as [r0'|] eqn:E'; simpl; [|done]. intros [= <-] Hu.
  apply (Hm k r0 E k' r0' E'). destruct (p r0), (p r0'); by rewrite ?Hf in Hu.
Qed.

Definition table_ok d : Prop :=
  keyed (rows d) ∧ constraints (rows d) ∧ map_Forall (λ _ r, row_fits r = true) (rows d).

Lemma switch_off id d :
  table_ok d → ∃ d', set_user id (updated off) d = (Ok tt, d')
    ∧ rows d' = update_rows (λ r, bool_decide (a_id r = id)) (updated off) (rows d) ∧ table_ok d'.
Proof.
  intros (Hk & Hc & Hfit).
  assert (constraints (update_rows (λ r, bool_decide (a_id r = id)) (updated off) (rows d))) as Hc' by by apply constraints_updated.
  destruct (update_law (λ r, bool_decide (a_id r = id)) (updated off) d) as (d' & E & R').
  - done.
  - intros k r Hr _. apply (Hfit k r Hr).
  - exact Hc'.
  - exists d'. unfold set_user. rewrite io_bind_run, E. split; [done|]. split; [done|]. unfold table_ok. rewrite R'.
    split; [by apply keyed_update|]. split; [done|]. intros k r. rewrite lookup_update_rows.
    destruct (rows d !! k) as [r0|] eqn:E0; simpl; [|done]. intros [= <-]. specialize (Hfit k r0 E0).
    by destruct (bool_decide _).
Qed.

Lemma active_off id d d' k :
  keyed (rows d) → rows d' = update_rows (λ r, bool_decide (a_id r = id)) (updated off) (rows d) →
  active d' k ↔ active d k ∧ k ≠ id.
Proof.
  intros Hk E. unfold active. rewrite E, lookup_update_rows. destruct (rows d !! k) as [r|] eqn:Er; simpl.
  - pose proof (Hk k r Er) as Hkey. simpl in Hkey. case_bool_decide as Ei; split.
    + intros (r' & [= <-] & Ha). done.
    + intros [_ Hne]. congruence.
    + intros (r' & [= <-] & Ha). split; [by exists r|]. congruence.
    + intros [(r' & [= <-] & Ha) _]. by exists r.
  - split; [intros (r & ? & _); done | intros [(r & ? & _) _]; done].
Qed.

(** *** A new password *)

Lemma change_password_effect now rq salt cur new new2 token admin (p p' : panel R D) :
  PasswordHasherLaws → keyed (rows (pn_db p)) →
  change_password_submit now rq salt cur new new2 token admin p = (Ok 303, p') →
  ∃ id r h, uuid_of_str (as_admin_user_id admin) = Ok id ∧ rows (pn_db p) !! id = Some r
    ∧ verify_password (a_password_hash r) cur = Ok true
    ∧ verify_password h new = Ok true ∧ (8 <= length new)%nat
    ∧ rows (pn_db p') = <[id := with_password h false r]> (rows (pn_db p)).
Proof.
  intros Hlaws Hk. unfold change_password_submit.
  destruct (form_expired _ _ _); [discriminate|]. case_bool_decide as Eq; simpl; [|discriminate].
  destruct (Nat.ltb_spec (length new) 8) as [|Hlen]; [discriminate|]. rewrite io_bind_run.
  unfold transaction, panel_db, io_zoom, io_transaction. unfold_io.
  destruct (uuid_of_str _) as [id|e] eqn:Eid; [|discriminate]. rewrite get_law.
  destruct (rows (pn_db p) !! id) as [r|] eqn:Er; [|discriminate].
  destruct (verify_password (a_password_hash r) cur) as [[]|e] eqn:Ev; simpl; [|discriminate|discriminate].
  destruct (hash_password salt new) as [h|e] eqn:Eh; simpl; [|discriminate].
  unfold set_user. rewrite io_bind_run.
  destruct (db_update_cases (λ r, bool_decide (a_id r = id)) (with_password h false) (pn_db p) admin_constraints_decidable
    (λ r, eq_refl)) as [(n & d' & -> & E)|[e ->]]; [|discriminate]. simpl.
  unfold panel_redis, io_zoom. simpl. destruct (update_admin_must_change _ _ _ _) as [[[]|e] w']; [|discriminate].
  intros [= <-]. exists id, r, h. split; [done|]. split; [done|]. split; [done|].
  split; [exact (argon2_verify_hash salt new h Eh)|]. split; [done|]. simpl. rewrite E.
  rewrite (update_rows_one _ _ _ id); [|done|by intros r' Hr'%bool_decide_eq_true].
  apply map_eq. intros k. destruct (decide (k = id)) as [->|Hne].
  - rewrite lookup_alter_eq, lookup_insert_eq, Er. simpl. pose proof (Hk id r Er) as Hkey. simpl in Hkey.
    by rewrite bool_decide_eq_true_2.
  - by rewrite lookup_alter_ne, lookup_insert_ne.
Qed.

Lemma two_active d (a b : uuid) : keyed (rows d) → a ≠ b → active d a → active d b → (2 <= active_count d)%nat.
Proof.
  intros Hk Hne (ra & Hra & Ha) (rb & Hrb & Hb). unfold active_count.
  assert (ra ∈ db_select (K := uuid) a_is_active d) as Hina by (apply elem_of_db_select; eauto).
  assert (rb ∈ db_select (K := uuid) a_is_active d) as Hinb by (apply elem_of_db_select; eauto).
  pose proof (Hk a ra Hra) as Hka. pose proof (Hk b rb Hrb) as Hkb. simpl in Hka, Hkb.
  destruct (db_select (K := uuid) a_is_active d) as [|x [|y l]]; simpl; [|exfalso|lia].
  - by apply not_elem_of_nil in Hina.
  - apply list_elem_of_singleton in Hina, Hinb. congruence.
Qed.

Lemma check_off (a b : uuid) d :
  (a < 2 ^ 128)%N → (b < 2 ^ 128)%N → keyed (rows d) → a ≠ b → active d a → active d b →
  ∃ r, check_update (uuid_str a) (uuid_str b) off d = (Ok (a, r), d).
Proof.
  intros Hla Hlb Hk Hne Ha Hb. pose proof (two_active d a b Hk Hne Ha Hb) as Hn.
  destruct Ha as (r & Hr & Ha). exists r. unfold check_update, user_id_of, load_user. unfold_io.
  change (update_valid off) with true. cbn [valid_body]. unfold_io. rewrite uuid_of_str_of by done. rewrite get_law.
  rewrite Hr. unfold check_disable. rewrite bool_decide_eq_true_2 by done. rewrite Ha. cbn [andb].
  rewrite bool_decide_eq_false_2. 2: { intros E. apply Hne.
    pose proof (uuid_of_str_of a Hla) as Ea. rewrite E, uuid_of_str_of in Ea by done. by injection Ea. }
  unfold_io. by rewrite (proj2 (Nat.leb_gt _ _)) by (simpl in *; lia).
Qed.

Lemma both_off (a b : uuid) d :
  table_ok d → (∀ k, active d k ↔ k = a ∨ k = b) →
  ∃ d', (_ ← set_user a (updated off); set_user b (updated off)) d = (Ok tt, d') ∧ ∀ k, ¬ active d' k.
Proof.
  intros Hok Hact. destruct (switch_off a d Hok) as (d1 & E1 & R1 & Hok1).
  destruct (switch_off b d1 Hok1) as (d2 & E2 & R2 & Hok2). exists d2. rewrite io_bind_run, E1. split; [done|].
  intros k. rewrite (active_off b d1 d2 k) by (done || apply Hok1).
  rewrite (active_off a d d1 k) by (done || apply Hok). rewrite Hact. naive_solver.
Qed.

(** The process with no list of networks. *)
Definition open_app app : admin_app :=
  let c := app_cfg app in
  {| app_cfg := {| c_instance := c_instance c; c_ldap := c_ldap c; c_database := c_database c; c_dns := c_dns c; c_proxy := c_proxy c;
       c_portal := c_portal c;
       c_admin := {| ad_host := ad_host (c_admin c); ad_port := ad_port (c_admin c); ad_allowed_networks := [];
                     ad_secure_cookies := ad_secure_cookies (c_admin c) |};
       c_rdp_relay := c_rdp_relay c; c_redis := c_redis c; c_security := c_security c |};
     app_store := app_store app |}.

Lemma forwarded_ip rq ip rest :
  rq_client_ip rq = None → rq_headers rq (u "x-forwarded-for") = Some (ip ++ 44%N :: rest) →
  44%N ∉ ip → strip ip = ip → admin_client_ip rq = ip.
Proof.
  intros Hc Hx H44 Hs. unfold admin_client_ip, header. rewrite Hc, Hx. cbn [default from_option id].
  rewrite bool_decide_eq_false_2 by (intros E; by apply app_eq_nil in E as [_ ?]). by apply first_hop_comma.
Qed.

Lemma require_admin_open app now rq w :
  allowed_from (admin_client_ip rq) (ad_allowed_networks (c_admin (app_cfg app))) = true →
  require_admin app now rq w = require_admin (open_app app) now rq w.
Proof. intros Ha. unfold require_admin. by rewrite Ha. Qed.
End AccountLaws.

(** ** Properties *)

(** C6: no request of an administrator that runs by itself, and no failure in the
    middle of one, leaves the administration without an account that may use it:
    the last active account can be neither disabled nor removed. Nor does a request
    change who is active beyond what it asks: a login and a new password change it
    for no account, a new account for none that is there, an update and a removal
    for none but the one they name. (Two requests that overlap can disable the last
    two, [last_admin_race].) *)
Theorem admins_remain {R D} `{RedisLaws R} `{!Table uuid AdminUser D} `{!TableLaws uuid AdminUser D}
    `{AESGCM} `{CaseMap} `{Collation} `{PasswordHasher} :
  (∀ user_id admin_id b, leaves (D := D) id (unnamed user_id) (update_admin_user user_id admin_id b))
  ∧ (∀ user_id admin_id, leaves (D := D) id (unnamed user_id) (delete_admin_user user_id admin_id))
  ∧ (∀ new_id salt b, leaves (D := D) id present (create_admin_user new_id salt b))
  ∧ (∀ user_id salt pwd, leaves (D := D) id anyone (reset_admin_password user_id salt pwd))
  ∧ (∀ new_id salt, leaves (D := D) id present (bootstrap_default_admin new_id salt))
  ∧ (∀ app now rq rnd sid_rnd name pwd token,
       leaves (pn_db (R := R)) anyone (login_submit app now rq rnd sid_rnd name pwd token))
  ∧ (∀ now rq salt cur new new2 token admin,
       leaves (pn_db (R := R)) anyone (change_password_submit now rq salt cur new new2 token admin)).
Proof.
  repeat split_and; intros; (apply leaves_intro; [|intros d0]).
  - apply manned_update.
  - by apply stands_update.
  - apply manned_delete.
  - by apply stands_remove.
  - apply create_keeps. intros r _. apply manned_insert.
  - apply create_keeps. intros r _. apply stands_insert, present_stands.
  - apply reset_keeps. intros. by apply manned_set_user.
  - apply reset_keeps. intros. apply stands_set_user; auto.
  - apply bootstrap_keeps. intros r _. apply manned_insert.
  - apply bootstrap_keeps. intros r _. apply stands_insert, present_stands.
  - apply (login_keeps manned). intros. by apply manned_set_user.
  - apply (login_keeps (stands (anyone d0) d0)). intros. apply stands_set_user; auto.
  - apply (change_keeps manned). intros. by apply manned_set_user.
  - apply (change_keeps (stands (anyone d0) d0)). intros. apply stands_set_user; auto.
Qed.

(** That guard reads and writes in two steps. Two administrators, the only
    ones, who disable each other at the same time both pass the check, since
    each sees the other still active, and nobody is left. *)
Theorem last_admin_race {D} `{!Table uuid AdminUser D} `{!TableLaws uuid AdminUser D} (a b : uuid) (d : D) :
  (a < 2 ^ 128)%N → (b < 2 ^ 128)%N → a ≠ b → table_ok d → (∀ k, active d k ↔ k = a ∨ k = b) →
  ∃ ra rb d', check_update (uuid_str a) (uuid_str b) off d = (Ok (a, ra), d)
    ∧ check_update (uuid_str b) (uuid_str a) off d = (Ok (b, rb), d)
    ∧ (_ ← set_user a (updated off); set_user b (updated off)) d = (Ok tt, d')
    ∧ ∀ k, ¬ active d' k.
Proof.
  intros Ha Hb Hne Hok Hact. pose proof Hok as (Hk & _).
  assert (active d a ∧ active d b) as [Haa Hab] by (rewrite !Hact; auto).
  destruct (check_off a b d) as [ra Era]; try done. destruct (check_off b a d) as [rb Erb]; try done.
  destruct (both_off a b d Hok Hact) as (d' & E & Hn). by exists ra, rb, d'.
Qed.


(** The list of allowed networks is no barrier: the address it is checked
    against is the first of [X-Forwarded-For], which the proxy in front only
    appends to, so that whoever writes an allowed address there is let through
    as if there were no list, whatever the true address behind the comma. *)
Theorem allowlist_bypassed {R} `{RedisLaws R} `{AESGCM} (app : admin_app) (now : Z) (rq : request)
    (ip rest : str) (w : world R) :
  rq_client_ip rq = None → rq_headers rq (u "x-forwarded-for") = Some (ip ++ 44%N :: rest) →
  44%N ∉ ip → strip ip = ip → ip_in_networks ip (ad_allowed_networks (c_admin (app_cfg app))) = true →
  require_admin app now rq w = require_admin (open_app app) now rq w.
Proof.
  intros Hc Hx H44 Hs Hin. apply require_admin_open. rewrite (forwarded_ip rq ip rest) by done.
  unfold allowed_from. by destruct (ad_allowed_networks _).
Qed.

(** A change of password that succeeds was authorised by the old password;
    afterwards the new one is accepted for this account, the account need not
    change it again, and no other account is touched. *)
Theorem password_change_effect {R D} `{RedisLaws R} `{!Table uuid AdminUser D} `{!TableLaws uuid AdminUser D}
    `{PasswordHasherLaws} (now : Z) (rq : request) (salt : bytes)
    (cur new new2 token : str) (admin : AdminWebSessionData) (p p' : panel R D) :
  keyed (rows (pn_db p)) →
  change_password_submit now rq salt cur new new2 token admin p = (Ok 303, p') →
  ∃ id r h, uuid_of_str (as_admin_user_id admin) = Ok id ∧ rows (pn_db p) !! id = Some r
    ∧ verify_password (a_password_hash r) cur = Ok true
    ∧ verify_password h new = Ok true ∧ (8 <= length new)%nat
    ∧ rows (pn_db p') = <[id := with_password h false r]> (rows (pn_db p)).
Proof. intros Hk. by apply (change_password_effect now rq salt cur new new2 token admin p p'). Qed.

(** ** Concrete instances *)

#[export] Instance toy_hasher : PasswordHasher := {|
  argon2_hash salt p := Ok p; argon2_verify h p := Ok (bool_decide (h = p)) |}.
#[export] Instance toy_hasher_laws : PasswordHasherLaws.
Proof. split. intros salt p h [= ->]. unfold argon2_verify, toy_hasher. by rewrite bool_decide_eq_true_2. Qed.
#[export] Instance code_point_order : Collation := {| text_le a b := true; sql_lower := ascii_lower |}.

Definition demo_admin (id : uuid) (name : str) : AdminUser := {|
  a_id := id; a_username := name; a_password_hash := u "old secret"; a_is_active := true;
  a_must_change_password := true; a_allowed_ips := JList []; a_last_login_at := None |}.
Definition demo_admins : gmap uuid AdminUser :=
  {[ 7%N := demo_admin 7%N (u "ann"); 9%N := demo_admin 9%N (u "bob") ]}.

Lemma demo_admins_ok : table_ok demo_admins.
Proof.
  unfold table_ok, keyed. change (rows demo_admins) with demo_admins.
  split; [|split].
  - apply (bool_decide_eq_true_1 (map_Forall (λ k r, a_id r = k) demo_admins)). vm_compute. reflexivity.
  - apply (bool_decide_eq_true_1 (unique_on a_username demo_admins)). vm_compute. reflexivity.
  - apply (bool_decide_eq_true_1 (map_Forall (λ _ r, row_fits r = true) demo_admins)). vm_compute. reflexivity.
Qed.

Lemma last_admin_race_witness :
  ∃ ra rb (d' : gmap uuid AdminUser), check_update (uuid_str 7%N) (uuid_str 9%N) off demo_admins = (Ok (7%N, ra), demo_admins)
    ∧ check_update (uuid_str 9%N) (uuid_str 7%N) off demo_admins = (Ok (9%N, rb), demo_admins)
    ∧ (_ ← set_user 7%N (updated off); set_user 9%N (updated off)) demo_admins = (Ok tt, d')
    ∧ ∀ k, ¬ active d' k.
Proof.
  apply (last_admin_race 7%N 9%N demo_admins).
  - reflexivity.
  - reflexivity.
  - discriminate.
  - exact demo_admins_ok.
  - intros k. unfold active. change (rows demo_admins) with demo_admins. unfold demo_admins. split.
    + intros (r & Hr & _). apply lookup_insert_Some in Hr as [[<- _]|[_ Hr]]; [by left|].
      apply lookup_singleton_Some in Hr as [<- _]. by right.
    + intros [-> | ->]; eexists; (split; [reflexivity | reflexivity]).
Defined.

Definition demo_app (networks : list str) : admin_app := {|
  app_cfg := let c := default_config [] (u "00") in
    {| c_instance := c_instance c; c_ldap := c_ldap c; c_database := c_database c; c_dns := c_dns c; c_proxy := c_proxy c;
       c_portal := c_portal c;
       c_admin := {| ad_host := u "0.0.0.0"; ad_port := 9090; ad_allowed_networks := networks; ad_secure_cookies := false |};
       c_rdp_relay := c_rdp_relay c; c_redis := c_redis c; c_security := c_security c |};
  app_store := {| web_ttl := 3600; rdp_token_ttl := 300; web_idle_ttl := 600; enc_key := replicate 32 (z2b 1) |} |}.

Definition demo_request (headers cookies : list (str * str)) : request :=
  let look l k := snd <$> List.find (λ kv, bool_decide (kv.1 = k)) l in
  Request (u "POST") (u "/admin/change-password") (look headers) (look cookies) (Some (u "172.16.0.2")) None.

Definition demo_empty : panel store (gmap uuid AdminUser) := Panel (quiet ∅) demo_admins.

Definition demo_route (_ : AdminWebSessionData) : io (panel store (gmap uuid AdminUser)) unit :=
  panel_db (set_user 9%N (updated off)).


Lemma allowlist_bypassed_witness :
  let app := demo_app [u "10.1.0.0/16"] in
  let rq := demo_request [(u "x-forwarded-for", u "10.1.2.3, 203.0.113.9")] [] in
  require_admin app 0 rq (quiet (∅ : store)) = require_admin (open_app app) 0 rq (quiet (∅ : store)).
Proof.
  intros app rq. apply (allowlist_bypassed app 0 rq (u "10.1.2.3") (u " 203.0.113.9")).
  - reflexivity.
  - vm_compute. reflexivity.
  - apply (bool_decide_eq_true_1 (44%N ∉ u "10.1.2.3")). vm_compute. reflexivity.
  - vm_compute. reflexivity.
  - vm_compute. reflexivity.
Defined.

Definition demo_session : AdminWebSessionData := {|
  as_session_id := u "s"; as_admin_user_id := uuid_str 7%N; as_username := u "ann";
  as_must_change_password := true; as_allowed_ips := JList [] |}.
Definition demo_change : res Z * panel store (gmap uuid AdminUser) :=
  change_password_submit 0 (demo_request [] [(ADMIN_CSRF_COOKIE_NAME, u "t")]) [] (u "old secret") (u "new secret")
    (u "new secret") (u "t") demo_session demo_empty.

Lemma password_change_effect_witness :
  demo_change.1 = Ok 303
  ∧ ∃ id r h, uuid_of_str (as_admin_user_id demo_session) = Ok id ∧ rows (pn_db demo_empty) !! id = Some r
    ∧ verify_password (a_password_hash r) (u "old secret") = Ok true
    ∧ verify_password h (u "new secret") = Ok true ∧ (8 <= length (u "new secret"))%nat
    ∧ rows (pn_db demo_change.2) = <[id := with_password h false r]> (rows (pn_db demo_empty)).
Proof.
  split; [vm_compute; reflexivity|].
  apply (password_change_effect (D := gmap uuid AdminUser) 0 (demo_request [] [(ADMIN_CSRF_COOKIE_NAME, u "t")]) []
    (u "old secret") (u "new secret") (u "new secret") (u "t") demo_session demo_empty demo_change.2).
  - exact (proj1 demo_admins_ok).
  - vm_compute. reflexivity.
Defined.
Close Scope Z_scope.
