(* ===== verification/AdminSessions.v ===== *)
(** The sessions of the administration, [services/admin/routes/sessions.py]:
    what is active, the history with its filters and pages, its export, and the
    kill of one connection or of all. They work on the stores that the
    connection tracker of the relays works on. *)

From stdpp Require Import prelude gmap list strings.
From Stdlib Require Import ZArith Lia.
From Stdlib Require Strings.String.
From S2P Require Import Prelude PySeq PyBytes PyStr Json PyUuid Redis Keys Encryption Sessions Database Models Tracker.

Open Scope Z_scope.

(** [datetime.fromisoformat] and the [ILIKE] of the database. *)
Class HistoryText : Type := { fromisoformat : str → option Z; ilike : str → str → bool }.

(** The [pydantic] models of the answers: validation of what came from Redis. *)
Class SessionModels : Type := { quality_detail : dict → res json; active_session_out : dict → res dict }.

(** ** What the history is asked *)

Record history_query : Type := {
  hq_username : list str; hq_server_id : list str; hq_server_display : option str; hq_server_address : option str;
  hq_status : list str; hq_client_ip : list str; hq_disconnect_reason : option str;
  hq_from : option str; hq_to : option str; hq_ended_from : option str; hq_ended_to : option str;
  hq_exclude_active : bool; hq_page : nat; hq_per_page : nat }.

Section Routes.
Context {R DS DH DE : Type} `{Redis R} `{!Table uuid RdpServer DS}
  `{!Table uuid ConnectionHistory DH} `{!Log ConnectionEvent DE} `{HistoryText} `{SessionModels}.
Abbreviation state := (tracking R DS DH DE).

Definition parse_dt (value : str) : res Z :=
  match fromisoformat (replace (u "Z") (u "+00:00") value) with Some t => Ok t | None => Err (HTTPException 400) end.

(** A filter that is not given keeps every row; a text that is empty is not given. *)
Definition one_of (values : list str) (v : option str) : bool :=
  match values with [] => true | _ => existsb (λ x, bool_decide (v = Some x)) values end.
Definition matches (pattern : option str) (v : option str) : bool :=
  match pattern with
  | Some (c :: p) => match v with Some t => ilike (u "%" ++ (c :: p) ++ u "%") t | None => false end
  | _ => true
  end.
Definition bound (value : option str) (keep : Z → bool) : res bool :=
  match value with Some (c :: s) => t ← parse_dt (c :: s); Ok (keep t) | _ => Ok true end.

Definition server_ids (values : list str) : list uuid :=
  omap (λ v, match uuid_of_str v with Ok id => Some id | Err _ => None end) values.

(** The [WHERE] of the query; a time that cannot be read is answered [400]. *)
Definition history_where (q : history_query) (r : ConnectionHistory) : res bool :=
  b1 ← bound (hq_from q) (λ t, t <=? h_started_at r);
  b2 ← bound (hq_to q) (λ t, h_started_at r <=? t);
  b3 ← bound (hq_ended_from q) (λ t, from_option (λ e, t <=? e) false (h_ended_at r));
  b4 ← bound (hq_ended_to q) (λ t, from_option (λ e, e <=? t) false (h_ended_at r));
  Ok ((negb (hq_exclude_active q) || negb (bool_decide (h_status r = u "active")))
      && one_of (hq_username q) (Some (h_username r))
      && match server_ids (hq_server_id q) with
         | [] => true
         | ids => match h_server_id r with Some id => bool_decide (id ∈ ids) | None => false end
         end
      && matches (hq_server_display q) (h_server_display r)
      && matches (hq_server_address q) (Some (h_server_address r))
      && one_of (hq_status q) (Some (h_status r))
      && one_of (hq_client_ip q) (Some (h_client_ip r))
      && matches (hq_disconnect_reason q) (h_disconnect_reason r)
      && b1 && b2 && b3 && b4).

(** The times of a query are read whether or not there are rows. *)
Definition query_times (q : history_query) : res unit :=
  _ ← bound (hq_from q) (λ _, true);
  _ ← bound (hq_to q) (λ _, true);
  _ ← bound (hq_ended_from q) (λ _, true);
  _ ← bound (hq_ended_to q) (λ _, true);
  Ok tt.

Definition selected (q : history_query) (r : ConnectionHistory) : bool :=
  match history_where q r with Ok b => b | Err _ => false end.

Definition newest_first (rows : list ConnectionHistory) : list ConnectionHistory :=
  sorted_by (λ a b, h_started_at b <=? h_started_at a) rows.

(** [.offset(...).limit(...)] *)
Definition page_of {A} (page per_page : nat) (l : list A) : list A :=
  take (Nat.max 1 (Nat.min per_page 200)) (drop ((Nat.max page 1 - 1) * Nat.max per_page 1) l).

Definition history_item (i : ConnectionHistory) : dict := [
  (u "id", JStr (uuid_str (h_id i)));
  (u "instance_id", JStr (h_instance_id i));
  (u "username", JStr (h_username i));
  (u "server_id", json_str_opt (uuid_str <$> h_server_id i));
  (u "server_display", json_str_opt (h_server_display i));
  (u "server_address", JStr (h_server_address i));
  (u "server_port", JInt (h_server_port i));
  (u "client_ip", JStr (h_client_ip i));
  (u "started_at", JStr (iso_utc (h_started_at i)));
  (u "ended_at", json_str_opt (iso_utc <$> h_ended_at i));
  (u "bytes_to_client", JInt (h_bytes_to_client i));
  (u "bytes_to_backend", JInt (h_bytes_to_backend i));
  (u "disconnect_reason", json_str_opt (h_disconnect_reason i));
  (u "status", JStr (h_status i))].

(** The matching rows, all of them. *)
Definition history_rows (q : history_query) (h : DH) : list ConnectionHistory :=
  newest_first (db_select (K := uuid) (selected q) h).

(** The items of the page, the page, its size and the total. *)
Definition sessions_history (q : history_query) (s : state) : res (list dict * nat * nat * nat) :=
  let h := td_history (tr_db s) in
  if negb ((1 <=? hq_page q) && (hq_page q <=? Z.to_nat 10000) && (1 <=? hq_per_page q) && (hq_per_page q <=? 200))%nat
  then Err (HTTPException 422)
  else
    _ ← query_times q;
    Ok (map history_item (page_of (hq_page q) (hq_per_page q) (history_rows q h)), hq_page q, hq_per_page q,
        length (history_rows q h)).

(** [SELECT DISTINCT ... ORDER BY], in the order [le] of the database. *)
Definition disconnect_reasons (le : str → str → bool) (s : state) : list str :=
  let reasons := omap h_disconnect_reason (db_select (K := uuid) (λ _, true) (td_history (tr_db s))) in
  sorted_by le (remove_dups (List.filter (λ r, negb (bool_decide (r = []))) reasons)).

Definition session_detail (connection_id : str) (s : state) : res dict :=
  match uuid_of_str connection_id with
  | Err _ => Err (HTTPException 400)
  | Ok cid =>
      match db_get cid (td_history (tr_db s)) with
      | None => Err (HTTPException 404)
      | Some item => Ok (history_item item)
      end
  end.

(** *** The events of one connection *)

(** [detail or {}]: what is empty is an empty object either way. *)
Definition event_item (e : Z * ConnectionEvent) : dict := [
  (u "id", JInt e.1);
  (u "ts", JStr (iso_utc (ev_ts e.2)));
  (u "event_type", JStr (ev_event_type e.2));
  (u "detail", JObj (ev_detail e.2))].

(** [.where(connection_id == cid).order_by(ts.asc())] *)
Definition events_of `{!LogQuery ConnectionEvent DE} (cid : uuid) (s : state) : list (Z * ConnectionEvent) :=
  sorted_by (λ a b, ev_ts a.2 <=? ev_ts b.2)
    (log_select (λ e, bool_decide (ev_connection_id e = cid)) (td_events (tr_db s))).

Definition session_events `{!LogQuery ConnectionEvent DE} (connection_id : str) (s : state) : res (list dict) :=
  match uuid_of_str connection_id with
  | Err _ => Err (HTTPException 400)
  | Ok cid => Ok (map event_item (events_of cid s))
  end.

(** *** Export *)

Definition csv_columns : list str := [
  u "id"; u "instance_id"; u "username"; u "server_display"; u "server_address"; u "server_port"; u "client_ip";
  u "started_at"; u "ended_at"; u "bytes_to_client"; u "bytes_to_backend"; u "disconnect_reason"; u "status"].

Definition csv_row (r : ConnectionHistory) : list str := [
  uuid_str (h_id r); h_instance_id r; h_username r; default [] (h_server_display r); h_server_address r;
  str_of_Z (h_server_port r); h_client_ip r; iso_utc (h_started_at r); from_option iso_utc [] (h_ended_at r);
  str_of_Z (h_bytes_to_client r); str_of_Z (h_bytes_to_backend r); default [] (h_disconnect_reason r); h_status r].

Definition csv_line (row : list str) : str := join_with (u ",") (map (λ v, json_dumps false (JStr v)) row).

Definition sessions_history_csv (s : state) : str :=
  let rows := take (Z.to_nat 5000) (newest_first (db_select (K := uuid) (λ _, true) (td_history (tr_db s)))) in
  join_with [10%N] (join_with (u ",") csv_columns :: map (λ r, csv_line (csv_row r)) rows).

(** ** What is active *)

(** [str(k).split(":")], when it has four parts or more: the third and the fourth. *)
Definition key_parts (k : str) : option (str * str) :=
  match split_on 58%N k with
  | _ :: _ :: instance_id :: connection_id :: _ => Some (instance_id, connection_id)
  | _ => None
  end.

Definition active_data (raw : option str) : res dict :=
  match some_text raw with
  | Some raw =>
      if bool_decide (raw = u "1") then Ok []
      else match json_loads raw with
           | Ok (JObj d) => Ok d
           | Ok _ => Err OtherError
           | Err _ => Ok []
           end
  | None => Ok []
  end.

Definition active_item (instance_id connection_id : str) (data : dict) : res dict :=
  let field k := dict_get_or k JNull data in
  qd ← match field (u "quality_detail") with JObj d => quality_detail d | _ => Ok JNull end;
  port ← match field (u "server_port") with JNull => Ok JNull | v => JInt <$> py_int v end;
  active_session_out [
    (u "instance_id", if truthy (field (u "instance_id")) then field (u "instance_id") else JStr instance_id);
    (u "connection_id", JStr connection_id);
    (u "username", field (u "username"));
    (u "server_display", field (u "server_display"));
    (u "server_address", field (u "server_address"));
    (u "server_port", port);
    (u "client_ip", field (u "client_ip"));
    (u "started_at", field (u "started_at"));
    (u "connection_quality", field (u "connection_quality"));
    (u "quality_detail", qd)].

Fixpoint active_each (now : Z) (ks : list str) : io (world R) (list dict) :=
  match ks with
  | [] => mret []
  | k :: ks' =>
      match key_parts k with
      | None => active_each now ks'
      | Some (instance_id, connection_id) =>
          raw ← client_get now k;
          data ← io_lift (active_data raw);
          item ← io_lift (active_item instance_id connection_id data);
          rest ← active_each now ks';
          mret (item :: rest)
      end
  end.
Definition active_sessions (now : Z) : io (world R) (list dict) :=
  ks ← client_scan now ACTIVE_SCAN; active_each now ks.

(** ** Kill *)

Definition killed (reason : str) (r : ConnectionHistory) : ConnectionHistory := {|
  h_id := h_id r; h_instance_id := h_instance_id r; h_username := h_username r; h_server_id := h_server_id r;
  h_server_display := h_server_display r; h_server_address := h_server_address r; h_server_port := h_server_port r;
  h_client_ip := h_client_ip r; h_started_at := h_started_at r; h_ended_at := h_ended_at r;
  h_bytes_to_client := h_bytes_to_client r; h_bytes_to_backend := h_bytes_to_backend r;
  h_disconnect_reason := Some reason; h_status := u "killed" |}.

(** The kill signal, the active key, and the token behind the connection. *)
Definition revoke (now : Z) (connection_id active_key : str) : io (world R) unit :=
  _ ← client_setex now (KILL_SESSION connection_id) KILL_TTL (u "1");
  _ ← client_delete now [active_key];
  raw_token ← client_get now (CONN_TOKEN connection_id);
  match some_text raw_token with
  | Some token =>
      _ ← client_delete now [TOKEN token];
      client_delete now [CONN_TOKEN connection_id]
  | None => mret tt
  end.

Definition mark_killed (cid : uuid) (reason : str) : io state unit :=
  on_db (
    _ ← on_history (db_update (K := uuid)
          (λ r, bool_decide (h_id r = cid) && bool_decide (h_status r = u "active")) (killed reason));
    mret tt).

Definition kill_session (instance_id : str) (now : Z) (connection_id : str) : io state unit :=
  match uuid_of_str connection_id with
  | Err _ => io_raise (HTTPException 400)
  | Ok cid =>
      _ ← on_redis (revoke now connection_id (ACTIVE_SESSION instance_id connection_id));
      mark_killed cid (u "admin_kill")
  end.

(** The session of the database is closed without a commit: what it changed is
    undone, what Redis was told is not. *)
Definition rollback_db {A} (m : io state A) : io state A := λ s,
  match m s with
  | (Ok a, s') => (Ok a, s')
  | (Err e, s') => (Err e, Tracking (tr_redis s') (tr_db s) (tr_faults s'))
  end.

Fixpoint kill_each (now : Z) (ks : list str) (count : Z) : io state Z :=
  match ks with
  | [] => mret count
  | k :: ks' =>
      match key_parts k with
      | None => kill_each now ks' count
      | Some (_, connection_id) =>
          _ ← on_redis (revoke now connection_id k);
          cid ← io_lift (uuid_of_str connection_id);
          _ ← mark_killed cid (u "admin_kill_all");
          kill_each now ks' (count + 1)
      end
  end.
Definition kill_all_sessions (now : Z) : io state Z :=
  ks ← on_redis (client_scan now ACTIVE_SCAN); rollback_db (kill_each now ks 0).
End Routes.

(** ** Lemmas *)

#[local] Opaque u.

Definition active_prefix : str := u "rdp:active:".

Lemma active_session_prefix iid c : starts_with active_prefix (ACTIVE_SESSION iid c) = true.
Proof. apply starts_with_app. Qed.

Lemma kill_session_inj c c' : KILL_SESSION c = KILL_SESSION c' → c = c'.
Proof. unfold KILL_SESSION. intros E%app_inv_head. exact E. Qed.

Lemma active_key_ne k : starts_with active_prefix k = true →
  (∀ c, k ≠ KILL_SESSION c) ∧ (∀ c, k ≠ CONN_TOKEN c) ∧ (∀ t, k ≠ TOKEN t).
Proof.
  intros (k' & ->)%starts_with_spec.
  repeat split; intros c H; unfold KILL_SESSION, CONN_TOKEN, TOKEN in H; vm_compute in H; discriminate.
Qed.

Lemma web_session_ne sid :
  (∀ iid c, WEB_SESSION sid ≠ ACTIVE_SESSION iid c) ∧ (∀ c, WEB_SESSION sid ≠ KILL_SESSION c)
  ∧ (∀ c, WEB_SESSION sid ≠ CONN_TOKEN c) ∧ (∀ t, WEB_SESSION sid ≠ TOKEN t).
Proof. repeat split; intros *; key_ne. Qed.

Lemma active_session_instance i i' c : ACTIVE_SESSION i c = ACTIVE_SESSION i' c → i = i'.
Proof. intros E. apply app_inv_head in E. by apply app_inv_tail in E. Qed.

#[local] Opaque TOKEN CONN_TOKEN KILL_SESSION ACTIVE_SESSION WEB_SESSION.

(** Keys that differ, by their prefixes or by what is known of them. *)
Ltac other_key :=
  match goal with
  | |- KILL_SESSION _ ≠ KILL_SESSION _ => assumption
  | |- ?x ≠ _ => is_var x; first [assumption | match goal with H : ∀ c, x ≠ _ |- _ => apply H end]
  | |- _ ≠ ?y => is_var y; first [apply not_eq_sym; assumption | match goal with H : ∀ c, y ≠ _ |- _ => apply not_eq_sym, H end]
  | |- _ => key_ne
  end.

(** The live keys after [revoke]. *)
Definition revoked (now : Z) (connection_id active_key : str) (m : gmap str entry) : gmap str entry :=
  let m := delete active_key (<[KILL_SESSION connection_id := Entry (u "1") (Some (now + 1000 * KILL_TTL))]> m) in
  match some_text (e_value <$> m !! CONN_TOKEN connection_id) with
  | Some token => delete (CONN_TOKEN connection_id) (delete (TOKEN token) m)
  | None => m
  end.

(** A row that [mark_killed] changes. *)
Definition active_in (ids : list uuid) (r : ConnectionHistory) : bool :=
  bool_decide (h_id r ∈ ids) && bool_decide (h_status r = u "active").

Lemma killed_fits reason r : history_fits r = true → text_fits 128 reason = true → history_fits (killed reason r) = true.
Proof.
  unfold history_fits, killed. simpl. rewrite !andb_true_iff. intuition.
Qed.

Section RevokeLaws.
Context {R : Type} `{RedisLaws R}.
Implicit Types (w : world R) (m : gmap str entry).

Lemma revoke_run now connection_id active_key w :
  w_env w = [] →
  ∃ r', revoke now connection_id active_key w = (Ok tt, with_store w r')
    ∧ live now r' = revoked now connection_id active_key (live now (w_store w)).
Proof.
  intros Hw. unfold revoke.
  destruct (client_setex_alone now (KILL_SESSION connection_id) KILL_TTL (u "1") w Hw ltac:(unfold KILL_TTL; lia))
    as (r1 & E1 & L1).
  rewrite io_bind_run, E1, io_bind_run, client_delete_alone by done.
  rewrite io_bind_run, client_get_alone by done. cbn [w_store with_store].
  rewrite delete_live, L1. cbn [foldr]. unfold revoked. cbv zeta.
  destruct (some_text _) as [token|].
  - rewrite io_bind_run, !client_delete_alone by done. eexists. split; [reflexivity|].
    cbn [w_store with_store]. rewrite !delete_live, L1. done.
  - eexists. split; [reflexivity|]. cbn [w_store with_store]. rewrite delete_live, L1. done.
Qed.

Lemma revoked_kill now cid k m :
  (∀ c, k ≠ KILL_SESSION c) →
  revoked now cid k m !! KILL_SESSION cid = Some (Entry (u "1") (Some (now + 1000 * KILL_TTL))).
Proof.
  intros Hk. unfold revoked. cbv zeta.
  destruct (some_text _) as [t|]; rewrite !lookup_delete_ne by other_key; apply lookup_insert_eq.
Qed.

(** A kill signal that is there stays, a key that is gone stays gone. *)
Lemma revoked_other_kill now cid cid' k m :
  (∀ c, k ≠ KILL_SESSION c) → cid ≠ cid' → revoked now cid k m !! KILL_SESSION cid' = m !! KILL_SESSION cid'.
Proof.
  intros Hk Hne. unfold revoked. cbv zeta.
  assert (KILL_SESSION cid ≠ KILL_SESSION cid') as Hkk.
  { intros E%kill_session_inj. exact (Hne E). }
  assert (delete k (<[KILL_SESSION cid := Entry (u "1") (Some (now + 1000 * KILL_TTL))]> m) !! KILL_SESSION cid'
    = m !! KILL_SESSION cid') as Hd by (rewrite lookup_delete_ne, lookup_insert_ne by other_key; reflexivity).
  destruct (some_text _) as [t|]; [|exact Hd]. rewrite 2!lookup_delete_ne by other_key. exact Hd.
Qed.

Lemma revoked_gone now cid k k' m :
  (∀ c, k' ≠ KILL_SESSION c) → m !! k' = None → revoked now cid k m !! k' = None.
Proof.
  intros Hk Hm. unfold revoked. cbv zeta.
  assert (∀ v, delete k (<[KILL_SESSION cid := v]> m) !! k' = None) as Hd.
  { intros v. apply lookup_delete_None. right. rewrite lookup_insert_ne by (apply not_eq_sym, Hk). exact Hm. }
  destruct (some_text _) as [t|]; [|apply Hd]. do 2 (apply lookup_delete_None; right). apply Hd.
Qed.

Lemma revoked_active now cid k m : (∀ c, k ≠ KILL_SESSION c) → revoked now cid k m !! k = None.
Proof.
  intros Hk. unfold revoked. cbv zeta.
  destruct (some_text _) as [t|]; [|apply lookup_delete_eq]. do 2 (apply lookup_delete_None; right). apply lookup_delete_eq.
Qed.

(** The token behind the connection is gone, and so is the link to it. *)
Lemma revoked_token now cid k m token d :
  (∀ t, k ≠ TOKEN t) → (∀ c, k ≠ CONN_TOKEN c) → token ≠ [] → m !! CONN_TOKEN cid = Some (Entry token d) →
  revoked now cid k m !! TOKEN token = None ∧ revoked now cid k m !! CONN_TOKEN cid = None.
Proof.
  intros Hk Hk' Ht Hm. unfold revoked. cbv zeta.
  rewrite lookup_delete_ne, lookup_insert_ne by other_key. rewrite Hm. cbn [fmap option_fmap option_map e_value].
  destruct token as [|c token]; [done|]. cbn [some_text].
  split; [apply lookup_delete_None; right|]; apply lookup_delete_eq.
Qed.

(** Other keys stay. *)
Lemma revoked_frame now cid k k' m :
  k' ≠ k → k' ≠ KILL_SESSION cid → k' ≠ CONN_TOKEN cid → (∀ t, k' ≠ TOKEN t) →
  revoked now cid k m !! k' = m !! k'.
Proof.
  intros H1 H2 H3 H4. unfold revoked. cbv zeta.
  assert (delete k (<[KILL_SESSION cid := Entry (u "1") (Some (now + 1000 * KILL_TTL))]> m) !! k' = m !! k') as Hd.
  { rewrite lookup_delete_ne by (apply not_eq_sym; exact H1). apply lookup_insert_ne, not_eq_sym. exact H2. }
  destruct (some_text _) as [t|]; [|exact Hd].
  rewrite lookup_delete_ne by (apply not_eq_sym; exact H3).
  rewrite lookup_delete_ne by (apply not_eq_sym, H4). exact Hd.
Qed.
End RevokeLaws.

(** The connection a key names: the text of its identifier, and the identifier. *)
Definition target (k : str) : option (str * uuid) :=
  match key_parts k with
  | Some (_, connection_id) => match uuid_of_str connection_id with Ok id => Some (connection_id, id) | Err _ => None end
  | None => None
  end.
Definition revoked_target (now : Z) (m : gmap str entry) (k : str) : gmap str entry :=
  match target k with Some (connection_id, _) => revoked now connection_id k m | None => m end.
Definition target_ids (ks : list str) : list uuid := omap (λ k, snd <$> target k) ks.

(** A key the loop passes over, or one whose connection it kills. *)
Definition sane (k : str) : Prop := starts_with active_prefix k = true ∧ (key_parts k = None ∨ is_Some (target k)).

Lemma target_None k : key_parts k = None → target k = None.
Proof. unfold target. by intros ->. Qed.

(** The first key of a list that stops the loop. *)
Lemma first_poisoned ks :
  (∀ k, k ∈ ks → starts_with active_prefix k = true) →
  (∃ k i t, k ∈ ks ∧ key_parts k = Some (i, t) ∧ is_ok (uuid_of_str t) = false) →
  ∃ ks1 k ks2 i t e, ks = ks1 ++ k :: ks2 ∧ Forall sane ks1 ∧ key_parts k = Some (i, t) ∧ uuid_of_str t = Err e.
Proof.
  induction ks as [|k ks IH]; intros Hp (k' & i & t & Hin & Hk & Ht); [by apply not_elem_of_nil in Hin|].
  assert (sane k ∨ ∃ i t e, key_parts k = Some (i, t) ∧ uuid_of_str t = Err e) as [Hsane|(i' & t' & e & Hk' & Ht')].
  { unfold sane, target. destruct (key_parts k) as [[i' t']|]; [|left; split; [apply Hp; constructor | by left]].
    destruct (uuid_of_str t') as [id|e] eqn:E; [left; split; [apply Hp; constructor | right; eauto] | right; eauto 6]. }
  - apply elem_of_cons in Hin as [->|Hin].
    { exfalso. destruct Hsane as [_ [Hn|[[c id] Htg]]]; [congruence|]. unfold target in Htg. rewrite Hk in Htg.
      by destruct (uuid_of_str t). }
    destruct IH as (ks1 & k1 & ks2 & i1 & t1 & e & -> & HF & H1 & H2).
    { intros k1 Hk1. apply Hp. by constructor. }
    { eauto 6. }
    exists (k :: ks1), k1, ks2, i1, t1, e. repeat split; try done. by constructor.
  - exists [], k, ks, i', t', e. repeat split; try done.
Qed.

Section KillLaws.
Context {R DS DH DE : Type} `{RedisLaws R}
  `{!Table uuid RdpServer DS} `{!TableLaws uuid RdpServer DS}
  `{!Table uuid ConnectionHistory DH} `{!TableLaws uuid ConnectionHistory DH}
  `{!Log ConnectionEvent DE} `{!LogLaws ConnectionEvent DE event_fits}.
Implicit Types (s : tracking R DS DH DE).

Lemma mark_killed_run cid reason s :
  settled s → text_fits 128 reason = true →
  ∃ s', mark_killed cid reason s = (Ok tt, s') ∧ settled s' ∧ tr_redis s' = tr_redis s
    ∧ history_of s' = update_rows (active_in [cid]) (killed reason) (history_of s).
Proof.
  intros ((Hf & Hw) & Hk & Hfit) Hr. unfold mark_killed. rewrite on_db_run, io_bind_run by done. unfold on_history, io_zoom.
  destruct (update_law (λ r, bool_decide (h_id r = cid) && bool_decide (h_status r = u "active")) (killed reason)
    (td_history (tr_db s))) as (h & -> & Hh).
  { done. }
  { intros k r Hkr _. apply killed_fits; [by apply (Hfit k) | done]. }
  { exact I. }
  assert (rows h = update_rows (active_in [cid]) (killed reason) (history_of s)) as E.
  { rewrite Hh. apply map_eq. intros k. rewrite !lookup_update_rows. unfold history_of.
    destruct (rows (td_history (tr_db s)) !! k) as [r|]; [|done]. cbn [fmap option_fmap option_map]. unfold active_in.
    by rewrite (bool_decide_ext (h_id r ∈ [cid]) (h_id r = cid)) by apply list_elem_of_singleton. }
  eexists. split; [reflexivity|]. unfold settled, orderly_rows. cbn [tr_redis tr_faults]. split; [|split; [done | exact E]].
  unfold history_of at 1 2. cbn [tr_db td_history]. rewrite E. split; [done|]. split.
  - apply keyed_update; [exact Hk | done].
  - intros k r. rewrite lookup_update_rows. destruct (history_of s !! k) as [r0|] eqn:E0; [|done].
    cbn [fmap option_fmap option_map]. intros [= <-]. pose proof (Hfit k r0 E0).
    destruct (active_in [cid] r0); [by apply killed_fits | done].
Qed.

Lemma update_rows_ids cid ids reason (m : gmap uuid ConnectionHistory) :
  update_rows (active_in ids) (killed reason) (update_rows (active_in [cid]) (killed reason) m)
  = update_rows (active_in (cid :: ids)) (killed reason) m.
Proof.
  apply map_eq. intros k. rewrite !lookup_update_rows. destruct (m !! k) as [r|]; [|done].
  cbn [fmap option_fmap option_map]. f_equal. unfold active_in.
  destruct (decide (h_status r = u "active")) as [Ha|Ha].
  - rewrite (bool_decide_eq_true_2 _ Ha), !andb_true_r.
    destruct (decide (h_id r = cid)) as [He|He].
    + rewrite (bool_decide_eq_true_2 (h_id r ∈ [cid])), (bool_decide_eq_true_2 (h_id r ∈ cid :: ids))
        by (rewrite He; constructor).
      cbn [h_id h_status killed]. rewrite (bool_decide_eq_false_2 (u "killed" = u "active")).
      { by rewrite andb_false_r. }
      intros E; vm_compute in E; discriminate.
    + rewrite (bool_decide_eq_false_2 (h_id r ∈ [cid])) by (by rewrite list_elem_of_singleton).
      rewrite (bool_decide_eq_true_2 _ Ha), andb_true_r.
      by rewrite (bool_decide_ext (h_id r ∈ cid :: ids) (h_id r ∈ ids)) by (rewrite elem_of_cons; tauto).
  - by rewrite (bool_decide_eq_false_2 _ Ha), !andb_false_r, (bool_decide_eq_false_2 _ Ha), andb_false_r.
Qed.

Lemma on_revoke_run now cid k s :
  settled s →
  ∃ s', on_redis (revoke now cid k) s = (Ok tt, s') ∧ settled s' ∧ tr_db s' = tr_db s
    ∧ keys_of now s' = revoked now cid k (keys_of now s).
Proof.
  intros ((Hf & Hw) & Hs). rewrite on_redis_run by done.
  destruct (revoke_run now cid k (tr_redis s) Hw) as (r' & -> & L).
  eexists. split; [reflexivity|]. unfold settled, keys_of. cbn [fst snd tr_redis tr_db tr_faults w_store with_store w_env]. done.
Qed.

(** Killing the connections of a list of keys, one after the other. *)
Lemma kill_each_run now ks count s :
  settled s → Forall sane ks →
  ∃ s', (∀ ks', kill_each now (ks ++ ks') count s = kill_each now ks' (count + Z.of_nat (length (target_ids ks))) s')
    ∧ settled s'
    ∧ history_of s' = update_rows (active_in (target_ids ks)) (killed (u "admin_kill_all")) (history_of s)
    ∧ keys_of now s' = foldl (revoked_target now) (keys_of now s) ks.
Proof.
  intros Hs HF. revert count s Hs. induction HF as [|k ks [Hk Hkt] _ IH]; intros count s Hs.
  - exists s. split; [intros ks'; cbn [app length]; by rewrite Z.add_0_r|]. split; [done|].
    split; [|done]. symmetry. apply update_rows_none. intros k r _. unfold active_in, target_ids. cbn [omap list_omap].
    by rewrite bool_decide_eq_false_2 by apply not_elem_of_nil.
  - destruct Hkt as [Hp|[[c id] Ht]].
    { destruct (IH count s Hs) as (s' & E & Hs' & Hh & Hks). pose proof (target_None k Hp) as Ht. exists s'.
      unfold target_ids. cbn [omap list_omap foldl]. unfold revoked_target at 2. rewrite Ht. split; [|done].
      intros ks'. cbn [app kill_each]. rewrite Hp. apply E. }
    assert (∃ i, key_parts k = Some (i, c) ∧ uuid_of_str c = Ok id) as (i & Hp & Hu).
    { unfold target in Ht. destruct (key_parts k) as [[i c']|]; [|done].
      destruct (uuid_of_str c') as [id'|] eqn:E; [|done]. injection Ht as -> ->. eauto. }
    destruct (on_revoke_run now c k s Hs) as (s1 & E1 & Hs1 & Hd1 & Hk1).
    destruct (mark_killed_run id (u "admin_kill_all") s1 Hs1 ltac:(vm_compute; reflexivity)) as (s2 & E2 & Hs2 & Hr2 & Hh2).
    destruct (IH (count + 1) s2 Hs2) as (s' & E & Hs' & Hh & Hks). exists s'.
    assert (target_ids (k :: ks) = id :: target_ids ks) as Eids by (unfold target_ids; cbn [omap list_omap]; by rewrite Ht).
    rewrite Eids. split; [|split; [done|split]].
    + intros ks'. cbn [app kill_each]. rewrite Hp, io_bind_run, E1, io_bind_run. unfold io_lift. rewrite Hu, io_bind_run, E2, E.
      f_equal. cbn [length]. lia.
    + rewrite Hh, Hh2, update_rows_ids. unfold history_of. by rewrite Hd1.
    + rewrite Hks. cbn [foldl]. unfold revoked_target at 3. rewrite Ht, <- Hk1. unfold keys_of. by rewrite Hr2.
Qed.

Lemma kill_session_run iid now text id s :
  settled s → uuid_of_str text = Ok id →
  ∃ s', kill_session iid now text s = (Ok tt, s') ∧ settled s'
    ∧ history_of s' = update_rows (active_in [id]) (killed (u "admin_kill")) (history_of s)
    ∧ keys_of now s' = revoked now text (ACTIVE_SESSION iid text) (keys_of now s).
Proof.
  intros Hs Hu. unfold kill_session. rewrite Hu, io_bind_run.
  destruct (on_revoke_run now text (ACTIVE_SESSION iid text) s Hs) as (s1 & -> & Hs1 & Hd1 & Hk1).
  destruct (mark_killed_run id (u "admin_kill") s1 Hs1 ltac:(vm_compute; reflexivity)) as (s2 & -> & Hs2 & Hr2 & Hh2).
  exists s2. split; [done|]. split; [done|]. split.
  - rewrite Hh2. unfold history_of. by rewrite Hd1.
  - rewrite <- Hk1. unfold keys_of. by rewrite Hr2.
Qed.

(** *** All of them *)

Lemma revoked_target_gone now k k' m :
  (∀ c, k' ≠ KILL_SESSION c) → m !! k' = None → revoked_target now m k !! k' = None.
Proof.
  intros Hk Hm. unfold revoked_target. destruct (target k) as [[c id]|]; [by apply revoked_gone | done].
Qed.

Lemma revoked_targets_gone now ks k' m :
  (∀ c, k' ≠ KILL_SESSION c) → (m !! k' = None ∨ (k' ∈ ks ∧ is_Some (target k'))) →
  foldl (revoked_target now) m ks !! k' = None.
Proof.
  intros Hne. revert m. induction ks as [|k ks IH]; intros m Hor; cbn [foldl].
  { destruct Hor as [Hm|[Hin _]]; [done | by apply not_elem_of_nil in Hin]. }
  apply IH. destruct Hor as [Hm|[Hin HF]]; [left; by apply revoked_target_gone|].
  apply elem_of_cons in Hin as [->|Hin]; [left | right; by split].
  destruct HF as [[c id] Ht]. unfold revoked_target. rewrite Ht. by apply revoked_active.
Qed.

Lemma revoked_targets_kill now ks c m :
  Forall sane ks →
  (m !! KILL_SESSION c = Some (Entry (u "1") (Some (now + 1000 * KILL_TTL))) ∨ ∃ k id, k ∈ ks ∧ target k = Some (c, id)) →
  foldl (revoked_target now) m ks !! KILL_SESSION c = Some (Entry (u "1") (Some (now + 1000 * KILL_TTL))).
Proof.
  intros HF. revert m. induction HF as [|k ks [Hk Hkt] _ IH]; intros m Hor; cbn [foldl].
  { destruct Hor as [Hm|(k & id & Hin & _)]; [done | by apply not_elem_of_nil in Hin]. }
  apply IH. unfold revoked_target. destruct (target k) as [[c' id']|] eqn:Ht.
  2: { destruct Hor as [Hm|(k1 & id & Hin & Ht1)]; [by left|]. apply elem_of_cons in Hin as [->|Hin]; [congruence | right; eauto]. } destruct (active_key_ne k Hk) as (Hnk & _).
  destruct (decide (c' = c)) as [->|Hc]; [left; by apply revoked_kill|].
  rewrite revoked_other_kill by done. destruct Hor as [Hm|(k1 & id & Hin & Ht1)]; [by left|].
  apply elem_of_cons in Hin as [->|Hin]; [congruence | right; eauto].
Qed.

Lemma revoked_targets_frame now ks k' m :
  (∀ c, k' ≠ KILL_SESSION c) → (∀ c, k' ≠ CONN_TOKEN c) → (∀ t, k' ≠ TOKEN t) → k' ∉ ks →
  foldl (revoked_target now) m ks !! k' = m !! k'.
Proof.
  intros H1 H2 H3. revert m. induction ks as [|k ks IH]; intros m Hin; cbn [foldl]; [done|].
  apply not_elem_of_cons in Hin as [Hne Hin]. rewrite IH by exact Hin. unfold revoked_target.
  destruct (target k) as [[c id]|]; [|done].
  apply revoked_frame; [exact Hne | apply H1 | apply H2 | exact H3].
Qed.

Lemma scan_active now k (w : world R) :
  w_env w = [] →
  k ∈ redis_scan now ACTIVE_SCAN (w_store w) ↔ is_Some (live now (w_store w) !! k) ∧ starts_with active_prefix k = true.
Proof.
  intros Hw. replace ACTIVE_SCAN with (active_prefix ++ u "*") by (vm_compute; reflexivity).
  apply scan_live. apply literal_text. vm_compute; reflexivity.
Qed.

Lemma kill_all_run now s :
  settled s →
  kill_all_sessions now s = rollback_db (kill_each now (redis_scan now ACTIVE_SCAN (w_store (tr_redis s))) 0) s.
Proof.
  intros ((Hf & Hw) & _). unfold kill_all_sessions. rewrite io_bind_run, on_redis_run by done.
  rewrite client_scan_alone by done. destruct s. cbn in *. by subst.
Qed.
End KillLaws.

(** ** Properties *)


Definition demo_active : tracking store (gmap uuid RdpServer) (gmap uuid ConnectionHistory) (list ConnectionEvent) :=
  Tracking (quiet (<[CONN_TOKEN (uuid_str 7%N) := Entry (u "T1") None]>
                    {[ ACTIVE_SESSION (u "node-1") (uuid_str 7%N) := Entry (u "1") None ]}))
    (TrackingDb ∅ {[ 7%N := active_row demo_tracker 1000 7%N (u "ivan") None None (u "10.0.0.5") 3389 (u "203.0.113.7") ]} []) [].

Lemma demo_active_settled : settled demo_active.
Proof.
  split; [done|]. unfold orderly_rows.
  change (history_of demo_active) with ({[ 7%N := active_row demo_tracker 1000 7%N (u "ivan") None None (u "10.0.0.5") 3389
    (u "203.0.113.7") ]} : gmap uuid ConnectionHistory).
  split; apply map_Forall_singleton; vm_compute; reflexivity.
Qed.


(** Killing all leaves no live active key that names a connection, of
    whichever instance, a kill signal for each of the connections they named, and
    every row of the history that was active under one of them killed; all other
    rows stay. The hypothesis is that the fourth part of an active key, if there
    is one, is an identifier. *)
Theorem kill_all_effect {R DS DH DE : Type} `{RedisLaws R}
    `{!Table uuid RdpServer DS} `{!TableLaws uuid RdpServer DS}
    `{!Table uuid ConnectionHistory DH} `{!TableLaws uuid ConnectionHistory DH}
    (now : Z) (s : tracking R DS DH DE) :
  settled s →
  (∀ k, is_Some (keys_of now s !! k) → starts_with active_prefix k = true → key_parts k = None ∨ is_Some (target k)) →
  ∃ n s' ids, kill_all_sessions now s = (Ok n, s')
    ∧ (∀ k, starts_with active_prefix k = true → is_Some (target k) → keys_of now s' !! k = None)
    ∧ (∀ k text id, is_Some (keys_of now s !! k) → starts_with active_prefix k = true → target k = Some (text, id) →
         id ∈ ids ∧ keys_of now s' !! KILL_SESSION text = Some (Entry (u "1") (Some (now + 60000))))
    ∧ history_of s' = update_rows (active_in ids) (killed (u "admin_kill_all")) (history_of s)
    ∧ (∀ sid, keys_of now s' !! WEB_SESSION sid = keys_of now s !! WEB_SESSION sid).
Proof.
  intros Hs Hall. rewrite kill_all_run by exact Hs.
  set (ks := redis_scan now ACTIVE_SCAN (w_store (tr_redis s))).
  assert (∀ k, k ∈ ks ↔ is_Some (keys_of now s !! k) ∧ starts_with active_prefix k = true) as Hks
    by (intros k; apply scan_active, Hs).
  assert (Forall sane ks) as HF.
  { apply Forall_forall. intros k [Hk Hp]%Hks. split; [exact Hp | by apply Hall]. }
  destruct (kill_each_run now ks 0 s Hs HF) as (s' & E & _ & Hh & Hk).
  exists (0 + Z.of_nat (length (target_ids ks))), s', (target_ids ks). unfold rollback_db.
  specialize (E []). rewrite app_nil_r in E. rewrite E. split; [done|]. rewrite Hk. split; [|split; [|split]].
  - intros k Hp Ht. destruct (active_key_ne k Hp) as (N1 & _). apply revoked_targets_gone; [exact N1|].
    destruct (keys_of now s !! k) as [e|] eqn:Ek; [right | by left]. split; [|done]. apply Hks. by rewrite Ek.
  - intros k text id Hl Hp Ht. split.
    + unfold target_ids. apply list_elem_of_omap. exists k. rewrite Ht. split; [by apply Hks | done].
    + apply (revoked_targets_kill now ks text); [done|]. right. exists k, id. split; [by apply Hks | done].
  - exact Hh.
  - intros sid. destruct (web_session_ne sid) as (W1 & W2 & W3 & W4). apply revoked_targets_frame; [exact W2 | exact W3 | exact W4|].
    intros [_ Hp]%Hks. apply starts_with_spec in Hp as [k' Hp]. revert Hp. key_ne.
Qed.

Lemma kill_all_effect_witness :
  ∃ n s' ids, kill_all_sessions 2000 demo_active = (Ok n, s')
    ∧ (∀ k, starts_with active_prefix k = true → is_Some (target k) → keys_of 2000 s' !! k = None)
    ∧ (∀ k text id, is_Some (keys_of 2000 demo_active !! k) → starts_with active_prefix k = true →
         target k = Some (text, id) →
         id ∈ ids ∧ keys_of 2000 s' !! KILL_SESSION text = Some (Entry (u "1") (Some (2000 + 60000))))
    ∧ history_of s' = update_rows (active_in ids) (killed (u "admin_kill_all")) (history_of demo_active)
    ∧ (∀ sid, keys_of 2000 s' !! WEB_SESSION sid = keys_of 2000 demo_active !! WEB_SESSION sid).
Proof.
  apply (kill_all_effect 2000 demo_active).
  - exact demo_active_settled.
  - intros k [e Hk]. change (live 2000 (w_store (tr_redis demo_active)) !! k = Some e) in Hk.
    change (live 2000 (w_store (tr_redis demo_active))) with (live_map 2000 (w_store (tr_redis demo_active))) in Hk.
    rewrite lookup_live_map in Hk. unfold map_get in Hk. apply bind_Some in Hk as (e' & Hk & _).
    cbn [w_store tr_redis demo_active quiet] in Hk. apply lookup_insert_Some in Hk as [[<- _]|[_ Hk]].
    + vm_compute. discriminate.
    + apply lookup_singleton_Some in Hk as [<- _]. intros _. right. vm_compute. eauto.
Defined.

(** One active key whose fourth part is not an identifier - an instance
    whose name has a colon writes such keys - and the administrator cannot kill
    all any more: the request fails, the database is as it was, and what was
    done in Redis before the failure stays done. *)
Theorem kill_all_poisoned {R DS DH DE : Type} `{RedisLaws R}
    `{!Table uuid RdpServer DS} `{!TableLaws uuid RdpServer DS}
    `{!Table uuid ConnectionHistory DH} `{!TableLaws uuid ConnectionHistory DH}
    (now : Z) (s : tracking R DS DH DE) (k instance_id text : str) :
  settled s → is_Some (keys_of now s !! k) → starts_with active_prefix k = true →
  key_parts k = Some (instance_id, text) → is_ok (uuid_of_str text) = false →
  ∃ e s' k', kill_all_sessions now s = (Err e, s') ∧ tr_db s' = tr_db s
    ∧ is_Some (keys_of now s !! k') ∧ keys_of now s' !! k' = None.
Proof.
  intros Hs Hk Hp Hparts Hbad. rewrite kill_all_run by exact Hs.
  set (ks := redis_scan now ACTIVE_SCAN (w_store (tr_redis s))).
  assert (∀ k, k ∈ ks ↔ is_Some (keys_of now s !! k) ∧ starts_with active_prefix k = true) as Hks
    by (intros k'; apply scan_active, Hs).
  destruct (first_poisoned ks) as (ks1 & k' & ks2 & i & t & e & Eks & HF & Ek' & Et).
  { intros k' Hk'. by apply Hks in Hk' as []. }
  { exists k, instance_id, text. split; [apply Hks; by split | done]. }
  assert (is_Some (keys_of now s !! k') ∧ starts_with active_prefix k' = true) as [Hk' Hp']
    by (apply Hks; rewrite Eks; apply elem_of_app; right; constructor).
  destruct (active_key_ne k' Hp') as (N1 & _).
  destruct (kill_each_run now ks1 0 s Hs HF) as (s1 & E1 & Hs1 & _).
  destruct (on_revoke_run now t k' s1 Hs1) as (s2 & E2 & _ & _ & Hk2).
  exists e, (Tracking (tr_redis s2) (tr_db s) (tr_faults s2)), k'. rewrite Eks. unfold rollback_db.
  rewrite E1. cbn [kill_each]. rewrite Ek', io_bind_run, E2, io_bind_run. unfold io_lift. rewrite Et.
  split; [done|]. split; [done|]. split; [exact Hk'|].
  change (keys_of now (Tracking (tr_redis s2) (tr_db s) (tr_faults s2))) with (keys_of now s2). rewrite Hk2.
  exact (revoked_active _ _ _ _ N1).
Qed.

(** A relay whose instance is called [a:b]. *)
Definition demo_poisoned : tracking store (gmap uuid RdpServer) (gmap uuid ConnectionHistory) (list ConnectionEvent) :=
  Tracking (quiet {[ ACTIVE_SESSION (u "a:b") (uuid_str 7%N) := Entry (u "1") None ]}) (TrackingDb ∅ ∅ []) [].

Lemma kill_all_poisoned_witness :
  ∃ e s' k', kill_all_sessions 2000 demo_poisoned = (Err e, s') ∧ tr_db s' = tr_db demo_poisoned
    ∧ is_Some (keys_of 2000 demo_poisoned !! k') ∧ keys_of 2000 s' !! k' = None.
Proof.
  apply (kill_all_poisoned 2000 demo_poisoned (ACTIVE_SESSION (u "a:b") (uuid_str 7%N)) (u "a") (u "b")).
  - split; [done|]. unfold orderly_rows. change (history_of demo_poisoned) with (∅ : gmap uuid ConnectionHistory).
    split; apply map_Forall_empty.
  - vm_compute. eauto.
  - apply active_session_prefix.
  - vm_compute. reflexivity.
  - vm_compute. reflexivity.
Defined.

(** The same query for another page. *)
Definition on_page (q : history_query) (i : nat) : history_query := {|
  hq_username := hq_username q; hq_server_id := hq_server_id q; hq_server_display := hq_server_display q;
  hq_server_address := hq_server_address q; hq_status := hq_status q; hq_client_ip := hq_client_ip q;
  hq_disconnect_reason := hq_disconnect_reason q; hq_from := hq_from q; hq_to := hq_to q;
  hq_ended_from := hq_ended_from q; hq_ended_to := hq_ended_to q; hq_exclude_active := hq_exclude_active q;
  hq_page := i; hq_per_page := hq_per_page q |}.

(** Reading the pages of the history one after the other gives every
    matching connection, once, the newest first, as long as nobody writes in
    between and the pages are few enough to ask for. *)
Theorem history_pages {R DS DH DE : Type} `{!Redis R} `{!Table uuid RdpServer DS}
    `{!Table uuid ConnectionHistory DH} `{!TableLaws uuid ConnectionHistory DH} `{HistoryText}
    (q : history_query) (s : tracking R DS DH DE) (n : nat) :
  query_times q = Ok tt → (1 <= hq_per_page q <= 200)%nat → Z.of_nat n <= 10000 ->
  (length (history_rows q (td_history (tr_db s))) <= n * hq_per_page q)%nat →
  ∃ pages : list (list ConnectionHistory), length pages = n
    ∧ (∀ i page, pages !! i = Some page →
         sessions_history (on_page q (S i)) s
         = Ok (map history_item page, S i, hq_per_page q, length (history_rows q (td_history (tr_db s)))))
    ∧ concat pages = history_rows q (td_history (tr_db s))
    ∧ concat pages ≡ₚ (map_to_list (select_rows (selected q) (history_of s))).*2
    ∧ ordered (λ a b, h_started_at b <=? h_started_at a) (concat pages).
Proof.
  intros Hq Hper Hn Hlen. set (l := history_rows q (td_history (tr_db s))) in *.
  exists (pages_of n (hq_per_page q) l). rewrite concat_pages by exact Hlen.
  split; [apply length_pages|]. split; [|split; [done|split]].
  - intros i page Hpage. apply lookup_pages in Hpage as [Hi ->]. unfold sessions_history.
    change (query_times (on_page q (S i))) with (query_times q).
    change (history_rows (on_page q (S i)) (td_history (tr_db s))) with l. cbn [on_page hq_page hq_per_page].
    rewrite Hq. rewrite (proj2 (Nat.leb_le 1 (S i))), (proj2 (Nat.leb_le (S i) _)), (proj2 (Nat.leb_le 1 _)),
      (proj2 (Nat.leb_le _ 200)) by lia.
    cbn [negb andb mbind res_bind]. unfold page_of. repeat f_equal; lia.
  - unfold l, history_rows, newest_first. rewrite sorted_by_perm. apply select_law.
  - apply sorted_by_ordered; intros *; rewrite ?Z.leb_gt, ?Z.leb_le; lia.
Qed.

Definition demo_query : history_query := {|
  hq_username := [u "ivan"]; hq_server_id := []; hq_server_display := None; hq_server_address := Some (u "10.");
  hq_status := []; hq_client_ip := []; hq_disconnect_reason := None; hq_from := None; hq_to := None; hq_ended_from := None;
  hq_ended_to := None; hq_exclude_active := false; hq_page := 1; hq_per_page := 1 |}.
Definition prefix_text : HistoryText := {|
  fromisoformat _ := None; ilike pattern v := starts_with (removelast (tail pattern)) v |}.

Lemma history_pages_witness :
  ∃ pages : list (list ConnectionHistory), length pages = 2%nat
    ∧ (∀ i page, pages !! i = Some page →
         @sessions_history _ _ _ _ _ prefix_text (on_page demo_query (S i)) demo_active
         = Ok (map history_item page, S i, hq_per_page demo_query,
               length (@history_rows _ _ prefix_text demo_query (td_history (tr_db demo_active)))))
    ∧ concat pages = @history_rows _ _ prefix_text demo_query (td_history (tr_db demo_active))
    ∧ concat pages ≡ₚ (map_to_list (select_rows (@selected prefix_text demo_query) (history_of demo_active))).*2
    ∧ ordered (λ a b, h_started_at b <=? h_started_at a) (concat pages).
Proof.
  apply (@history_pages _ _ _ _ _ _ _ _ prefix_text demo_query demo_active 2).
  - reflexivity.
  - vm_compute; lia.
  - lia.
  - apply Nat.leb_le. vm_compute. reflexivity.
Defined.
Close Scope Z_scope.
