(* ===== verification/AdminActivity.v ===== *)
(** What passes between a running connection and the administration: the events
    that the relay writes, on the connection's page; the samples of the quality
    monitor, in the list of active sessions; and the kill, which goes the other way.
    The theorems compose [libs/redis_store/active_tracker.py],
    [services/rdp_relay/handler.py], [relay.py] and
    [plugins/connection_quality.py] with [services/admin/routes/sessions.py]. *)

From stdpp Require Import prelude gmap list strings.
From Stdlib Require Import ZArith Lia.
From Stdlib Require Strings.String.
From S2P Require Import Prelude PySeq PyBytes PyStr Json PyUuid Redis Keys Encryption Sessions Database Models Tracker Plugins Quality Relay Handler AdminSessions.

Open Scope Z_scope.

(** ** Notes of one connection *)

Section Notes.
Context {R DS DH DE : Type} `{Redis R} `{!Table uuid RdpServer DS}
  `{!Table uuid ConnectionHistory DH} `{!Log ConnectionEvent DE}.

(** The calls of [event] for one connection, in their order: clock, type, detail. *)
Fixpoint note_events (tk : ConnectionTracker) (connection_id : str) (notes : list (Z * str * dict)) : io (tracking R DS DH DE) unit :=
  match notes with
  | [] => mret tt
  | (now, ty, detail) :: notes' => _ ← event tk now connection_id ty detail; note_events tk connection_id notes'
  end.
End Notes.

Definition noted (id : uuid) (n : Z * str * dict) : ConnectionEvent :=
  {| ev_connection_id := id; ev_ts := n.1.1; ev_event_type := n.1.2; ev_detail := n.2 |}.

(** ** Lemmas *)

(** A list in strict order is the only one of its elements that is in order. *)
Lemma strict_order_unique {A} (key : A → Z) (l l' : list A) :
  ordered (λ x y, key x <? key y) l → ordered (λ x y, key x <=? key y) l' → (l ≡ₚ l') → l = l'.
Proof.
  revert l'. induction l as [|x l IH]; intros l' Hl Hl' Hp; [symmetry; by apply Permutation_nil|].
  destruct l' as [|y l']; [by apply Permutation_nil_r in Hp|]. cbn [ordered] in Hl, Hl'.
  destruct Hl as [Hx Hl], Hl' as [Hy Hl'].
  assert (x = y) as ->.
  { assert (x ∈ y :: l') as [->|Hxin]%elem_of_cons by (rewrite <- Hp; left); [done|].
    assert (y ∈ x :: l) as [->|Hyin]%elem_of_cons by (rewrite Hp; left); [done|].
    rewrite Forall_forall in Hx, Hy. specialize (Hx y Hyin). specialize (Hy x Hxin). cbn in Hx, Hy. lia. }
  f_equal. apply IH; [done | done | exact (Permutation_cons_inv Hp)].
Qed.

Lemma ordered_map {A B} (f : A → B) (le : B → B → bool) l : ordered (λ x y, le (f x) (f y)) l → ordered le (map f l).
Proof. induction l as [|x l IH]; [done|]. cbn [ordered map]. intros [Hx Hl]. split; [by apply Forall_map | by apply IH]. Qed.

Lemma filter_none {A} (p : A → bool) l : Forall (λ x, p x = false) l → List.filter p l = [].
Proof. induction 1 as [|x l Hx _ IH]; [done|]. cbn [List.filter]. by rewrite Hx. Qed.
Lemma filter_kept {A} (p : A → bool) l : Forall (λ x, p x = true) l → List.filter p l = l.
Proof. induction 1 as [|x l Hx _ IH]; [done|]. cbn [List.filter]. by rewrite Hx, IH. Qed.

Section NoteLaws.
Context {R DS DH DE : Type} `{RedisLaws R}
  `{!Table uuid RdpServer DS} `{!TableLaws uuid RdpServer DS}
  `{!Table uuid ConnectionHistory DH} `{!TableLaws uuid ConnectionHistory DH}
  `{!Log ConnectionEvent DE} `{!LogLaws ConnectionEvent DE event_fits}.
Implicit Types (s : tracking R DS DH DE).
Abbreviation events s := (log_rows (fits := event_fits) (td_events (tr_db s))).

Lemma note_events_run tk id notes s :
  tr_faults s = [] → has_db tk = true → (id < 2 ^ 128)%N → is_Some (history_of s !! id) →
  Forall (λ n, text_fits 64 n.1.2 = true) notes →
  ∃ s', note_events tk (uuid_str id) notes s = (Ok tt, s') ∧ tr_faults s' = [] ∧ tr_redis s' = tr_redis s ∧ history_of s' = history_of s
    ∧ events s' = events s ++ map (noted id) notes.
Proof.
  intros Hno Hdb Hid. revert s Hno. induction notes as [|[[now ty] detail] notes IH]; intros s Hno Hrow Hn.
  { exists s. by rewrite app_nil_r. }
  apply Forall_cons in Hn as [Hty Hn]. cbn [fst snd] in Hty.
  destruct (event_run tk now id ty detail s Hno Hdb Hid Hrow Hty) as (e & E & He).
  set (s1 := Tracking _ _ _) in E. destruct (IH s1 eq_refl Hrow Hn) as (s' & E' & Hf & Hr & Hh & Hev).
  exists s'. split; [cbn [note_events]; by rewrite io_bind_run, E|]. do 3 (split; [done|]).
  rewrite Hev. change (td_events (tr_db s1)) with e. rewrite He, <- app_assoc. done.
Qed.

(** What is read of one connection, in the order of time. *)
Lemma events_of_rows `{!LogQuery ConnectionEvent DE} `{!LogQueryLaws ConnectionEvent DE event_fits} id s :
  (map snd (events_of id s) ≡ₚ List.filter (λ e, bool_decide (ev_connection_id e = id)) (events s))
  ∧ ordered (λ a b, ev_ts a <=? ev_ts b) (map snd (events_of id s)).
Proof.
  unfold events_of. split.
  - rewrite <- log_select_law. exact (Permutation_map snd (sorted_by_perm _ _)).
  - apply (ordered_map snd). apply sorted_by_ordered; intros *; rewrite ?Z.leb_gt, ?Z.leb_le; lia.
Qed.
End NoteLaws.

(** *** The list of active sessions, key by key *)

Section ShownLaws.
Context {R : Type} `{RedisLaws R} `{SessionModels}.
Implicit Types (st : R).

Definition shown_session (raw : option str) (k : str) : res (option dict) :=
  match key_parts k with
  | None => Ok None
  | Some (instance_id, connection_id) => data ← active_data raw; item ← active_item instance_id connection_id data; Ok (Some item)
  end.
Definition shown_items (now : Z) st (ks : list str) : list dict :=
  omap (λ k, match shown_session (redis_get now k st) k with Ok o => o | Err _ => None end) ks.

Lemma active_each_run now ks st :
  Forall (λ k, is_ok (shown_session (redis_get now k st) k) = true) ks →
  active_each now ks (quiet st) = (Ok (shown_items now st ks), quiet st).
Proof.
  induction 1 as [|k ks Hk _ IH]; [done|]. unfold shown_items. cbn [active_each omap list_omap]. unfold shown_session in Hk |- * at 1.
  destruct (key_parts k) as [[i c]|]; [|exact IH].
  rewrite io_bind_run, client_get_alone by done. cbn [w_store quiet]. rewrite <- get_live, io_bind_run. unfold io_lift at 1.
  destruct (active_data _) as [data|e]; [|done]. rewrite io_bind_run. unfold io_lift at 1. cbn [mbind res_bind] in Hk.
  destruct (active_item i c data) as [item|e] eqn:E; [|done]. rewrite io_bind_run, IH. unfold mbind, res_bind. rewrite E. done.
Qed.

Lemma active_sessions_run now st :
  (∀ k, is_Some (live now st !! k) → starts_with active_prefix k = true → is_ok (shown_session (redis_get now k st) k) = true) →
  active_sessions now (quiet st) = (Ok (shown_items now st (redis_scan now ACTIVE_SCAN st)), quiet st).
Proof.
  intros Hall. unfold active_sessions. rewrite io_bind_run, client_scan_alone by done. cbn [w_store quiet].
  apply active_each_run. apply Forall_forall. intros k Hk. apply (scan_active now k (quiet st) eq_refl) in Hk as [Hk1 Hk2]. by apply Hall.
Qed.
End ShownLaws.

Lemma active_data_dumps d : json_ok (JObj d) → active_data (Some (json_dumps false (JObj d))) = Ok d.
Proof.
  intros Hok. unfold active_data. assert (some_text (Some (json_dumps false (JObj d))) = Some (json_dumps false (JObj d))) as -> by done.
  rewrite bool_decide_eq_false_2 by done. by rewrite json_loads_dumps.
Qed.

(** The entry of a record as [start] writes it, with a sample in it. *)
Lemma active_item_record `{SessionModels} tk now username display host port client_ip iid c r detail quality d :
  (∀ k, k ≠ u "connection_quality" → k ≠ u "quality_detail" →
     dict_get k d = dict_get k (active_payload tk now username display host port client_ip)) →
  dict_get (u "connection_quality") d = Some (JStr (rating_text r)) → dict_get (u "quality_detail") d = Some (JObj detail) →
  quality_detail detail = Ok quality → iid = tk_instance_id tk →
  active_item iid c d = active_session_out [
    (u "instance_id", JStr iid); (u "connection_id", JStr c); (u "username", JStr username);
    (u "server_display", json_str_opt display); (u "server_address", JStr host); (u "server_port", JInt port);
    (u "client_ip", JStr client_ip); (u "started_at", JStr (iso_utc now));
    (u "connection_quality", JStr (rating_text r)); (u "quality_detail", quality)].
Proof.
  intros Hd Hr Hq Hdet ->. unfold active_item, dict_get_or. cbv zeta. rewrite Hq, Hr.
  rewrite !Hd by (apply (bool_decide_eq_true_1 (_ ≠ _)); vm_compute; reflexivity).
  set (p := active_payload tk now username display host port client_ip).
  assert (dict_get (u "instance_id") p = Some (JStr (tk_instance_id tk))) as -> by reflexivity.
  assert (dict_get (u "server_port") p = Some (JInt port)) as -> by reflexivity.
  assert (dict_get (u "username") p = Some (JStr username)) as -> by reflexivity.
  assert (dict_get (u "server_display") p = Some (json_str_opt display)) as -> by reflexivity.
  assert (dict_get (u "server_address") p = Some (JStr host)) as -> by reflexivity.
  assert (dict_get (u "client_ip") p = Some (JStr client_ip)) as -> by reflexivity.
  assert (dict_get (u "started_at") p = Some (JStr (iso_utc now))) as -> by reflexivity.
  cbn [default from_option id]. rewrite Hdet.
  assert ((if truthy (JStr (tk_instance_id tk)) then JStr (tk_instance_id tk) else JStr (tk_instance_id tk)) = JStr (tk_instance_id tk)) as ->
    by (by destruct (truthy _)).
  reflexivity.
Qed.

(** The parts of the key of a connection of an instance whose name has no colon. *)
Lemma active_key_parts iid id : 58%N ∉ iid → key_parts (ACTIVE_SESSION iid (uuid_str id)) = Some (iid, uuid_str id).
Proof.
  intros Hi. unfold key_parts.
  assert (ACTIVE_SESSION iid (uuid_str id) = join_with [58%N] [u "rdp"; u "active"; iid; uuid_str id]) as ->.
  { reflexivity. }
  rewrite split_on_join; [done | done|]. repeat apply Forall_cons_2; try apply Forall_nil_2.
  - apply (bool_decide_eq_true_1 (_ ∉ _)). vm_compute. reflexivity.
  - apply (bool_decide_eq_true_1 (_ ∉ _)). vm_compute. reflexivity.
  - exact Hi.
  - apply uuid_str_not; lia.
Qed.

(** *** The signal of a kill *)

Section SignalLaws.
Context {R DS DH DE : Type} `{RedisLaws R} `{!Table uuid RdpServer DS} `{!TableLaws uuid RdpServer DS}
  `{!Table uuid ConnectionHistory DH} `{!TableLaws uuid ConnectionHistory DH} `{!Log ConnectionEvent DE}.
Implicit Types (c : conn R DS DH DE).

Lemma kill_seen now t cid v c :
  tr_faults (cn_tracking c) = [] → w_env (tr_redis (cn_tracking c)) = [] →
  live now (w_store (tr_redis (cn_tracking c))) !! KILL_SESSION cid = Some (Entry (u "1") (Some v)) → now <= t <= v →
  kill_key_set t cid c = (Ok true, c).
Proof.
  intros Hf Hw Hk Ht. unfold kill_key_set. rewrite io_bind_run. unfold on_store, on_tracking, io_zoom. rewrite on_redis_run by done.
  rewrite client_get_alone by exact Hw. rewrite (live_later now t) by lia. rewrite Hk. cbn [mbind option_bind].
  unfold alive. cbn [e_deadline]. rewrite (proj2 (Z.ltb_ge v t)) by lia.
  destruct c as [[w db fs] st wr ab cid' pl dn]. cbn in Hf |- *. by subst fs.
Qed.
End SignalLaws.

(** The poller of a connection is told to kill it, whenever it asks in that time. *)
Definition told_to_kill {R DS DH DE} `{Redis R} (cid : str) (from until : Z) (c : conn R DS DH DE) : Prop :=
  ∀ t mono, from <= t <= until → kill_requested t mono cid c = (Ok true, c).
(** A relay that was killed and ends in that time is put down to the administrator. *)
Definition put_down_to_admin {R DS DH DE} `{Redis R} (cid : str) (from until : Z) (c : conn R DS DH DE) : Prop :=
  ∀ mo r, from <= mo_end mo <= until → was_killed r = true → outcome_of mo cid r c = (Ok (u "killed", u "admin_kill"), c).

(** ** Properties *)

(** C8: a kill by the administrator reaches the relay. For the minute that the
    signal lives, the poller of the connection is told to kill it, whenever it
    asks; it then sets the event, after which the relay has at most five turns
    left; and a relay that ends so within the minute is recorded as killed by
    the administrator. *)
Theorem kill_ends_session {R DS DH DE S : Type} `{RedisLaws R}
    `{!Table uuid RdpServer DS} `{!TableLaws uuid RdpServer DS}
    `{!Table uuid ConnectionHistory DH} `{!TableLaws uuid ConnectionHistory DH} `{!Log ConnectionEvent DE}
    (plugins : list (RdpPlugin S)) (ctx : SessionContext) (iid : str) (now : Z) (id : uuid) (s : tracking R DS DH DE) :
  settled s → (id < 2 ^ 128)%N →
  ∃ s', kill_session iid now (uuid_str id) s = (Ok tt, s')
    ∧ ∀ c : conn R DS DH DE, cn_tracking c = s' →
      told_to_kill (uuid_str id) now (now + 60000) c ∧ put_down_to_admin (uuid_str id) now (now + 60000) c
      ∧ ∀ rs : relay_state S, r_kill rs = false →
          step plugins ctx true Local rs (set_kill rs)
          ∧ ∀ n rs', nsteps (any_step plugins ctx) n (set_kill rs) rs' → (n <= 5)%nat.
Proof.
  intros Hs Hid. destruct (kill_session_run iid now (uuid_str id) id s Hs (uuid_of_str_of id Hid)) as (s' & E & Hs' & _ & Hk).
  exists s'. split; [exact E|]. intros c Hc.
  assert (∀ t, now <= t <= now + 60000 → kill_key_set t (uuid_str id) c = (Ok true, c)) as Hseen.
  { intros t Ht. refine (kill_seen now t (uuid_str id) (now + 1000 * KILL_TTL) c _ _ _ _).
    - rewrite Hc. apply Hs'.
    - rewrite Hc. apply Hs'.
    - rewrite Hc. change (live now (w_store (tr_redis s'))) with (keys_of now s'). rewrite Hk. apply revoked_kill.
      exact (proj1 (active_key_ne _ (active_session_prefix iid (uuid_str id)))).
    - exact Ht. }
  split; [|split].
  - intros t mono Ht. unfold kill_requested. rewrite io_bind_run, (Hseen t Ht). done.
  - intros mo r Ht Hr. unfold outcome_of. rewrite Hr, io_bind_run, (Hseen _ Ht). rewrite io_bind_run. done.
  - intros rs Hrs. split; [by apply step_poll|]. intros n rs' Hn.
    destruct (steps_after_kill plugins ctx n (set_kill rs) rs' Hn eq_refl) as [_ Hle].
    unfold left_to_do, turns_left in Hle. destruct (l_phase (r_client (set_kill rs))), (l_phase (r_backend (set_kill rs))), (r_waiting (set_kill rs)); lia.
Qed.

Lemma kill_ends_session_witness :
  ∃ s', kill_session (u "node-1") 2000 (uuid_str 7%N) demo_active = (Ok tt, s')
    ∧ ∀ c : conn store (gmap uuid RdpServer) (gmap uuid ConnectionHistory) (list ConnectionEvent), cn_tracking c = s' →
      told_to_kill (uuid_str 7%N) 2000 (2000 + 60000) c ∧ put_down_to_admin (uuid_str 7%N) 2000 (2000 + 60000) c
      ∧ ∀ rs : relay_state unit, r_kill rs = false →
          step [] demo_ctx true Local rs (set_kill rs)
          ∧ ∀ n rs', nsteps (any_step [] demo_ctx) n (set_kill rs) rs' → (n <= 5)%nat.
Proof.
  apply (kill_ends_session [] demo_ctx (u "node-1") 2000 7%N demo_active).
  - exact demo_active_settled.
  - reflexivity.
Defined.

(** C19: while a connection runs, the list of the administrator shows it as it
    was started, with the rating and the measurements of the last sample that
    the quality monitor could take: the monitor and the tracker write the same
    record, and neither loses what the other wrote. *)
Theorem quality_shown {R : Type} `{RedisLaws R} `{SessionModels} `{Rounding}
    (tk : ConnectionTracker) (id : uuid) (now : Z) (username : str) (display : option str) (host : str) (port : Z) (client_ip : str)
    (deadline : option Z) (turns : list (Z * option bytes * option bytes)) (t : Z) (snap : QualitySnapshot)
    (quality : json) (out : dict) (st : R) :
  let iid := tk_instance_id tk in
  let d := active_payload tk now username display host port client_ip in
  58%N ∉ iid → json_ok (JObj d) →
  live now st !! ACTIVE_SESSION iid (uuid_str id) = Some (Entry (json_dumps false (JObj d)) deadline) →
  timely now deadline (samples [] 0 turns) → last (samples [] 0 turns) = Some (t, snap) →
  (∀ k, is_Some (live t st !! k) → starts_with active_prefix k = true → k ≠ ACTIVE_SESSION iid (uuid_str id) →
     is_ok (shown_session (redis_get t k st) k) = true) →
  quality_detail (asdict snap) = Ok quality →
  active_session_out [
    (u "instance_id", JStr iid); (u "connection_id", JStr (uuid_str id)); (u "username", JStr username);
    (u "server_display", json_str_opt display); (u "server_address", JStr host); (u "server_port", JInt port);
    (u "client_ip", JStr client_ip); (u "started_at", JStr (iso_utc now));
    (u "connection_quality", JStr (rating_text (q_rating snap))); (u "quality_detail", quality)] = Ok out →
  ∃ st' items, monitor iid (uuid_str id) turns (quiet st) = (Ok tt, quiet st')
    ∧ active_sessions t (quiet st') = (Ok items, quiet st') ∧ out ∈ items.
Proof.
  intros iid d Hi Hok Hk Htime Hlast Hothers Hq Hout.
  destruct (monitor_loop_run iid (uuid_str id) turns [] 0 now d deadline st Hok Hk Htime) as (st' & E & (deadline' & Hrec) & Hother & _).
  assert (last_time now (samples [] 0 turns) = t) as Ht by (unfold last_time; by rewrite Hlast). rewrite Ht in Hrec, Hother.
  set (key := ACTIVE_SESSION iid (uuid_str id)) in *.
  assert (shown_session (redis_get t key st') key = Ok (Some out)) as Hshown.
  { rewrite get_live, Hrec. unfold shown_session, key. rewrite active_key_parts by exact Hi. cbn [fmap option_fmap option_map e_value].
    rewrite active_data_dumps by (apply record_after_ok; [apply samples_fit | exact Hok]).
    destruct (record_after_fields d (samples [] 0 turns)) as [Hkeep Hset]. destruct (Hset t snap Hlast) as [Hrating Hdetail].
    unfold mbind, res_bind. rewrite (active_item_record tk now username display host port client_ip iid (uuid_str id)
      (q_rating snap) (asdict snap) quality (record_after d (samples [] 0 turns)) Hkeep Hrating Hdetail Hq eq_refl).
    by rewrite Hout. }
  exists st', (shown_items t st' (redis_scan t ACTIVE_SCAN st')). split; [exact E|]. split.
  - apply active_sessions_run. intros k Hl Hp. destruct (decide (k = key)) as [->|Hne]; [by rewrite Hshown|].
    rewrite get_live, Hother, <- get_live by exact Hne. apply Hothers; [by rewrite <- Hother | exact Hp | exact Hne].
  - apply list_elem_of_omap. exists key. rewrite Hshown. split; [|done].
    apply (scan_active t key (quiet st') eq_refl). split; [cbn [w_store quiet]; by rewrite Hrec | apply active_session_prefix].
Qed.

(** C18: what the relay notes of a connection while it runs, the
    administrator reads on the connection's page after it has ended: the events
    in the order of their times, each once, with the type and the detail it was
    noted with, and nothing else; what the relay reports at the end changes no event. *)
Theorem events_shown {R DS DH DE : Type} `{RedisLaws R}
    `{!Table uuid RdpServer DS} `{!TableLaws uuid RdpServer DS}
    `{!Table uuid ConnectionHistory DH} `{!TableLaws uuid ConnectionHistory DH}
    `{!Log ConnectionEvent DE} `{!LogLaws ConnectionEvent DE event_fits}
    `{!LogQuery ConnectionEvent DE} `{!LogQueryLaws ConnectionEvent DE event_fits}
    (tk : ConnectionTracker) (id : uuid) (notes : list (Z * str * dict)) (now : Z) (status : str) (reason : option str)
    (btc btb : Z) (s : tracking R DS DH DE) :
  settled s → has_db tk = true → has_redis tk = true → (id < 2 ^ 128)%N → is_Some (history_of s !! id) →
  Forall (λ n, text_fits 64 n.1.2 = true) notes → finish_fits status reason btc btb = true →
  Forall (λ e, ev_connection_id e ≠ id) (log_rows (fits := event_fits) (td_events (tr_db s))) →
  ordered (λ a b, a.1.1 <? b.1.1) notes →
  ∃ s' l, (_ ← note_events tk (uuid_str id) notes; finish tk now (uuid_str id) status reason btc btb) s = (Ok tt, s')
    ∧ session_events (uuid_str id) s' = Ok (map event_item l)
    ∧ map snd l = map (noted id) notes.
Proof.
  intros Hs Hdb Hre Hid Hrow Hn Hff Hfree Hord.
  destruct (note_events_run tk id notes s (proj1 (proj1 Hs)) Hdb Hid Hrow Hn) as (s1 & E1 & Hf1 & Hr1 & Hh1 & Hev1).
  assert (settled s1) as Hs1.
  { destruct Hs as [[_ Hw] Hs]. unfold settled, orderly_rows. by rewrite Hf1, Hr1, Hh1. }
  destruct (finish_run tk now id status reason btc btb s1 Hs1 Hdb Hre Hid Hff) as (s2 & E2 & _ & _ & _ & _ & Hev2).
  exists s2, (events_of id s2). split; [by rewrite io_bind_run, E1|].
  split; [unfold session_events; by rewrite uuid_of_str_of by exact Hid|].
  destruct (events_of_rows id s2) as [Hp Ho]. symmetry. apply (strict_order_unique ev_ts); [by apply (ordered_map (noted id)) | exact Ho|].
  rewrite Hp, Hev2, Hev1, List.filter_app. symmetry.
  rewrite filter_none, filter_kept; [done | |].
  - apply Forall_map, Forall_true. intros n. by apply bool_decide_eq_true_2.
  - eapply Forall_impl; [exact Hfree|]. intros e He. by apply bool_decide_eq_false_2.
Qed.

Definition demo_notes : list (Z * str * dict) := [
  (1000, u "connect", [(u "target", JStr (u "10.0.0.5"))]); (1500, u "mcs_patch", []); (90000, u "disconnect", [])].

Lemma events_shown_witness :
  ∃ s' l, (_ ← note_events {| has_db := true; has_redis := true; tk_instance_id := u "node-1" |} (uuid_str 7%N) demo_notes;
           finish {| has_db := true; has_redis := true; tk_instance_id := u "node-1" |} 90001 (uuid_str 7%N) (u "closed") (Some (u "client_disconnect")) 10 20)
           demo_active = (Ok tt, s')
    ∧ session_events (uuid_str 7%N) s' = Ok (map event_item l)
    ∧ map snd l = map (noted 7%N) demo_notes.
Proof.
  apply (events_shown {| has_db := true; has_redis := true; tk_instance_id := u "node-1" |} 7%N demo_notes 90001 (u "closed") (Some (u "client_disconnect")) 10 20 demo_active).
  - exact demo_active_settled.
  - reflexivity.
  - reflexivity.
  - reflexivity.
  - vm_compute. eauto.
  - apply (bool_decide_eq_true_1 (Forall _ _)). vm_compute. reflexivity.
  - vm_compute. reflexivity.
  - apply Forall_nil_2.
  - vm_compute. repeat split; repeat constructor.
Defined.

Definition demo_tracker : ConnectionTracker := {| has_db := true; has_redis := true; tk_instance_id := u "node-1" |}.
Definition demo_payload : dict := active_payload demo_tracker 1000 (u "ivan") None (u "10.0.0.5") 3389 (u "198.51.100.7").
Definition demo_running : store :=
  {[ ACTIVE_SESSION (u "node-1") (uuid_str 7%N) := Entry (json_dumps false (JObj demo_payload)) (Some 86401000) ]}.
(** Two sockets whose [tcp_info] is all zeros, and then one that is gone. *)
Definition demo_turns : list (Z * option bytes * option bytes) :=
  [(3000, Some (repeat (z2b 0) 104), Some (repeat (z2b 0) 104)); (8000, None, Some (repeat (z2b 0) 104))].
Definition demo_snapshot : QualitySnapshot := {|
  q_rtt := Micros 0 1; q_rtt_var := Micros 0 1; q_jitter := Micros 0 1; q_retransmits := 0; q_total_retrans := 0;
  q_lost := 0; q_cwnd := 0; q_rating := Excellent |}.
Definition plain_models : SessionModels := {| quality_detail d := Ok (JObj d); active_session_out d := Ok d |}.

Lemma zero_float : float_lexeme (u "0.0").
Proof.
  exists [], (u "0"), (u ".0"), []. split; [vm_compute; reflexivity|]. split; [by left|].
  split; [by left|]. split; [right; exists 48%N, []; split; [vm_compute; reflexivity | by constructor]|]. split; [by left | by left].
Qed.
Definition zero_rounding : Rounding := {| round_ms _ := u "0.0"; round_ms_float _ := zero_float |}.

Lemma quality_shown_witness :
  ∃ (st' : store) items, @monitor _ _ zero_rounding (u "node-1") (uuid_str 7%N) demo_turns (quiet demo_running) = (Ok tt, quiet st')
    ∧ @active_sessions _ _ plain_models 3000 (quiet st') = (Ok items, quiet st')
    ∧ [(u "instance_id", JStr (u "node-1")); (u "connection_id", JStr (uuid_str 7%N)); (u "username", JStr (u "ivan"));
       (u "server_display", JNull); (u "server_address", JStr (u "10.0.0.5")); (u "server_port", JInt 3389);
       (u "client_ip", JStr (u "198.51.100.7")); (u "started_at", JStr (iso_utc 1000));
       (u "connection_quality", JStr (u "excellent")); (u "quality_detail", JObj (@asdict zero_rounding demo_snapshot))] ∈ items.
Proof.
  apply (@quality_shown store _ _ plain_models zero_rounding demo_tracker 7%N 1000 (u "ivan") None (u "10.0.0.5") 3389 (u "198.51.100.7")
    (Some 86401000) demo_turns 3000 demo_snapshot (JObj (@asdict zero_rounding demo_snapshot)) _ demo_running).
  - apply (bool_decide_eq_true_1 (_ ∉ _)). vm_compute. reflexivity.
  - apply json_ok_items; [apply (bool_decide_eq_true_1 (NoDup _)); vm_compute; reflexivity|].
    repeat apply Forall_cons_2; try apply Forall_nil_2; (split; [vm_compute; reflexivity|]); cbn [snd];
      first [apply scalar_b_spec; vm_compute; reflexivity | exact I | vm_compute; lia].
  - vm_compute. reflexivity.
  - vm_compute. repeat split; discriminate.
  - vm_compute. reflexivity.
  - intros k [e Hk]. change (live 3000 demo_running) with (live_map 3000 demo_running) in Hk.
    rewrite lookup_live_map in Hk. unfold map_get in Hk. apply bind_Some in Hk as (e' & Hk & _).
    unfold demo_running in Hk. apply lookup_singleton_Some in Hk as [<- _]. intros _ Hne. by destruct Hne.
  - reflexivity.
  - reflexivity.
Defined.
Close Scope Z_scope.
