(* ===== verification/AdminCatalog.v ===== *)
(** The servers and the file templates of the administration,
    [services/admin/routes/servers.py] and [services/admin/routes/templates.py]:
    the forms and their validation, and every route on the two tables. A route is
    one transaction. What the portal lists and merges into files is what these
    routes write. *)

From stdpp Require Import prelude gmap list strings.
From Stdlib Require Import ZArith Lia.
From Stdlib Require Strings.String.
From S2P Require Import Prelude PySeq PyBytes PyStr Json PyUuid Database Models Settings RdpFile Portal.

Open Scope Z_scope.

(** The tables; the history refers to servers. *)
Record catalog (DS DT DG DH : Type) : Type := Catalog {
  ct_servers : DS; ct_templates : DT; ct_groups : DG; ct_history : DH }.
Arguments Catalog {DS DT DG DH}. Arguments ct_servers {DS DT DG DH}. Arguments ct_templates {DS DT DG DH}.
Arguments ct_groups {DS DT DG DH}. Arguments ct_history {DS DT DG DH}.

(** ** Forms *)

Definition length_between (lo hi : nat) (s : str) : bool := (lo <=? length s)%nat && (length s <=? hi)%nat.
Definition if_given {A} (p : A → bool) (o : option A) : bool := match o with Some a => p a | None => true end.
Definition valid_port (p : Z) : bool := (1 <=? p) && (p <=? 65535).

Record ServerCreate : Type := {
  sv_tech_name : str; sv_display_name : str; sv_address : str; sv_port : option Z; sv_is_enabled : bool;
  sv_sort_order : Z; sv_groups : list str }.
Definition server_create_valid (b : ServerCreate) : bool :=
  length_between 1 64 (sv_tech_name b) && length_between 1 255 (sv_display_name b) && length_between 1 255 (sv_address b)
  && if_given valid_port (sv_port b).

Record ServerUpdate : Type := {
  su_tech_name : option str; su_display_name : option str; su_address : option str; su_port : option Z;
  su_is_enabled : option bool; su_sort_order : option Z; su_groups : option (list str) }.
Definition server_update_valid (b : ServerUpdate) : bool :=
  if_given (length_between 1 64) (su_tech_name b) && if_given (length_between 1 255) (su_display_name b)
  && if_given (length_between 1 255) (su_address b) && if_given valid_port (su_port b).

Record ServerOut : Type := {
  so_id : str; so_tech_name : str; so_display_name : str; so_address : str; so_port : Z; so_is_enabled : bool;
  so_sort_order : Z; so_groups : list str; so_group_details : list (str * str) }.

Record TemplateCreate : Type := {
  tc_name : str; tc_is_default : bool; tc_priority : Z; tc_params : dict; tc_groups : list str }.
Definition template_create_valid (b : TemplateCreate) : bool := length_between 1 128 (tc_name b) && (0 <=? tc_priority b).

Record TemplateUpdate : Type := {
  tu_name : option str; tu_is_default : option bool; tu_priority : option Z; tu_params : option dict;
  tu_groups : option (list str) }.
Definition template_update_valid (b : TemplateUpdate) : bool :=
  if_given (length_between 1 128) (tu_name b) && if_given (λ p, 0 <=? p) (tu_priority b).

Record TemplateOut : Type := {
  to_id : str; to_name : str; to_is_default : bool; to_priority : Z; to_params : dict; to_groups : list str;
  to_group_details : list (str * str) }.

(** [^[^:]+:\d{1,5}$] on a text without spaces around it: its only colon splits
    it. *)
Definition host_port (raw : str) : option (str * str) :=
  match split_on 58%N raw with
  | [host; port] =>
      if negb (bool_decide (host = [])) && length_between 1 5 port
         && forallb (λ c, if digit_value c is Some _ then true else false) port
      then Some (host, port) else None
  | _ => None
  end.

Definition split_address (address : str) (port : option Z) : res (str * Z) :=
  let raw := strip address in
  if bool_decide (raw = []) then Err (HTTPException 400)
  else
    match host_port raw with
    | Some (h, p) =>
        p ← int_of_str p ?? ValueError;
        if (p <? 1) || (65535 <? p) then Err (HTTPException 400) else Ok (strip h, p)
    | None =>
        match port with
        | None => Ok (raw, 3389)
        | Some p => if (p <? 1) || (65535 <? p) then Err (HTTPException 400) else Ok (raw, p)
        end
    end.

Fixpoint parse_group_guids (values : list str) : res (list uuid) :=
  match values with
  | [] => Ok []
  | v :: vs =>
      let s := strip v in
      if bool_decide (s = []) then parse_group_guids vs
      else match uuid_of_str s with
           | Err _ => Err (HTTPException 400)
           | Ok g => gs ← parse_group_guids vs; Ok (g :: gs)
           end
  end.

Fixpoint group_uuids (groups : list str) : res (list uuid) :=
  match groups with
  | [] => Ok []
  | g :: gs =>
      match uuid_of_str g with
      | Err _ => Err (HTTPException 400)
      | Ok id => ids ← group_uuids gs; Ok (id :: ids)
      end
  end.

Section Catalog.
Context {DS DT DG DH : Type} `{!Table uuid RdpServer DS} `{!Table uuid RdpTemplate DT} `{!Table uuid AdGroupCache DG}
  `{!Table uuid ConnectionHistory DH} `{Floats} `{CaseMap} `{Collation}.
Abbreviation state := (catalog DS DT DG DH).

Definition on_servers {A} (m : io DS A) : io state A :=
  io_zoom ct_servers (λ d s, Catalog d (ct_templates s) (ct_groups s) (ct_history s)) m.
Definition on_templates {A} (m : io DT A) : io state A :=
  io_zoom ct_templates (λ d s, Catalog (ct_servers s) d (ct_groups s) (ct_history s)) m.
Definition on_references {A} (m : io DH A) : io state A :=
  io_zoom ct_history (λ d s, Catalog (ct_servers s) (ct_templates s) (ct_groups s) d) m.

(** [commit], with its [except IntegrityError]: the constraints are those of
    unique names and bindings. *)
Definition commit {A} (m : io state A) : io state A :=
  io_try (io_transaction m) (λ e, io_raise (if decide (e = IntegrityError) then HTTPException 409 else e)).

(** [uuid.UUID(server_id)] *)
Definition route_id (text : str) : res uuid := match uuid_of_str text with Ok id => Ok id | Err _ => Err (HTTPException 400) end.
Definition valid_form (b : bool) : io state unit := if b then mret tt else io_raise (HTTPException 422).

Definition load_group_name_map (guids : list uuid) (d : DG) : list (str * str) :=
  match guids with
  | [] => []
  | _ => map (λ g, (uuid_str (g_guid g), g_cn g)) (db_select (K := uuid) (λ g, bool_decide (g_guid g ∈ guids)) d)
  end.
(** [name_map.get(g, g)] *)
Definition group_detail (name_map : list (str * str)) (g : str) : str * str :=
  (g, from_option snd g (List.find (λ kv, bool_decide (kv.1 = g)) name_map)).

(** ** Servers *)

Definition server_out (name_map : list (str * str)) (r : RdpServer) : ServerOut := {|
  so_id := uuid_str (s_id r); so_tech_name := s_tech_name r; so_display_name := s_display_name r; so_address := s_address r;
  so_port := s_port r; so_is_enabled := s_is_enabled r; so_sort_order := s_sort_order r; so_groups := server_guids r;
  so_group_details := map (group_detail name_map) (server_guids r) |}.
Definition show_one (r : RdpServer) (s : state) : ServerOut :=
  server_out (load_group_name_map (s_groups r) (ct_groups s)) r.

Definition list_servers (s : state) : list ServerOut :=
  let servers := sorted_by server_before (db_select (K := uuid) (λ _, true) (ct_servers s)) in
  map (server_out (load_group_name_map (concat (map s_groups servers)) (ct_groups s))) servers.

Definition load_server (id : uuid) (missing : Z) : io state RdpServer :=
  s ← io_get;
  match db_get id (ct_servers s) with Some r => mret r | None => io_raise (HTTPException missing) end.

Definition get_server (server_id : str) : io state ServerOut :=
  sid ← io_lift (route_id server_id);
  r ← load_server sid 404;
  s ← io_get; mret (show_one r s).

Definition create_server (new_id : uuid) (b : ServerCreate) : io state ServerOut :=
  _ ← valid_form (server_create_valid b);
  '(host, p) ← io_lift (split_address (sv_address b) (sv_port b));
  groups ← io_lift (parse_group_guids (sv_groups b));
  _ ← commit (on_servers (db_insert (K := uuid) {|
        s_id := new_id; s_tech_name := strip (sv_tech_name b); s_display_name := strip (sv_display_name b); s_address := host;
        s_port := p; s_is_enabled := sv_is_enabled b; s_sort_order := sv_sort_order b; s_groups := groups |}));
  r ← load_server new_id 500;
  s ← io_get; mret (show_one r s).

(** The row that is written over the one with its identifier. *)
Definition put_server (r : RdpServer) : io state unit :=
  _ ← on_servers (db_update (K := uuid) (λ r', bool_decide (s_id r' = s_id r)) (λ r', if bool_decide (s_id r' = s_id r) then r else r'));
  mret tt.

Definition with_order (i : Z) (r : RdpServer) : RdpServer := {|
  s_id := s_id r; s_tech_name := s_tech_name r; s_display_name := s_display_name r; s_address := s_address r; s_port := s_port r;
  s_is_enabled := s_is_enabled r; s_sort_order := i; s_groups := s_groups r |}.

Fixpoint reorder_from (i : Z) (order : list str) : io state unit :=
  match order with
  | [] => mret tt
  | sid :: order' =>
      _ ← match uuid_of_str (strip sid) with
          | Err _ => mret tt
          | Ok uid =>
              _ ← on_servers (db_update (K := uuid) (λ r, bool_decide (s_id r = uid)) (with_order i)); mret tt
          end;
      reorder_from (i + 1) order'
  end.
Definition reorder_servers (order : list str) : io state unit :=
  _ ← valid_form (negb (bool_decide (order = [])));
  io_transaction (reorder_from 0 order).

(** The row after the form of an update. *)
Definition patched_server (b : ServerUpdate) (r : RdpServer) : res RdpServer :=
  '(host, p) ← (if negb (bool_decide (su_address b = None)) || negb (bool_decide (su_port b = None))
                then split_address (match su_address b with Some (c :: a) => c :: a | _ => s_address r end)
                                   (Some (default (s_port r) (su_port b)))
                else Ok (s_address r, s_port r));
  groups ← match su_groups b with Some gs => parse_group_guids gs | None => Ok (s_groups r) end;
  Ok {| s_id := s_id r; s_tech_name := from_option strip (s_tech_name r) (su_tech_name b);
        s_display_name := from_option strip (s_display_name r) (su_display_name b); s_address := host; s_port := p;
        s_is_enabled := default (s_is_enabled r) (su_is_enabled b); s_sort_order := default (s_sort_order r) (su_sort_order b);
        s_groups := groups |}.

Definition update_server (server_id : str) (b : ServerUpdate) : io state ServerOut :=
  _ ← valid_form (server_update_valid b);
  sid ← io_lift (route_id server_id);
  r ← load_server sid 404;
  r ← io_lift (patched_server b r);
  _ ← commit (put_server r);
  r ← load_server sid 404;
  s ← io_get; mret (show_one r s).

(** [ON DELETE SET NULL] of the history. *)
Definition without_server (r : ConnectionHistory) : ConnectionHistory := {|
  h_id := h_id r; h_instance_id := h_instance_id r; h_username := h_username r; h_server_id := None;
  h_server_display := h_server_display r; h_server_address := h_server_address r; h_server_port := h_server_port r;
  h_client_ip := h_client_ip r; h_started_at := h_started_at r; h_ended_at := h_ended_at r;
  h_bytes_to_client := h_bytes_to_client r; h_bytes_to_backend := h_bytes_to_backend r;
  h_disconnect_reason := h_disconnect_reason r; h_status := h_status r |}.

Definition delete_server (server_id : str) : io state unit :=
  sid ← io_lift (route_id server_id);
  _ ← load_server sid 404;
  io_transaction (
    _ ← on_servers (db_delete (K := uuid) (λ r, bool_decide (s_id r = sid)));
    _ ← on_references (db_update (K := uuid) (λ h, bool_decide (h_server_id h = Some sid)) without_server);
    mret tt).

Definition clone_of (new_id : uuid) (tech_name : str) (r : RdpServer) : RdpServer := {|
  s_id := new_id; s_tech_name := tech_name; s_display_name := s_display_name r ++ u " (копия)"; s_address := s_address r;
  s_port := s_port r; s_is_enabled := s_is_enabled r; s_sort_order := s_sort_order r; s_groups := s_groups r |}.
Definition clone_name (src : RdpServer) (attempt : Z) : str :=
  s_tech_name src ++ u "-copy" ++ (if attempt =? 1 then [] else u "-" ++ str_of_Z attempt).

(** The attempts from [attempt] on, one for each new identifier. A rollback
    expires the object the copy is made from: [stale] is what reading it then
    gives. *)
Fixpoint clone_from (stale : res unit) (src : RdpServer) (attempt : Z) (new_ids : list uuid) : io state RdpServer :=
  match new_ids with
  | [] => io_raise (HTTPException 409)
  | new_id :: new_ids' =>
      _ ← (if attempt =? 1 then mret tt else io_lift stale);
      inserted ← io_try (_ ← io_transaction (on_servers (db_insert (K := uuid) (clone_of new_id (clone_name src attempt) src)));
                         mret true)
                        (λ e, if decide (e = IntegrityError) then mret false else io_raise e);
      if inserted : bool then load_server new_id 500 else clone_from stale src (attempt + 1) new_ids'
  end.

Definition clone_server (stale : res unit) (new_ids : list uuid) (server_id : str) : io state ServerOut :=
  sid ← io_lift (route_id server_id);
  src ← load_server sid 404;
  r ← clone_from stale src 1 (take 5 new_ids);
  s ← io_get; mret (show_one r s).

Definition with_enabled (b : bool) (r : RdpServer) : RdpServer := {|
  s_id := s_id r; s_tech_name := s_tech_name r; s_display_name := s_display_name r; s_address := s_address r; s_port := s_port r;
  s_is_enabled := b; s_sort_order := s_sort_order r; s_groups := s_groups r |}.

Definition set_visibility (server_id : str) (is_enabled : bool) : io state ServerOut :=
  sid ← io_lift (route_id server_id);
  r ← load_server sid 404;
  _ ← io_transaction (put_server (with_enabled is_enabled r));
  r ← load_server sid 404;
  s ← io_get; mret (show_one r s).

(** ** Templates *)

Definition template_out (name_map : list (str * str)) (t : RdpTemplate) : TemplateOut := {|
  to_id := uuid_str (t_id t); to_name := t_name t; to_is_default := t_is_default t; to_priority := t_priority t;
  to_params := t_params t; to_groups := map uuid_str (t_groups t);
  to_group_details := map (group_detail name_map) (map uuid_str (t_groups t)) |}.
Definition show_template (t : RdpTemplate) (s : state) : TemplateOut :=
  template_out (load_group_name_map (t_groups t) (ct_groups s)) t.

(** [ORDER BY is_default DESC, priority, name] *)
Definition template_before (a b : RdpTemplate) : bool :=
  match t_is_default a, t_is_default b with
  | true, false => true
  | false, true => false
  | _, _ => (t_priority a <? t_priority b) || ((t_priority a =? t_priority b) && text_le (t_name a) (t_name b))
  end.
Definition list_templates (s : state) : list TemplateOut :=
  let templates := sorted_by template_before (db_select (K := uuid) (λ _, true) (ct_templates s)) in
  map (template_out (load_group_name_map (concat (map t_groups templates)) (ct_groups s))) templates.

Definition not_default (t : RdpTemplate) : RdpTemplate := {|
  t_id := t_id t; t_name := t_name t; t_is_default := false; t_priority := t_priority t; t_params := t_params t;
  t_groups := t_groups t |}.
(** [UPDATE rdp_templates SET is_default = false] *)
Definition clear_default : io DT unit := _ ← db_update (K := uuid) (λ _, true) not_default; mret tt.

Definition create_template (new_id : uuid) (b : TemplateCreate) : io state TemplateOut :=
  _ ← valid_form (template_create_valid b);
  _ ← commit (on_templates (
    _ ← (if tc_is_default b then clear_default else mret tt);
    groups ← io_lift (group_uuids (tc_groups b));
    db_insert (K := uuid) {|
      t_id := new_id; t_name := strip (tc_name b); t_is_default := tc_is_default b; t_priority := tc_priority b;
      t_params := dict_merge default_rdp_params (tc_params b); t_groups := groups |}));
  s ← io_get;
  match db_get new_id (ct_templates s) with Some t => mret (show_template t s) | None => io_raise OtherError end.

Definition patched_template (b : TemplateUpdate) (groups : list uuid) (t : RdpTemplate) : RdpTemplate := {|
  t_id := t_id t; t_name := from_option strip (t_name t) (tu_name b);
  t_is_default := default (t_is_default t) (tu_is_default b); t_priority := default (t_priority t) (tu_priority b);
  t_params := from_option (dict_merge default_rdp_params) (t_params t) (tu_params b); t_groups := groups |}.

Definition put_template (t : RdpTemplate) : io DT unit :=
  _ ← db_update (K := uuid) (λ t', bool_decide (t_id t' = t_id t)) (λ t', if bool_decide (t_id t' = t_id t) then t else t'); mret tt.

Definition update_template (template_id : str) (b : TemplateUpdate) : io state TemplateOut :=
  _ ← valid_form (template_update_valid b);
  tid ← io_lift (route_id template_id);
  _ ← commit (on_templates (
    d ← io_get;
    match db_get tid d with
    | None => io_raise (HTTPException 404)
    | Some t =>
        _ ← (if bool_decide (tu_is_default b = Some true) then clear_default else mret tt);
        groups ← io_lift (match tu_groups b with Some gs => group_uuids gs | None => Ok (t_groups t) end);
        put_template (patched_template b groups t)
    end));
  s ← io_get;
  match db_get tid (ct_templates s) with Some t => mret (show_template t s) | None => io_raise OtherError end.

Definition delete_template (template_id : str) : io state unit :=
  tid ← io_lift (route_id template_id);
  io_transaction (on_templates (
    d ← io_get;
    match db_get tid d with
    | None => io_raise (HTTPException 404)
    | Some t =>
        if t_is_default t then io_raise (HTTPException 400)
        else (_ ← db_delete (K := uuid) (λ t', bool_decide (t_id t' = tid)); mret tt)
    end)).

(** What a file for the groups would say, but for the keys the proxy decides. *)
Definition preview_template (groups : list str) (s : state) : dict :=
  merge_templates (db_select (K := uuid) (λ _, true) (ct_templates s)) (group_set groups) default_rdp_params.
End Catalog.

(** ** Lemmas *)

#[local] Opaque u.

(** *** Addresses *)

Lemma host_port_Some raw h p : host_port raw = Some (h, p) → raw = h ++ 58%N :: p ∧ h ≠ [].
Proof.
  unfold host_port. pose proof (join_split_on 58%N raw) as Hj.
  destruct (split_on 58%N raw) as [|h0 [|p0 [|x l]]]; try done.
  destruct (_ && _) eqn:E; [|done]. intros [= <- <-]. cbn [join_with] in Hj. rewrite !andb_true_iff in E.
  destruct E as [[E _] _]. apply negb_true_iff, bool_decide_eq_false in E. by rewrite <- Hj.
Qed.

Lemma strip_by_idem f s : strip_by f (strip_by f s) = strip_by f s.
Proof.
  unfold strip_by at 1. rewrite (drop_while_id f (strip_by f s)).
  - rewrite drop_while_id; [apply reverse_involutive|]. intros x. unfold strip_by. rewrite reverse_involutive. apply drop_while_head.
  - intros x Hx. destruct (strip_by f s) as [|c l] eqn:E; [done|]. injection Hx as <-. by eapply strip_by_head.
Qed.

(** A host that is kept: trimmed, not empty, and with no port of its own. *)
Definition plain_host (h : str) : Prop := h ≠ [] ∧ strip h = h ∧ host_port h = None.

Lemma host_port_host raw h p : host_port raw = Some (h, p) → host_port (strip h) = None.
Proof.
  unfold host_port at 1. destruct (split_on 58%N raw) as [|h0 [|p0 [|x l]]] eqn:E; try done.
  destruct (_ && _); [|done]. intros [= <- <-]. unfold host_port. rewrite split_on_absent; [done|].
  intros Hin%strip_by_sub. revert Hin. apply (split_on_no_sep 58%N raw). rewrite E. left.
Qed.

Lemma split_address_Ok address port h q : split_address address port = Ok (h, q) → plain_host h ∧ 1 <= q <= 65535.
Proof.
  unfold split_address. case_bool_decide as Hr; [done|].
  assert (∀ z, (z <? 1) || (65535 <? z) = false → 1 <= z <= 65535) as Hz
    by (intros z; rewrite orb_false_iff, !Z.ltb_ge; lia).
  destruct (host_port (strip address)) as [[h0 p0]|] eqn:Eh.
  - pose proof (host_port_host _ _ _ Eh) as Hnone. apply host_port_Some in Eh as [Eraw Hne].
    destruct (int_of_str p0) as [z|]; cbn [or_raise mbind res_bind]; [|done].
    destruct (_ || _) eqn:Ez; [done|]. intros [= <- <-]. split; [|by apply Hz].
    split; [|split; [apply strip_by_idem | exact Hnone]].
    destruct h0 as [|c h0]; [done|]. unfold strip at 1. apply strip_by_ne. exists c. split; [constructor|].
    by apply (strip_by_head is_space address c (h0 ++ 58%N :: p0)).
  - assert (plain_host (strip address)) as Hp by (split; [exact Hr | split; [apply strip_by_idem | exact Eh]]).
    destruct port as [z|]; [|intros [= <- <-]; split; [done | lia]].
    destruct (_ || _) eqn:Ez; [done|]. intros [= <- <-]. split; [done | by apply Hz].
Qed.

(** Nothing more is asked of a host. *)
Example odd_hosts :
  split_address (u ":22") None = Ok (u ":22", 3389) ∧ split_address (u "srv:123456") None = Ok (u "srv:123456", 3389)
  ∧ split_address (u "2001:db8::1") (Some 3390) = Ok (u "2001:db8::1", 3390).
Proof. vm_compute. done. Qed.

Lemma str_of_Z_digits z : 0 <= z → Forall (λ c, 48 <= c < 58)%N (str_of_Z z).
Proof. intros Hz. unfold str_of_Z. rewrite (proj2 (Z.ltb_ge _ _)) by done. apply str_of_N_range. Qed.

Lemma dec_digits_bound k : ∀ f n, (n < 10 ^ N.of_nat (S k))%N → (length (dec_digits f n) <= S k)%nat.
Proof.
  induction k as [|k IH]; intros [|f] n Hn; cbn [dec_digits length]; try lia.
  - rewrite (proj2 (N.ltb_lt _ _)) by exact Hn. done.
  - destruct (N.ltb_spec n 10) as [Hs|Hs]; [cbn; lia|]. rewrite length_app. cbn [length].
    specialize (IH f (n / 10)%N). rewrite Nat.add_1_r. apply le_n_S, IH, N.Div0.div_lt_upper_bound.
    rewrite <- N.pow_succ_r'. by replace (N.succ (N.of_nat (S k))) with (N.of_nat (S (S k))) by lia.
Qed.

Lemma port_length z : 1 <= z <= 65535 → (1 <= length (str_of_Z z) <= 5)%nat.
Proof.
  intros Hz. unfold str_of_Z. rewrite (proj2 (Z.ltb_ge _ _)) by lia. split.
  - pose proof (str_of_N_ne (Z.to_N z)) as Hne. destruct (str_of_N (Z.to_N z)); [done | cbn; lia].
  - apply (dec_digits_bound 4). change (10 ^ N.of_nat 5)%N with 100000%N. lia.
Qed.

Lemma host_port_join host q :
  host ≠ [] → 58%N ∉ host → 1 <= q <= 65535 → host_port (host ++ 58%N :: str_of_Z q) = Some (host, str_of_Z q).
Proof.
  intros Hne Hh Hq. pose proof (str_of_Z_digits q ltac:(lia)) as Hd. pose proof (port_length q Hq) as Hl. unfold host_port.
  rewrite split_on_app, split_on_absent; [| |exact Hh].
  2: { intros Hin. rewrite Forall_forall in Hd. apply Hd in Hin. lia. }
  rewrite (bool_decide_eq_false_2 _ Hne). unfold length_between. rewrite !(proj2 (Nat.leb_le _ _)) by lia. cbn [negb andb].
  destruct (forallb _ _) eqn:E; [done|]. apply not_true_iff_false in E. destruct E. apply forallb_forall. intros c Hc.
  apply list_elem_of_In in Hc. pose proof (dec_range_digit _ Hd) as Hv. rewrite Forall_forall in Hv.
  destruct (Hv c Hc) as [d ->]. done.
Qed.

Lemma split_address_host host port q :
  host ≠ [] → Forall (λ c, is_space c = false ∧ c ≠ 58%N) host → 1 <= q <= 65535 →
  split_address (host ++ 58%N :: str_of_Z q) port = Ok (host, q).
Proof.
  intros Hne Hh Hq.
  pose proof (str_of_Z_digits q ltac:(lia)) as Hd.
  assert (Forall (λ c, is_space c = false) host) as Hs by (eapply Forall_impl; [exact Hh | intros c [? _]; done]).
  assert (Forall (λ c, is_space c = false) (host ++ 58%N :: str_of_Z q)) as Hns.
  { apply Forall_app. split; [exact Hs|]. constructor; [vm_compute; reflexivity|].
    eapply Forall_impl; [exact Hd|]. intros c Hc. by apply digit_not_space. }
  unfold split_address. unfold strip. rewrite (strip_by_id _ _ Hns).
  rewrite bool_decide_eq_false_2 by (by destruct host).
  rewrite (host_port_join host q Hne) by (done || (intros Hin; rewrite Forall_forall in Hh; apply Hh in Hin as [_ ?]; done)).
  rewrite int_of_str_of_Z.
  - cbn [or_raise mbind res_bind]. rewrite (strip_by_id _ _ Hs). by rewrite !(proj2 (Z.ltb_ge _ _)) by lia.
  - apply int32_small. unfold int32_fits. apply andb_true_iff. rewrite Z.leb_le, Z.ltb_lt. lia.
Qed.

(** *** Servers *)

Section ServerLemmas.
Context {DS DT DG DH : Type} `{!Table uuid RdpServer DS} `{!Table uuid RdpTemplate DT} `{!Table uuid AdGroupCache DG}
  `{!Table uuid ConnectionHistory DH} `{!TableLaws uuid RdpServer DS} `{Floats} `{CaseMap} `{Collation}.
Abbreviation state' := (catalog DS DT DG DH).
Implicit Types (d : DS) (s : state').

(** A server the relay can be asked to connect to. *)
Definition reachable (r : RdpServer) : Prop := plain_host (s_address r) ∧ 1 <= s_port r <= 65535.
Definition all_reachable (d : DS) : Prop := map_Forall (λ _, reachable) (rows d).
Definition servers_ok s : Prop := all_reachable (ct_servers s).

Lemma update_reachable p f :
  (∀ r, s_id (f r) = s_id r) → (∀ r, p r = true → reachable r → reachable (f r)) →
  keeps all_reachable (db_update (K := uuid) (D := DS) p f).
Proof.
  intros Hid Hf d Hd. destruct (db_update_cases p f d) as [(n & d' & -> & R)|[e ->]]; [apply _ | exact Hid | | exact Hd].
  unfold all_reachable. cbn [snd]. rewrite R. intros k r. rewrite lookup_update_rows.
  destruct (rows d !! k) as [r0|] eqn:E; cbn; [|discriminate]. intros [= <-]. specialize (Hd k r0 E). cbn in Hd.
  destruct (p r0) eqn:Ep; [by apply Hf | exact Hd].
Qed.

Lemma insert_reachable r : reachable r → keeps all_reachable (db_insert (K := uuid) (D := DS) r).
Proof.
  intros Hr d Hd. destruct (db_insert_cases r d) as [(d' & -> & R & _)|[e ->]]; [apply _ | | exact Hd].
  unfold all_reachable. cbn [snd]. rewrite R. by apply map_Forall_insert_2.
Qed.

Lemma delete_reachable p : keeps all_reachable (db_delete (K := uuid) (D := DS) p).
Proof.
  intros d Hd. destruct (delete_law p d) as (d' & -> & R). unfold all_reachable. cbn [snd]. rewrite R. intros k r.
  rewrite lookup_reject_rows. destruct (rows d !! k) as [r0|] eqn:E; cbn; [|discriminate].
  destruct (p r0); [discriminate|]. intros [= <-]. exact (Hd k r0 E).
Qed.

Lemma on_servers_ok {A} (m : io DS A) : keeps all_reachable m → keeps servers_ok (on_servers (DT := DT) (DG := DG) (DH := DH) m).
Proof. intros Hm. by apply (zoom_keeps ct_servers _ m all_reachable). Qed.

Lemma put_server_ok r : reachable r → keeps servers_ok (put_server (DT := DT) (DG := DG) (DH := DH) r).
Proof.
  intros Hr. unfold put_server. apply keeps_bind; [|intros _; apply keeps_ret]. apply on_servers_ok, update_reachable.
  - intros r'. case_bool_decide as E; [symmetry; exact E | reflexivity].
  - intros r' _ Hr'. by case_bool_decide.
Qed.

(** A server that was loaded is one of the table. *)
Lemma load_server_ok {A} id missing (f : RdpServer → io state' A) :
  (∀ r, reachable r → keeps servers_ok (f r)) → keeps servers_ok (load_server id missing ≫= f).
Proof.
  intros Hf s Hs. unfold load_server. rewrite !io_bind_run. cbn. destruct (db_get id (ct_servers s)) as [r|] eqn:E; [|exact Hs].
  cbn. rewrite get_law in E. exact (Hf r (Hs id r E) s Hs).
Qed.

Lemma show_ok {A} (f : state' → A) : keeps servers_ok (s ← io_get; mret (f s)).
Proof. by apply keeps_get. Qed.

Lemma lift_ok {A B} (r : res A) (f : A → io state' B) :
  (∀ a, r = Ok a → keeps servers_ok (f a)) → keeps servers_ok (io_lift r ≫= f).
Proof. intros Hf s Hs. rewrite io_bind_run. unfold io_lift. destruct r as [a|e]; [by apply Hf | exact Hs]. Qed.

Lemma commit_ok {A} (m : io state' A) : keeps servers_ok m → keeps servers_ok (commit m).
Proof. intros Hm. unfold commit. apply keeps_try; [by apply keeps_transaction | intros e; apply keeps_raise]. Qed.

Lemma patched_server_reachable b r r' : patched_server b r = Ok r' → reachable r → reachable r'.
Proof.
  unfold patched_server. intros E Hr. destruct (_ || _).
  - destruct (split_address _ _) as [[h q]|e] eqn:Es; [|discriminate]. apply split_address_Ok in Es. cbn in E.
    destruct (match su_groups b with Some _ => _ | None => _ end); [|discriminate]. cbn in E. injection E as <-. exact Es.
  - cbn in E. destruct (match su_groups b with Some _ => _ | None => _ end); [|discriminate]. cbn in E. injection E as <-. exact Hr.
Qed.

Lemma form_ok {A} b (m : io state' A) : keeps servers_ok m → keeps servers_ok (_ ← valid_form b; m).
Proof. intros Hm. apply keeps_bind; [unfold valid_form; destruct b; auto with py | by intros _]. Qed.

Lemma create_server_ok new_id b : keeps servers_ok (create_server (DT := DT) (DG := DG) (DH := DH) new_id b).
Proof.
  unfold create_server. apply form_ok, lift_ok. intros [host q] Ha%split_address_Ok. apply lift_ok. intros groups _.
  apply keeps_bind; [by apply commit_ok, on_servers_ok, insert_reachable|]. intros _.
  apply load_server_ok. intros r _. apply show_ok.
Qed.

Lemma update_server_ok server_id b : keeps servers_ok (update_server (DT := DT) (DG := DG) (DH := DH) server_id b).
Proof.
  unfold update_server. apply form_ok, lift_ok. intros sid _. apply load_server_ok. intros r Hr. apply lift_ok.
  intros r' Er. apply keeps_bind; [eapply commit_ok, put_server_ok, patched_server_reachable; eauto|]. intros _.
  apply load_server_ok. intros r1 _. apply show_ok.
Qed.

Lemma reorder_servers_ok order : keeps servers_ok (reorder_servers (DT := DT) (DG := DG) (DH := DH) order).
Proof.
  unfold reorder_servers. apply form_ok, keeps_transaction. generalize 0. induction order as [|sid order IH]; intros i; [apply keeps_ret|].
  cbn [reorder_from]. apply keeps_bind; [|intros _; apply IH]. destruct (uuid_of_str (strip sid)) as [uid|]; [|apply keeps_ret].
  apply keeps_bind; [|intros _; apply keeps_ret]. by apply on_servers_ok, update_reachable.
Qed.

Lemma delete_server_ok server_id : keeps servers_ok (delete_server (DT := DT) (DG := DG) (DH := DH) server_id).
Proof.
  unfold delete_server. apply lift_ok. intros sid _. apply load_server_ok. intros _ _. apply keeps_transaction.
  apply keeps_bind; [apply on_servers_ok, delete_reachable|]. intros _. apply keeps_bind; [|intros _; apply keeps_ret].
  by apply zoom_other.
Qed.

Lemma clone_from_ok stale src new_ids attempt :
  reachable src → keeps servers_ok (clone_from (DT := DT) (DG := DG) (DH := DH) stale src attempt new_ids).
Proof.
  intros Hs. revert attempt. induction new_ids as [|new_id new_ids IH]; intros attempt; cbn [clone_from]; [apply keeps_raise|].
  apply keeps_bind; [destruct (attempt =? 1); auto with py|]. intros _. apply keeps_bind.
  - apply keeps_try; [|intros e; destruct (decide _); [apply keeps_ret | apply keeps_raise]].
    apply keeps_bind; [|intros _; apply keeps_ret]. by apply keeps_transaction, on_servers_ok, insert_reachable.
  - intros [|]; [|apply IH]. unfold load_server. apply keeps_get. intros s Hs'. by destruct (db_get new_id (ct_servers s)).
Qed.

Lemma clone_server_ok stale new_ids server_id :
  keeps servers_ok (clone_server (DT := DT) (DG := DG) (DH := DH) stale new_ids server_id).
Proof.
  unfold clone_server. apply lift_ok. intros sid _. apply load_server_ok. intros src Hs.
  apply keeps_bind; [by apply clone_from_ok|]. intros r. apply show_ok.
Qed.

Lemma set_visibility_ok server_id b : keeps servers_ok (set_visibility (DT := DT) (DG := DG) (DH := DH) server_id b).
Proof.
  unfold set_visibility. apply lift_ok. intros sid _. apply load_server_ok. intros r Hr.
  apply keeps_bind; [by apply keeps_transaction, put_server_ok|]. intros _. apply load_server_ok. intros r' _. apply show_ok.
Qed.

End ServerLemmas.

(** *** Templates *)

Section TemplateLemmas.
Context {DS DT DG DH : Type} `{!Table uuid RdpServer DS} `{!Table uuid RdpTemplate DT} `{!Table uuid AdGroupCache DG}
  `{!Table uuid ConnectionHistory DH} `{!TableLaws uuid RdpTemplate DT} `{Floats} `{CaseMap} `{Collation}.
Implicit Types (d : DT) (s : catalog DS DT DG DH).

(** The default templates are those with a key in [keys]. *)
Definition defaults_in (keys : uuid → Prop) (d : DT) : Prop :=
  keyed (rows d) ∧ ∀ k r, rows d !! k = Some r → t_is_default r = true → keys k.

(** At most one template is the default one. *)
Definition single_default (d : DT) : Prop :=
  keyed (rows d) ∧
  ∀ k1 k2 r1 r2, rows d !! k1 = Some r1 → rows d !! k2 = Some r2 →
    t_is_default r1 = true → t_is_default r2 = true → k1 = k2.

Lemma defaults_single k d : defaults_in (λ k', k' = k) d → single_default d.
Proof. intros [Hk Hd]. split; [exact Hk|]. intros k1 k2 r1 r2 E1 E2 D1 D2. rewrite (Hd k1 r1 E1 D1). symmetry. by apply (Hd k2 r2). Qed.

Lemma single_defaults d : single_default d → ∃ k0, defaults_in (λ k, k = k0) d.
Proof.
  intros [Hk Hd]. destruct (decide (select_rows t_is_default (rows d) = ∅)) as [E|E].
  - exists 0%N. split; [exact Hk|]. intros k r Er Hr. exfalso.
    assert (select_rows t_is_default (rows d) !! k = None) as Hn by by rewrite E.
    rewrite lookup_select_rows, Er in Hn. cbn in Hn. rewrite Hr in Hn. discriminate.
  - apply map_choose in E as (k0 & r0 & E0). rewrite lookup_select_rows in E0. exists k0. split; [exact Hk|].
    destruct (rows d !! k0) as [r|] eqn:Er; cbn in E0; [|discriminate]. destruct (t_is_default r) eqn:Dr; [|discriminate].
    intros k r1 Er1 Dr1. by apply (Hd k k0 r1 r).
Qed.

Lemma clear_default_effect : hoare single_default (clear_default (DT := DT)) (λ _, defaults_in (λ _, False)) (λ _, True).
Proof.
  intros d [Hk _]. unfold clear_default. rewrite io_bind_run.
  destruct (db_update_cases (λ _, true) not_default d) as [(n & d' & -> & R)|[e ->]]; [apply _ | done | | exact I].
  split; rewrite R; [by apply keyed_update|]. intros k r. rewrite lookup_update_rows.
  destruct (rows d !! k) as [r0|]; cbn; [|discriminate]. intros [= <-]. discriminate.
Qed.

Lemma put_template_effect t (keys : uuid → Prop) :
  (t_is_default t = true → keys (t_id t)) →
  hoare (defaults_in keys) (put_template (DT := DT) t) (λ _, defaults_in keys) (λ _, True).
Proof.
  intros Ht d [Hk Hd]. unfold put_template. rewrite io_bind_run.
  destruct (db_update_cases (λ t', bool_decide (t_id t' = t_id t)) (λ t', if bool_decide (t_id t' = t_id t) then t else t') d)
    as [(n & d' & -> & R)|[e ->]]; [apply _ | | | exact I].
  { intros r. case_bool_decide as Er; [symmetry; exact Er | reflexivity]. }
  split; rewrite R.
  { apply keyed_update; [exact Hk|]. intros r. case_bool_decide as Er; [symmetry; exact Er | reflexivity]. }
  intros k r. rewrite lookup_update_rows. destruct (rows d !! k) as [r0|] eqn:E0; cbn; [|discriminate].
  case_bool_decide as Er; intros [= <-].
  - intros Hdef. rewrite <- (Hk k r0 E0). change (keys (t_id r0)). rewrite Er. by apply Ht.
  - by apply (Hd k r0 E0).
Qed.

Lemma insert_template_effect t (keys : uuid → Prop) :
  (t_is_default t = true → keys (t_id t)) →
  hoare (defaults_in keys) (db_insert (K := uuid) (D := DT) t) (λ _, defaults_in keys) (λ _, True).
Proof.
  intros Ht d [Hk Hd]. destruct (db_insert_cases t d) as [(d' & -> & R & _)|[e ->]]; [apply _ | | exact I].
  split; rewrite R; [by apply keyed_insert|]. intros k r [[<- <-]|[_ E]]%lookup_insert_Some; [exact Ht | exact (Hd k r E)].
Qed.

Definition one_default s : Prop := single_default (ct_templates s).

Lemma commit_keeps {A} (m : io DT A) :
  hoare single_default m (λ _, single_default) (λ _, True) → keeps one_default (commit (on_templates (DS := DS) (DG := DG) (DH := DH) m)).
Proof.
  intros Hm. unfold commit. apply keeps_try; [|intros e; apply keeps_raise]. apply transaction_keeps.
  apply (zoom_hoare ct_templates _ m single_default (λ _, single_default) (λ _, True)); [done | exact Hm].
Qed.

(** The first half of both routes that write a template. *)
Lemma make_way (b : bool) (id k0 : uuid) (gs : res (list uuid)) (m : list uuid → io DT unit) :
  (∀ groups, hoare (defaults_in (λ k, k = if b then id else k0)) (m groups) (λ _, defaults_in (λ k, k = if b then id else k0)) (λ _, True)) →
  hoare (defaults_in (λ k, k = k0)) (_ ← (if b then clear_default else mret tt); groups ← io_lift gs; m groups)
    (λ _, single_default) (λ _, True).
Proof.
  intros Hm. apply hoare_bind with (Q := λ _, defaults_in (λ k, k = if b then id else k0)).
  - destruct b; [|by apply hoare_ret].
    apply hoare_weaken with (P := single_default) (Q := λ _, defaults_in (λ _, False)) (E := λ _, True);
      [apply clear_default_effect | apply defaults_single | | done].
    intros _ d [Hk Hn]. split; [exact Hk|]. intros k r Er Dr. by destruct (Hn k r Er Dr).
  - intros _. apply hoare_bind with (Q := λ _, defaults_in (λ k, k = if b then id else k0)).
    + intros d Hd. unfold io_lift. by destruct gs.
    + intros groups. eapply hoare_weaken; [apply Hm | done | intros ? ?; apply defaults_single | done].
Qed.

Lemma create_template_single new_id b :
  keeps one_default (create_template (DS := DS) (DT := DT) (DG := DG) (DH := DH) new_id b).
Proof.
  unfold create_template, valid_form. apply keeps_bind; [destruct (template_create_valid b); auto with py|]. intros _.
  apply keeps_bind; [|intros _; apply keeps_get; intros s; by destruct (db_get new_id (ct_templates s))].
  apply commit_keeps. intros d Hd. apply single_defaults in Hd as [k0 Hd]. revert d Hd.
  apply (make_way _ new_id). intros groups. apply insert_template_effect. cbn [t_is_default t_id]. by intros ->.
Qed.

Lemma update_template_single template_id b :
  keeps one_default (update_template (DS := DS) (DT := DT) (DG := DG) (DH := DH) template_id b).
Proof.
  unfold update_template, valid_form. apply keeps_bind; [destruct (template_update_valid b); auto with py|]. intros _.
  apply keeps_bind; [apply keeps_lift|]. intros tid.
  apply keeps_bind; [|intros _; apply keeps_get; intros s; by destruct (db_get tid (ct_templates s))].
  apply commit_keeps. intros d Hd. rewrite io_bind_run. cbn.
  destruct (db_get tid d) as [t|] eqn:Et; [|exact I]. rewrite get_law in Et.
  assert (t_id t = tid) as Etid by (destruct Hd as [Hk _]; exact (Hk tid t Et)).
  apply single_defaults in Hd as [k0 Hd]. pose proof (proj2 Hd tid t Et) as Hold. cbn in Hold.
  clear Et. revert d Hd. apply (make_way _ tid). intros groups. apply put_template_effect. cbn [t_is_default t_id patched_template].
  rewrite Etid. destruct (tu_is_default b) as [[|]|]; cbn; [done | done | exact Hold].
Qed.

Lemma delete_template_single template_id :
  keeps one_default (delete_template (DS := DS) (DT := DT) (DG := DG) (DH := DH) template_id).
Proof.
  unfold delete_template. apply keeps_bind; [apply keeps_lift|]. intros tid. apply transaction_keeps.
  apply (zoom_hoare ct_templates _ _ single_default (λ _, single_default) (λ _, True)); [done|].
  intros d Hd. rewrite io_bind_run. cbn. destruct (db_get tid d) as [t|]; [|exact I].
  destruct (t_is_default t); [exact I|]. rewrite io_bind_run.
  destruct (delete_law (λ t', bool_decide (t_id t' = tid)) d) as (d' & -> & R). destruct Hd as [Hk Hd].
  split; rewrite R; [by apply keyed_reject|]. intros k1 k2 r1 r2. rewrite !lookup_reject_rows.
  destruct (rows d !! k1) as [q1|] eqn:E1; cbn; [|discriminate]. destruct (rows d !! k2) as [q2|] eqn:E2; cbn; [|discriminate].
  case_bool_decide; [discriminate|]. case_bool_decide; [discriminate|]. intros [= <-] [= <-]. by apply (Hd k1 k2 q1 q2).
Qed.

(** The default template is [r]. *)
Definition default_is k r s : Prop :=
  keyed (rows (ct_templates s)) ∧ rows (ct_templates s) !! k = Some r ∧ t_is_default r = true.

Lemma delete_template_default template_id k r :
  keeps (default_is k r) (delete_template (DS := DS) (DT := DT) (DG := DG) (DH := DH) template_id).
Proof.
  intros s (Hk & Er & Dr). cut (keyed (rows (ct_templates (delete_template template_id s).2)) ∧
    rows (ct_templates (delete_template template_id s).2) !! k = Some r); [intros [? ?]; done|].
  unfold delete_template. rewrite io_bind_run. unfold io_lift.
  destruct (route_id template_id) as [tid|e]; [|done]. unfold on_templates, io_transaction, io_zoom.
  rewrite io_bind_run. cbn. destruct (db_get tid (ct_templates s)) as [t|] eqn:Et; [|done].
  destruct (t_is_default t) eqn:Dt; [done|]. rewrite io_bind_run.
  destruct (delete_law (λ t', bool_decide (t_id t' = tid)) (ct_templates s)) as (d' & -> & R). cbn.
  rewrite R. split; [by apply keyed_reject|]. rewrite lookup_reject_rows, Er. cbn.
  rewrite bool_decide_eq_false_2; [done|]. intros Eid.
  rewrite get_law in Et. assert (k = tid) as -> by (rewrite <- Eid; symmetry; exact (Hk k r Er)). congruence.
Qed.

(** C28: whatever the administrators do to the templates, and whether the request
    succeeds or raises, there is at most one default template, and deleting never
    removes it. *)
Theorem template_default_unique :
  (∀ new_id b, keeps one_default (create_template (DS := DS) (DT := DT) (DG := DG) (DH := DH) new_id b)) ∧
  (∀ template_id b, keeps one_default (update_template (DS := DS) (DT := DT) (DG := DG) (DH := DH) template_id b)) ∧
  (∀ template_id, keeps one_default (delete_template (DS := DS) (DT := DT) (DG := DG) (DH := DH) template_id)) ∧
  (∀ template_id k r, keeps (default_is k r) (delete_template (DS := DS) (DT := DT) (DG := DG) (DH := DH) template_id)).
Proof.
  split; [|split; [|split]].
  - exact create_template_single.
  - exact update_template_single.
  - exact delete_template_single.
  - exact delete_template_default.
Qed.
End TemplateLemmas.

(** *** Clones *)

Section CloneLemmas.
Context {DS DT DG DH : Type} `{!Table uuid RdpServer DS} `{!Table uuid RdpTemplate DT} `{!Table uuid AdGroupCache DG}
  `{!Table uuid ConnectionHistory DH} `{!TableLaws uuid RdpServer DS} `{Floats} `{CaseMap} `{Collation}.
Implicit Types (d : DS) (s : catalog DS DT DG DH).

Lemma clone_from_fails s (src : RdpServer) id1 id2 new_ids e :
  db_insert (K := uuid) (clone_of id1 (clone_name src 1) src) (ct_servers s) = (Err IntegrityError, ct_servers s) →
  clone_from (DT := DT) (DG := DG) (DH := DH) (Err e) src 1 (id1 :: id2 :: new_ids) s = (Err e, s).
Proof.
  intros Ei.
  assert (io_try (_ ← io_transaction (on_servers (DT := DT) (DG := DG) (DH := DH)
      (db_insert (K := uuid) (clone_of id1 (clone_name src 1) src))); mret true)
    (λ e, if decide (e = IntegrityError) then mret false else io_raise e) s = (Ok false, s)) as Ea.
  { unfold io_try. rewrite io_bind_run. unfold io_transaction, on_servers, io_zoom. rewrite Ei. reflexivity. }
  cbn [clone_from]. change (1 =? 1) with true. cbn iota. rewrite io_bind_run.
  change ((mret () : io (catalog DS DT DG DH) unit) s) with (@Ok unit (), s). cbn iota. rewrite io_bind_run, Ea. reflexivity.
Qed.

(** When the name of the first copy is taken the second attempt reads the
    expired original: the request fails with what that read raises. *)
Lemma clone_again_fails s sid (src other : RdpServer) k id1 id2 new_ids e :
  (sid < 2 ^ 128)%N → rows (ct_servers s) !! sid = Some src →
  rows (ct_servers s) !! k = Some other → k ≠ id1 → s_tech_name other = clone_name src 1 →
  row_fits (clone_of id1 (clone_name src 1) src) = true →
  clone_server (Err e) (id1 :: id2 :: new_ids) (uuid_str sid) s = (Err e, s).
Proof.
  intros Hsid Esrc Eother Hk Hname Hfit.
  assert (db_insert (K := uuid) (clone_of id1 (clone_name src 1) src) (ct_servers s) = (Err IntegrityError, ct_servers s)) as Ei.
  { apply insert_duplicate; [exact Hfit|]. right. intros [Hu _]. apply Hk.
    eapply (Hu k other); [|apply lookup_insert_eq|exact Hname]. rewrite lookup_insert_ne; [exact Eother|]. cbn. congruence. }
  unfold clone_server, route_id. rewrite uuid_of_str_of by exact Hsid.
  assert (load_server sid 404 s = (Ok src, s)) as El by (unfold load_server; rewrite io_bind_run; cbn; by rewrite get_law, Esrc).
  rewrite io_bind_run. cbn [io_lift]. rewrite io_bind_run, El, io_bind_run. cbn [take].
  by rewrite clone_from_fails.
Qed.
End CloneLemmas.
Close Scope Z_scope.
