(* ===== verification/PyUrl.v ===== *)
(** [urllib.parse.urlparse] of the standard library, as far as the program uses
    it: the [netloc] of a header. The text of a header is Latin-1, where no
    character's compatibility form holds one of [/?#@:], so that the check of
    [_checknetloc] never objects. *)

From stdpp Require Import prelude list.
From Stdlib Require Import NArith Lia.
From S2P Require Import Prelude PySeq PyBytes PyStr PyIp.

Open Scope N_scope.

Fixpoint take_while (p : N → bool) (s : str) : str :=
  match s with
  | c :: s' => if p c then c :: take_while p s' else []
  | [] => []
  end.

Definition ascii_alpha (c : N) : bool := ((65 <=? c) && (c <=? 90)) || ((97 <=? c) && (c <=? 122)).
Definition ascii_digit (c : N) : bool := (48 <=? c) && (c <=? 57).
Definition hex_digit (c : N) : bool := ascii_digit c || ((97 <=? c) && (c <=? 102)) || ((65 <=? c) && (c <=? 70)).
Definition scheme_char (c : N) : bool := ascii_alpha c || ascii_digit c || bool_decide (c ∈ [43; 45; 46]).

(** [lstrip] of C0 controls and spaces, and the three characters removed
    everywhere. *)
Definition clean_url (url : str) : str := filter (λ c, c ∉ [9; 13; 10]) (drop_while (λ c, c <=? 32) url).

(** What is left after a scheme. *)
Definition after_scheme (url : str) : str :=
  match split_first 58 url with
  | Some ((c :: scheme), rest) => if ascii_alpha c && forallb scheme_char (c :: scheme) then rest else url
  | _ => url
  end.

(** [partition(sep)]: what is before the first [sep], and after it if there is
    one. *)
Definition before (sep : N) (s : str) : str := match split_first sep s with Some (a, _) => a | None => s end.
Definition past (sep : N) (s : str) : str := match split_first sep s with Some (_, b) => b | None => [] end.

(** [_check_bracketed_host] *)
Definition bracketed_host_ok (hostname : str) : bool :=
  match hostname with
  | 118 :: rest =>
      let hex := take_while hex_digit rest in
      negb (bool_decide (hex = []))
      && match drop (length hex) rest with 46 :: _ :: _ => true | _ => false end
  | _ => match ip_address hostname with Some (IpAddr V6 _) => true | _ => false end
  end.

(** [_check_bracketed_netloc] *)
Definition bracketed_netloc_ok (netloc : str) : bool :=
  let hostname_and_port := List.last (split_on 64 netloc) [] in
  if bool_decide (91 ∈ hostname_and_port) then
    let bracketed := past 91 hostname_and_port in
    let port := past 93 bracketed in
    bool_decide (before 91 hostname_and_port = [])
    && (bool_decide (port = []) || starts_with [58] port)
    && bracketed_host_ok (before 93 bracketed)
  else bracketed_host_ok (before 58 hostname_and_port).

(** [urlparse(url).netloc] *)
Definition netloc (url : str) : res str :=
  match after_scheme (clean_url url) with
  | 47 :: 47 :: rest =>
      let n := take_while (λ c, bool_decide (c ∉ [47; 63; 35])) rest in
      if xorb (bool_decide (91 ∈ n)) (bool_decide (93 ∈ n)) then Err ValueError
      else if bool_decide (91 ∈ n) && negb (bracketed_netloc_ok n) then Err ValueError
      else Ok n
  | _ => Ok []
  end.

Example netloc_examples :
  netloc (u "https://panel.example:9090/x?y") = Ok (u "panel.example:9090") ∧ netloc (u "null") = Ok []
  ∧ netloc (u "http://[::1]:8080") = Ok (u "[::1]:8080") ∧ netloc (u "http://[10.0.0.1]") = Err ValueError
  ∧ netloc (u "https://[v1.x]/") = Ok (u "[v1.x]") ∧ netloc (u "//a]b") = Err ValueError ∧ netloc (u "1x://a") = Ok [].
Proof. vm_compute. repeat split. Qed.

(** ** Lemmas *)

Lemma take_while_all p s : Forall (λ c, p c = true) s → take_while p s = s.
Proof. induction 1 as [|c s Hc _ IH]; [done|]. cbn. by rewrite Hc, IH. Qed.

(** A character of a plain host or port. *)
Definition host_char (c : N) : bool := ascii_alpha c || ascii_digit c || bool_decide (c ∈ [45; 46; 58; 95]).

Lemma plain_char c : scheme_char c || host_char c = true →
  (c <=? 32) = false ∧ (c ∉ [9; 13; 10]) ∧ (c ∉ [47; 63; 35]) ∧ c ≠ 91 ∧ c ≠ 93.
Proof.
  unfold scheme_char, host_char, ascii_alpha, ascii_digit.
  rewrite !orb_true_iff, !andb_true_iff, !N.leb_le, !bool_decide_eq_true, N.leb_gt, !elem_of_cons, !elem_of_nil. lia.
Qed.

Lemma filter_all (P : N → Prop) `{∀ c, Decision (P c)} (s : str) : Forall P s → filter P s = s.
Proof. induction 1 as [|c s Hc _ IH]; [done|]. by rewrite filter_cons_True, IH. Qed.

(** The origin of a page is read back. *)
Lemma netloc_origin c scheme hostport :
  ascii_alpha c = true → Forall (λ c, scheme_char c = true) scheme → Forall (λ c, host_char c = true) hostport →
  netloc ((c :: scheme) ++ 58 :: 47 :: 47 :: hostport) = Ok hostport.
Proof.
  intros Hc Hs Hh. assert (scheme_char c = true) as Hc' by (unfold scheme_char; by rewrite Hc).
  assert (Forall (λ c, scheme_char c = true) (c :: scheme)) as Hcs by by constructor.
  assert (∀ c, scheme_char c = true → scheme_char c || host_char c = true) as H1 by (intros x ->; done).
  assert (∀ c, host_char c = true → scheme_char c || host_char c = true) as H2 by (intros x ->; apply orb_true_r).
  unfold netloc, clean_url. cbn [app drop_while]. rewrite (proj1 (plain_char c (H1 c Hc'))).
  rewrite filter_all.
  2: { change (c :: scheme ++ 58 :: 47 :: 47 :: hostport) with ((c :: scheme) ++ [58; 47; 47] ++ hostport).
       rewrite !Forall_app. repeat split.
       - eapply Forall_impl; [exact Hcs|]. intros x Hx. apply (plain_char x (H1 x Hx)).
       - repeat constructor; by rewrite !elem_of_cons, elem_of_nil; lia.
       - eapply Forall_impl; [exact Hh|]. intros x Hx. apply (plain_char x (H2 x Hx)). }
  unfold after_scheme.
  rewrite (proj2 (split_first_Some 58 (c :: scheme ++ 58 :: 47 :: 47 :: hostport) (c :: scheme) (47 :: 47 :: hostport))).
  2: { split; [done|]. rewrite Forall_forall in Hcs. intros Hin. apply Hcs in Hin. discriminate. }
  rewrite Hc. rewrite (proj2 (forallb_forall _ _)).
  2: { intros x Hx. rewrite Forall_forall in Hcs. by apply Hcs, list_elem_of_In. }
  cbn [andb]. rewrite take_while_all.
  2: { eapply Forall_impl; [exact Hh|]. intros x Hx. apply bool_decide_eq_true, (plain_char x (H2 x Hx)). }
  assert (∀ d, d = 91 ∨ d = 93 → d ∉ hostport) as Hb.
  { intros d Hd Hin. rewrite Forall_forall in Hh. apply Hh, H2, plain_char in Hin. lia. }
  rewrite !bool_decide_eq_false_2 by (apply Hb; auto). done.
Qed.
Close Scope N_scope.
