(* ===== verification/AdminWeb.v ===== *)
(** What surrounds every request of the administration: the CSRF and audit
    middlewares of [services/admin/middleware/], and how [services/admin/app.py]
    stacks them around the routes and their error responses. Of the headers
    [SecurityHeadersMiddleware] adds, which are constants, nothing depends. *)

From stdpp Require Import prelude gmap list strings.
From Stdlib Require Import ZArith Lia.
From Stdlib Require Strings.String.
From S2P Require Import Prelude PySeq PyBytes PyStr Json PyUuid PyUrl Redis Encryption Sessions Database Models Config Http Accounts.

Open Scope Z_scope.

(** What a route works on: Redis, the audit log, and whatever else it has. *)
Record site (T R DL : Type) : Type := Site { st_rest : T; st_redis : world R; st_log : DL }.
Arguments Site {T R DL}. Arguments st_rest {T R DL}. Arguments st_redis {T R DL}. Arguments st_log {T R DL}.

(** A response of a status and no more. *)
Definition plain_response (status : Z) : response := Response status None [] [].

Definition MUTATING_METHODS : list str := [u "POST"; u "PUT"; u "PATCH"; u "DELETE"].
Definition mutating (rq : request) : bool := bool_decide (rq_method rq ∈ MUTATING_METHODS).

Section Site.
Context {T R DL : Type} `{Redis R} `{!Log AdminAuditLog DL} `{AESGCM}.
Abbreviation state := (site T R DL).

(** ** [CsrfMiddleware.dispatch] *)

Definition csrf_failed : io state response := mret (plain_response 403).

Definition csrf_dispatch (rq : request) (call_next : io state response) : io state response :=
  if negb (mutating rq) then call_next
  else if negb (starts_with (u "/api/") (rq_path rq)) then call_next
  else
    let origin := header (u "origin") rq in
    if negb (bool_decide (origin = [])) then
      origin_host ← io_lift (netloc origin);
      let host_header := header (u "host") rq in
      if negb (bool_decide (origin_host = [])) && negb (bool_decide (origin_host = host_header)) then csrf_failed
      else call_next
    else if negb (bool_decide (header (u "x-requested-with") rq = [])) then call_next
    else if contains (u "application/json") (header (u "content-type") rq) then call_next
    else csrf_failed.

(** ** [AuditMiddleware.dispatch] *)

Definition action_of (rq : request) : str := rq_method rq ++ u " " ++ rq_path rq.

Definition audit_row (instance_id : str) (session : option AdminWebSessionData) (rq : request) (status : Z) : AdminAuditLog := {|
  au_instance_id := Some instance_id; au_admin_user := match session with Some s => as_username s | None => u "unknown" end;
  au_action := action_of rq; au_target_type := Some (u "api"); au_target_id := Some (rq_path rq);
  au_new_value := JObj [(u "status_code", JInt status)]; au_client_ip := Some (admin_client_ip rq) |}.

(** What is written once the response is there: all of it or nothing. *)
Definition write_audit (app : admin_app) now (rq : request) (status : Z) : io state unit :=
  session ← io_zoom st_redis (λ w s, Site (st_rest s) w (st_log s)) (get_admin_session_optional app now rq);
  io_zoom st_log (λ l s, Site (st_rest s) (st_redis s) l)
    (log_append (audit_row (in_id (c_instance (app_cfg app))) session rq status)).

(** [has_db]: the sessions of the database are set up. *)
Definition audit_dispatch (app : admin_app) (has_db : bool) now (rq : request) (call_next : io state response) : io state response :=
  response ← call_next;
  if negb (starts_with (u "/api/admin/") (rq_path rq)) then mret response
  else if negb (mutating rq) then mret response
  else if negb has_db then mret response
  else _ ← io_try (write_audit app now rq (rs_status response)) (λ _, mret tt); mret response.

(** ** [create_app] *)

(** The handler of [HTTPException]s; any other exception goes up through the
    middlewares. *)
Definition html_unauthorized (rq : request) (status : Z) : response :=
  if (status =? 401) && starts_with (u "/admin") (rq_path rq) && negb (starts_with (u "/api/") (rq_path rq))
  then Response 303 (Some (u "/admin/login")) [] []
  else plain_response status.
Definition with_error_responses (rq : request) (route : io state response) : io state response :=
  io_try route (λ e, match e with HTTPException status => mret (html_unauthorized rq status) | _ => io_raise e end).

Definition serve (app : admin_app) (has_db : bool) now (rq : request) (route : io state response) : io state response :=
  csrf_dispatch rq (audit_dispatch app has_db now rq (with_error_responses rq route)).
End Site.

(** ** Lemmas *)

#[local] Opaque u.
Section SiteLemmas.
Context {T R DL : Type} `{RedisLaws R} `{!Log AdminAuditLog DL} `{!LogLaws AdminAuditLog DL audit_fits} `{AESGCM}.
Implicit Types (s : site T R DL) (rq : request) (route : io (site T R DL) response).

(** A mutating request to the interface that comes from another origin. *)
Lemma csrf_foreign rq origin host route s :
  mutating rq = true → starts_with (u "/api/") (rq_path rq) = true →
  header (u "origin") rq = origin → netloc origin = Ok host → host ≠ [] → host ≠ header (u "host") rq →
  csrf_dispatch rq route s = (Ok (plain_response 403), s).
Proof.
  intros Hm Hp Ho Hn Hne Hh. unfold csrf_dispatch. rewrite Hm, Hp, Ho. cbn [negb].
  assert (origin ≠ []) as Hoe by (intros ->; vm_compute in Hn; congruence).
  rewrite (bool_decide_eq_false_2 _ Hoe). cbn [negb]. rewrite io_bind_run. rewrite Hn. cbn.
  by rewrite !bool_decide_eq_false_2.
Qed.

Lemma csrf_same rq origin route :
  mutating rq = true → starts_with (u "/api/") (rq_path rq) = true →
  header (u "origin") rq = origin → origin ≠ [] → netloc origin = Ok (header (u "host") rq) →
  ∀ s, csrf_dispatch rq route s = route s.
Proof.
  intros Hm Hp Ho Hoe Hn s. unfold csrf_dispatch. rewrite Hm, Hp, Ho. cbn [negb].
  rewrite (bool_decide_eq_false_2 _ Hoe). cbn [negb]. rewrite io_bind_run, Hn. cbn.
  rewrite (bool_decide_eq_true_2 (header _ rq = header _ rq)) by done. by rewrite andb_false_r.
Qed.

Lemma csrf_form rq route s :
  mutating rq = true → starts_with (u "/api/") (rq_path rq) = true →
  header (u "origin") rq = [] → header (u "x-requested-with") rq = [] →
  contains (u "application/json") (header (u "content-type") rq) = false →
  csrf_dispatch rq route s = (Ok (plain_response 403), s).
Proof.
  intros Hm Hp Ho Hx Hc. unfold csrf_dispatch. rewrite Hm, Hp, Ho, Hx, Hc. cbn [negb].
  by rewrite !bool_decide_eq_true_2.
Qed.

(** The origin [null] that a browser sends for a sandboxed page has no host: the
    request is let through, whatever its type and headers. *)
Lemma csrf_null_origin rq route s :
  header (u "origin") rq = u "null" → csrf_dispatch rq route s = route s.
Proof.
  intros Ho. unfold csrf_dispatch. destruct (mutating rq); [|done]. destruct (starts_with _ _); [|done]. rewrite Ho. cbn [negb].
  rewrite bool_decide_eq_false_2 by (vm_compute; discriminate). cbn [negb]. rewrite io_bind_run.
  assert (netloc (u "null") = Ok []) as -> by (vm_compute; reflexivity). done.
Qed.

Lemma append_rows r (l : DL) : log_rows (log_append r l).2 = log_rows l ++ (if audit_fits r then [r] else []).
Proof.
  destruct (audit_fits r) eqn:E.
  - destruct (append_law r l E) as (l' & Ea & El). rewrite Ea. exact El.
  - rewrite append_unfit by done. cbn. by rewrite app_nil_r.
Qed.

(** The row that a request leaves, if any. *)
Definition trail (app : admin_app) rq (session : res (option AdminWebSessionData)) (status : Z) : list AdminAuditLog :=
  match session with
  | Ok sess => let row := audit_row (in_id (c_instance (app_cfg app))) sess rq status in if audit_fits row then [row] else []
  | Err _ => []
  end.
Definition audited (has_db : bool) rq : bool := starts_with (u "/api/admin/") (rq_path rq) && mutating rq && has_db.

Lemma write_audit_run app now rq status s :
  let '(session, w) := get_admin_session_optional app now rq (st_redis s) in
  ∃ l, (write_audit app now rq status s).2 = Site (st_rest s) w l
    ∧ log_rows l = log_rows (st_log s) ++ trail app rq session status.
Proof.
  unfold write_audit. rewrite io_bind_run. unfold io_zoom.
  destruct (get_admin_session_optional app now rq (st_redis s)) as [[sess|e] w]; cbn.
  - pose proof (append_rows (audit_row (in_id (c_instance (app_cfg app))) sess rq status) (st_log s)) as Ha.
    destruct (log_append _ _) as [r l]. by exists l.
  - exists (st_log s). by rewrite app_nil_r.
Qed.

Lemma audit_dispatch_run app has_db now rq (m : io (site T R DL) response) s :
  match m s with
  | (Ok resp, s1) =>
      let '(session, w) := get_admin_session_optional app now rq (st_redis s1) in
      ∃ l, log_rows l = log_rows (st_log s1) ++ trail app rq session (rs_status resp)
        ∧ audit_dispatch app has_db now rq m s
          = (Ok resp, if audited has_db rq then Site (st_rest s1) w l else s1)
  | (Err e, s1) => audit_dispatch app has_db now rq m s = (Err e, s1)
  end.
Proof.
  unfold audit_dispatch. rewrite io_bind_run. destruct (m s) as [[resp|e] s1]; [|done].
  pose proof (write_audit_run app now rq (rs_status resp) s1) as Hw.
  destruct (get_admin_session_optional app now rq (st_redis s1)) as [session w]. destruct Hw as (l & Ew & El).
  exists l. split; [exact El|]. unfold audited. destruct (starts_with _ _); [|done]. destruct (mutating rq); [|done].
  destruct has_db; [|done]. cbn [negb andb]. rewrite io_bind_run. unfold io_try.
  destruct (write_audit app now rq (rs_status resp) s1) as [[[]|e] s2]; cbn in *; by rewrite Ew.
Qed.


(** The audit never changes what a request does or answers, and logs a
    mutating request of the interface that got an answer, refused ones included:
    one row with the administrator of the session, the action, the address and
    the status, if the row fits its columns and the session can be read, and
    nothing otherwise. A request whose route raises leaves no row. *)
Theorem audit_trail (app : admin_app) (has_db : bool) (now : Z) rq route s :
  match with_error_responses rq route s with
  | (Ok resp, s1) =>
      let '(session, w) := get_admin_session_optional app now rq (st_redis s1) in
      ∃ l, log_rows l = log_rows (st_log s1) ++ trail app rq session (rs_status resp)
        ∧ audit_dispatch app has_db now rq (with_error_responses rq route) s
          = (Ok resp, if audited has_db rq then Site (st_rest s1) w l else s1)
  | (Err e, s1) => audit_dispatch app has_db now rq (with_error_responses rq route) s = (Err e, s1)
  end.
Proof. apply audit_dispatch_run. Qed.

Lemma long_action_unlogged app has_db now rq (m : io (site T R DL) response) s :
  (64 < length (action_of rq))%nat →
  log_rows (st_log (audit_dispatch app has_db now rq m s).2) = log_rows (st_log (m s).2).
Proof.
  intros Hl. pose proof (audit_dispatch_run app has_db now rq m s) as Hd. destruct (m s) as [[resp|e] s1]; [|by rewrite Hd].
  destruct (get_admin_session_optional app now rq (st_redis s1)) as [session w]. destruct Hd as (l & El & ->). cbn.
  destruct (audited has_db rq); [|done]. cbn. rewrite El. unfold trail. destruct session as [sess|e]; [|apply app_nil_r].
  replace (audit_fits _) with false; [apply app_nil_r|]. symmetry. unfold audit_fits. cbn [au_action audit_row].
  unfold text_fits at 2. rewrite (proj2 (Nat.leb_gt _ _)) by exact Hl. by rewrite !andb_false_r.
Qed.

(** The column of the action holds 64 characters. The kill of a session, the
    copy of a server, its visibility and the password and removal of an
    administrator have longer ones: none of these is ever audited. *)
Theorem audit_gap (app : admin_app) (has_db : bool) (now : Z) rq route s (id : uuid) :
  action_of rq ∈ [u "POST /api/admin/sessions/" ++ uuid_str id ++ u "/kill";
                  u "POST /api/admin/servers/" ++ uuid_str id ++ u "/clone";
                  u "PATCH /api/admin/servers/" ++ uuid_str id ++ u "/visibility";
                  u "POST /api/admin/admin-users/" ++ uuid_str id ++ u "/reset-password";
                  u "DELETE /api/admin/admin-users/" ++ uuid_str id] →
  log_rows (st_log (audit_dispatch app has_db now rq route s).2) = log_rows (st_log (route s).2).
Proof.
  intros Ha. apply long_action_unlogged.
  assert (∀ a b : str, (28 <? length a + length b)%nat = true → (64 < length (a ++ uuid_str id ++ b))%nat) as Hl
    by (intros a b Hab%Nat.ltb_lt; rewrite !length_app, length_uuid_str; lia).
  rewrite !elem_of_cons, elem_of_nil in Ha. destruct Ha as [E|[E|[E|[E|[E|[]]]]]]; rewrite E.
  5: rewrite <- (app_nil_r (uuid_str id)).
  all: apply Hl; vm_compute; reflexivity.
Qed.
End SiteLemmas.

(** ** Witnesses *)

#[local] Instance audit_log : Log AdminAuditLog (list AdminAuditLog) := list_log audit_fits.
#[local] Instance audit_log_laws : LogLaws AdminAuditLog (list AdminAuditLog) audit_fits := list_log_laws audit_fits.
Abbreviation demo_site := (site unit store (list AdminAuditLog)).
Definition demo_web (method path : str) (headers : list (str * str)) : request :=
  Request method path (λ k, snd <$> List.find (λ kv, bool_decide (kv.1 = k)) headers) (λ _, None) None None.
Definition demo_start : demo_site := Site tt (quiet ∅) [].
Definition demo_ok : io demo_site response := mret (plain_response 200).

(** The log after a request to add a server, and after one to kill a session. *)
Example audit_shown :
  (map au_action ∘ st_log ∘ snd) <$> [
    serve (demo_app []) true 0 (demo_web (u "POST") (u "/api/admin/servers") [(u "x-requested-with", u "fetch")]) demo_ok demo_start;
    serve (demo_app []) true 0 (demo_web (u "POST") (u "/api/admin/sessions/" ++ uuid_str 7 ++ u "/kill")
      [(u "x-requested-with", u "fetch")]) demo_ok demo_start]
  = [[u "POST /api/admin/servers"]; []].
Proof. vm_compute. reflexivity. Qed.

Definition evil_request : request :=
  demo_web (u "POST") (u "/api/admin/servers") [(u "origin", u "https://evil.example"); (u "host", u "panel.example:9090")].

Definition kill_request : request := demo_web (u "POST") (u "/api/admin/sessions/" ++ uuid_str 7 ++ u "/kill") [].
Lemma audit_gap_witness :
  log_rows (st_log (audit_dispatch (demo_app []) true 0 kill_request demo_ok demo_start).2) = log_rows (st_log (demo_ok demo_start).2).
Proof.
  apply (audit_gap (demo_app []) true 0 kill_request demo_ok demo_start 7%N).
  apply (bool_decide_eq_true_1 (action_of kill_request ∈ _)). vm_compute. reflexivity.
Defined.
Close Scope Z_scope.
