(* ===== verification/WebApps.v ===== *)
(** The two web applications as their [create_app] puts them together:
    the tables of the routes of [services/admin/routes/], [services/admin/app.py]
    and [services/portal/routes/], which of them stand behind [require_admin], and
    the middlewares around them. What each route does is in the files of its
    component: here the handlers are an argument. *)

From stdpp Require Import prelude gmap list strings.
From Stdlib Require Import ZArith Lia.
From Stdlib Require Strings.String.
From S2P Require Import Prelude PySeq PyBytes PyStr Json PyUuid PyUrl Redis Keys Encryption Sessions Database Models Config Http Accounts AdminWeb.

Open Scope Z_scope.

(** ** Routes *)

(** A decorated function: its method, its path, whether it has
    [Depends(require_admin)], and its name. *)
Record route : Type := Route { rt_method : str; rt_path : str; rt_guarded : bool; rt_name : str }.
#[export] Instance route_eq_dec : EqDecision route.
Proof. solve_decision. Defined.

(** [app.include_router(router, prefix=...)] *)
Definition include_router (prefix : str) (router : list route) : list route :=
  map (λ r, Route (rt_method r) (prefix ++ rt_path r) (rt_guarded r) (rt_name r)) router.

Definition GET (path : str) (guarded : bool) (name : str) : route := Route (u "GET") path guarded name.
Definition POST (path : str) (guarded : bool) (name : str) : route := Route (u "POST") path guarded name.
Definition PUT (path : str) (guarded : bool) (name : str) : route := Route (u "PUT") path guarded name.
Definition PATCH (path : str) (guarded : bool) (name : str) : route := Route (u "PATCH") path guarded name.
Definition DELETE (path : str) (guarded : bool) (name : str) : route := Route (u "DELETE") path guarded name.

Definition auth_router : list route := [
  GET (u "/login") false (u "login_page"); POST (u "/login") false (u "login_submit"); GET (u "/logout") false (u "logout");
  GET (u "/change-password") true (u "change_password_page"); POST (u "/change-password") true (u "change_password_submit")].
Definition servers_router : list route := include_router (u "/api/admin/servers") [
  GET [] true (u "list_servers"); POST [] true (u "create_server"); PUT (u "/reorder") true (u "reorder_servers");
  GET (u "/{server_id}") true (u "get_server"); PUT (u "/{server_id}") true (u "update_server");
  DELETE (u "/{server_id}") true (u "delete_server"); POST (u "/{server_id}/clone") true (u "clone_server");
  PATCH (u "/{server_id}/visibility") true (u "set_visibility")].
Definition templates_router : list route := include_router (u "/api/admin/templates") [
  GET (u "/schema") true (u "get_schema"); GET [] true (u "list_templates"); POST [] true (u "create_template");
  PUT (u "/{template_id}") true (u "update_template"); DELETE (u "/{template_id}") true (u "delete_template");
  GET (u "/preview") true (u "preview_template")].
Definition settings_router : list route := include_router (u "/api/admin/settings") [
  GET [] true (u "get_settings"); PUT [] true (u "put_settings"); GET (u "/cert-status") true (u "cert_status");
  POST (u "/ldap-check") true (u "ldap_check"); POST (u "/ldap-test") true (u "ldap_test")].
Definition sessions_router : list route := include_router (u "/api/admin/sessions") [
  GET (u "/active") true (u "active_sessions"); GET (u "/history") true (u "sessions_history");
  GET (u "/history/reasons") true (u "disconnect_reasons"); GET (u "/history.csv") true (u "sessions_history_csv");
  GET (u "/{connection_id}") true (u "session_detail"); GET (u "/{connection_id}/events") true (u "session_events");
  POST (u "/kill-all") true (u "kill_all_sessions"); POST (u "/{connection_id}/kill") true (u "kill_session")].
Definition stats_router : list route := include_router (u "/api/admin/stats") [
  GET (u "/overview") true (u "overview"); GET (u "/resources") true (u "resources")].
Definition admin_users_router : list route := include_router (u "/api/admin/admin-users") [
  GET [] true (u "list_admin_users"); POST [] true (u "create_admin_user"); PUT (u "/{user_id}") true (u "update_admin_user");
  POST (u "/{user_id}/reset-password") true (u "reset_admin_password"); DELETE (u "/{user_id}") true (u "delete_admin_user")].
Definition ad_groups_router : list route := include_router (u "/api/admin/ad-groups") [
  GET [] true (u "search_groups"); POST (u "/refresh") true (u "refresh_groups")].
Definition cluster_router : list route := include_router (u "/api/admin/cluster") [
  GET (u "/nodes") true (u "list_nodes"); GET (u "/nodes/{instance_id}") true (u "get_node")].
Definition services_router : list route := include_router (u "/api/admin/services") [
  GET (u "/health") true (u "service_health"); GET [] true (u "list_services"); POST (u "/restart") true (u "restart_service")].

(** [page_routes]: path, template, entry of the navigation. *)
Definition page_routes : list (str * str * str) := [
  (u "/admin/dashboard", u "admin_dashboard.html", u "dashboard"); (u "/admin/servers", u "admin_servers.html", u "servers");
  (u "/admin/templates", u "admin_templates.html", u "templates"); (u "/admin/settings", u "admin_settings.html", u "settings");
  (u "/admin/sessions", u "admin_sessions.html", u "sessions"); (u "/admin/history", u "admin_history.html", u "history")].
Definition html_pages : list route :=
  GET (u "/admin") true (u "admin_root") :: map (λ p, GET p.1.1 true p.1.2) page_routes.

(** [create_app] of the administration, in the order of its calls. *)
Definition admin_routes : list route :=
  include_router (u "/admin") auth_router ++ servers_router ++ templates_router ++ settings_router ++ sessions_router
  ++ stats_router ++ admin_users_router ++ ad_groups_router ++ cluster_router ++ services_router ++ html_pages.

(** [create_app] of the portal. *)
Definition portal_routes : list route := [
  POST (u "/login") false (u "login"); GET (u "/logout") false (u "logout");
  GET (u "/") false (u "index"); GET (u "/rdp/{server_id}") false (u "rdp_download");
  GET (u "/health") false (u "health")].

(** ** The framework *)

Definition is_param (segment : str) : bool := match segment with 123%N :: _ => true | _ => false end.
(** A path matches a pattern segment by segment; a parameter takes any text but
    an empty one. *)
Fixpoint segments_match (pattern path : list str) : bool :=
  match pattern, path with
  | [], [] => true
  | p :: pattern', s :: path' =>
      (if is_param p then negb (bool_decide (s = [])) else bool_decide (p = s)) && segments_match pattern' path'
  | _, _ => false
  end.
Definition route_match (method path : str) (r : route) : bool :=
  bool_decide (rt_method r = method) && segments_match (split_on 47%N (rt_path r)) (split_on 47%N path).

(** What is made of a request: a route, or the framework's own answer (not found,
    method not allowed, the redirect of a trailing slash). *)
Inductive routed : Type := Run (r : route) | Reply (resp : response).

(** FastAPI. [unreadable]: the answer to a body that cannot be read, before any
    dependency runs. As documented, of the routes that match it is the first that
    runs. The expression a path is matched with ends in a dollar sign, which also
    stands before a line break at the end: such a path can run the route of the
    path without it. *)
Class Framework : Type := {
  routing : list route → request → routed;
  unreadable : route → request → option response;
  routing_run rs rq r :
    routing rs rq = Run r →
    r ∈ rs ∧ ∃ path, (rq_path rq = path ∨ rq_path rq = path ++ [10%N]) ∧ route_match (rq_method rq) path r = true;
  routing_first rs rq r :
    10%N ∉ rq_path rq → (routing rs rq = Run r ↔ List.find (route_match (rq_method rq) (rq_path rq)) rs = Some r);
}.

(** ** Middlewares that write headers *)

Record answer : Type := Answer { an_response : response; an_headers : list (str * str) }.

(** [response.headers[k] = v] *)
Fixpoint set_header (k v : str) (l : list (str * str)) : list (str * str) :=
  match l with
  | [] => [(k, v)]
  | (k', v') :: l' => if bool_decide (k' = k) then (k, v) :: l' else (k', v') :: set_header k v l'
  end.

Definition CSP : str :=
  u "default-src 'self'; " ++ u "script-src 'self' 'unsafe-inline' https://cdn.jsdelivr.net; "
  ++ u "style-src 'self' 'unsafe-inline'; img-src 'self' data:; " ++ u "font-src 'self' data:; connect-src 'self'; "
  ++ u "frame-ancestors 'none'; form-action 'self'; base-uri 'self'".

Section Stack.
Context {S : Type}.
(** [SecurityHeadersMiddleware.dispatch] *)
Definition security_headers_dispatch (call_next : io S answer) : io S answer :=
  a ← call_next;
  mret (Answer (an_response a)
    (set_header (u "content-security-policy") CSP
      (set_header (u "x-content-type-options") (u "nosniff") (set_header (u "x-frame-options") (u "DENY") (an_headers a))))).

(** [CorrelationIdMiddleware.dispatch]; nothing reads the context variable that it sets. *)
Definition correlation_dispatch (random_hex : str) (rq : request) (call_next : io S answer) : io S answer :=
  let cid := correlation_id random_hex rq in
  a ← call_next;
  mret (Answer (an_response a) (set_header (u "x-correlation-id") cid (an_headers a))).

Definition bare (m : io S response) : io S answer := resp ← m; mret (Answer resp []).

(** ** The portal *)

Context `{Framework}.
Definition portal_router (handlers : str → request → io S response) (rq : request) : io S response :=
  match routing portal_routes rq with
  | Reply resp => mret resp
  | Run r => match unreadable r rq with Some resp => mret resp | None => handlers (rt_name r) rq end
  end.
(** The middleware that is added last is the first to see the request. *)
Definition portal_call (handlers : str → request → io S response) (random_hex : str) (rq : request) : io S answer :=
  let rq := real_ip rq in
  correlation_dispatch random_hex rq (security_headers_dispatch (bare (portal_router handlers rq))).
End Stack.

(** ** The administration *)

Section Admin.
Context {T R DL : Type} `{Redis R} `{!Log AdminAuditLog DL} `{AESGCM} `{Framework}.
Abbreviation state := (site T R DL).

(** What runs for a route: with the session of the administrator, or without one. *)
Abbreviation admin_handlers := (str → option AdminWebSessionData → request → io (site T R DL) response).

Definition run_route (handlers : admin_handlers) (app : admin_app) now (rq : request) (r : route) : io state response :=
  match unreadable r rq with
  | Some resp => mret resp
  | None =>
      if rt_guarded r then
        admin ← io_zoom st_redis (λ w s, Site (st_rest s) w (st_log s)) (require_admin app now rq);
        handlers (rt_name r) (Some admin) rq
      else handlers (rt_name r) None rq
  end.
Definition admin_router (handlers : admin_handlers) (app : admin_app) now (rq : request) : io state response :=
  match routing admin_routes rq with Reply resp => mret resp | Run r => run_route handlers app now rq r end.
Definition admin_call (handlers : admin_handlers) (app : admin_app) (has_db : bool) now (rq : request) : io state answer :=
  security_headers_dispatch (bare (serve app has_db now rq (admin_router handlers app now rq))).
End Admin.

(** The routes that need no session: the login page, its form, and the logout. *)
Definition public_routes : list (str * str) :=
  [(u "GET", u "/admin/login"); (u "POST", u "/admin/login"); (u "GET", u "/admin/logout")].
(** A request for one of them, with a line break at the end of its path or without. *)
Definition public (rq : request) : Prop :=
  ∃ path, (rq_path rq = path ∨ rq_path rq = path ++ [10%N]) ∧ (rq_method rq, path) ∈ public_routes.

(** ** Lemmas *)

(** *** Which route a path gets *)

(** Texts that a parameter must not be, since a route before it has them in its place. *)
Definition reserved : list str := [u "active"; u "history"; u "history.csv"; u "reorder"].
Definition argument (a : str) : Prop := a ≠ [] ∧ (47%N ∉ a) ∧ (10%N ∉ a) ∧ (a ∉ reserved).

(** The path of a route, with its parameters filled in. *)
Fixpoint fill_segments (pattern args : list str) : list str :=
  match pattern with
  | [] => []
  | p :: pattern' =>
      if is_param p then match args with a :: args' => a :: fill_segments pattern' args' | [] => [] :: fill_segments pattern' [] end
      else p :: fill_segments pattern' args
  end.
Definition parameters (path : str) : nat := length (List.filter is_param (split_on 47%N path)).
Definition fill_path (path : str) (args : list str) : str := join_with [47%N] (fill_segments (split_on 47%N path) args).

(** No path of the second pattern matches the first one. *)
Fixpoint apart_segments (first second : list str) : bool :=
  match first, second with
  | [], [] => false
  | p :: first', q :: second' =>
      (if is_param p then false else if is_param q then bool_decide (p ∈ reserved) else negb (bool_decide (p = q)))
      || apart_segments first' second'
  | _, _ => true
  end.
Definition apart (r r' : route) : bool :=
  negb (bool_decide (rt_method r = rt_method r')) || apart_segments (split_on 47%N (rt_path r)) (split_on 47%N (rt_path r')).
Fixpoint all_apart (earlier rs : list route) : bool :=
  match rs with [] => true | r :: rs' => forallb (λ e, apart e r) earlier && all_apart (earlier ++ [r]) rs' end.

Lemma fill_match pattern args :
  length args = length (List.filter is_param pattern) → Forall argument args →
  segments_match pattern (fill_segments pattern args) = true.
Proof.
  revert args. induction pattern as [|p pattern IH]; intros args Hl Ha; [done|]. cbn [fill_segments List.filter] in *.
  destruct (is_param p) eqn:Ep.
  - destruct args as [|a args]; [done|]. apply Forall_cons in Ha as [(Hne & _) Ha]. cbn [segments_match]. rewrite Ep.
    rewrite bool_decide_eq_false_2 by exact Hne. apply IH; [by injection Hl | exact Ha].
  - cbn [segments_match]. rewrite Ep, bool_decide_eq_true_2 by reflexivity. by apply IH.
Qed.

Lemma apart_match pattern pattern' args :
  apart_segments pattern pattern' = true → length args = length (List.filter is_param pattern') → Forall argument args →
  segments_match pattern (fill_segments pattern' args) = false.
Proof.
  revert pattern args. induction pattern' as [|q pattern' IH]; intros [|p pattern] args Ha Hl Hargs; try done.
  { cbn [fill_segments]. destruct (is_param q); [destruct args|]; done. }
  cbn [apart_segments fill_segments List.filter] in *. apply orb_true_iff in Ha as [Ha|Ha].
  - destruct (is_param p) eqn:Ep; [done|]. destruct (is_param q).
    + destruct args as [|a args]; [done|]. apply Forall_cons in Hargs as [(_ & _ & _ & Hr) _]. apply bool_decide_eq_true_1 in Ha.
      cbn [segments_match]. rewrite Ep, bool_decide_eq_false_2; [done|]. intros ->. exact (Hr Ha).
    + cbn [segments_match]. rewrite Ep. apply negb_true_iff in Ha. by rewrite Ha.
  - destruct (is_param q).
    + destruct args as [|a args]; [done|]. apply Forall_cons in Hargs as [_ Hargs]. injection Hl as Hl. cbn [segments_match].
      rewrite (IH pattern args Ha Hl Hargs). apply andb_false_r.
    + cbn [segments_match]. rewrite (IH pattern args Ha Hl Hargs). apply andb_false_r.
Qed.

Lemma fill_split path args :
  length args = parameters path → Forall argument args →
  split_on 47%N (fill_path path args) = fill_segments (split_on 47%N path) args.
Proof.
  intros Hl Ha. unfold fill_path. apply split_on_join.
  - unfold parameters in Hl. pose proof (split_on_nonempty 47%N path) as Hne.
    destruct (split_on 47%N path) as [|p l]; [done|]. cbn [fill_segments]. destruct (is_param p); [by destruct args | done].
  - assert (Forall (λ l, 47%N ∉ l) (split_on 47%N path)) as Hs by (apply Forall_forall; intros w; apply split_on_no_sep).
    clear Hl. revert args Ha. induction Hs as [|p l Hp _ IH]; intros args Ha; [constructor|]. cbn [fill_segments].
    destruct (is_param p); [|constructor; [exact Hp | by apply IH]].
    destruct args as [|a args]; [constructor; [apply not_elem_of_nil | by apply IH]|].
    apply Forall_cons in Ha as [(_ & Hs & _) Ha]. constructor; [exact Hs | by apply IH].
Qed.

Lemma all_apart_earlier rs earlier r :
  all_apart earlier rs = true → r ∈ rs → Forall (λ e, apart e r = true) earlier.
Proof.
  revert earlier. induction rs as [|x rs IH]; intros earlier Ha Hr; [by apply not_elem_of_nil in Hr|].
  cbn [all_apart] in Ha. apply andb_true_iff in Ha as [Hx Ha]. apply elem_of_cons in Hr as [->|Hr].
  - apply Forall_forall. intros e He. rewrite forallb_forall in Hx. apply Hx. by apply list_elem_of_In.
  - specialize (IH _ Ha Hr). by apply Forall_app in IH as [IH _].
Qed.

Lemma route_match_self r args :
  length args = parameters (rt_path r) → Forall argument args → route_match (rt_method r) (fill_path (rt_path r) args) r = true.
Proof.
  intros Hl Ha. unfold route_match. rewrite bool_decide_eq_true_2 by reflexivity. rewrite fill_split by assumption.
  by apply fill_match.
Qed.
Lemma route_match_apart e r args :
  apart e r = true → length args = parameters (rt_path r) → Forall argument args →
  route_match (rt_method r) (fill_path (rt_path r) args) e = false.
Proof.
  intros Hap Hl Ha. unfold route_match, apart in *. rewrite fill_split by assumption. apply orb_true_iff in Hap as [Hm|Hs].
  - apply negb_true_iff in Hm. by rewrite Hm.
  - rewrite (apart_match _ _ args Hs Hl Ha). apply andb_false_r.
Qed.

Lemma find_apart rs earlier r args :
  all_apart earlier rs = true → r ∈ rs → length args = parameters (rt_path r) → Forall argument args →
  List.find (route_match (rt_method r) (fill_path (rt_path r) args)) rs = Some r.
Proof.
  intros Hap Hr Hl Ha. revert earlier Hap. induction rs as [|x rs IH]; intros earlier Hap; [by apply not_elem_of_nil in Hr|].
  cbn [List.find]. destruct (decide (x = r)) as [->|Hne]; [by rewrite route_match_self|].
  apply elem_of_cons in Hr as [->|Hr]; [done|]. cbn [all_apart] in Hap. apply andb_true_iff in Hap as [_ Hap].
  pose proof (all_apart_earlier rs _ r Hap Hr) as Hx. apply Forall_app in Hx as [_ Hx]. apply Forall_cons in Hx as [Hx _].
  rewrite (route_match_apart x r args Hx Hl Ha). by apply (IH Hr (earlier ++ [x])).
Qed.

(** No line break in a path whose pattern has none. *)
Lemma join_without (x : N) sep ls : x ≠ sep → Forall (λ l, x ∉ l) ls → x ∉ join_with [sep] ls.
Proof.
  intros Hne. induction 1 as [|l ls Hl _ IH]; [apply not_elem_of_nil|]. cbn [join_with]. destruct ls; [exact Hl|].
  rewrite !not_elem_of_app, not_elem_of_cons. split; [exact Hl|]. split; [split; [exact Hne | apply not_elem_of_nil] | exact IH].
Qed.
Lemma elem_join (x : N) sep w ls : w ∈ ls → x ∈ w → x ∈ join_with [sep] ls.
Proof.
  induction ls as [|l ls IH]; intros Hw Hx; [by apply not_elem_of_nil in Hw|]. apply elem_of_cons in Hw as [->|Hw].
  - cbn [join_with]. destruct ls; [exact Hx|]. apply elem_of_app. by left.
  - cbn [join_with]. destruct ls; [by apply not_elem_of_nil in Hw|]. apply elem_of_app. right. apply elem_of_app. right. by apply IH.
Qed.
Lemma fill_no_break path args : 10%N ∉ path → Forall argument args → 10%N ∉ fill_path path args.
Proof.
  intros Hp Ha. unfold fill_path. apply join_without; [done|].
  assert (Forall (λ l, 10%N ∉ l) (split_on 47%N path)) as Hs.
  { apply Forall_forall. intros w Hw Hin. apply Hp. rewrite <- (join_split_on 47%N path). by apply (elem_join 10%N 47%N w). }
  revert args Ha. induction Hs as [|p l Hp' _ IH]; intros args Ha; [constructor|]. cbn [fill_segments].
  destruct (is_param p); [|constructor; [exact Hp' | by apply IH]].
  destruct args as [|a args]; [constructor; [apply not_elem_of_nil | by apply IH]|].
  apply Forall_cons in Ha as [(_ & _ & Hb & _) Ha]. constructor; [exact Hb | by apply IH].
Qed.

(** Identifiers can stand for every parameter. *)
Lemma uuid_argument id : argument (uuid_str id).
Proof.
  pose proof (length_uuid_str id) as Hl. split; [by destruct (uuid_str id)|].
  split; [apply uuid_str_not; lia|]. split; [apply uuid_str_not; lia|].
  intros Hin. assert (Forall (λ l, length l ≠ 36%nat) reserved) as Hr by (apply (bool_decide_eq_true_1 (Forall _ _)); vm_compute; reflexivity).
  rewrite Forall_forall in Hr. by apply (Hr _ Hin).
Qed.

(** *** Nobody's request *)

Lemma literal_match pattern path :
  Forall (λ p, is_param p = false) pattern → segments_match pattern path = true → pattern = path.
Proof.
  intros Hp. revert path. induction Hp as [|p pattern Hp _ IH]; intros [|s path] Hm; try done. cbn [segments_match] in Hm.
  rewrite Hp in Hm. apply andb_true_iff in Hm as [Hs Hm]. apply bool_decide_eq_true_1 in Hs as ->. f_equal. by apply IH.
Qed.

(** The routes without a guard are the public ones. *)
Lemma routed_guarded `{Framework} rq r :
  routing admin_routes rq = Run r → ¬ public rq → rt_guarded r = true.
Proof.
  intros Hr Hpub. apply routing_run in Hr as [Hin (path & Hpath & Hm)]. apply list_elem_of_In in Hin.
  destruct (rt_guarded r) eqn:Eg; [done|]. exfalso. apply Hpub. exists path. split; [exact Hpath|].
  assert (forallb (λ r, rt_guarded r || bool_decide ((rt_method r, rt_path r) ∈ public_routes)
    && forallb (λ p, negb (is_param p)) (split_on 47%N (rt_path r))) admin_routes = true) as Hall by (vm_compute; reflexivity).
  rewrite forallb_forall in Hall. specialize (Hall r Hin). rewrite Eg in Hall. apply andb_true_iff in Hall as [Hp Hl].
  apply bool_decide_eq_true_1 in Hp. apply andb_true_iff in Hm as [Hmeth Hseg]. apply bool_decide_eq_true_1 in Hmeth.
  rewrite forallb_forall in Hl.
  assert (split_on 47%N (rt_path r) = split_on 47%N path) as E.
  { apply literal_match; [|exact Hseg]. apply Forall_forall. intros p Hin'. apply list_elem_of_In in Hin'. apply negb_true_iff. by apply Hl. }
  apply (f_equal (join_with [47%N])) in E. rewrite !join_split_on in E. by rewrite <- Hmeth, <- E.
Qed.

Section Nobody.
Context {T R DL : Type} `{RedisLaws R} `{!Log AdminAuditLog DL} `{!LogLaws AdminAuditLog DL audit_fits} `{AESGCM} `{Framework}.
Implicit Types (s : site T R DL) (rq : request).
Abbreviation admin_handlers := (str → option AdminWebSessionData → request → io (site T R DL) response).

(** What Redis holds is the same, but for the session of the cookie. *)
Definition only_session now rq (w w' : world R) : Prop :=
  alone w' ∧ ∀ k, (∀ sid, rq_cookies rq ADMIN_COOKIE_NAME = Some sid → k ≠ ADMIN_WEB_SESSION sid) →
    live now (w_store w') !! k = live now (w_store w) !! k.

Lemma only_session_refl now rq w : alone w → only_session now rq w w.
Proof. by split. Qed.
Lemma only_session_trans now rq w1 w2 w3 : only_session now rq w1 w2 → only_session now rq w2 w3 → only_session now rq w1 w3.
Proof. intros [_ E1] [Ha E2]. split; [exact Ha|]. intros k Hk. by rewrite E2, E1. Qed.
Lemma admin_key_nonempty sid : ADMIN_WEB_SESSION sid ≠ [].
Proof.
  assert (bool_decide (u "rdp:admin:web:" = []) = false) as E by (vm_compute; reflexivity).
  apply bool_decide_eq_false in E. unfold ADMIN_WEB_SESSION. intros Hk. apply app_eq_nil in Hk as [Hk _]. exact (E Hk).
Qed.
Lemma optional_only_session app now rq w : alone w → only_session now rq w (get_admin_session_optional app now rq w).2.
Proof.
  intros Hw. unfold get_admin_session_optional. destruct (rq_cookies rq ADMIN_COOKIE_NAME) as [[|c sid]|] eqn:Ec;
    [by apply only_session_refl| |by apply only_session_refl].
  assert (∀ k, ADMIN_WEB_SESSION (c :: sid) ≠ k → calm now k (live now (w_store w) !! k)
    (get_admin_web_session (app_store app) now (c :: sid) (admin_browser_fingerprint rq) w).2) as Hcalm
    by (intros k Hk; by apply calm_admin_session).
  split; [|intros k Hk].
  { apply (Hcalm []). apply admin_key_nonempty. }
  apply (Hcalm k). intros <-. by apply (Hk (c :: sid)).
Qed.
Lemma require_only_session app now rq w : alone w → only_session now rq w (require_admin app now rq w).2.
Proof.
  intros Hw. unfold require_admin. destruct (rq_cookies rq ADMIN_COOKIE_NAME) as [[|c sid]|] eqn:Ec;
    [by apply only_session_refl| |by apply only_session_refl].
  pose proof (optional_only_session app now rq w Hw) as Ho. unfold get_admin_session_optional in Ho. rewrite Ec in Ho.
  rewrite io_bind_run. destruct (get_admin_web_session _ _ _ _ w) as [[[sess|]|e] w1]; [|exact Ho|exact Ho].
  cbv zeta. destruct (negb (allowed_from _ _)); [exact Ho|]. rewrite io_bind_run. unfold io_lift.
  destruct (str_list _); [|exact Ho]. by destruct (negb (allowed_from _ _)).
Qed.

(** A route that stands behind [require_admin], without a session: no handler is asked. *)
Lemma run_guarded (handlers handlers' : admin_handlers) app now rq r s :
  w_env (st_redis s) = [] → (∀ sess, ¬ let_through app now rq (w_store (st_redis s)) sess) → rt_guarded r = true →
  run_route handlers app now rq r s = run_route handlers' app now rq r s
  ∧ st_rest (run_route handlers app now rq r s).2 = st_rest s ∧ st_log (run_route handlers app now rq r s).2 = st_log s
  ∧ only_session now rq (st_redis s) (st_redis (run_route handlers app now rq r s).2).
Proof.
  intros Hw Hn Hg. unfold run_route. destruct (unreadable r rq); [split_and!; try done; by apply only_session_refl|].
  rewrite Hg. rewrite !io_bind_run. unfold io_zoom. pose proof (require_only_session app now rq (st_redis s) Hw) as Ho.
  destruct (require_admin app now rq (st_redis s)) as [[sess|e] w'] eqn:E; [|by split_and!].
  exfalso. exact (Hn sess (require_admin_inv app now rq (st_redis s) sess w' Hw E)).
Qed.

(** Whether the check of the origin lets a request through does not depend on the route. *)
Lemma serve_cases app has_db now rq s :
  (∀ m : io (site T R DL) response, serve app has_db now rq m s = audit_dispatch app has_db now rq (with_error_responses rq m) s)
  ∨ ∃ out, ∀ m : io (site T R DL) response, serve app has_db now rq m s = (out, s).
Proof.
  unfold serve, csrf_dispatch. destruct (negb (mutating rq)); [by left|]. destruct (negb (starts_with _ _)); [by left|].
  destruct (negb (bool_decide (header (u "origin") rq = []))).
  - destruct (netloc (header (u "origin") rq)) as [h|e] eqn:En; [|right; exists (Err e); intros m; by rewrite io_bind_run].
    destruct (negb (bool_decide (h = [])) && negb (bool_decide (h = header (u "host") rq))) eqn:E; [right; eexists | left];
      intros m; rewrite io_bind_run; unfold io_lift; cbv beta iota; rewrite E; reflexivity.
  - destruct (negb (bool_decide (header (u "x-requested-with") rq = []))); [by left|].
    destruct (contains _ _); [by left|]. right. by eexists.
Qed.

(** The audit sees the route only through what it answers. *)
Lemma audit_ext app has_db now rq (m m' : io (site T R DL) response) s :
  m s = m' s → audit_dispatch app has_db now rq (with_error_responses rq m) s = audit_dispatch app has_db now rq (with_error_responses rq m') s.
Proof. intros E. unfold audit_dispatch, with_error_responses, io_try. rewrite !io_bind_run. by rewrite E. Qed.

(** Requests that stay outside: nothing but the session that is looked up and the
    audit log can change. *)
Lemma serve_outside app has_db now rq (m : io (site T R DL) response) s :
  alone (st_redis s) → st_rest (m s).2 = st_rest s → st_log (m s).2 = st_log s → only_session now rq (st_redis s) (st_redis (m s).2) →
  let s' := (serve app has_db now rq m s).2 in
  st_rest s' = st_rest s ∧ only_session now rq (st_redis s) (st_redis s')
  ∧ ∃ new, log_rows (st_log s') = log_rows (st_log s) ++ new ∧ (length new <= 1)%nat.
Proof.
  intros Hw Hr Hl Ho. cbv zeta. destruct (serve_cases app has_db now rq s) as [Hs|[out Hs]]; rewrite Hs.
  2: { split; [done|]. split; [by apply only_session_refl|]. exists []. split; [by rewrite app_nil_r | cbn; lia]. }
  assert ((with_error_responses rq m s).2 = (m s).2) as Hm.
  { unfold with_error_responses, io_try. destruct (m s) as [[resp|e] s1]; [done|]. by destruct e. }
  pose proof (audit_dispatch_run app has_db now rq (with_error_responses rq m) s) as Hd.
  destruct (with_error_responses rq m s) as [[resp|e] s1]; cbn [snd] in Hm; subst s1.
  2: { rewrite Hd. cbn [snd]. split; [done|]. split; [done|]. exists []. split; [by rewrite app_nil_r, Hl | cbn; lia]. }
  pose proof (optional_only_session app now rq (st_redis (m s).2) (proj1 Ho)) as Hopt.
  destruct (get_admin_session_optional app now rq (st_redis (m s).2)) as [session w]. destruct Hd as (l & El & ->).
  destruct (audited has_db rq); cbn [snd st_rest st_log st_redis].
  - split; [done|]. split; [by eapply only_session_trans|]. rewrite El, Hl. eexists. split; [done|].
    unfold trail. destruct session; [destruct (audit_fits _)|]; cbn; lia.
  - split; [done|]. split; [done|]. exists []. split; [by rewrite app_nil_r, Hl | cbn; lia].
Qed.
End Nobody.

(** ** Properties *)

(** C13: every route of the two applications is reached: the path of a route,
    with identifiers or other arguments in the place of its parameters, runs that
    route, and no route that was registered earlier takes its requests. *)
Theorem routes_reachable `{Framework} (rs : list route) (r : route) (args : list str) (rq : request) :
  rs = admin_routes ∨ rs = portal_routes → r ∈ rs → length args = parameters (rt_path r) → Forall argument args →
  rq_method rq = rt_method r → rq_path rq = fill_path (rt_path r) args →
  routing rs rq = Run r.
Proof.
  intros Hrs Hr Hl Ha Hm Hp.
  assert (all_apart [] rs = true ∧ forallb (λ r, bool_decide (10%N ∉ rt_path r)) rs = true) as [Hap Hb]
    by (destruct Hrs as [-> | ->]; vm_compute; done).
  apply routing_first.
  - rewrite Hp. apply fill_no_break; [|exact Ha]. rewrite forallb_forall in Hb. apply list_elem_of_In in Hr.
    exact (bool_decide_eq_true_1 _ (Hb r Hr)).
  - rewrite Hm, Hp. exact (find_apart rs [] r args Hap Hr Hl Ha).
Qed.

(** C12: without a session that [require_admin] lets through, and while nobody else
    writes to Redis, whatever is sent to the administration runs no handler, the login page, its form and the logout
    apart (each also with a line break after its path): the answer is the same
    whatever the handlers do, and nothing changes, in Redis or elsewhere, but for
    the session that the cookie names, which the look-up can touch or drop, and one
    row of the audit log. *)
Theorem nobody_gets_in {T R DL : Type} `{RedisLaws R} `{!Log AdminAuditLog DL} `{!LogLaws AdminAuditLog DL audit_fits}
    `{AESGCM} `{Framework} (handlers handlers' : str → option AdminWebSessionData → request → io (site T R DL) response)
    (app : admin_app) (has_db : bool) (now : Z) (rq : request) (s : site T R DL) :
  w_env (st_redis s) = [] → (∀ sess, ¬ let_through app now rq (w_store (st_redis s)) sess) → ¬ public rq →
  let s' := (admin_call handlers app has_db now rq s).2 in
  admin_call handlers app has_db now rq s = admin_call handlers' app has_db now rq s
  ∧ st_rest s' = st_rest s
  ∧ (∀ k, (∀ sid, rq_cookies rq ADMIN_COOKIE_NAME = Some sid → k ≠ ADMIN_WEB_SESSION sid) →
       live now (w_store (st_redis s')) !! k = live now (w_store (st_redis s)) !! k)
  ∧ ∃ new, log_rows (st_log s') = log_rows (st_log s) ++ new ∧ (length new <= 1)%nat.
Proof.
  intros Hw Hn Hpub. cbv zeta.
  assert (∀ h h', admin_router h app now rq s = admin_router h' app now rq s
    ∧ st_rest (admin_router h app now rq s).2 = st_rest s ∧ st_log (admin_router h app now rq s).2 = st_log s
    ∧ only_session now rq (st_redis s) (st_redis (admin_router h app now rq s).2)) as Hrouter.
  { intros h h'. unfold admin_router. destruct (routing admin_routes rq) as [r|resp] eqn:Er.
    - exact (run_guarded h h' app now rq r s Hw Hn (routed_guarded rq r Er Hpub)).
    - split_and!; try done. }
  destruct (Hrouter handlers handlers') as (Eh & Hrest & Hlog & Hses).
  pose proof (serve_outside app has_db now rq (admin_router handlers app now rq) s Hw Hrest Hlog Hses) as (Hsr & [_ Hss] & Hsl).
  assert (serve app has_db now rq (admin_router handlers app now rq) s = serve app has_db now rq (admin_router handlers' app now rq) s) as Es.
  { destruct (serve_cases app has_db now rq s) as [Hs|[out Hs]]; rewrite !Hs; [by apply audit_ext | done]. }
  unfold admin_call, security_headers_dispatch, bare. rewrite !io_bind_run. rewrite <- Es.
  by destruct (serve app has_db now rq (admin_router handlers app now rq) s) as [[resp|e] s1].
Qed.

(** ** Witnesses *)

Lemma first_match_run rs rq r :
  match List.find (route_match (rq_method rq) (rq_path rq)) rs with Some r => Run r | None => Reply (plain_response 404) end = Run r →
  r ∈ rs ∧ ∃ path, (rq_path rq = path ∨ rq_path rq = path ++ [10%N]) ∧ route_match (rq_method rq) path r = true.
Proof.
  destruct (List.find _ _) as [r'|] eqn:E; [|done]. intros [= ->]. apply List.find_some in E as [Hin Hm].
  split; [by apply list_elem_of_In|]. exists (rq_path rq). auto.
Qed.
Lemma first_match_first rs rq r :
  10%N ∉ rq_path rq →
  (match List.find (route_match (rq_method rq) (rq_path rq)) rs with Some r => Run r | None => Reply (plain_response 404) end = Run r
   ↔ List.find (route_match (rq_method rq) (rq_path rq)) rs = Some r).
Proof. intros _. destruct (List.find _ _) as [r'|]; [|done]. split; intros E; injection E as ->; reflexivity. Qed.
Definition first_match : Framework := {|
  routing rs rq := match List.find (route_match (rq_method rq) (rq_path rq)) rs with Some r => Run r | None => Reply (plain_response 404) end;
  unreadable _ _ := None;
  routing_run := first_match_run; routing_first := first_match_first |}.

Definition demo_events : request := demo_web (u "GET") (fill_path (u "/api/admin/sessions/{connection_id}/events") [uuid_str 7%N]) [].

Lemma routes_reachable_witness :
  @routing first_match admin_routes demo_events = Run (GET (u "/api/admin/sessions/{connection_id}/events") true (u "session_events")).
Proof.
  apply (@routes_reachable first_match admin_routes (GET (u "/api/admin/sessions/{connection_id}/events") true (u "session_events"))
    [uuid_str 7%N] demo_events).
  - by left.
  - apply (bool_decide_eq_true_1 (_ ∈ _)). vm_compute. reflexivity.
  - vm_compute. reflexivity.
  - apply Forall_singleton, uuid_argument.
  - vm_compute. reflexivity.
  - vm_compute. reflexivity.
Defined.

#[local] Existing Instance first_match.
#[local] Instance audit_log : Log AdminAuditLog (list AdminAuditLog) := list_log audit_fits.
#[local] Instance audit_log_laws : LogLaws AdminAuditLog (list AdminAuditLog) audit_fits := list_log_laws audit_fits.

Definition demo_delete : request := demo_web (u "DELETE") (u "/api/admin/servers/" ++ uuid_str 7%N) [(u "x-requested-with", u "fetch")].
Definition demo_handlers (resp : response) : str → option AdminWebSessionData → request → io demo_site response := λ _ _ _, mret resp.

Lemma nobody_gets_in_witness :
  let s' := (admin_call (demo_handlers (plain_response 204)) (demo_app []) true 0 demo_delete demo_start).2 in
  admin_call (demo_handlers (plain_response 204)) (demo_app []) true 0 demo_delete demo_start
    = admin_call (demo_handlers (plain_response 500)) (demo_app []) true 0 demo_delete demo_start
  ∧ st_rest s' = st_rest demo_start
  ∧ (∀ k, (∀ sid, rq_cookies demo_delete ADMIN_COOKIE_NAME = Some sid → k ≠ ADMIN_WEB_SESSION sid) →
       live 0 (w_store (st_redis s')) !! k = live 0 (w_store (st_redis demo_start)) !! k)
  ∧ ∃ new, log_rows (st_log s') = log_rows (st_log demo_start) ++ new ∧ (length new <= 1)%nat.
Proof.
  apply (nobody_gets_in (demo_handlers (plain_response 204)) (demo_handlers (plain_response 500))
    (demo_app []) true 0 demo_delete demo_start).
  - vm_compute. reflexivity.
  - intros sess (cookie & raw & payload & ips & Hc & _). discriminate Hc.
  - intros (path & Hp & Hm). unfold public_routes in Hm. rewrite !elem_of_cons, elem_of_nil in Hm.
    destruct Hm as [Em|[Em|[Em|[]]]]; injection Em as Em _; vm_compute in Em; discriminate Em.
Defined.
Close Scope Z_scope.
