(* ===== verification/Sha1.v ===== *)
(** [hashlib.sha1] of the standard library, computed: the cache of the directory
    searches names its keys by it. *)

From stdpp Require Import prelude list strings.
From Stdlib Require Import ZArith Lia.
From Stdlib Require Strings.String.
From S2P Require Import Prelude PySeq PyBytes PyStr Encodings Sha256.

Open Scope Z_scope.

Definition rotl (n x : Z) : Z := rotr (32 - n) x.

(** The state is the first five registers. *)
Record sha1_state := SHA1 { s1a : Z; s1b : Z; s1c : Z; s1d : Z; s1e : Z }.
Definition sha1_initial : sha1_state := SHA1 0x67452301 0xEFCDAB89 0x98BADCFE 0x10325476 0xC3D2E1F0.

(** The function and the constant of round [i]. *)
Definition sha1_f (i : nat) (b c d : Z) : Z * Z :=
  if (i <? 20)%nat then (Z.lxor (Z.land b c) (Z.land (Z.lxor b 0xffffffff) d), 0x5A827999)
  else if (i <? 40)%nat then (Z.lxor (Z.lxor b c) d, 0x6ED9EBA1)
  else if (i <? 60)%nat then (Z.lxor (Z.lxor (Z.land b c) (Z.land b d)) (Z.land c d), 0x8F1BBCDC)
  else (Z.lxor (Z.lxor b c) d, 0xCA62C1D6).

Definition sha1_round (i : nat) (st : sha1_state) (w : Z) : sha1_state :=
  let '(f, k) := sha1_f i (s1b st) (s1c st) (s1d st) in
  SHA1 (w32 (rotl 5 (s1a st) + f + s1e st + k + w)) (s1a st) (rotl 30 (s1b st)) (s1c st) (s1d st).

(** The next word of the schedule, from the last sixteen. *)
Definition sha1_word (window : list Z) : Z :=
  let w i := nth i window 0 in
  rotl 1 (Z.lxor (Z.lxor (w 13%nat) (w 8%nat)) (Z.lxor (w 2%nat) (w 0%nat))).

Fixpoint sha1_rounds (n i : nat) (window : list Z) (st : sha1_state) : sha1_state :=
  match n with
  | O => st
  | S n' => sha1_rounds n' (S i) (tail window ++ [sha1_word window]) (sha1_round i st (default 0 (hd_error window)))
  end.

Definition sha1_block (st : sha1_state) (block : bytes) : sha1_state :=
  let r := sha1_rounds 80 0 (words_of block) st in
  SHA1 (w32 (s1a st + s1a r)) (w32 (s1b st + s1b r)) (w32 (s1c st + s1c r)) (w32 (s1d st + s1d r)) (w32 (s1e st + s1e r)).

Fixpoint sha1_blocks (n : nat) (st : sha1_state) (l : bytes) : sha1_state :=
  match n with O => st | S n' => sha1_blocks n' (sha1_block st (take 64 l)) (drop 64 l) end.

(** [sha1(l).hexdigest()]; the padding is that of SHA-256. *)
Definition sha1_hexdigest (l : bytes) : str :=
  let p := sha256_pad l in
  let st := sha1_blocks (length p / 64) sha1_initial p in
  hex_of (concat (map (be_encode 4) [s1a st; s1b st; s1c st; s1d st; s1e st])).

(** The published test vectors. *)
Example sha1_vectors :
  sha1_hexdigest (bl "abc") = u "a9993e364706816aba3e25717850c26c9cd0d89d"
  ∧ sha1_hexdigest (bl "abcdbcdecdefdefgefghfghighijhijkijkljklmklmnlmnomnopnopq") = u "84983e441c3bd26ebaae4aa1f95129e5e54670f1".
Proof. vm_compute. done. Qed.
Close Scope Z_scope.
