(* ===== verification/AdGroups.v ===== *)
(** The directory groups of the administration,
    [services/admin/routes/ad_groups.py]: searches of the directory cached in
    Redis, and the table of groups that other pages take their names from. *)

From stdpp Require Import prelude gmap list strings.
From Stdlib Require Import ZArith Lia.
From Stdlib Require Strings.String.
From S2P Require Import Prelude PySeq PyBytes PyStr Json Sha1 PyUuid Redis Keys Encryption Sessions Database Models Config Ldap.

Open Scope Z_scope.

(** [INSERT ... ON CONFLICT (guid) DO UPDATE] of a batch, at the server's time.
    Every row of a batch is inserted or replaces the row with its identifier; a
    batch that names one twice is refused. *)
Definition cached_row (now : Z) (id : uuid) (g : group_out) : AdGroupCache := {|
  g_guid := id; g_dn := go_dn g; g_cn := go_cn g; g_description := go_description g; g_cached_at := now |}.
Class GroupUpsert (D : Type) : Type := { db_upsert : Z → list group_out → io D unit }.

Definition upsert_row (now : Z) (g : group_out) (m : gmap uuid AdGroupCache) : gmap uuid AdGroupCache :=
  match uuid_of_str (go_guid g) with Ok id => <[id := cached_row now id g]> m | Err _ => m end.
Definition upsert_rows (now : Z) (gs : list group_out) (m : gmap uuid AdGroupCache) : gmap uuid AdGroupCache :=
  foldr (upsert_row now) m gs.
(** A row the server takes. *)
Definition storable (now : Z) (g : group_out) : bool :=
  match uuid_of_str (go_guid g) with
  | Ok id => bool_decide (go_guid g = uuid_str id) && row_fits (cached_row now id g)
  | Err _ => false
  end.
Class GroupUpsertLaws (D : Type) `{!Table uuid AdGroupCache D} `{!TableLaws uuid AdGroupCache D} `{!GroupUpsert D} : Prop := {
  upsert_law now gs (d : D) :
    Forall (λ g, storable now g = true) gs → NoDup (map go_guid gs) →
    ∃ d', db_upsert now gs d = (Ok tt, d') ∧ rows d' = upsert_rows now gs (rows d);
  upsert_twice now gs (d : D) : ¬ NoDup (map go_guid gs) → ∃ e, db_upsert now gs d = (Err e, d);
  upsert_fails now gs (d : D) e d' : db_upsert now gs d = (Err e, d') → d' = d;
}.

(** What the routes work on. *)
Record group_site (R W D : Type) : Type := GroupSite { gr_redis : world R; gr_directory : W; gr_db : D }.
Arguments GroupSite {R W D}. Arguments gr_redis {R W D}. Arguments gr_directory {R W D}. Arguments gr_db {R W D}.

(** [AdGroupOut] of the fields of a dict: more fields are ignored. *)
Definition str_field (k : str) (items : dict) : res str :=
  match dict_get k items with Some (JStr s) => Ok s | _ => Err ValueError end.
Definition AdGroupOut (v : json) : res group_out :=
  match v with
  | JObj items =>
      guid ← str_field (u "guid") items; dn ← str_field (u "dn") items; cn ← str_field (u "cn") items;
      description ← match dict_get (u "description") items with
                    | None | Some JNull => Ok None
                    | Some (JStr s) => Ok (Some s)
                    | Some _ => Err ValueError
                    end;
      Ok {| go_guid := guid; go_dn := dn; go_cn := cn; go_description := description |}
  | _ => Err TypeError
  end.
Fixpoint all_out (vs : list json) : res (list group_out) :=
  match vs with
  | [] => Ok []
  | v :: vs' => g ← AdGroupOut v; gs ← all_out vs'; Ok (g :: gs)
  end.

Definition group_items (g : group_out) : dict := [
  (u "guid", JStr (go_guid g)); (u "dn", JStr (go_dn g)); (u "cn", JStr (go_cn g));
  (u "description", json_str_opt (go_description g))].
Definition dump_groups (groups : list group_out) : str := json_dumps false (JList (map (JObj ∘ group_items) groups)).

(** The groups a cached text holds. *)
Definition load_groups (cached : str) : res (list group_out) :=
  items ← json_loads cached;
  match items with
  | JList vs => all_out vs
  | JObj [] | JStr [] => Ok []
  | _ => Err TypeError
  end.

Section AdGroups.
Context {R W Conn D : Type} `{Redis R} `{LdapClient W Conn} `{!GroupUpsert D} `{CaseMap}.
Abbreviation state := (group_site R W D).

Definition gr_on_redis {A} (m : io (world R) A) : io state A :=
  io_zoom gr_redis (λ w s, GroupSite w (gr_directory s) (gr_db s)) m.
Definition gr_on_directory {A} (m : io W A) : io state A :=
  io_zoom gr_directory (λ w s, GroupSite (gr_redis s) w (gr_db s)) m.
(** [async with factory() as session] with a commit at its end. *)
Definition gr_transaction {A} (m : io D A) : io state A :=
  io_zoom gr_db (λ d s, GroupSite (gr_redis s) (gr_directory s) d) (io_transaction m).

Definition get_ldap (ldap : option LdapConfig) : io state LdapConfig :=
  match ldap with Some cfg => mret cfg | None => io_raise (HTTPException 500) end.

(** Those with an identifier and names. *)
Definition complete (g : group_out) : bool :=
  negb (bool_decide (go_guid g = [])) && negb (bool_decide (go_dn g = [])) && negb (bool_decide (go_cn g = [])).
Definition upsert_groups (now : Z) (groups : list group_out) : io D unit :=
  match List.filter complete groups with
  | [] => mret tt
  | rows => db_upsert now rows
  end.

(** The groups an earlier search left, or nothing; an entry that cannot be read
    is removed. *)
Definition cached_groups (now : Z) (cache_key : str) : io state (option (list group_out)) :=
  cached ← gr_on_redis (client_get now cache_key);
  match some_text cached with
  | None => mret None
  | Some text =>
      io_try (groups ← io_lift (load_groups text); mret (Some groups))
             (λ _, _ ← gr_on_redis (client_delete now [cache_key]); mret None)
  end.

Definition search_key (q : str) : res str := b ← utf8_encode (lower q); Ok (AD_GROUPS_SEARCH (sha1_hexdigest b)).

(** [search_groups] of the routes. *)
Definition search_route (ldap : option LdapConfig) (now : Z) (search : str) (limit : Z) : io state (list group_out) :=
  let q := strip search in
  if (length q <? 2)%nat then mret []
  else
    let limit := Z.max 1 (Z.min (if limit =? 0 then 20 else limit) 50) in
    cache_key ← io_lift (search_key q);
    cached ← cached_groups now cache_key;
    match cached with
    | Some groups => mret groups
    | None =>
        cfg ← get_ldap ldap;
        groups ← gr_on_directory (search_groups cfg q limit);
        _ ← gr_on_redis (client_setex now cache_key AD_SEARCH_CACHE_TTL (dump_groups groups));
        _ ← gr_transaction (upsert_groups now groups);
        mret groups
    end.

Definition refresh_groups (ldap : option LdapConfig) (now : Z) : io state Z :=
  cfg ← get_ldap ldap;
  groups ← gr_on_directory (list_groups cfg 20000);
  _ ← gr_transaction (upsert_groups now groups);
  mret (Z.of_nat (length groups)).
End AdGroups.

(** ** Lemmas *)

#[local] Opaque u.

(** The texts of a group are characters. *)
Definition group_text (g : group_out) : Prop :=
  text (go_guid g) ∧ text (go_dn g) ∧ text (go_cn g) ∧ from_option text True (go_description g).

Lemma group_items_ok g : group_text g → json_ok (JObj (group_items g)).
Proof.
  intros (?&?&?&?). apply json_ok_items.
  - apply (bool_decide_unpack _). vm_compute. exact I.
  - repeat (constructor; [split; [vm_compute; reflexivity | cbn [snd]; first [assumption | by apply json_ok_str_opt]]|]). constructor.
Qed.

Lemma AdGroupOut_items g : AdGroupOut (JObj (group_items g)) = Ok g.
Proof.
  unfold AdGroupOut, str_field, group_items. cbn [dict_get].
  repeat first [rewrite (bool_decide_eq_true_2 (?x = ?x)) by done
    | rewrite bool_decide_eq_true_2 by reflexivity | rewrite bool_decide_eq_false_2 by (vm_compute; discriminate)].
  unfold_res. destruct g as [guid dn cn [desc|]]; reflexivity.
Qed.

Lemma all_out_items groups : all_out (map (JObj ∘ group_items) groups) = Ok groups.
Proof. induction groups as [|g gs IH]; [done|]. cbn [map all_out]. change ((JObj ∘ group_items) g) with (JObj (group_items g)). rewrite AdGroupOut_items, IH. done. Qed.

Lemma load_dump_groups groups : Forall group_text groups → load_groups (dump_groups groups) = Ok groups.
Proof.
  intros Hg. unfold load_groups, dump_groups. rewrite json_loads_dumps.
  - cbn [mbind res_bind]. apply all_out_items.
  - apply Forall_all, Forall_map. eapply Forall_impl; [exact Hg | apply group_items_ok].
Qed.

Section AdGroupsLemmas.
Context {R W Conn D : Type} `{RedisLaws R} `{LdapClient W Conn} `{!Table uuid AdGroupCache D} `{!TableLaws uuid AdGroupCache D}
  `{!GroupUpsert D} `{!GroupUpsertLaws D} `{CaseMap}.
Implicit Types (s : group_site R W D).

Lemma cached_groups_run now key s :
  w_env (gr_redis s) = [] → live now (w_store (gr_redis s)) !! key = None →
  cached_groups now key s = (Ok None, s).
Proof.
  intros Hw Hk. unfold cached_groups. rewrite io_bind_run. unfold gr_on_redis, io_zoom.
  rewrite client_get_alone, Hk by exact Hw. by destruct s.
Qed.

Lemma cached_groups_hit now key d groups s :
  w_env (gr_redis s) = [] → live now (w_store (gr_redis s)) !! key = Some (Entry (dump_groups groups) d) →
  Forall group_text groups → cached_groups now key s = (Ok (Some groups), s).
Proof.
  intros Hw Hk Hg. unfold cached_groups. rewrite io_bind_run. unfold gr_on_redis, io_zoom.
  rewrite client_get_alone, Hk by exact Hw. cbn [fmap option_fmap option_map e_value].
  change (some_text (Some (dump_groups groups))) with (Some (dump_groups groups)). cbn iota. unfold io_try.
  rewrite io_bind_run. unfold io_lift. rewrite load_dump_groups by exact Hg. by destruct s.
Qed.

(** A search that the directory answers. *)
Lemma search_route_miss ldap now search limit key s groups s1 :
  (2 <= length (strip search))%nat → search_key (strip search) = Ok key →
  w_env (gr_redis s) = [] → live now (w_store (gr_redis s)) !! key = None →
  search_route ldap now search limit s = (Ok groups, s1) →
  ∃ r', gr_redis s1 = with_store (gr_redis s) r'
    ∧ live now r' = <[key := Entry (dump_groups groups) (Some (now + 1000 * AD_SEARCH_CACHE_TTL))]> (live now (w_store (gr_redis s))).
Proof.
  intros Hq Hkey Hw Hk. unfold search_route. rewrite (proj2 (Nat.ltb_ge _ _)) by exact Hq. cbv zeta.
  rewrite io_bind_run. unfold io_lift at 1. rewrite Hkey. rewrite io_bind_run, cached_groups_run by done.
  rewrite io_bind_run. destruct ldap as [cfg|]; [|discriminate]. cbn [get_ldap].
  change ((mret cfg : io (group_site R W D) LdapConfig) s) with (@Ok LdapConfig cfg, s). cbn iota.
  rewrite io_bind_run. unfold gr_on_directory, io_zoom at 1.
  destruct (search_groups cfg _ _ (gr_directory s)) as [[gs|e] w]; [|discriminate].
  rewrite io_bind_run. unfold gr_on_redis, io_zoom at 1. cbn [gr_redis].
  destruct (client_setex_alone now key AD_SEARCH_CACHE_TTL (dump_groups gs) (gr_redis s) Hw) as (r' & -> & L); [reflexivity|].
  rewrite io_bind_run. unfold gr_transaction, io_zoom.
  destruct (io_transaction (upsert_groups now gs) _) as [[[]|e] d]; [|discriminate].
  intros [= <- <-]. by exists r'.
Qed.

(** For two minutes a search is answered as it was the first time, from the
    cache, whatever has become of the directory; and whatever limit is asked for
    by then. *)
Theorem search_cached (ldap ldap' : option LdapConfig) (now t : Z) (search key : str) (limit limit' : Z) s s1 groups :
  (2 <= length (strip search))%nat → search_key (strip search) = Ok key →
  w_env (gr_redis s) = [] → live now (w_store (gr_redis s)) !! key = None →
  search_route ldap now search limit s = (Ok groups, s1) → Forall group_text groups →
  now <= t <= now + 1000 * AD_SEARCH_CACHE_TTL →
  search_route ldap' t search limit' s1 = (Ok groups, s1).
Proof.
  intros Hq Hkey Hw Hk Hs Hg Ht. destruct (search_route_miss _ _ _ _ _ _ _ _ Hq Hkey Hw Hk Hs) as (r' & E & L).
  unfold search_route. rewrite (proj2 (Nat.ltb_ge _ _)) by exact Hq. cbv zeta.
  rewrite io_bind_run. unfold io_lift at 1. rewrite Hkey. rewrite io_bind_run.
  rewrite (cached_groups_hit t key (Some (now + 1000 * AD_SEARCH_CACHE_TTL)) groups s1); [done | by rewrite E | | exact Hg].
  rewrite E. cbn [w_store with_store]. rewrite (live_later now t) by lia. rewrite L, lookup_insert_eq. cbn.
  unfold alive. cbn [e_deadline]. by rewrite (proj2 (Z.ltb_ge _ _)) by lia.
Qed.

Lemma upsert_rows_lookup now gs m k :
  (k < 2 ^ 128)%N → Forall (λ g, storable now g = true) gs → NoDup (map go_guid gs) →
  (∀ g, g ∈ gs → go_guid g = uuid_str k → upsert_rows now gs m !! k = Some (cached_row now k g))
  ∧ ((∀ g, g ∈ gs → go_guid g ≠ uuid_str k) → upsert_rows now gs m !! k = m !! k).
Proof.
  intros Hk. induction gs as [|g gs IH]; [split; [by intros g ?%not_elem_of_nil | done]|].
  intros [Hs Hgs]%Forall_cons [Hn Hnd]%NoDup_cons. destruct (IH Hgs Hnd) as [IH1 IH2]. clear IH.
  cbn [upsert_rows foldr]. fold (upsert_rows now gs m). unfold upsert_row. unfold storable in Hs.
  destruct (uuid_of_str (go_guid g)) as [id|] eqn:Eid; [|discriminate]. rewrite andb_true_iff, bool_decide_eq_true in Hs.
  destruct Hs as [Hid _]. split.
  - intros g' [->|Hin]%elem_of_cons Hg'.
    + rewrite Hg', uuid_of_str_of in Eid by exact Hk. injection Eid as <-. apply lookup_insert_eq.
    + rewrite lookup_insert_ne; [by apply IH1|]. intros ->. apply Hn. apply list_elem_of_fmap. exists g'. by rewrite Hid, Hg'.
  - intros Hg. rewrite lookup_insert_ne; [apply IH2|].
    + intros g' Hin. apply Hg. by right.
    + intros ->. apply (Hg g); [left | exact Hid].
Qed.

(** A refresh counts every group the directory lists; those with names are in
    the table afterwards as they are in the directory, and no other row changes.
    When the batch is refused the table stays as it was. *)
Lemma refresh_groups_effect cfg now s groups w :
  list_groups cfg 20000 (gr_directory s) = (Ok groups, w) →
  (Forall (λ g, storable now g = true) (List.filter complete groups) → NoDup (map go_guid (List.filter complete groups)) →
     ∃ s1, refresh_groups (Some cfg) now s = (Ok (Z.of_nat (length groups)), s1) ∧ gr_redis s1 = gr_redis s ∧
       ∀ k, (k < 2 ^ 128)%N →
         (∀ g, g ∈ List.filter complete groups → go_guid g = uuid_str k → rows (gr_db s1) !! k = Some (cached_row now k g))
         ∧ ((∀ g, g ∈ List.filter complete groups → go_guid g ≠ uuid_str k) → rows (gr_db s1) !! k = rows (gr_db s) !! k))
  ∧ (¬ NoDup (map go_guid (List.filter complete groups)) →
     ∃ e, refresh_groups (Some cfg) now s = (Err e, GroupSite (gr_redis s) w (gr_db s))).
Proof.
  intros Hl.
  assert (refresh_groups (Some cfg) now s = (λ r : res unit * D,
    ((λ _, Z.of_nat (length groups)) <$> r.1, GroupSite (gr_redis s) w r.2)) (io_transaction (upsert_groups now groups) (gr_db s))) as ->.
  { unfold refresh_groups. cbn [get_ldap]. rewrite io_bind_run.
    change ((mret cfg : io (group_site R W D) LdapConfig) s) with (@Ok LdapConfig cfg, s). cbn iota.
    rewrite io_bind_run. unfold gr_on_directory, io_zoom at 1. rewrite Hl. rewrite io_bind_run.
    unfold gr_transaction, io_zoom. cbn [gr_db]. by destruct (io_transaction _ (gr_db s)) as [[[]|e] d]. }
  unfold io_transaction, upsert_groups. split.
  - intros Hs Hn. destruct (List.filter complete groups) as [|g gs].
    { eexists. split; [reflexivity|]. split; [done|]. intros k Hk. split; [by intros g ?%not_elem_of_nil | done]. }
    destruct (upsert_law now (g :: gs) (gr_db s) Hs Hn) as (d' & E & Er). rewrite E. eexists. split; [reflexivity|].
    split; [done|]. intros k Hk. cbn [gr_db]. cbn. rewrite Er. by apply upsert_rows_lookup.
  - intros Hn. destruct (List.filter complete groups) as [|g gs]; [destruct Hn; constructor|].
    destruct (upsert_twice now (g :: gs) (gr_db s) Hn) as [e E]. rewrite E. by exists e.
Qed.
End AdGroupsLemmas.

(** ** Witnesses *)

#[local] Instance group_upsert : GroupUpsert (gmap uuid AdGroupCache) := {|
  db_upsert now gs m :=
    if decide (Forall (λ g, storable now g = true) gs ∧ NoDup (map go_guid gs)) then (Ok tt, upsert_rows now gs m)
    else (Err OtherError, m) |}.
#[local] Instance group_upsert_laws : GroupUpsertLaws (gmap uuid AdGroupCache).
Proof.
  constructor.
  - intros now gs m Hs Hn. exists (upsert_rows now gs m). cbn. by rewrite decide_True.
  - intros now gs m Hn. exists OtherError. cbn. by rewrite decide_False by tauto.
  - intros now gs m e d'. cbn. by case_decide; intros [=].
Qed.
#[local] Existing Instance ascii_lower.

Definition demo_groups : group_site store directory (gmap uuid AdGroupCache) := GroupSite (quiet ∅) demo_directory ∅.
Definition demo_search : res (list group_out) * group_site store directory (gmap uuid AdGroupCache) :=
  search_route (Some (demo_ldap (u "ldaps"))) 0 (u " ivan ") 5 demo_groups.
Definition demo_found : list group_out :=
  [{| go_guid := uuid_str 5%N; go_dn := u "CN=ivan,DC=x"; go_cn := u "CN=ivan,DC=x"; go_description := None |}].

Lemma search_cached_witness :
  search_route None 119000 (u " ivan ") 50 demo_search.2 = (Ok demo_found, demo_search.2).
Proof.
  apply (search_cached (Some (demo_ldap (u "ldaps"))) None 0 119000 (u " ivan ") (AD_GROUPS_SEARCH (sha1_hexdigest (bl "ivan"))) 5 50 demo_groups).
  - apply Nat.leb_le. vm_compute. reflexivity.
  - vm_compute. reflexivity.
  - reflexivity.
  - vm_compute. reflexivity.
  - change (demo_search = (Ok demo_found, demo_search.2)). rewrite (surjective_pairing demo_search) at 1. f_equal.
  - repeat constructor; apply scalar_b_spec; vm_compute; reflexivity.
  - unfold AD_SEARCH_CACHE_TTL. lia.
Defined.
Close Scope Z_scope.
