(* ===== verification/Certificates.v ===== *)
(** Certificates and the public port: the update of HAProxy's certificate
    ([libs/acme_client/haproxy_reload.py]), when a certificate is renewed, and
    what a change of the public address does ([services/admin/app.py]). The
    conversation with the certificate authority is a library's. *)

From stdpp Require Import prelude list strings.
From Stdlib Require Import ZArith Lia.
From Stdlib Require Strings.String.
From S2P Require Import Prelude PySeq PyBytes PyStr Json Sessions Settings.

Open Scope Z_scope.

(** ** Lines of text *)

(** The characters that end a line for [str.splitlines]. *)
Definition line_end (c : N) : bool :=
  bool_decide (c ∈ [10; 11; 12; 13; 28; 29; 30; 133; 8232; 8233]%N).

(** [s.splitlines()], the line read so far first. *)
Fixpoint splitlines_go (line s : str) : list str :=
  match s with
  | [] => match line with [] => [] | _ => [reverse line] end
  | c :: s' =>
      if line_end c then
        reverse line :: match s' with
                        | d :: s'' => if ((c =? 13) && (d =? 10))%N then splitlines_go [] s'' else splitlines_go [] s'
                        | [] => []
                        end
      else splitlines_go (c :: line) s'
  end.
Definition splitlines (s : str) : list str := splitlines_go [] s.

(** [b.decode("utf-8", errors="replace")]: one replacement for each longest start
    of a character that does not go on. *)
Definition replacement : N := 65533%N.
Definition second_ok (n0 : N) (b1 : Byte.byte) : bool :=
  let n1 := byte_n b1 in
  is_cont b1 && negb ((n0 =? 224)%N && (n1 <? 160)%N) && negb ((n0 =? 237)%N && (160 <=? n1)%N)
  && negb ((n0 =? 240)%N && (n1 <? 144)%N) && negb ((n0 =? 244)%N && (144 <=? n1)%N).
Fixpoint utf8_decode_replace (l : bytes) : str :=
  match l with
  | [] => []
  | b0 :: l1 =>
      let n0 := byte_n b0 in
      if (n0 <? 128)%N then n0 :: utf8_decode_replace l1
      else if ((n0 <? 194) || (244 <? n0))%N then replacement :: utf8_decode_replace l1
      else
        match l1 with
        | b1 :: l2 =>
            if negb (second_ok n0 b1) then replacement :: utf8_decode_replace l1
            else if (n0 <? 224)%N then ((n0 - 192) * 64 + cont b1)%N :: utf8_decode_replace l2
            else
              match l2 with
              | b2 :: l3 =>
                  if negb (is_cont b2) then replacement :: utf8_decode_replace l2
                  else if (n0 <? 240)%N then ((n0 - 224) * 4096 + cont b1 * 64 + cont b2)%N :: utf8_decode_replace l3
                  else
                    match l3 with
                    | b3 :: l4 =>
                        if negb (is_cont b3) then replacement :: utf8_decode_replace l3
                        else ((n0 - 240) * 262144 + cont b1 * 4096 + cont b2 * 64 + cont b3)%N :: utf8_decode_replace l4
                    | [] => [replacement]
                    end
              | [] => [replacement]
              end
        | [] => [replacement]
        end
  end.

(** ** [haproxy_reload.py] *)

Definition newline : N := 10%N.

Definition strip_blank_lines (pem : str) : str :=
  join_with [newline] (List.filter (λ line, negb (bool_decide (strip line = []))) (splitlines pem)) ++ [newline].

(** Unix sockets: whether a path exists, and one exchange: connect, send all,
    close the sending side and receive to the end. The exchanges are logged. *)
Class UnixSockets (W : Type) : Type := {
  path_exists : str → W → bool;
  unix_exchange : str → bytes → io W (list bytes);
}.
Class UnixLaws (W : Type) `{UnixSockets W} : Type := {
  (** what was sent, and what came back *)
  unix_log : W → list (str * bytes * res (list bytes));
  exchange_law path payload w r w' :
    unix_exchange path payload w = (r, w') → unix_log w' = unix_log w ++ [(path, payload, r)];
}.

Section Haproxy.
Context {W : Type} `{UnixSockets W}.

Definition reply_text (chunks : list bytes) : str := strip (utf8_decode_replace (concat chunks)).

Definition send_command (socket_path : str) (payload : bytes) : io W str :=
  chunks ← unix_exchange socket_path payload; mret (reply_text chunks).

Definition abort_payload (cert_path : str) : str := u "abort ssl cert " ++ cert_path ++ [newline].
Definition set_payload (cert_path cert_str : str) : str :=
  u "set ssl cert " ++ cert_path ++ u " <<" ++ [newline] ++ cert_str ++ [newline].
Definition commit_payload (cert_path : str) : str := u "commit ssl cert " ++ cert_path ++ [newline].

Definition staged (reply : str) : bool := contains (u "Transaction created") reply || contains (u "Transaction updated") reply.
Definition committed (reply : str) : bool := contains (u "Success") reply || contains (u "New") reply.

Definition hot_update_ssl_cert (pem_content : bytes) (socket_path haproxy_cert_path : str) : io W bool :=
  w ← io_get;
  if negb (path_exists socket_path w) then mret false
  else io_try (
    pem ← io_lift (utf8_decode pem_content);
    let cert_str := strip_blank_lines pem in
    b ← io_lift (utf8_encode (abort_payload haproxy_cert_path));
    _ ← send_command socket_path b;
    b ← io_lift (utf8_encode (set_payload haproxy_cert_path cert_str));
    set_resp ← send_command socket_path b;
    if negb (staged set_resp) then mret false
    else
      b ← io_lift (utf8_encode (commit_payload haproxy_cert_path));
      commit_resp ← send_command socket_path b;
      mret (committed commit_resp))
  (λ _, mret false).
End Haproxy.

(** What HAProxy takes of a command with a heredoc: the lines after [<<] up to
    the first empty one. *)
Definition empty_line : str := [newline; newline].
Definition heredoc (command : str) : str :=
  match find (u "<<" ++ [newline]) command 0 with
  | Some i =>
      let body := drop (i + 3) command in
      match find empty_line body 0 with Some j => take j body | None => body end
  | None => []
  end.

Example heredoc_cut :
  heredoc (set_payload (u "rdp.pem") (u "A" ++ empty_line ++ u "B")) = u "A"
  ∧ heredoc (set_payload (u "rdp.pem") (strip_blank_lines (u "A" ++ empty_line ++ u "B"))) = u "A" ++ [newline] ++ u "B".
Proof. vm_compute. done. Qed.

(** ** [client.py]: renewal *)

Definition cert_needs_renewal (days : option Z) (renew_before_days : Z) : bool :=
  match days with None => true | Some d => d <? renew_before_days end.

(** One turn of the renewal loop: the domain a certificate is requested for. *)
Definition renewal_due (public_host : str) (days : option Z) : option str :=
  let domain := strip public_host in
  if bool_decide (domain = []) then None
  else match days with
       | None => Some domain
       | Some d => if d <? 30 then Some domain else None
       end.

(** ** The public address *)

(** Reading a text file: line ends become newlines, and the lines keep theirs. *)
Fixpoint universal_newlines (s : str) : str :=
  match s with
  | [] => []
  | c :: s' =>
      if (c =? 13)%N then
        match s' with
        | d :: s'' => if (d =? 10)%N then newline :: universal_newlines s'' else newline :: universal_newlines s'
        | [] => [newline]
        end
      else c :: universal_newlines s'
  end.
Fixpoint file_lines_go (line s : str) : list str :=
  match s with
  | [] => match line with [] => [] | _ => [reverse line] end
  | c :: s' => if (c =? newline)%N then reverse (c :: line) :: file_lines_go [] s' else file_lines_go (c :: line) s'
  end.
Definition file_lines (content : str) : list str := file_lines_go [] (universal_newlines content).

Definition port_line (port : Z) : str := u "PUBLIC_PORT=" ++ str_of_Z port ++ [newline].
Definition is_port_line (line : str) : bool := starts_with (u "PUBLIC_PORT=") line.

(** The text that [_update_dotenv_port] writes; [None] is a missing file. *)
Definition dotenv_with_port (port : Z) (env : option str) : str :=
  let lines := from_option file_lines [] env in
  let written := map (λ line, if is_port_line line then port_line port else line) lines in
  concat (if existsb is_port_line lines then written else written ++ [port_line port]).

(** A last line without its newline takes the new one in. *)
Example dotenv_merged :
  dotenv_with_port 443 (Some (u "REDIS_PASSWORD=secret")) = u "REDIS_PASSWORD=secretPUBLIC_PORT=443" ++ [newline].
Proof. vm_compute. reflexivity. Qed.

(** What the process remembers of the address, the certificates it has asked for,
    and the [.env] file. The port is null at first, and a value that is no number
    when [reapply_portal_settings] failed on it. *)
Record public_address : Type := PublicAddress {
  pa_prev_host : str;
  pa_prev_port : json;
  pa_requests : list str;
  pa_env : option str;
  pa_writable : bool;
}.

Definition update_dotenv_port (port : Z) : io public_address bool := λ s,
  if pa_writable s
  then (Ok true, PublicAddress (pa_prev_host s) (pa_prev_port s) (pa_requests s) (Some (dotenv_with_port port (pa_env s))) true)
  else (Ok false, s).

(** [data.get("public_host") or ""], stripped: only text can be. *)
Definition new_host (data : dict) : res str :=
  match dict_get_or (u "public_host") JNull data with
  | JStr s => Ok (strip s)
  | v => if truthy v then Err OtherError else Ok []
  end.
Definition new_port (data : dict) : json :=
  let p := dict_get_or (u "public_port") JNull data in
  if truthy p then p else dict_get_or (u "listen_port") JNull data.

Definition note_host (host : str) : io public_address unit :=
  io_modify (λ s, PublicAddress host (pa_prev_port s)
    (if negb (bool_decide (host = [])) && negb (bool_decide (pa_prev_host s = [])) && negb (bool_decide (host = pa_prev_host s))
     then pa_requests s ++ [host] else pa_requests s) (pa_env s) (pa_writable s)).
Definition note_port (port : json) : io public_address json :=
  s ← io_get;
  _ ← io_modify (λ s, PublicAddress (pa_prev_host s) port (pa_requests s) (pa_env s) (pa_writable s));
  mret (pa_prev_port s).
(** [int(port)] *)
Definition port_int `{Floats} (v : json) : res Z := match v with JFloat s => Ok (float_int s) | _ => py_int v end.
(** [prev_port is not None and new_port != prev_port]; a number is an [int] there. *)
Definition port_moved (prev : json) (port : Z) : bool :=
  match prev with JNull => false | JInt p => negb (port =? p) | _ => true end.

Definition on_proxy_change `{Floats} (data : dict) : io public_address unit :=
  host ← io_lift (new_host data);
  _ ← note_host host;
  match new_port data with
  | JNull => mret tt
  | v =>
      port ← io_lift (port_int v);
      prev ← note_port (JInt port);
      if port_moved prev port then (_ ← update_dotenv_port port; mret tt) else mret tt
  end.

(** ** Lemmas *)

#[local] Opaque u.

(** A line ends nowhere inside. *)
Lemma splitlines_go_lines s line :
  Forall (λ c, line_end c = false) line → Forall (Forall (λ c, line_end c = false)) (splitlines_go line s).
Proof.
  remember (length s) as n eqn:En. revert s line En. induction (lt_wf n) as [n _ IH]. intros s line -> Hl.
  assert (Forall (λ c, line_end c = false) (reverse line)) as Hr by by apply Forall_reverse.
  assert (∀ s' line', (length s' < length s)%nat → Forall (λ c, line_end c = false) line' →
    Forall (Forall (λ c, line_end c = false)) (splitlines_go line' s')) as IH' by (intros s' line' Hlt; by apply (IH _ Hlt)).
  destruct s as [|c s]; cbn [splitlines_go]; [destruct line; by repeat constructor|].
  destruct (line_end c) eqn:Ec; [|apply IH'; [cbn; lia | by constructor]].
  constructor; [exact Hr|]. destruct s as [|d s]; [constructor|].
  destruct ((c =? 13) && (d =? 10))%N; (apply IH'; [cbn; lia | constructor]).
Qed.

Lemma find_skip (p : str) (x : N) l : starts_with p (x :: l) = false → find p (x :: l) 0 = S <$> find p l 0.
Proof. intros Hs. unfold find. cbn [Nat.leb drop find_at]. rewrite Hs. rewrite drop_0. apply find_at_shift. Qed.

Lemma find_past (w rest : str) : newline ∉ w → find empty_line (w ++ rest) 0 = Nat.add (length w) <$> find empty_line rest 0.
Proof.
  induction w as [|c w IH]; intros Hw; [cbn [app]; by destruct (find empty_line rest 0)|]. apply not_elem_of_cons in Hw as [Hc Hw].
  cbn [app]. rewrite find_skip; [rewrite (IH Hw); by destruct (find empty_line rest 0)|].
  cbn [starts_with empty_line]. by rewrite bool_decide_eq_false_2.
Qed.

(** Joined lines none of which is empty hold no empty line before their end. *)
Lemma find_joined (ls : list str) :
  Forall (λ l : str, l ≠ [] ∧ newline ∉ l) ls →
  find empty_line (join_with [newline] ls ++ empty_line) 0 = Some (length (join_with [newline] ls)).
Proof.
  induction 1 as [|l ls [Hne Hl] Hls IH]; [reflexivity|].
  destruct ls as [|l' ls].
  - cbn [join_with]. rewrite find_past by exact Hl. change (find empty_line empty_line 0) with (Some 0%nat).
    cbn [fmap option_fmap option_map]. by rewrite Nat.add_0_r.
  - change (join_with [newline] (l :: l' :: ls)) with (l ++ [newline] ++ join_with [newline] (l' :: ls)).
    rewrite <- app_assoc, find_past by exact Hl. cbn [app]. rewrite find_skip.
    + rewrite IH. cbn [fmap option_fmap option_map]. f_equal. rewrite length_app. cbn [length]. lia.
    + apply Forall_cons in Hls as [[Hne' Hl'] _]. destruct l' as [|c l']; [done|]. apply not_elem_of_cons in Hl' as [Hc _].
      cbn [starts_with empty_line]. rewrite bool_decide_eq_true_2 by done.
      destruct ls; cbn [join_with app starts_with]; by rewrite bool_decide_eq_false_2.
Qed.

(** The lines that are not blank. *)
Definition filled_lines (pem : str) : list str :=
  List.filter (λ line, negb (bool_decide (strip line = []))) (splitlines pem).

Lemma filled_lines_ok pem : Forall (λ l : str, l ≠ [] ∧ newline ∉ l) (filled_lines pem).
Proof.
  pose proof (splitlines_go_lines pem [] ltac:(constructor)) as Hl. rewrite Forall_forall in Hl |- *.
  intros l Hin. unfold filled_lines in Hin. apply list_elem_of_In, List.filter_In in Hin as [Hin Hf].
  apply list_elem_of_In in Hin. split.
  - intros ->. discriminate Hf.
  - intros Hn. specialize (Hl l Hin). rewrite Forall_forall in Hl. specialize (Hl newline Hn). discriminate.
Qed.

(** HAProxy stops reading a heredoc at the first empty line. What it takes of
    the command that stages a certificate is every line of the file that is not
    blank, in order: nothing is cut off. *)
Theorem certificate_whole (cert_path pem : str) :
  60%N ∉ cert_path →
  heredoc (set_payload cert_path (strip_blank_lines pem)) = join_with [newline] (filled_lines pem).
Proof.
  intros Hp. unfold heredoc, set_payload, strip_blank_lines. fold (filled_lines pem).
  set (body := (join_with [newline] (filled_lines pem) ++ [newline]) ++ [newline]).
  assert (∀ w rest : str, 60%N ∉ w → find (u "<<" ++ [newline]) (w ++ rest) 0 = Nat.add (length w) <$> find (u "<<" ++ [newline]) rest 0) as Hf.
  { replace (u "<<" ++ [newline]) with [60%N; 60%N; newline] by (vm_compute; reflexivity).
    intros w rest. induction w as [|c w IH]; intros Hw; [cbn [app]; by destruct (find _ rest 0)|].
    apply not_elem_of_cons in Hw as [Hc Hw]. cbn [app].
    rewrite find_skip; [rewrite (IH Hw); by destruct (find _ rest 0)|]. cbn [starts_with]. by rewrite bool_decide_eq_false_2. }
  assert ((60%N ∉ u "set ssl cert ") ∧ (60%N ∉ u " ")) as [N1 N2]
    by (split; apply (bool_decide_eq_true_1 (60%N ∉ _)); vm_compute; reflexivity).
  replace (u " <<") with (u " " ++ u "<<") by (vm_compute; reflexivity).
  rewrite <- (app_assoc (u " ")). rewrite (Hf (u "set ssl cert ")), (Hf cert_path), (Hf (u " ")) by done.
  rewrite (app_assoc (u "<<")). rewrite find_here. cbn [fmap option_fmap option_map].
  replace (_ + 3)%nat with (length (u "set ssl cert " ++ cert_path ++ u " " ++ u "<<" ++ [newline])).
  2: { rewrite !length_app. assert (length (u "<<") = 2%nat) as -> by (vm_compute; reflexivity). cbn [length]. lia. }
  replace (u "set ssl cert " ++ cert_path ++ u " " ++ (u "<<" ++ [newline]) ++ body)
    with ((u "set ssl cert " ++ cert_path ++ u " " ++ u "<<" ++ [newline]) ++ body) by by rewrite <- !app_assoc.
  rewrite drop_app_length. unfold body. rewrite <- app_assoc. change ([newline] ++ [newline]) with empty_line.
  rewrite find_joined by apply filled_lines_ok. by rewrite take_app_length.
Qed.

Section HaproxyLemmas.
Context {W : Type} `{UnixLaws W}.

Lemma send_command_run path payload (w : W) :
  ∃ r w', send_command path payload w = (reply_text <$> r, w')
    ∧ unix_log w' = unix_log w ++ [(path, payload, r)].
Proof.
  unfold send_command. rewrite io_bind_run. destruct (unix_exchange path payload w) as [r w'] eqn:E.
  exists r, w'. split; [by destruct r | by apply exchange_law].
Qed.

(** What was sent, command by command; whether the answers let the update go on. *)
Inductive conversation (path cert_path cert_str : str) : list (str * bytes * res (list bytes)) → bool → Prop :=
  | not_started : conversation path cert_path cert_str [] false
  | aborted b r : utf8_encode (abort_payload cert_path) = Ok b → conversation path cert_path cert_str [(path, b, r)] false
  | refused b b' c r :
      utf8_encode (abort_payload cert_path) = Ok b → utf8_encode (set_payload cert_path cert_str) = Ok b' →
      conversation path cert_path cert_str [(path, b, Ok c); (path, b', r)] false
  | applied b b' b'' c c' r :
      utf8_encode (abort_payload cert_path) = Ok b → utf8_encode (set_payload cert_path cert_str) = Ok b' →
      utf8_encode (commit_payload cert_path) = Ok b'' → staged (reply_text c') = true →
      conversation path cert_path cert_str [(path, b, Ok c); (path, b', Ok c'); (path, b'', r)]
        (match r with Ok c'' => committed (reply_text c'') | Err _ => false end).

(** An update never raises; it sends at most the three commands, in their
    order, and commits only what HAProxy said it staged; it reports success
    exactly when HAProxy said it committed. *)
Theorem certificate_staged (pem_content : bytes) (path cert_path : str) (w : W) :
  ∃ ok w' sent, hot_update_ssl_cert pem_content path cert_path w = (Ok ok, w') ∧ unix_log w' = unix_log w ++ sent
    ∧ conversation path cert_path (from_option strip_blank_lines [] (match utf8_decode pem_content with Ok pem => Some pem | Err _ => None end))
        sent ok.
Proof.
  unfold hot_update_ssl_cert. rewrite io_bind_run. cbn [io_get].
  destruct (path_exists path w); cbn [negb]; [|exists false, w, []; repeat split; [by rewrite app_nil_r | constructor]].
  unfold io_try. rewrite io_bind_run. unfold io_lift at 1.
  destruct (utf8_decode pem_content) as [pem|e]; [|exists false, w, []; repeat split; [by rewrite app_nil_r | constructor]].
  cbn [from_option]. cbv zeta. set (cert_str := strip_blank_lines pem). clearbody cert_str.
  rewrite io_bind_run. unfold io_lift at 1.
  destruct (utf8_encode (abort_payload cert_path)) as [b|e] eqn:E1; [|exists false, w, []; repeat split; [by rewrite app_nil_r | constructor]].
  rewrite io_bind_run. destruct (send_command_run path b w) as (r & w1 & -> & L1).
  destruct r as [c|e]; [|exists false, w1, [(path, b, Err e)]; repeat split; [done | by constructor]]. cbn [fmap res_fmap].
  rewrite io_bind_run. unfold io_lift at 1.
  destruct (utf8_encode (set_payload cert_path cert_str)) as [b'|e] eqn:E2;
    [|exists false, w1, [(path, b, Ok c)]; repeat split; [done | by constructor]].
  rewrite io_bind_run. destruct (send_command_run path b' w1) as (r & w2 & -> & L2). rewrite L1, <- app_assoc in L2.
  destruct r as [c'|e]; [|exists false, w2, [(path, b, Ok c); (path, b', Err e)]; repeat split; [done | by constructor]].
  cbn [fmap res_fmap]. destruct (staged (reply_text c')) eqn:Es; cbn [negb];
    [|exists false, w2, [(path, b, Ok c); (path, b', Ok c')]; repeat split; [done | by constructor]].
  rewrite io_bind_run. unfold io_lift at 1.
  destruct (utf8_encode (commit_payload cert_path)) as [b''|e] eqn:E3;
    [|exists false, w2, [(path, b, Ok c); (path, b', Ok c')]; repeat split; [done | by constructor]].
  rewrite io_bind_run. destruct (send_command_run path b'' w2) as (r & w3 & -> & L3). rewrite L2, <- app_assoc in L3.
  exists (match r with Ok c'' => committed (reply_text c'') | Err _ => false end), w3, [(path, b, Ok c); (path, b', Ok c'); (path, b'', r)]. split; [by destruct r|].
  split; [exact L3|]. by constructor.
Qed.
End HaproxyLemmas.

(** *** The [.env] file *)

Definition as_line (l : str) : str := l ++ [newline].
Definition plain_line (l : str) : Prop := (newline ∉ l) ∧ (13%N ∉ l).

Lemma universal_plain l rest : 13%N ∉ l → universal_newlines (l ++ rest) = l ++ universal_newlines rest.
Proof.
  induction l as [|c l IH]; intros Hl; [done|]. apply not_elem_of_cons in Hl as [Hc Hl]. cbn [app universal_newlines].
  rewrite (proj2 (N.eqb_neq _ _)) by congruence. by rewrite IH.
Qed.

Lemma file_lines_go_plain l acc rest :
  newline ∉ l → file_lines_go acc (l ++ newline :: rest) = (reverse acc ++ as_line l) :: file_lines_go [] rest.
Proof.
  revert acc. induction l as [|c l IH]; intros acc Hl; cbn [app file_lines_go].
  - by rewrite N.eqb_refl, reverse_cons.
  - apply not_elem_of_cons in Hl as [Hc Hl]. rewrite (proj2 (N.eqb_neq _ _)) by congruence.
    rewrite IH by done. by rewrite reverse_cons, <- app_assoc.
Qed.

Lemma file_lines_join ls : Forall plain_line ls → file_lines (concat (map as_line ls)) = map as_line ls.
Proof.
  unfold file_lines. induction 1 as [|l ls [Hn Hr] _ IH]; [done|]. cbn [map concat]. unfold as_line at 1. rewrite <- app_assoc.
  rewrite universal_plain by done. cbn [app universal_newlines]. rewrite (proj2 (N.eqb_neq _ _)) by discriminate.
  by rewrite file_lines_go_plain, IH.
Qed.

(** A file that ends with its last line's newline: every line for the port is
    replaced, one is added when there is none, and all other lines stay. *)
Lemma dotenv_updated port ls :
  Forall plain_line ls →
  dotenv_with_port port (Some (concat (map as_line ls)))
  = concat (map (λ l, if is_port_line (as_line l) then port_line port else as_line l) ls
            ++ (if existsb is_port_line (map as_line ls) then [] else [port_line port])).
Proof.
  intros Hls. unfold dotenv_with_port. cbn [from_option]. rewrite file_lines_join by done. rewrite map_map.
  destruct (existsb _ _); [by rewrite app_nil_r | done].
Qed.

(** ** Witnesses *)

Lemma certificate_whole_witness :
  heredoc (set_payload (u "/certs/rdp.pem") (strip_blank_lines (u "A" ++ empty_line ++ u "B")))
  = join_with [newline] (filled_lines (u "A" ++ empty_line ++ u "B")).
Proof. apply certificate_whole. apply (bool_decide_eq_true_1 (60%N ∉ u "/certs/rdp.pem")). vm_compute. reflexivity. Defined.
Close Scope Z_scope.
