(* ===== verification/Acme.v ===== *)
(** Certificates from the authority, [libs/acme_client/client.py] and
    [libs/acme_client/challenge_server.py], and what the administration does with
    them ([services/admin/app.py]). The [acme] and [cryptography] libraries and the
    authority behind them are a typeclass of the calls the code makes; the file
    system is the contents of the files by path, some of which cannot be written.
    A connection to the challenge server is the bytes its peer sends before it
    closes: the five seconds that each line is waited for are not modelled. *)

From stdpp Require Import prelude gmap list strings.
From Stdlib Require Import ZArith Lia.
From Stdlib Require Strings.String.
From S2P Require Import Prelude PySeq PyBytes PyStr Json Stream Certificates.

Open Scope Z_scope.

(** ** [challenge_server.py] *)

(** [await reader.readline()]: to the end of the line or of the stream; a line
    longer than the reader's limit is an exception. *)
Definition LIMIT : Z := 65536.
Definition readline : io bytes bytes := λ s,
  match split_first (z2b 10) s with
  | Some (line, rest) => if LIMIT <? Z.of_nat (length line) then (Err ValueError, rest) else (Ok (line ++ [z2b 10]), rest)
  | None => if LIMIT <? Z.of_nat (length s) then (Err ValueError, []) else (Ok s, [])
  end.

(** [b.decode("ascii", errors="replace")] *)
Definition ascii_decode_replace (l : bytes) : str := map (λ b, if (byte_n b <? 128)%N then byte_n b else replacement) l.

(** The remaining headers; the fuel is the number of lines that can be left. *)
Definition blank_line (line : bytes) : bool :=
  bool_decide (line = bz [13; 10]) || bool_decide (line = bz [10]) || bool_decide (line = []).
Fixpoint consume_headers (fuel : nat) : io bytes unit :=
  match fuel with
  | O => io_raise OtherError
  | S f => line ← readline; if blank_line line then mret tt else consume_headers f
  end.

Definition prefix : str := u "/.well-known/acme-challenge/".
Definition not_found : bytes := bl "HTTP/1.1 404 Not Found" ++ bz [13; 10] ++ bl "Content-Length: 0" ++ bz [13; 10; 13; 10].
Definition challenge_response (body : bytes) : bytes :=
  bl "HTTP/1.1 200 OK" ++ bz [13; 10] ++ bl "Content-Type: application/octet-stream" ++ bz [13; 10]
  ++ bl "Content-Length: " ++ map n_byte (str_of_Z (Z.of_nat (length body))) ++ bz [13; 10] ++ bz [13; 10] ++ body.

(** [_handle]: what is written before the connection is closed. *)
Definition handle_challenge (tokens : gmap str str) (request : bytes) : bytes :=
  let answer : io bytes bytes :=
    request_line ← readline;
    let parts := split_ws (ascii_decode_replace request_line) in
    let path := nth 1 parts [] in
    s ← io_get;
    _ ← consume_headers (S (length s));
    if starts_with prefix path then
      match tokens !! drop (length prefix) path with
      | Some (c :: key_authz) => body ← io_lift (utf8_encode (c :: key_authz)); mret (challenge_response body)
      | _ => mret not_found
      end
    else mret not_found in
  match (answer request).1 with Ok written => written | Err _ => [] end.

(** ** [client.py] *)

Record challenge : Type := Challenge { ch_http01 : bool; ch_token : str; ch_key_authorization : str }.
Inductive account : Type := Registered | Conflict.
Inductive outcome : Type :=
  | Finalized (fullchain_pem : bytes)
  | ValidationError (statuses : list str)
  | TimedOut.

(** The calls of the libraries. [Key] is an account key; an order is the
    challenges of its authorizations. *)
Class AcmeLib (W Key : Type) : Type := {
  load_pem_private_key : bytes → res Key;
  generate_private_key : io W Key;
  private_bytes : Key → bytes;
  new_client : str → Key → io W unit;
  new_account : option str → io W account;
  query_registration : io W unit;
  generate_domain_key_and_csr : str → io W (bytes * bytes);
  new_order : bytes → io W (list (list challenge));
  answer_challenge : challenge → io W unit;
  poll_and_finalize : io W outcome;
  start_server : Z → io W unit;
  exn_text : exn → str;
}.

Record CertResult : Type := {
  cr_success : bool; cr_domain : str; cr_message : str; cr_fullchain_path : str; cr_privkey_path : str;
  cr_haproxy_pem_path : str; cr_error : str }.

(** The libraries' world, the files with the paths that cannot be written, and the
    challenge server: its tokens, and whether it listens. *)
Record acme_site (W : Type) : Type := AcmeSite {
  ac_world : W; ac_files : gmap str bytes; ac_readonly : list str; ac_tokens : gmap str str; ac_listening : bool }.
Arguments AcmeSite {W}. Arguments ac_world {W}. Arguments ac_files {W}. Arguments ac_readonly {W}. Arguments ac_tokens {W}.
Arguments ac_listening {W}.

Definition ends_slash (s : str) : bool := starts_with (u "/") (reverse s).
(** [os.path.join(directory, name)] for a name without a slash. *)
Definition join_path (directory name : str) : str :=
  if bool_decide (directory = []) then name
  else if ends_slash directory then directory ++ name else directory ++ u "/" ++ name.

Section AcmeClient.
Context {W Key : Type} `{AcmeLib W Key}.
Abbreviation state := (acme_site W).

Definition on_lib {A} (m : io W A) : io state A :=
  io_zoom ac_world (λ w s, AcmeSite w (ac_files s) (ac_readonly s) (ac_tokens s) (ac_listening s)) m.
(** [open(path, "wb")] and one [write]. *)
Definition write_file (path : str) (content : bytes) : io state unit := λ s,
  if bool_decide (path ∈ ac_readonly s) then (Err OtherError, s)
  else (Ok tt, AcmeSite (ac_world s) (<[path := content]> (ac_files s)) (ac_readonly s) (ac_tokens s) (ac_listening s)).
Definition set_token (token key_authorization : str) : io state unit :=
  io_modify (λ s, AcmeSite (ac_world s) (ac_files s) (ac_readonly s) (<[token := key_authorization]> (ac_tokens s)) (ac_listening s)).
Definition clear_tokens : io state unit :=
  io_modify (λ s, AcmeSite (ac_world s) (ac_files s) (ac_readonly s) ∅ (ac_listening s)).
Definition listening (b : bool) : io state unit :=
  io_modify (λ s, AcmeSite (ac_world s) (ac_files s) (ac_readonly s) (ac_tokens s) b).

Definition create_account_key (path : str) : io state Key :=
  key ← on_lib generate_private_key;
  _ ← write_file path (private_bytes key);
  mret key.
Definition load_or_create_account_key (path : str) : io state Key :=
  s ← io_get;
  match ac_files s !! path with
  | Some pem =>
      match load_pem_private_key pem with
      | Ok key => mret key
      | Err ValueError | Err TypeError => create_account_key path
      | Err e => io_raise e
      end
  | None => create_account_key path
  end.

Definition answer (c : challenge) : io state unit :=
  if ch_http01 c then _ ← set_token (ch_token c) (ch_key_authorization c); on_lib (answer_challenge c) else mret tt.
Fixpoint answer_challenges (challenges : list challenge) : io state unit :=
  match challenges with
  | [] => mret tt
  | c :: challenges' => _ ← answer c; answer_challenges challenges'
  end.

Definition failed (domain error message : str) : CertResult :=
  {| cr_success := false; cr_domain := domain; cr_message := message; cr_fullchain_path := []; cr_privkey_path := [];
     cr_haproxy_pem_path := []; cr_error := error |}.

(** The three files of a certificate. *)
Definition save_certificate (domain certs_dir : str) (fullchain_pem domain_key_pem : bytes) : io state CertResult :=
  let fullchain_path := join_path certs_dir (u "fullchain.pem") in
  let privkey_path := join_path certs_dir (u "privkey.pem") in
  let haproxy_pem_path := join_path certs_dir (u "rdp.pem") in
  _ ← write_file fullchain_path fullchain_pem;
  _ ← write_file privkey_path domain_key_pem;
  _ ← write_file haproxy_pem_path (fullchain_pem ++ domain_key_pem);
  mret {| cr_success := true; cr_domain := domain; cr_message := u "Certificate obtained successfully";
          cr_fullchain_path := fullchain_path; cr_privkey_path := privkey_path; cr_haproxy_pem_path := haproxy_pem_path;
          cr_error := [] |}.

(** The order up to its outcome, and the key of the domain. *)
Definition obtain_order (domain : str) (email : option str) (certs_dir acme_directory : str) : io state (outcome * bytes) :=
  account_key ← load_or_create_account_key (join_path certs_dir (u "account.key"));
  _ ← on_lib (new_client acme_directory account_key);
  regr ← on_lib (new_account (match email with Some [] => None | _ => email end));
  _ ← (match regr with Conflict => on_lib query_registration | Registered => mret tt end);
  pems ← on_lib (generate_domain_key_and_csr domain);
  order ← on_lib (new_order pems.2);
  _ ← answer_challenges (concat order);
  finalized ← on_lib poll_and_finalize;
  mret (finalized, pems.1).

Definition obtain_sync (domain : str) (email : option str) (certs_dir acme_directory : str) : io state CertResult :=
  order ← obtain_order domain email certs_dir acme_directory;
  match order.1 with
  | ValidationError statuses =>
      mret (failed domain (u "Challenge validation failed: " ++ join_with (u "; ") statuses)
              (u "Certificate order failed: challenge validation error"))
  | TimedOut => mret (failed domain (u "Timed out waiting for order to become valid") (u "Certificate order timed out"))
  | Finalized fullchain_pem => save_certificate domain certs_dir fullchain_pem order.2
  end.

Definition obtain_certificate (domain : str) (email : option str) (certs_dir acme_directory : str) (challenge_port : Z) : io state CertResult :=
  io_finally
    (io_try (_ ← on_lib (start_server challenge_port); _ ← listening true; obtain_sync domain email certs_dir acme_directory)
            (λ e, mret (failed domain (exn_text e) (u "Certificate request failed: " ++ exn_text e))))
    (_ ← clear_tokens; listening false).

(** ** [app.py] *)

(** [app.state.cert_status]: its status, message and domain. *)
Record cert_status : Type := CertStatus { cs_status : str; cs_message : str; cs_domain : str }.
Definition in_progress (domain : str) : cert_status := CertStatus (u "in_progress") (u "Requesting certificate...") domain.
Definition UPDATED : str := u " HAProxy обновлён автоматически.".
Definition RESTART : str := u " Выполните: docker compose restart haproxy".

Definition LETS_ENCRYPT_DIRECTORY : str := u "https://acme-v02.api.letsencrypt.org/directory".

(** [_request_certificate]: the status it ends with. *)
Definition read_file (path : str) : io state bytes := λ s,
  match ac_files s !! path with Some content => (Ok content, s) | None => (Err OtherError, s) end.
Definition request_certificate `{UnixSockets W} (certs_dir haproxy_socket : str) (domain : str) : io state cert_status :=
  result ← obtain_certificate domain None certs_dir LETS_ENCRYPT_DIRECTORY 80;
  if cr_success result then
    haproxy_msg ← io_try
      (pem_bytes ← read_file (cr_haproxy_pem_path result);
       reloaded ← on_lib (hot_update_ssl_cert pem_bytes haproxy_socket (u "/usr/local/etc/haproxy/certs/rdp.pem"));
       mret (if reloaded : bool then UPDATED else RESTART))
      (λ _, mret RESTART);
    mret (CertStatus (u "success") (u "Certificate for " ++ domain ++ u " obtained." ++ haproxy_msg) domain)
  else
    mret (CertStatus (u "error") (if bool_decide (cr_message result = []) then cr_error result else cr_message result) domain).
End AcmeClient.

(** ** Lemmas *)

#[local] Opaque u.

(** *** Requests *)

Lemma readline_line line rest :
  z2b 10 ∉ line → Z.of_nat (length line) <= LIMIT → readline (line ++ z2b 10 :: rest) = (Ok (line ++ [z2b 10]), rest).
Proof.
  intros Hn Hl. unfold readline. rewrite (proj2 (split_first_Some (z2b 10) _ line rest)) by done.
  by rewrite (proj2 (Z.ltb_ge _ _)).
Qed.

(** A line that is read is taken off what is left. *)
Lemma readline_shorter s line s' : readline s = (Ok line, s') → line ≠ [] → (length s' < length s)%nat.
Proof.
  unfold readline. destruct (split_first (z2b 10) s) as [[a b]|] eqn:E.
  - apply split_first_Some in E as [-> _]. destruct (_ <? _); [discriminate|]. intros [= _ <-] _. rewrite length_app. cbn. lia.
  - destruct (_ <? _); [discriminate|]. intros [= <- <-] Hne. destruct s; [done | cbn; lia].
Qed.

(** More fuel than the bytes that are left changes nothing: the loop ends by
    itself. *)
Lemma consume_fuel f f' s : (length s < f)%nat → (length s < f')%nat → consume_headers f s = consume_headers f' s.
Proof.
  revert f' s. induction f as [|f IH]; intros [|f'] s Hf Hf'; try lia. cbn [consume_headers]. rewrite !io_bind_run.
  destruct (readline s) as [[line|e] s'] eqn:E; [|done]. destruct (blank_line line) eqn:Eb; [done|].
  assert (line ≠ []) as Hne by (intros ->; discriminate Eb). pose proof (readline_shorter s line s' E Hne). apply IH; lia.
Qed.

Definition crlf : bytes := bz [13; 10].
(** Header lines, each short enough and none of them blank. *)
Definition header_line (h : bytes) : Prop := h ≠ [] ∧ (z2b 10 ∉ h) ∧ Z.of_nat (length h) < LIMIT.

Lemma consume_lines headers rest f :
  Forall header_line headers → (length headers < f)%nat →
  consume_headers f (concat (map (λ h, h ++ crlf) headers) ++ crlf ++ rest) = (Ok tt, rest).
Proof.
  intros Hh. revert f. induction Hh as [|h hs (Hne & Hn & Hl) _ IH]; intros [|f] Hf; cbn [length] in Hf; try lia;
    cbn [consume_headers map concat app]; rewrite io_bind_run.
  - change (crlf ++ rest) with ([z2b 13] ++ z2b 10 :: rest). rewrite readline_line; [done| |cbn; unfold LIMIT; lia].
    apply (bool_decide_eq_true_1 (z2b 10 ∉ _)). vm_compute. reflexivity.
  - rewrite <- !app_assoc. change (crlf ++ concat (map (λ h, h ++ crlf) hs) ++ crlf ++ rest)
      with ([z2b 13] ++ z2b 10 :: concat (map (λ h, h ++ crlf) hs) ++ crlf ++ rest).
    rewrite (app_assoc h), readline_line.
    + assert (blank_line ((h ++ [z2b 13]) ++ [z2b 10]) = false) as ->; [|apply IH; lia].
      unfold blank_line. rewrite !orb_false_iff, !bool_decide_eq_false. destruct h as [|a h]; [done|].
      repeat split; intros Hx; apply (f_equal length) in Hx; rewrite !length_app in Hx; cbn in Hx; lia.
    + rewrite not_elem_of_app. split; [done|]. apply (bool_decide_eq_true_1 (z2b 10 ∉ _)). vm_compute. reflexivity.
    + rewrite length_app. cbn. lia.
Qed.

Definition ascii (s : str) : Prop := Forall (λ c, (c < 128)%N) s.

Lemma ascii_bytes w : ascii w → ascii_decode_replace (map n_byte w) = w.
Proof.
  induction 1 as [|c w Hc _ IH]; [done|]. unfold ascii_decode_replace in *. cbn [map]. rewrite IH, byte_n_of by lia.
  by rewrite (proj2 (N.ltb_lt _ _)).
Qed.

Lemma ascii_decode_app a b : ascii_decode_replace (a ++ b) = ascii_decode_replace a ++ ascii_decode_replace b.
Proof. apply map_app. Qed.

Lemma word_no_newline w : word w → z2b 10 ∉ map n_byte w.
Proof.
  intros [_ Hw] (c & E & Hc)%list_elem_of_fmap. rewrite Forall_forall in Hw. destruct (Hw c Hc) as [Hs Hlt].
  assert (c = 10%N) as ->; [|discriminate Hs]. apply (f_equal byte_n) in E. rewrite byte_n_of in E by lia. by rewrite <- E.
Qed.

(** The request of the authority for a token. *)
Definition get_request (token : str) (headers : list bytes) : bytes :=
  (bl "GET " ++ map n_byte (prefix ++ token) ++ bl " HTTP/1.1") ++ crlf ++ concat (map (λ h, h ++ crlf) headers) ++ crlf.

Lemma lines_length (headers : list bytes) rest : (length headers <= length (concat (map (λ h, h ++ crlf) headers) ++ crlf ++ rest))%nat.
Proof.
  rewrite length_app. assert (length headers <= length (concat (map (λ h, h ++ crlf) headers)))%nat; [|lia].
  induction headers as [|h hs IH]; [done|]. cbn [map concat length]. rewrite !length_app. change (length crlf) with 2%nat. lia.
Qed.

Lemma challenge_served tokens token key body headers rest :
  word token → (length token <= 1000)%nat → tokens !! token = Some key → key ≠ [] → utf8_encode key = Ok body →
  Forall header_line headers → handle_challenge tokens (get_request token headers ++ rest) = challenge_response body.
Proof.
  intros Hword Hlen Ht Hne Hbody Hh. unfold handle_challenge. rewrite io_bind_run.
  assert (word (prefix ++ token)) as Hpath.
  { destruct Hword as [H1 H2]. split; [by intros [_ ?]%app_nil|]. apply Forall_app. split; [|exact H2].
    apply (bool_decide_eq_true_1 (Forall _ _)). vm_compute. reflexivity. }
  set (line := bl "GET " ++ map n_byte (prefix ++ token) ++ bl " HTTP/1.1").
  assert (get_request token headers ++ rest = (line ++ [z2b 13]) ++ z2b 10 :: concat (map (λ h, h ++ crlf) headers) ++ crlf ++ rest) as ->
    by (unfold get_request; fold line; by rewrite <- !app_assoc).
  rewrite readline_line.
  2: { unfold line. rewrite !not_elem_of_app. assert ((z2b 10 ∉ bl "GET ") ∧ (z2b 10 ∉ bl " HTTP/1.1") ∧ (z2b 10 ∉ [z2b 13])) as (N1 & N2 & N3)
         by (repeat split; apply (bool_decide_eq_true_1 (z2b 10 ∉ _)); vm_compute; reflexivity).
       split; [|exact N3]. split; [exact N1|]. split; [by apply word_no_newline | exact N2]. }
  2: { unfold line, LIMIT. rewrite !length_app, length_map, length_app.
       assert (length prefix = 28%nat) as -> by (vm_compute; reflexivity). cbn [length bl String.list_byte_of_string]. cbn. lia. }
  cbv zeta. assert (nth 1 (split_ws (ascii_decode_replace ((line ++ [z2b 13]) ++ [z2b 10]))) [] = prefix ++ token) as ->.
  { unfold line. rewrite !ascii_decode_app, ascii_bytes by (eapply Forall_impl; [apply Hpath | by intros c [_ ?]]).
    rewrite <- !app_assoc.
    replace (ascii_decode_replace (bl "GET ")) with (u "GET" ++ u " ") by (vm_compute; reflexivity).
    replace (ascii_decode_replace (bl " HTTP/1.1")) with (u " " ++ u "HTTP/1.1") by (vm_compute; reflexivity).
    rewrite <- !app_assoc. rewrite split_ws_words by (apply word_b_spec; vm_compute; reflexivity).
    by rewrite (app_assoc prefix token), split_ws_words by exact Hpath. }
  rewrite io_bind_run. cbn [io_get]. rewrite io_bind_run, consume_lines; [|exact Hh | pose proof (lines_length headers rest); lia].
  rewrite starts_with_app, drop_app_length, Ht. destruct key as [|c key]; [done|].
  rewrite io_bind_run. unfold io_lift. by rewrite Hbody.
Qed.

(** Nothing else is ever served. *)
Lemma challenge_only tokens request :
  handle_challenge tokens request = [] ∨ handle_challenge tokens request = not_found
  ∨ ∃ token key body, tokens !! token = Some key ∧ key ≠ [] ∧ utf8_encode key = Ok body
      ∧ handle_challenge tokens request = challenge_response body.
Proof.
  unfold handle_challenge. rewrite io_bind_run. destruct (readline request) as [[line|e] s]; [|by left]. cbv zeta.
  rewrite io_bind_run. cbn [io_get]. rewrite io_bind_run. destruct (consume_headers _ s) as [[[]|e] s']; [|by left].
  destruct (starts_with prefix _); [|by right; left].
  destruct (tokens !! _) as [[|c key]|] eqn:E; [by right; left| |by right; left].
  rewrite io_bind_run. unfold io_lift. destruct (utf8_encode (c :: key)) as [body|e] eqn:Eb; [|by left].
  right. right. by exists (drop (length prefix) (nth 1 (split_ws (ascii_decode_replace line)) [])), (c :: key), body.
Qed.

(** *** Orders *)

Lemma join_path_inj directory n n' : join_path directory n = join_path directory n' → n = n'.
Proof. unfold join_path. case_bool_decide; [done|]. destruct (ends_slash directory); [apply (inj (app _))|]. intros E. by simplify_eq. Qed.

#[local] Instance join_path_injective directory : Inj (=) (=) (join_path directory).
Proof. intros n n'. apply join_path_inj. Qed.

(** The files of a certificate directory. *)
Definition cert_names : list str := [u "fullchain.pem"; u "privkey.pem"; u "rdp.pem"].
Definition cert_paths (certs_dir : str) : list str := map (join_path certs_dir) cert_names.
Definition account_path (certs_dir : str) : str := join_path certs_dir (u "account.key").

Lemma names_differ : NoDup (u "account.key" :: cert_names).
Proof. apply (bool_decide_eq_true_1 (NoDup _)). vm_compute. reflexivity. Qed.

Lemma paths_differ certs_dir : NoDup (account_path certs_dir :: cert_paths certs_dir).
Proof.
  unfold account_path, cert_paths. rewrite <- map_cons. apply (NoDup_fmap_2 (join_path certs_dir)), names_differ.
Qed.

Section Orders.
Context {W Key : Type} `{AcmeLib W Key}.
Implicit Types (s : acme_site W) (paths : list str).

(** Only some files have changed. *)
Definition changed_only paths s0 s : Prop :=
  ac_readonly s = ac_readonly s0 ∧ ∀ p, p ∉ paths → ac_files s !! p = ac_files s0 !! p.

Lemma changed_lib paths s0 {A} (m : io W A) : keeps (changed_only paths s0) (on_lib m).
Proof. intros s Hs. unfold on_lib, io_zoom. by destruct (m (ac_world s)). Qed.

Lemma changed_write paths s0 path content : path ∈ paths → keeps (changed_only paths s0) (write_file (W := W) path content).
Proof.
  intros Hp s [Hr Hs]. unfold write_file. case_bool_decide; [done|]. split; [done|]. intros p Hn. cbn.
  rewrite lookup_insert_ne by (intros ->; done). by apply Hs.
Qed.

Lemma changed_answers paths s0 cs : keeps (changed_only paths s0) (answer_challenges cs).
Proof.
  induction cs as [|c cs IH]; [apply keeps_ret|]. apply keeps_bind; [|done].
  unfold answer. destruct (ch_http01 c); [|apply keeps_ret]. apply keeps_bind; [by apply keeps_modify | intros; apply changed_lib].
Qed.

Lemma changed_account paths s0 path : path ∈ paths → keeps (changed_only paths s0) (load_or_create_account_key path).
Proof.
  intros Hp. assert (keeps (changed_only paths s0) (create_account_key path)) as Hc.
  { apply keeps_bind; [apply changed_lib|]. intros key. apply keeps_bind; [by apply changed_write | intros; apply keeps_ret]. }
  apply keeps_get. intros s Hs. destruct (ac_files s !! path) as [pem|]; [|by apply Hc].
  destruct (load_pem_private_key pem) as [key|e]; [done|]. destruct e; try done; by apply Hc.
Qed.

Lemma changed_order domain email certs_dir acme_directory s0 :
  keeps (changed_only [account_path certs_dir] s0) (obtain_order domain email certs_dir acme_directory).
Proof.
  unfold obtain_order. apply keeps_bind; [apply changed_account; left|]. intros key.
  apply keeps_bind; [apply changed_lib|]. intros _. apply keeps_bind; [apply changed_lib|]. intros regr.
  apply keeps_bind; [destruct regr; [apply keeps_ret | apply changed_lib]|]. intros _.
  apply keeps_bind; [apply changed_lib|]. intros pems. apply keeps_bind; [apply changed_lib|]. intros order.
  apply keeps_bind; [apply changed_answers|]. intros _. apply keeps_bind; [apply changed_lib|]. intros x. apply keeps_ret.
Qed.

(** The libraries' part of answering challenges. *)
Fixpoint answers (cs : list challenge) : io W unit :=
  match cs with
  | [] => mret tt
  | c :: cs' => _ ← (if ch_http01 c then answer_challenge c else mret tt); answers cs'
  end.

Lemma answers_run cs s s' : answer_challenges cs s = (Ok tt, s') → answers cs (ac_world s) = (Ok tt, ac_world s').
Proof.
  revert s. induction cs as [|c cs IH]; intros s; [by intros [= <-]|]. cbn [answer_challenges answers]. rewrite !io_bind_run.
  unfold answer. destruct (ch_http01 c); [|apply IH]. rewrite io_bind_run. unfold set_token, io_modify, on_lib, io_zoom. cbn [ac_world].
  destruct (answer_challenge c (ac_world s)) as [[[]|e] w]; [|discriminate]. apply IH.
Qed.

(** A certificate for the domain, and its key: the key is the one that was
    generated with the request that was ordered, and the chain the one the
    authority finalized that order with, its challenges answered, all in this
    sequence and nothing after. *)
Definition certified domain (chain key : bytes) (w : W) : Prop :=
  ∃ csr order w1 w2 w3 w4,
    generate_domain_key_and_csr domain w1 = (Ok (key, csr), w2) ∧ new_order csr w2 = (Ok order, w3)
    ∧ answers (concat order) w3 = (Ok tt, w4) ∧ poll_and_finalize w4 = (Ok (Finalized chain), w).

Lemma obtain_order_certified domain email certs_dir acme_directory s chain key s' :
  obtain_order domain email certs_dir acme_directory s = (Ok (Finalized chain, key), s') → certified domain chain key (ac_world s').
Proof.
  unfold obtain_order. rewrite io_bind_run. destruct (load_or_create_account_key _ s) as [[acc|e] s1]; [|discriminate].
  rewrite io_bind_run. unfold on_lib at 1, io_zoom at 1. destruct (new_client _ _ (ac_world s1)) as [[[]|e] w2]; [|discriminate].
  set (s2 := AcmeSite w2 _ _ _ _). rewrite io_bind_run. unfold on_lib at 1, io_zoom at 1.
  destruct (new_account _ (ac_world s2)) as [[regr|e] w3]; [|discriminate]. set (s3 := AcmeSite w3 _ _ _ _).
  rewrite io_bind_run.
  match goal with |- match ?x with _ => _ end = _ → _ => destruct x as [[[]|e] s4]; [|discriminate] end.
  rewrite io_bind_run. unfold on_lib at 1, io_zoom at 1.
  destruct (generate_domain_key_and_csr domain (ac_world s4)) as [[pems|e] w5] eqn:Eg; [|discriminate]. set (s5 := AcmeSite w5 _ _ _ _).
  rewrite io_bind_run. unfold on_lib at 1, io_zoom at 1.
  destruct (new_order pems.2 (ac_world s5)) as [[order|e] w6] eqn:Eo; [|discriminate]. set (s6 := AcmeSite w6 _ _ _ _).
  rewrite io_bind_run. destruct (answer_challenges (concat order) s6) as [[[]|e] s7] eqn:Ea; [|discriminate].
  rewrite io_bind_run. unfold on_lib, io_zoom. destruct (poll_and_finalize (ac_world s7)) as [[x|e] w8] eqn:Ef; [|discriminate].
  intros [= -> <- <-]. exists pems.2, order, (ac_world s4), w5, w6, (ac_world s7).
  split; [by rewrite Eg; destruct pems|]. split; [exact Eo|]. split; [exact (answers_run _ _ _ Ea) | exact Ef].
Qed.

(** What the files of a directory are once a result is there. *)
Definition file_of certs_dir s (name : str) : option bytes := ac_files s !! join_path certs_dir name.
Definition saved domain certs_dir s0 (result : res CertResult) s : Prop :=
  changed_only (account_path certs_dir :: cert_paths certs_dir) s0 s
  ∧ if match result with Ok r => cr_success r | Err _ => false end
    then (cr_haproxy_pem_path <$> result) = Ok (join_path certs_dir (u "rdp.pem"))
      ∧ ∃ chain key, certified domain chain key (ac_world s) ∧ file_of certs_dir s (u "fullchain.pem") = Some chain ∧ file_of certs_dir s (u "privkey.pem") = Some key
        ∧ file_of certs_dir s (u "rdp.pem") = Some (chain ++ key)
    else Forall (λ p, p ∉ ac_readonly s0) (cert_paths certs_dir) →
         Forall (λ name, file_of certs_dir s name = file_of certs_dir s0 name) cert_names.

(** Nothing of a certificate has been written yet. *)
Lemma unsaved domain certs_dir s0 s (result : res CertResult) :
  changed_only [account_path certs_dir] s0 s → match result with Ok r => cr_success r | Err _ => false end = false →
  saved domain certs_dir s0 result s.
Proof.
  intros [Hr Hs] Hf. pose proof (paths_differ certs_dir) as [Hacc _]%NoDup_cons. split.
  - split; [done|]. intros p [Hp _]%not_elem_of_cons. apply Hs. by intros ->%list_elem_of_singleton.
  - rewrite Hf. intros _. apply Forall_forall. intros name Hn. apply Hs. intros E%list_elem_of_singleton.
    apply Hacc. rewrite <- E. by apply list_elem_of_fmap_2.
Qed.

Lemma save_certificate_saved domain certs_dir chain key s0 s result s' :
  changed_only [account_path certs_dir] s0 s → certified domain chain key (ac_world s) → save_certificate domain certs_dir chain key s = (result, s') →
  saved domain certs_dir s0 result s'.
Proof.
  intros Hs Hcert. pose proof (paths_differ certs_dir) as Hd. unfold save_certificate. cbv zeta.
  assert (join_path certs_dir (u "fullchain.pem") ≠ join_path certs_dir (u "privkey.pem")
    ∧ join_path certs_dir (u "fullchain.pem") ≠ join_path certs_dir (u "rdp.pem")
    ∧ join_path certs_dir (u "privkey.pem") ≠ join_path certs_dir (u "rdp.pem")) as (N1 & N2 & N3).
  { apply NoDup_cons in Hd as [_ Hd]. unfold cert_paths, cert_names in Hd. cbn [map] in Hd.
    rewrite !NoDup_cons, !not_elem_of_cons in Hd. destruct Hd as [(N1 & N2 & _) [[N3 _] _]]. exact (conj N1 (conj N2 N3)). }
  remember (join_path certs_dir (u "fullchain.pem")) as f eqn:Ef. remember (join_path certs_dir (u "privkey.pem")) as p eqn:Ep.
  remember (join_path certs_dir (u "rdp.pem")) as r eqn:Er.
  assert (cert_paths certs_dir = [f; p; r]) as Hpaths by by rewrite Ef, Ep, Er.
  destruct Hs as [Hro Hfiles].
  assert (∀ x, x ∈ [f; p; r] → x ∈ ac_readonly s → ∀ (e : exn) s', changed_only (account_path certs_dir :: [f; p; r]) s0 s' →
    saved domain certs_dir s0 (Err e) s') as Hfail.
  { intros x Hx Hin e s2 Hc. split; [by rewrite Hpaths|]. intros Hw. rewrite Hpaths, Forall_forall in Hw.
    destruct (Hw x Hx). by rewrite <- Hro. }
  assert (∀ q, q ∉ account_path certs_dir :: [f; p; r] → ac_files s !! q = ac_files s0 !! q) as Hq.
  { intros q [Hq _]%not_elem_of_cons. apply Hfiles. by intros ->%list_elem_of_singleton. }
  assert (∀ q, q ∉ account_path certs_dir :: [f; p; r] → f ≠ q ∧ p ≠ q ∧ r ≠ q) as Hne.
  { intros q Hn. rewrite !not_elem_of_cons in Hn. destruct Hn as (_ & Hf & Hp & Hr & _). repeat split; by apply not_eq_sym. }
  rewrite io_bind_run. unfold write_file at 1. case_bool_decide as H1; [intros [= <- <-]; apply (Hfail f); [left | exact H1 | split; [exact Hro | exact Hq]]|].
  rewrite io_bind_run. unfold write_file at 1. cbn [ac_readonly ac_files ac_world ac_tokens ac_listening].
  case_bool_decide as H2; [intros [= <- <-]; apply (Hfail p); [right; left | exact H2 | split; [exact Hro|]; intros q Hn; cbn [ac_files snd]]|].
  { destruct (Hne q Hn) as (Hf & _). rewrite lookup_insert_ne by exact Hf. exact (Hq q Hn). }
  rewrite io_bind_run. unfold write_file at 1. cbn [ac_readonly ac_files ac_world ac_tokens ac_listening].
  case_bool_decide as H3; [intros [= <- <-]; apply (Hfail r); [right; right; left | exact H3 | split; [exact Hro|]; intros q Hn; cbn [ac_files snd]]|].
  { destruct (Hne q Hn) as (Hf & Hp & _). rewrite !lookup_insert_ne by assumption. exact (Hq q Hn). }
  intros [= <- <-]. split.
  - split; [exact Hro|]. intros q Hn. rewrite Hpaths in Hn. cbn [ac_files snd]. destruct (Hne q Hn) as (Hf & Hp & Hr). rewrite !lookup_insert_ne by assumption. exact (Hq q Hn).
  - cbn [fst cr_success snd]. split; [by rewrite <- Er|]. exists chain, key. split; [exact Hcert|]. unfold file_of. cbn [ac_files].
    rewrite <- Ef, <- Ep, <- Er. split; [|split].
    + by rewrite !lookup_insert_ne, lookup_insert_eq by done.
    + by rewrite lookup_insert_ne, lookup_insert_eq by done.
    + apply lookup_insert_eq.
Qed.

Lemma obtain_sync_saved domain email certs_dir acme_directory s0 s result s' :
  changed_only [account_path certs_dir] s0 s → obtain_sync domain email certs_dir acme_directory s = (result, s') →
  saved domain certs_dir s0 result s'.
Proof.
  intros Hs. unfold obtain_sync. rewrite io_bind_run. pose proof (changed_order domain email certs_dir acme_directory s0 s Hs) as Ho.
  pose proof (λ chain key s', obtain_order_certified domain email certs_dir acme_directory s chain key s') as Hi.
  destruct (obtain_order _ _ _ _ s) as [[[[chain|statuses|] key]|e] s1]; cbn [fst snd] in *; try (intros [= <- <-]; by apply unsaved).
  apply save_certificate_saved; [exact Ho | by apply Hi].
Qed.

(** The tokens of the challenges are set when they have been answered. *)
Lemma answered_tokens cs s s' c :
  answer_challenges cs s = (Ok tt, s') → NoDup (map ch_token (List.filter ch_http01 cs)) → c ∈ cs → ch_http01 c = true →
  ac_tokens s' !! ch_token c = Some (ch_key_authorization c).
Proof.
  assert (∀ cs s s' t, answer_challenges cs s = (Ok tt, s') → t ∉ map ch_token (List.filter ch_http01 cs) →
    ac_tokens s' !! t = ac_tokens s !! t) as Hother.
  { clear. intros cs. induction cs as [|c cs IH]; intros s s' t; [by intros [= <-]|]. cbn [answer_challenges List.filter].
    rewrite io_bind_run. unfold answer. destruct (ch_http01 c).
    - rewrite io_bind_run. unfold set_token, io_modify, on_lib, io_zoom. cbn [ac_world ac_files ac_readonly ac_tokens ac_listening].
      destruct (answer_challenge c (ac_world s)) as [[[]|e] w]; [|discriminate]. intros Hr [Hn Ht]%not_elem_of_cons.
      rewrite (IH _ _ t Hr Ht). cbn. by rewrite lookup_insert_ne.
    - intros Hr Ht. exact (IH _ _ t Hr Ht). }
  revert s. induction cs as [|c' cs IH]; intros s Hr Hnd Hin Hc; [by apply not_elem_of_nil in Hin|].
  cbn [answer_challenges List.filter] in *. rewrite io_bind_run in Hr. apply elem_of_cons in Hin as [<-|Hin].
  - unfold answer in Hr. rewrite Hc in *. rewrite io_bind_run in Hr. unfold set_token, io_modify, on_lib, io_zoom in Hr. cbn in Hr.
    destruct (answer_challenge c (ac_world s)) as [[[]|e] w]; [|discriminate]. cbn [map] in Hnd. apply NoDup_cons in Hnd as [Hn _].
    rewrite (Hother _ _ _ _ Hr Hn). cbn. apply lookup_insert_eq.
  - assert (NoDup (map ch_token (List.filter ch_http01 cs))) as Hnd'
      by (destruct (ch_http01 c'); [cbn [map] in Hnd; by apply NoDup_cons in Hnd as [_ ?] | exact Hnd]).
    destruct (answer c' s) as [[[]|e] s1]; [|discriminate]. by apply (IH s1).
Qed.
End Orders.

(** *** Certificates *)

Section Certificate.
Context {W Key : Type} `{AcmeLib W Key}.
Implicit Types (s : acme_site W).

Lemma obtain_certificate_run domain email certs_dir acme_directory port s :
  ∃ result s', obtain_certificate domain email certs_dir acme_directory port s = (Ok result, s')
    ∧ ac_listening s' = false ∧ ac_tokens s' = ∅ ∧ saved domain certs_dir s (Ok result) s'.
Proof.
  unfold obtain_certificate, io_finally, io_try. rewrite io_bind_run.
  assert (changed_only [account_path certs_dir] s s) as Hs0 by done.
  unfold on_lib at 1, io_zoom. destruct (start_server port (ac_world s)) as [[[]|e] w].
  - rewrite io_bind_run. unfold listening at 1, io_modify.
    match goal with |- context [obtain_sync _ _ _ _ ?x] => pose proof (λ r s', obtain_sync_saved domain email certs_dir acme_directory s x r s' Hs0) as Hsync end.
    destruct (obtain_sync _ _ _ _ _) as [[result|e] s1]; specialize (Hsync _ _ eq_refl); (eexists _, _; split; [reflexivity|]; split; [reflexivity|]; split; [reflexivity | exact Hsync]).
  - eexists _, _. split; [reflexivity|]. split; [done|]. split; [done|]. by apply unsaved.
Qed.

(** A request ends with a success or an error. *)
Lemma request_certificate_ends `{UnixSockets W} certs_dir haproxy_socket domain s :
  ∃ status s', request_certificate certs_dir haproxy_socket domain s = (Ok status, s') ∧ cs_domain status = domain
    ∧ (cs_status status = u "success" ∨ cs_status status = u "error").
Proof.
  unfold request_certificate. rewrite io_bind_run.
  destruct (obtain_certificate_run domain None certs_dir LETS_ENCRYPT_DIRECTORY 80 s) as (result & s1 & -> & _).
  destruct (cr_success result); [|eexists _, _; split; [reflexivity|]; by split; [|right]].
  rewrite io_bind_run. unfold io_try. match goal with |- context [(read_file ?p ≫= ?f) s1] => destruct ((read_file p ≫= f) s1) as [[msg|e] s2] end;
    (eexists _, _; split; [reflexivity|]; by split; [|left]).
Qed.
End Certificate.

(** ** Properties *)

(** C37: whatever the authority and the file system do, the request of a
    certificate returns a result, and the challenge server is closed and serves
    nothing any more. A success leaves three files: the chain that the authority
    finalized the order with, the key that was generated with the request that was
    ordered, and the file for HAProxy, which is the chain and the key; a failure leaves the old certificate as it was,
    unless one of its files could not be written; no other file but the account key
    changes. *)
Theorem certificate_obtained {W Key : Type} `{AcmeLib W Key} (domain : str) (email : option str) (certs_dir acme_directory : str)
    (port : Z) (s : acme_site W) :
  ∃ result s', obtain_certificate domain email certs_dir acme_directory port s = (Ok result, s')
    ∧ ac_listening s' = false ∧ (∀ request, handle_challenge (ac_tokens s') request = [] ∨ handle_challenge (ac_tokens s') request = not_found)
    ∧ saved domain certs_dir s (Ok result) s'.
Proof.
  destruct (obtain_certificate_run domain email certs_dir acme_directory port s) as (result & s' & E & Hl & Ht & Hs).
  exists result, s'. split; [exact E|]. split; [exact Hl|]. split; [|exact Hs]. intros request. rewrite Ht.
  destruct (challenge_only ∅ request) as [?|[?|(t & k & b & Hn & _)]]; [by left | by right|]. by rewrite lookup_empty in Hn.
Qed.

(** When an order has been answered, every challenge of it is served: the
    authority's request for its token, whatever headers come with it, gets the key
    authorization. *)
Theorem challenges_answerable {W Key : Type} `{AcmeLib W Key} (cs : list challenge) (s s' : acme_site W) (c : challenge)
    (body : bytes) (headers : list bytes) (rest : bytes) :
  answer_challenges cs s = (Ok tt, s') → NoDup (map ch_token (List.filter ch_http01 cs)) → c ∈ cs → ch_http01 c = true →
  word (ch_token c) → (length (ch_token c) <= 1000)%nat → ch_key_authorization c ≠ [] →
  utf8_encode (ch_key_authorization c) = Ok body → Forall header_line headers →
  handle_challenge (ac_tokens s') (get_request (ch_token c) headers ++ rest) = challenge_response body.
Proof. intros Hr Hnd Hin Hc Hw Hl Hne Hb Hh. eapply challenge_served; eauto. by eapply answered_tokens. Qed.

(** ** Witnesses *)

#[local] Transparent u.
Definition demo_challenge : challenge := Challenge true (u "tok_1") (u "tok_1.thumb").
#[local] Instance demo_acme : AcmeLib () () := {|
  load_pem_private_key pem := Err ValueError; generate_private_key := mret tt; private_bytes _ := bl "account";
  new_client url key := mret tt; new_account email := mret Conflict; query_registration := mret tt;
  generate_domain_key_and_csr domain := mret (bl "KEY", bl "CSR"); new_order csr := mret [[demo_challenge]; []];
  answer_challenge c := mret tt; poll_and_finalize := mret (Finalized (bl "CHAIN")); start_server port := mret tt; exn_text e := [] |}.
Definition demo_site : acme_site () := AcmeSite tt {[ u "/certs/rdp.pem" := bl "OLD" ]} [] ∅ false.

Example demo_certificate :
  let s := (obtain_certificate (u "rdp.corp") None (u "/certs") (u "directory") 80 demo_site).2 in
  ac_files s !! u "/certs/rdp.pem" = Some (bl "CHAINKEY") ∧ ac_files s !! u "/certs/account.key" = Some (bl "account").
Proof. vm_compute. done. Qed.

Lemma challenges_answerable_witness :
  handle_challenge (ac_tokens (answer_challenges [demo_challenge] demo_site).2) (get_request (ch_token demo_challenge) [bl "Host: rdp.corp"] ++ [])
  = challenge_response (bl "tok_1.thumb").
Proof.
  apply (challenges_answerable [demo_challenge] demo_site (answer_challenges [demo_challenge] demo_site).2 demo_challenge).
  - reflexivity.
  - apply (bool_decide_eq_true_1 (NoDup _)). vm_compute. reflexivity.
  - left.
  - reflexivity.
  - apply word_b_spec. vm_compute. reflexivity.
  - apply Nat.leb_le. vm_compute. reflexivity.
  - discriminate.
  - vm_compute. reflexivity.
  - apply Forall_singleton. split; [discriminate|]. split; [|vm_compute; reflexivity].
    apply (bool_decide_eq_true_1 (z2b 10 ∉ _)). vm_compute. reflexivity.
Defined.
Close Scope Z_scope.
