(* ===== verification/Renewal.v ===== *)
(** The renewal of the certificate: [cert_days_remaining] of
    [libs/acme_client/client.py], and the two background tasks of
    [services/admin/app.py] that ask for a new one, [_cert_renewal_loop] and
    [_startup_cert_check]. The world of [Acme] has a clock; reading a certificate's
    end of validity is a parameter. *)

From stdpp Require Import prelude gmap list sorting strings.
From Stdlib Require Import ZArith Lia Sorting.Sorted.
From Stdlib Require Strings.String.
From S2P Require Import Prelude PySeq PyBytes PyStr Certificates Acme.

Open Scope Z_scope.

(** [datetime.now(timezone.utc)], and [x509.load_pem_x509_certificate(pem).not_valid_after_utc],
    both in milliseconds. *)
Class X509 (W : Type) : Type := {
  clock : W → Z;
  not_valid_after : bytes → res Z;
}.

(** [timedelta.days] is the floor of the division. *)
Definition DAY : Z := 86400 * 1000.
Definition delta_days (delta : Z) : Z := delta / DAY.

Section Days.
Context {W Key : Type} `{AcmeLib W Key} `{UnixSockets W} `{X509 W}.
Abbreviation state := (acme_site W).
Implicit Types (s : acme_site W).

Definition utcnow : io state Z := s ← io_get; mret (clock (ac_world s)).

Definition cert_days_remaining (certs_dir : str) : io state (option Z) :=
  io_try
    (pem ← read_file (join_path certs_dir (u "fullchain.pem"));
     end_of_validity ← io_lift (not_valid_after pem);
     now ← utcnow;
     mret (Some (delta_days (end_of_validity - now))))
    (λ _, mret None).

Section Tasks.
Variables (certs_dir haproxy_socket : str).

(** One turn of [_cert_renewal_loop] after its sleep: the status of the request it
    made. Whatever is raised, the loop goes on. *)
Definition renewal_turn (public_host : str) : io state (option cert_status) :=
  io_try
    (if bool_decide (strip public_host = []) then mret None
     else
       days ← cert_days_remaining certs_dir;
       match renewal_due public_host days with
       | None => mret None
       | Some domain => status ← request_certificate certs_dir haproxy_socket domain; mret (Some status)
       end)
    (λ _, mret None).

(** [_startup_cert_check] after its sleep: a certificate that is not there is left
    to the loop. *)
Definition startup_cert_check (public_host : str) : io state (option cert_status) :=
  io_try
    (if bool_decide (strip public_host = []) then mret None
     else
       days ← cert_days_remaining certs_dir;
       match days with
       | None => mret None
       | Some _ =>
           match renewal_due public_host days with
           | None => mret None
           | Some domain => status ← request_certificate certs_dir haproxy_socket domain; mret (Some status)
           end
       end)
    (λ _, mret None).

(** While the loop sleeps the world moves on. A turn is reported with the time it
    began at. *)
Definition sleep (w : W) : io state unit :=
  io_modify (λ s, AcmeSite w (ac_files s) (ac_readonly s) (ac_tokens s) (ac_listening s)).
Fixpoint cert_renewal_loop (wakes : list (W * str)) : io state (list (Z * option cert_status)) :=
  match wakes with
  | [] => mret []
  | (w, public_host) :: wakes' =>
      _ ← sleep w;
      status ← renewal_turn public_host;
      reports ← cert_renewal_loop wakes';
      mret ((clock w, status) :: reports)
  end.
End Tasks.
End Days.

(** What the authority and the clock promise: no call turns the clock back, and a
    chain that is issued is valid for at least thirty days more. *)
Class AuthorityLaws (W Key : Type) `{AcmeLib W Key} `{X509 W} : Prop := {
  clock_generate t : keeps (λ w, t <= clock w) generate_private_key;
  clock_client t url key : keeps (λ w, t <= clock w) (new_client url key);
  clock_account t email : keeps (λ w, t <= clock w) (new_account email);
  clock_query t : keeps (λ w, t <= clock w) query_registration;
  clock_csr t domain : keeps (λ w, t <= clock w) (generate_domain_key_and_csr domain);
  clock_order t csr : keeps (λ w, t <= clock w) (new_order csr);
  clock_answer t c : keeps (λ w, t <= clock w) (answer_challenge c);
  clock_poll t : keeps (λ w, t <= clock w) poll_and_finalize;
  clock_server t port : keeps (λ w, t <= clock w) (start_server port);
  issued w chain w' : poll_and_finalize w = (Ok (Finalized chain), w') →
    ∃ e, not_valid_after chain = Ok e ∧ clock w + 30 * DAY <= e;
}.

(** ** Lemmas *)

#[local] Opaque u.
Section Validity.
Context {W Key : Type} `{AcmeLib W Key} `{UnixSockets W} `{X509 W} `{!AuthorityLaws W Key}.
Implicit Types (s : acme_site W) (certs_dir : str).

Definition after (t : Z) s : Prop := t <= clock (ac_world s).
Definition issued_after (t : Z) (chain : bytes) : Prop := ∃ e, not_valid_after chain = Ok e ∧ t + 30 * DAY <= e.

Lemma after_lib t {A} (m : io W A) : keeps (λ w, t <= clock w) m → keeps (after t) (on_lib m).
Proof. intros Hm. unfold on_lib. by apply (zoom_keeps ac_world _ m (λ w, t <= clock w)). Qed.

Lemma after_write t path content : keeps (after t) (write_file path content).
Proof. intros s Hs. unfold write_file. by case_bool_decide. Qed.

Lemma after_account_key t path : keeps (after t) (load_or_create_account_key path).
Proof.
  assert (keeps (after t) (create_account_key path)) as Hc.
  { apply keeps_bind; [apply after_lib, clock_generate|]. intros key. apply keeps_bind; [apply after_write | intros; apply keeps_ret]. }
  apply keeps_get. intros s Hs. destruct (ac_files s !! path) as [pem|]; [|by apply Hc].
  destruct (load_pem_private_key pem) as [key|e]; [done|]. destruct e; try done; by apply Hc.
Qed.

Lemma after_answers t cs : keeps (after t) (answer_challenges cs).
Proof.
  induction cs as [|c cs IH]; [apply keeps_ret|]. apply keeps_bind; [|done]. unfold answer.
  apply keeps_if; [|apply keeps_ret]. apply keeps_bind; [by apply keeps_modify | intros; apply after_lib, clock_answer].
Qed.

(** An order that is finalised brings a chain that is issued after the order began. *)
Lemma order_issued t domain email certs_dir acme_directory :
  hoare (after t) (obtain_order domain email certs_dir acme_directory)
    (λ order _, ∀ chain, order.1 = Finalized chain → issued_after t chain) (after t).
Proof.
  unfold obtain_order. apply hoare_step; [apply after_account_key|]. intros key.
  apply hoare_step; [apply after_lib, clock_client|]. intros _. apply hoare_step; [apply after_lib, clock_account|]. intros regr.
  apply hoare_step; [destruct regr; [apply keeps_ret | apply after_lib, clock_query]|]. intros _.
  apply hoare_step; [apply after_lib, clock_csr|]. intros pems. apply hoare_step; [apply after_lib, clock_order|]. intros order.
  apply hoare_step; [apply after_answers|]. intros _.
  apply hoare_bind with (Q := λ finalized _, ∀ chain, finalized = Finalized chain → issued_after t chain).
  - intros s Hs. pose proof (after_lib t _ (clock_poll t) s Hs) as Hs'. unfold on_lib, io_zoom in *.
    destruct (poll_and_finalize (ac_world s)) as [[finalized|e] w] eqn:E; [|exact Hs'].
    intros chain ->. destruct (issued _ _ _ E) as (e & He & Hle). exists e. split; [exact He|]. unfold after in Hs. lia.
  - intros finalized. by apply hoare_ret.
Qed.

(** The chain on disk is the one that was saved. *)
Lemma save_certificate_chain domain certs_dir chain key s r s' :
  save_certificate domain certs_dir chain key s = (Ok r, s') → file_of certs_dir s' (u "fullchain.pem") = Some chain.
Proof.
  pose proof (paths_differ certs_dir) as [_ Hd]%NoDup_cons. unfold cert_paths, cert_names in Hd. cbn [map] in Hd.
  rewrite !NoDup_cons, !not_elem_of_cons in Hd. destruct Hd as [(N1 & N2 & _) _].
  unfold save_certificate, file_of. cbv zeta.
  set (f := join_path certs_dir (u "fullchain.pem")) in *. set (p := join_path certs_dir (u "privkey.pem")) in *.
  set (q := join_path certs_dir (u "rdp.pem")) in *. clearbody f p q. rewrite io_bind_run. unfold write_file at 1.
  destruct (bool_decide (f ∈ _)); [intros E; inversion E|].
  rewrite io_bind_run. unfold write_file at 1. destruct (bool_decide (p ∈ _)); [intros E; inversion E|].
  rewrite io_bind_run. unfold write_file at 1. destruct (bool_decide (q ∈ _)); [intros E; inversion E|].
  intros E. apply (f_equal snd) in E. cbn [snd mret io_ret] in E. subst s'. cbn [ac_files].
  rewrite !lookup_insert_ne by (apply not_eq_sym; assumption). apply lookup_insert_eq.
Qed.

(** What the certificate on disk is good for. *)
Definition valid_until certs_dir s (e : Z) : Prop :=
  ∃ pem, file_of certs_dir s (u "fullchain.pem") = Some pem ∧ not_valid_after pem = Ok e.
Definition valid_at certs_dir (now : Z) s : Prop := ∃ e, valid_until certs_dir s e ∧ now <= e.

Lemma obtain_issued t domain email certs_dir acme_directory port s r s' :
  after t s → obtain_certificate domain email certs_dir acme_directory port s = (Ok r, s') → cr_success r = true →
  valid_at certs_dir (t + 30 * DAY) s'.
Proof.
  intros Hs. unfold obtain_certificate, io_finally, io_try. rewrite io_bind_run.
  pose proof (after_lib t _ (clock_server t port) s Hs) as Hs1. destruct (on_lib (start_server port) s) as [[[]|e] s1]; [|by intros [= <- _]].
  cbn [snd] in Hs1. rewrite io_bind_run. unfold listening at 1, io_modify, obtain_sync. rewrite io_bind_run.
  set (s2 := AcmeSite _ _ _ _ _). assert (after t s2) as Hs2 by exact Hs1.
  pose proof (order_issued t domain email certs_dir acme_directory s2 Hs2) as Ho.
  destruct (obtain_order _ _ _ _ s2) as [[[o key]|e] s3]; [|by intros [= <- _]]. cbn [fst snd] in *.
  destruct o as [chain|statuses|]; try by intros [= <- _].
  destruct (save_certificate domain certs_dir chain key s3) as [[r3|e] s4] eqn:Es; [|by intros [= <- _]].
  apply save_certificate_chain in Es. intros [= <- <-] _. destruct (Ho chain eq_refl) as (e & He & Hle).
  exists e. split; [|exact Hle]. exists chain. split; [exact Es | exact He].
Qed.

(** A handler that returns leaves nothing to raise. *)
Lemma try_returns {S A} (m : io S A) (a : A) (x : S) : ∃ b x', io_try m (λ _, mret a) x = (Ok b, x').
Proof. unfold io_try. destruct (m x) as [[b|e] x']; eauto. Qed.

Section Turns.
Context (certs_dir haproxy_socket : str).
Abbreviation chain_of := (λ s, file_of certs_dir s (u "fullchain.pem")).
Definition writable s : Prop := Forall (λ p, p ∉ ac_readonly s) (cert_paths certs_dir).

(** How a turn can end. *)
Inductive turn_end (t : Z) s : option cert_status → acme_site W → Prop :=
  | turn_covered st s' : ac_readonly s' = ac_readonly s → valid_at certs_dir (t + 30 * DAY) s' → turn_end t s st s'
  | turn_failed st s' : ac_readonly s' = ac_readonly s → chain_of s' = chain_of s → cs_status st = u "error" →
      turn_end t s (Some st) s'.

(** After the files are written, nothing touches them. *)
Lemma reload_keeps s0 path :
  keeps (changed_only [] s0)
    (io_try (pem_bytes ← read_file (W := W) path;
             reloaded ← on_lib (hot_update_ssl_cert pem_bytes haproxy_socket (u "/usr/local/etc/haproxy/certs/rdp.pem"));
             mret (if reloaded : bool then UPDATED else RESTART)) (λ _, mret RESTART)).
Proof.
  apply keeps_try; [|intros; apply keeps_ret]. apply keeps_bind; [|intros pem; apply keeps_bind; [apply changed_lib | intros; apply keeps_ret]].
  intros s Hs. unfold read_file. by destruct (ac_files s !! path).
Qed.

Lemma request_end t domain s :
  after t s → writable s → ∃ st s', request_certificate certs_dir haproxy_socket domain s = (Ok st, s') ∧ turn_end t s (Some st) s'.
Proof.
  intros Hs Hw. unfold request_certificate. rewrite io_bind_run.
  destruct (obtain_certificate_run domain None certs_dir LETS_ENCRYPT_DIRECTORY 80 s) as (r & s1 & E & _ & _ & [Hro _] & Hr).
  rewrite E. destruct (cr_success r) eqn:Er.
  - pose proof (obtain_issued t _ _ _ _ _ _ _ _ Hs E Er) as (e & (pem & Hp & He) & Hle). rewrite io_bind_run.
    match goal with |- context [io_try ?m ?h s1] =>
      assert (changed_only [] s1 (io_try m h s1).2) as [Hr2 Hf2] by (by apply reload_keeps);
      destruct (try_returns m RESTART s1) as (msg & s2 & E2) end.
    rewrite E2 in *. cbn [snd] in *. eexists _, s2. split; [reflexivity|]. constructor; [congruence|]. exists e. split; [|exact Hle].
    exists pem. split; [|exact He]. unfold file_of in *. rewrite Hf2; [exact Hp | apply not_elem_of_nil].
  - eexists _, s1. split; [reflexivity|]. apply turn_failed; [exact Hro | | reflexivity].
    specialize (Hr Hw). rewrite Forall_forall in Hr. apply Hr. left.
Qed.

(** What is read of the certificate on disk. *)
Lemma days_remaining s :
  cert_days_remaining certs_dir s
  = (Ok (match chain_of s with
         | Some pem => match not_valid_after pem with Ok e => Some (delta_days (e - clock (ac_world s))) | Err _ => None end
         | None => None
         end), s).
Proof.
  unfold cert_days_remaining, io_try. rewrite io_bind_run. unfold read_file, file_of. destruct (ac_files s !! _) as [pem|]; [|done].
  rewrite io_bind_run. unfold io_lift. by destruct (not_valid_after pem).
Qed.

Lemma thirty_days e t : ¬ delta_days (e - t) < 30 → t + 30 * DAY <= e.
Proof. unfold delta_days. assert (0 < DAY) by (unfold DAY; lia). pose proof (Z.mul_div_le (e - t) DAY). nia. Qed.

Lemma turn_ends public_host s :
  strip public_host ≠ [] → writable s →
  ∃ st s', renewal_turn certs_dir haproxy_socket public_host s = (Ok st, s') ∧ turn_end (clock (ac_world s)) s st s'.
Proof.
  intros Hh Hw. set (t := clock (ac_world s)). assert (after t s) as Hs by (unfold after, t; lia).
  destruct (request_end t (strip public_host) s Hs Hw) as (st & s' & Er & Hend).
  unfold renewal_turn, io_try. rewrite bool_decide_eq_false_2 by exact Hh. rewrite io_bind_run, days_remaining.
  unfold renewal_due. rewrite bool_decide_eq_false_2 by exact Hh. fold t.
  assert (∃ st s', (status ← request_certificate certs_dir haproxy_socket (strip public_host); mret (Some status)) s = (Ok st, s')
    ∧ turn_end t s st s') as (st' & s2 & Eq & Hend2) by (rewrite io_bind_run, Er; eauto).
  destruct (chain_of s) as [pem|] eqn:Ep; [destruct (not_valid_after pem) as [e|] eqn:Ee|]; try (rewrite Eq; by eauto).
  destruct (Z.ltb_spec (delta_days (e - t)) 30) as [Hd|Hd]; [rewrite Eq; by eauto|].
  eexists _, s. split; [reflexivity|]. constructor; [reflexivity|]. exists e. split; [by exists pem|].
  apply thirty_days. lia.
Qed.

Definition is_error (report : Z * option cert_status) : Prop := ∃ st, report.2 = Some st ∧ cs_status st = u "error".

(** After a run the certificate is the old one and every turn has failed, or it is
    good for thirty days from the last turn that has not. *)
Lemma loop_ends wakes s :
  Forall (λ hw, strip hw.2 ≠ []) wakes → writable s →
  ∃ reports s', cert_renewal_loop certs_dir haproxy_socket wakes s = (Ok reports, s') ∧ map fst reports = map (clock ∘ fst) wakes
    ∧ ((Forall is_error reports ∧ chain_of s' = chain_of s)
       ∨ ∃ l t st l', reports = l ++ (t, st) :: l' ∧ Forall is_error l' ∧ valid_at certs_dir (t + 30 * DAY) s').
Proof.
  intros Hh. revert s. induction Hh as [|[w host] wakes Hh _ IH]; intros s Hw.
  { exists [], s. split; [done|]. split; [done|]. by left. }
  cbn [cert_renewal_loop]. rewrite io_bind_run. unfold sleep, io_modify. set (s1 := AcmeSite _ _ _ _ _).
  rewrite io_bind_run. destruct (turn_ends host s1 Hh Hw) as (st & s2 & -> & Hend). change (ac_world s1) with w in Hend.
  assert (ac_readonly s2 = ac_readonly s) as Hro by by destruct Hend.
  assert (writable s2) as Hw2 by (unfold writable; by rewrite Hro).
  rewrite io_bind_run. destruct (IH s2 Hw2) as (reports & s' & -> & Ht & Hr).
  eexists _, s'. split; [reflexivity|]. split; [cbn [map fst]; by rewrite Ht|].
  destruct Hr as [[Hall Hsame]|(l & t & st' & l' & -> & Hl & Hv)]; [|right; exists ((clock w, st) :: l), t, st', l'; by split].
  destruct Hend as [st s2 _ (e & (pem & Hp & He) & Hle)|st s2 _ Hf Herr].
  - right. exists [], (clock w), st, reports. split; [done|]. split; [exact Hall|]. exists e. split; [|exact Hle].
    exists pem. split; [|exact He]. cbv beta in Hsame. by rewrite Hsame.
  - left. split; [|by rewrite Hsame]. constructor; [by exists st | exact Hall].
Qed.
End Turns.
End Validity.

(** ** Properties *)

(** C40: nothing ends the renewal loop, and an expired certificate takes thirty days
    of failures. The loop reports every turn; if the certificate on disk is missing
    or has expired at some moment after the last turn, then every turn of the thirty
    days before that moment has asked the authority and failed. *)
Theorem renewal_outage {W Key : Type} `{AcmeLib W Key} `{UnixSockets W} `{X509 W} `{!AuthorityLaws W Key}
    (certs_dir haproxy_socket : str) (wakes : list (W * str)) (s : acme_site W) :
  Forall (λ hw, strip hw.2 ≠ []) wakes → StronglySorted Z.le (map (clock ∘ fst) wakes) → writable certs_dir s →
  ∃ reports s', cert_renewal_loop certs_dir haproxy_socket wakes s = (Ok reports, s')
    ∧ map fst reports = map (clock ∘ fst) wakes
    ∧ ∀ now, ¬ valid_at certs_dir now s' →
        Forall (λ report, now - 30 * DAY <= report.1 → is_error report) reports.
Proof.
  intros Hh Hsort Hw. destruct (loop_ends certs_dir haproxy_socket wakes s Hh Hw) as (reports & s' & E & Ht & Hr).
  exists reports, s'. split; [exact E|]. split; [exact Ht|]. intros now Hnow. rewrite <- Ht in Hsort.
  destruct Hr as [[Hall _]|(l & t & st & l' & -> & Hl & e & He & Hle)]; [by eapply Forall_impl|].
  assert (e < now) as Hexp by (apply Z.nle_gt; intros Hge; apply Hnow; by exists e).
  apply Forall_app. split; [|constructor; [cbn; intros ?; lia | by eapply Forall_impl]].
  apply Forall_forall. intros [t' st'] Hin Ht'. cbn in Ht'. rewrite map_app in Hsort. exfalso.
  assert (t' <= t); [|lia]. eapply (StronglySorted_app_1_elem_of _ _ _ _ _ Hsort).
  - apply list_elem_of_fmap. by exists (t', st').
  - left.
Qed.
(** The names in the certificate are not looked at: while the one on disk is good
    for thirty days, the loop asks for none, whatever the public host has become. A
    host whose first request failed, or that replaces an empty one, waits until the
    old certificate is nearly over. *)
Theorem renewal_other_host {W Key : Type} `{AcmeLib W Key} `{UnixSockets W} `{X509 W} `{!AuthorityLaws W Key}
    (certs_dir haproxy_socket public_host : str) (s : acme_site W) (e : Z) :
  valid_until certs_dir s e → clock (ac_world s) + 30 * DAY <= e →
  renewal_turn certs_dir haproxy_socket public_host s = (Ok None, s).
Proof.
  intros (pem & Hp & He) Hle. unfold renewal_turn, io_try. case_bool_decide as Hh; [done|].
  rewrite io_bind_run, days_remaining, Hp, He. unfold renewal_due. rewrite bool_decide_eq_false_2 by exact Hh.
  rewrite (proj2 (Z.ltb_ge _ _)); [done|]. unfold delta_days. apply Z.div_le_lower_bound; unfold DAY in *; lia.
Qed.

(** ** Witnesses *)

#[local] Transparent u.
(** An authority that works until the hundredth day and issues one chain until then;
    the world is the clock. *)
Definition demo_x509 : X509 Z := {|
  clock w := w; not_valid_after pem := if bool_decide (pem = bl "CHAIN") then Ok (130 * DAY) else Err ValueError |}.
#[local] Existing Instance demo_x509.
Definition demo_authority : AcmeLib Z () := {|
  load_pem_private_key pem := Err ValueError; generate_private_key := mret tt; private_bytes _ := bl "account";
  new_client url key := mret tt; new_account email := mret Registered; query_registration := mret tt;
  generate_domain_key_and_csr domain := mret (bl "KEY", bl "CSR"); new_order csr := mret [];
  answer_challenge c := mret tt; start_server port := mret tt; exn_text e := [];
  poll_and_finalize := λ w, (Ok (if w <=? 100 * DAY then Finalized (bl "CHAIN") else TimedOut), w) |}.
#[local] Existing Instance demo_authority.
Definition demo_haproxy : UnixSockets Z := {| path_exists path w := false; unix_exchange path payload := io_raise OtherError |}.
#[local] Existing Instance demo_haproxy.
Lemma demo_authority_laws : AuthorityLaws Z ().
Proof.
  split; try (intros; by intros w Hw). intros w chain w'. cbn [poll_and_finalize demo_authority].
  destruct (Z.leb_spec w (100 * DAY)) as [Hw|Hw]; [|discriminate]. intros [= <- <-]. exists (130 * DAY). split; [by vm_compute|].
  cbn [clock demo_x509]. lia.
Qed.
#[local] Existing Instance demo_authority_laws.

(** Asked on day 90, not due on day 95, and nothing but failures from day 101 on:
    the certificate of day 90 is gone on day 131. *)
Definition demo_wakes : list (Z * str) := map (λ d, (d * DAY, u "rdp.corp")) [90; 95; 101; 120; 131].
Definition empty_site : acme_site Z := AcmeSite 0 ∅ [] ∅ false.

Example demo_renewal :
  map (λ r, (r.1 / DAY, cs_status <$> r.2)) (match (cert_renewal_loop (u "/certs") (u "/sock") demo_wakes empty_site).1 with Ok l => l | Err _ => [] end)
  = [(90, Some (u "success")); (95, None); (101, Some (u "error")); (120, Some (u "error")); (131, Some (u "error"))].
Proof. vm_compute. reflexivity. Qed.

Lemma renewal_outage_witness :
  ∃ reports s', cert_renewal_loop (u "/certs") (u "/sock") demo_wakes empty_site = (Ok reports, s')
    ∧ map fst reports = map (clock ∘ fst) demo_wakes
    ∧ ∀ now, ¬ valid_at (u "/certs") now s' → Forall (λ report, now - 30 * DAY <= report.1 → is_error report) reports.
Proof.
  apply (renewal_outage (u "/certs") (u "/sock") demo_wakes empty_site).
  - repeat constructor; vm_compute; discriminate.
  - repeat constructor; vm_compute; discriminate.
  - repeat constructor; apply not_elem_of_nil.
Defined.

Lemma renewal_other_host_witness :
  let s := (cert_renewal_loop (u "/certs") (u "/sock") (take 1 demo_wakes) empty_site).2 in
  renewal_turn (u "/certs") (u "/sock") (u "other.corp") s = (Ok None, s).
Proof.
  cbv zeta. apply (renewal_other_host (u "/certs") (u "/sock") (u "other.corp") _ (130 * DAY)).
  - exists (bl "CHAIN"). vm_compute. done.
  - vm_compute. discriminate.
Defined.
Close Scope Z_scope.
