(* ===== verification/Processes.v ===== *)
(** The settings in the processes that use them: the start of the portal
    ([services/portal/app.py]), of the administration ([services/admin/app.py])
    and of the relay ([services/rdp_relay/main.py]), the callbacks that
    [SettingsManager.on_change] registers, and the listeners that reload when
    the administration has saved. The processes share the database; each has its
    own manager. *)

From stdpp Require Import prelude gmap list strings.
From Stdlib Require Import ZArith Lia.
From Stdlib Require Strings.String.
From S2P Require Import Prelude PySeq PyBytes PyStr Json PyUuid Redis Sessions Encryption Plugins RelayServer Database Models Tracker Config Dns Settings Portal Accounts Certificates.

Open Scope Z_scope.

(** ** What a process keeps of the settings *)

(** The lifetimes of its [SessionStore]. A callback is handed the section as it is
    stored, so that they need not be numbers. *)
Record lifetimes : Type := Lifetimes { lt_web_ttl : json; lt_rdp_token_ttl : json; lt_web_idle_ttl : json }.

(** [SessionStore.__init__] *)
Definition configured_lifetimes (c : AppConfig) : lifetimes := {|
  lt_web_ttl := JInt (rc_web_session_ttl (c_redis c));
  lt_rdp_token_ttl := JInt (rc_rdp_token_ttl (c_redis c));
  lt_web_idle_ttl := JInt (rc_web_idle_ttl (c_redis c)) |}.
(** [store.web_ttl = ttl.get("web_session_ttl", store.web_ttl)], and so on. *)
Definition take_lifetimes (ttl : dict) (t : lifetimes) : lifetimes := {|
  lt_web_ttl := dict_get_or (u "web_session_ttl") (lt_web_ttl t) ttl;
  lt_rdp_token_ttl := dict_get_or (u "rdp_token_ttl") (lt_rdp_token_ttl t) ttl;
  lt_web_idle_ttl := dict_get_or (u "web_idle_ttl") (lt_web_idle_ttl t) ttl |}.
(** The store of [Sessions], when the lifetimes are numbers. *)
Definition session_store (key : bytes) (t : lifetimes) : option SessionStore :=
  match t with
  | Lifetimes (JInt web) (JInt token) (JInt idle) =>
      Some {| web_ttl := web; rdp_token_ttl := token; web_idle_ttl := idle; enc_key := key |}
  | _ => None
  end.

(** [DnsResolver.__init__]: with nothing cached. *)
Definition new_resolver (c : DnsConfig) : DnsResolver := {| dr_cache_ttl := dns_cache_ttl c; dr_cache := ∅ |}.

(** ** Notifications *)

(** A turn of a listener: the message, when there is one, with the clock and what
    seeding would draw. *)
Record notice : Type := Notice { nt_now : Z; nt_nonce : bytes }.

(** [_settings_listener]: the loop reloads at each message, and an exception ends
    it for good. *)
Fixpoint listen {S} (reload : Z → bytes → io S unit) (turns : list (option notice)) : io S unit :=
  match turns with
  | [] => mret tt
  | None :: turns' => listen reload turns'
  | Some n :: turns' => _ ← reload (nt_now n) (nt_nonce n); listen reload turns'
  end.
Definition settings_listener {S} (reload : Z → bytes → io S unit) (turns : list (option notice)) : io S unit :=
  io_try (listen reload turns) (λ _, mret tt).

Section Processes.
Context {D : Type} `{!Table str PortalSetting D} `{AESGCM} `{Config} `{Floats}.
Implicit Types (m : SettingsManager) (now : Z).

(** ** The portal *)

Record portal_process (DA : Type) : Type := PortalProcess {
  pp_lifetimes : lifetimes;
  pp_ldap_auth : option LdapConfig;
  pp_admins : DA;
}.
#[local] Arguments PortalProcess {DA}. #[local] Arguments pp_lifetimes {DA}.
#[local] Arguments pp_ldap_auth {DA}. #[local] Arguments pp_admins {DA}.

Section PortalProcess.
Context {DA : Type} `{!Table uuid AdminUser DA} `{PasswordHasher}.
Abbreviation state := (settings D * portal_process DA)%type.

(** [create_app], before the settings are read. *)
Definition create_portal m (admins : DA) : portal_process DA :=
  PortalProcess (configured_lifetimes (sm_base m)) (c_ldap (sm_base m)) admins.

(** [_on_ldap_change], [_on_redis_ttl_change] *)
Definition portal_on_ldap_change m (_data : dict) : io state unit :=
  io_modify (λ p, (p.1, PortalProcess (pp_lifetimes p.2) (ldap m p.1) (pp_admins p.2))).
Definition portal_on_redis_ttl_change (data : dict) : io state unit :=
  io_modify (λ p, (p.1, PortalProcess (take_lifetimes data (pp_lifetimes p.2)) (pp_ldap_auth p.2) (pp_admins p.2))).
Definition portal_hooks m : str → list (dict → io state unit) :=
  on_change (u "redis_ttl") portal_on_redis_ttl_change (on_change (u "ldap") (portal_on_ldap_change m) no_hooks).

(** What [_bootstrap] and [_settings_listener] do with the settings. *)
Definition portal_reload m now (nonce : bytes) : io state unit :=
  _ ← on_settings (load m now nonce);
  _ ← portal_on_ldap_change m [];
  p ← io_get;
  portal_on_redis_ttl_change (int_items (redis_ttl m p.1)).
(** [_bootstrap] *)
Definition portal_bootstrap m now (nonce : bytes) (new_id : uuid) (salt : bytes) : io state unit :=
  _ ← portal_reload m now nonce;
  io_zoom (λ p, pp_admins p.2) (λ d p, (p.1, PortalProcess (pp_lifetimes p.2) (pp_ldap_auth p.2) d))
    (bootstrap_default_admin new_id salt).
Definition portal_listener m (turns : list (option notice)) : io state unit := settings_listener (portal_reload m) turns.
End PortalProcess.

(** ** The relay *)

Record relay_service : Type := RelayService { rs_process : relay_process; rs_dns : DnsResolver }.
Abbreviation relay_state := (settings D * relay_service)%type.

Definition param (k : str) (l : list (str * Z)) : option Z := snd <$> List.find (λ kv, bool_decide (kv.1 = k)) l.
Definition relay_settings_of m (s : settings D) : relay_settings := {|
  set_web_session_ttl := param (u "web_session_ttl") (redis_ttl m s);
  set_rdp_token_ttl := param (u "rdp_token_ttl") (redis_ttl m s);
  set_web_idle_ttl := param (u "web_idle_ttl") (redis_ttl m s);
  set_idle_timeout := param (u "idle_timeout") (relay_params m s);
  set_max_session_duration := param (u "max_session_duration") (relay_params m s);
  set_max_connections := param (u "max_connections") (relay_params m s) |}.

(** One message in [_settings_listener]. *)
Definition relay_reload m now (nonce : bytes) : io relay_state unit :=
  _ ← on_settings (load m now nonce);
  p ← io_get;
  io_modify (λ p, (p.1, RelayService (settings_message (relay_settings_of m p.1) (rs_process p.2)) (new_resolver (dns m p.1)))).
Definition relay_listener m (turns : list (option notice)) : io relay_state unit := settings_listener (relay_reload m) turns.

(** [run_server], up to the listening socket. *)
Definition run_server {R DS DH DE} `{Redis R} `{!Table uuid RdpServer DS} `{!Table uuid ConnectionHistory DH} `{!Log ConnectionEvent DE}
    m (tk : ConnectionTracker) (key : bytes) now (nonce : bytes) : io (settings D * tracking R DS DH DE) relay_service :=
  let c := sm_base m in
  let st := {| web_ttl := rc_web_session_ttl (c_redis c); rdp_token_ttl := rc_rdp_token_ttl (c_redis c);
               web_idle_ttl := rc_web_idle_ttl (c_redis c); enc_key := key |} in
  _ ← on_settings (load m now nonce);
  p ← io_get;
  _ ← io_zoom snd (λ t p, (p.1, t)) (reconcile_stale_active_on_startup tk now);
  let s := relay_settings_of m p.1 in
  let monitor := monitor_init (default (rl_idle_timeout (c_rdp_relay c)) (set_idle_timeout s))
                   (default (rl_max_session_duration (c_rdp_relay c)) (set_max_session_duration s)) in
  adm ← io_lift (admission_init (default (rl_max_connections (c_rdp_relay c)) (set_max_connections s)));
  mret (RelayService (RelayProcess (update_store s st) monitor adm) (new_resolver (dns m p.1))).

(** ** The administration *)

Record admin_process : Type := AdminProcess {
  ap_lifetimes : lifetimes;
  ap_ldap_auth : option LdapConfig;
  ap_portal_name : option json;
  ap_address : public_address;
}.
Abbreviation admin_state := (settings D * admin_process)%type.

(** [create_app], before the settings are read; [env]: the [.env] file, and
    whether it can be written. *)
Definition create_admin m (env : option str) (writable : bool) : admin_process :=
  AdminProcess (configured_lifetimes (sm_base m)) (c_ldap (sm_base m)) None (PublicAddress [] JNull [] env writable).

Definition admin_on_ldap_change m (_data : dict) : io admin_state unit :=
  io_modify (λ p, (p.1, AdminProcess (ap_lifetimes p.2) (ldap m p.1) (ap_portal_name p.2) (ap_address p.2))).
Definition admin_on_redis_ttl_change (data : dict) : io admin_state unit :=
  io_modify (λ p, (p.1, AdminProcess (take_lifetimes data (ap_lifetimes p.2)) (ap_ldap_auth p.2) (ap_portal_name p.2) (ap_address p.2))).
Definition set_portal_name (name : option json) : io admin_state unit :=
  io_modify (λ p, (p.1, AdminProcess (ap_lifetimes p.2) (ap_ldap_auth p.2) name (ap_address p.2))).
Definition admin_on_portal_change (_data : dict) : io admin_state unit := set_portal_name None.
Definition on_address {X} (x : io public_address X) : io admin_state X :=
  io_zoom (λ p, ap_address p.2) (λ a p, (p.1, AdminProcess (ap_lifetimes p.2) (ap_ldap_auth p.2) (ap_portal_name p.2) a)) x.
Definition admin_on_proxy_change (data : dict) : io admin_state unit := on_address (on_proxy_change data).
Definition admin_hooks m : str → list (dict → io admin_state unit) :=
  on_change (u "proxy") admin_on_proxy_change (on_change (u "portal") admin_on_portal_change
    (on_change (u "redis_ttl") admin_on_redis_ttl_change (on_change (u "ldap") (admin_on_ldap_change m) no_hooks))).

(** The host and the port the settings have: the port is kept before it is made a
    number, which may raise. *)
Definition note_public (proxy : dict) : io public_address unit :=
  host ← io_lift (new_host proxy);
  _ ← io_modify (λ s, PublicAddress host (pa_prev_port s) (pa_requests s) (pa_env s) (pa_writable s));
  _ ← note_port (new_port proxy);
  match new_port proxy with
  | JNull => mret tt
  | v => port ← io_lift (port_int v); _ ← note_port (JInt port); mret tt
  end.

(** [_reapply_portal_settings] *)
Definition reapply_portal_settings m now (nonce : bytes) : io admin_state unit :=
  _ ← on_settings (load m now nonce);
  _ ← admin_on_ldap_change m [];
  p ← io_get;
  _ ← admin_on_redis_ttl_change (int_items (redis_ttl m p.1));
  _ ← set_portal_name None;
  p ← io_get;
  on_address (note_public (proxy_params m p.1)).

(** [_load_settings], at startup: without a directory in the settings the one of
    the configuration stays. *)
Definition load_settings m now (nonce : bytes) : io admin_state unit :=
  _ ← on_settings (load m now nonce);
  p ← io_get;
  _ ← (if ldap m p.1 is Some _ then admin_on_ldap_change m [] else mret tt);
  _ ← admin_on_redis_ttl_change (int_items (redis_ttl m p.1));
  on_address (note_public (proxy_params m p.1)).

(** [_load_portal_name] *)
Definition load_portal_name m now (nonce : bytes) : io admin_state json :=
  p ← io_get;
  match ap_portal_name p.2 with
  | Some cached => mret cached
  | None =>
      portal ← on_settings (get m now nonce (u "portal"));
      _ ← set_portal_name (Some (shown_name portal));
      mret (shown_name portal)
  end.

(** [PUT /api/admin/settings] in this process. *)
Definition admin_put_settings m now (nonce : bytes) (values : dict) : io admin_state unit :=
  put_settings (admin_hooks m) m now nonce values (reapply_portal_settings m now nonce).
End Processes.
Arguments PortalProcess {DA}. Arguments pp_lifetimes {DA}. Arguments pp_ldap_auth {DA}. Arguments pp_admins {DA}.

(** ** Lemmas *)

#[local] Opaque u.

Lemma dict_get_merge_other a b k : k ∉ b.*1 → dict_get k (dict_merge a b) = dict_get k a.
Proof.
  unfold dict_merge. revert a. induction b as [|[k0 v0] b IH]; intros a Hk; [done|].
  apply not_elem_of_cons in Hk as [Hne Hk]. cbn [foldl fst snd]. by rewrite IH, dict_get_set_ne.
Qed.

Section Rows.
Context {D : Type} `{!Table str PortalSetting D} `{!TableLaws str PortalSetting D} `{AESGCM} `{Config} `{Floats}.
Implicit Types (m : SettingsManager) (now : Z) (s : settings D).

(** An item of a stored section, and of a section in the cache. *)
Definition row_item (key k : str) (v : json) s : Prop :=
  ∃ r d, rows (se_db s) !! key = Some r ∧ ps_value r = JObj d ∧ dict_get k d = Some v.
Definition cache_item (key k : str) (v : json) s : Prop :=
  ∃ c, se_cache s !! key = Some c ∧ dict_get k c = Some v.


Lemma fix_proxy_item c key k v d :
  c !! key = Some d → dict_get k d = Some v → (key = u "proxy" → k ≠ u "listen_port") →
  ∃ d', fix_proxy c !! key = Some d' ∧ dict_get k d' = Some v.
Proof.
  intros Hc Hd Hne. unfold fix_proxy. destruct (decide (key = u "proxy")) as [->|Hk].
  - rewrite Hc. destruct (_ && _); [|eauto]. rewrite lookup_insert_eq. eexists. split; [reflexivity|].
    rewrite dict_get_pop_ne; [exact Hd | exact (Hne eq_refl)].
  - destruct (c !! u "proxy"); [|eauto]. destruct (_ && _); [|eauto]. rewrite lookup_insert_ne by done. eauto.
Qed.

(** An item that is stored is loaded, and neither loading nor seeding changes it. *)
Definition item key k v s : Prop := tabled s ∧ row_item key k v s ∧ cache_item key k v s.

Lemma missing_lacks src cached k v : dict_get k cached = Some v → k ∉ (dict_missing src cached).*1.
Proof. intros Hk [_ Hn]%elem_dict_missing. apply Hn, dict_get_has. eauto. Qed.

Lemma on_table_row (x : io D unit) v key key' k v' s :
  (x (se_db s)).1 = Ok tt →
  (∀ d', (x (se_db s)).2 = d' → keyed (rows d') ∧ (key' ≠ key → rows d' !! key = rows (se_db s) !! key)
     ∧ (key' = key → dict_get k v = Some v' ∧ ∃ r, rows d' !! key = Some r ∧ ps_value r = JObj v)) →
  item key k v' s → item key k v' ((_ ← on_table x; set_cache key' v) s).2.
Proof.
  intros Hx Hrow (Hk & (r & d & Hr & Hd & Hv) & (c & Hc & Hcv)). rewrite io_bind_run. unfold on_table, io_zoom, io_transaction.
  destruct (x (se_db s)) as [o d'] eqn:E. cbn [fst snd] in Hx, Hrow. subst o.
  destruct (Hrow d' eq_refl) as (Hk' & Hother & Hsame). unfold set_cache, io_modify. cbn [snd].
  split; [exact Hk'|]. unfold row_item, cache_item. cbn [se_db se_cache with_cache with_db].
  destruct (decide (key' = key)) as [->|Hne].
  - destruct (Hsame eq_refl) as (Hv' & r' & Hr' & Hd'). split; [by exists r', v|]. exists v. by rewrite lookup_insert_eq.
  - rewrite Hother by done. split; [by exists r, d|]. exists c. by rewrite lookup_insert_ne.
Qed.

(** A statement that raises leaves all as it was. *)
Lemma on_table_raise {X} (x : io D X) (k : X → io (settings D) unit) e s : x (se_db s) = (Err e, se_db s) → ((a ← on_table x; k a) s).2 = s.
Proof. intros E. rewrite io_bind_run. unfold on_table, io_zoom, io_transaction. rewrite E. by destruct s. Qed.

Lemma seed_key_item m nonce key' key k v : keeps (item key k v) (seed_key m nonce key').
Proof.
  unfold seed_key. destruct (get_fallback (sm_base m) key') as [fallback|]; [|apply keeps_ret].
  apply keeps_if; [apply keeps_ret|]. apply keeps_get. intros s Hs. pose proof Hs as (Hk & (r & d & Hr & Hd & Hv) & (c & Hc & Hcv)).
  destruct (se_cache s !! key') as [cached|] eqn:Ec.
  - set (missing := dict_missing _ cached). destruct (bool_decide (missing = [])); [exact Hs|].
    unfold io_try. destruct (db_get key' (se_db s)) as [row|] eqn:Er; [|exact Hs]. rewrite get_law in Er.
    destruct (ps_value row) as [| | | | | |d'] eqn:Ed'; try exact Hs.
    set (patched := dict_merge d' missing). set (q := _ ≫= _).
    enough (item key k v (q s).2) as Hq by (destruct (q s) as [[a|e] s']; exact Hq). subst q.
    destruct (set_value_cases key' (JObj patched) (se_db s) Hk) as [(d2 & E & Hd2)|[_ E]]; [|by erewrite on_table_raise].
    apply on_table_row; [by rewrite E | | exact Hs]. rewrite E. cbn [snd]. intros ? <-. rewrite Hd2. split; [|split].
    + intros k0 r0. rewrite lookup_alter_Some. intros [(-> & r1 & Hr1 & ->)|[_ Hr1]]; [by apply (Hk _ r1) | by apply Hk].
    + intros Hne. by rewrite lookup_alter_ne.
    + intros ->. rewrite lookup_alter_eq, Hr. split; [|by eexists].
      rewrite Hr in Er. injection Er as <-. rewrite Hd in Ed'. injection Ed' as <-. rewrite Hc in Ec. injection Ec as <-.
      subst patched. rewrite dict_get_merge_other; [exact Hv | by eapply missing_lacks].
  - rewrite io_bind_run. unfold io_lift. destruct (seal m nonce key' fallback) as [sv|e]; [|exact Hs].
    unfold io_try. destruct (db_get key' (se_db s)) as [row|] eqn:Er; [exact Hs|]. rewrite get_law in Er.
    set (q := _ ≫= _). enough (item key k v (q s).2) as Hq by (destruct (q s) as [[a|e] s']; exact Hq). subst q.
    destruct (insert_cases {| ps_key := key'; ps_value := JObj sv |} (se_db s)) as [(d2 & E & Hd2 & _)|[e E]]; [|by erewrite on_table_raise].
    apply on_table_row; [by rewrite E | | exact Hs]. rewrite E. cbn [snd]. intros ? <-. rewrite Hd2. split; [exact (keyed_insert _ _ Hk)|].
    assert (key' ≠ key) as Hne by (intros ->; congruence). split; [|done]. intros _. by apply lookup_insert_ne.
Qed.

Lemma seed_item m nonce keys key k v : keeps (item key k v) (seed_from_yaml m nonce keys).
Proof. induction keys as [|k' ks IH]; [apply keeps_ret|]. apply keeps_bind; [apply seed_key_item | by intros _]. Qed.

(** Whether or not loading raises, the item is in the cache then. *)
Lemma load_item m now nonce key k v s :
  (key = u "proxy" → k ≠ u "listen_port") → tabled s → row_item key k v s → item key k v (load m now nonce s).2.
Proof.
  intros Hne Hk Hrow. unfold load. rewrite io_bind_run. unfold io_get. rewrite io_bind_run. unfold io_modify at 1.
  set (s1 := Settings _ _ _ _ _). assert (item key k v s1) as Hs1.
  { split; [exact Hk|]. split; [exact Hrow|]. destruct Hrow as (r & d & Hr & Hd & Hv).
    apply (fix_proxy_item _ key k v d); [by eapply fresh_section | exact Hv | exact Hne]. }
  revert Hs1. destruct (se_seeded s); [done|]. apply keeps_bind; [apply seed_item|].
  intros _. apply keeps_modify. intros s' Hs'. exact Hs'.
Qed.

Lemma load_again m now nonce s :
  se_seeded s = true → load m now nonce s
  = (Ok tt, Settings (se_db s) (fix_proxy (fresh_cache (db_select (K := str) (λ _, true) (se_db s)))) now true (se_published s)).
Proof. intros Hs. unfold load. rewrite io_bind_run. unfold io_get. rewrite io_bind_run. unfold io_modify at 1. by rewrite Hs. Qed.
End Rows.

Section Reach.
Context {D : Type} `{!Table str PortalSetting D} `{!TableLaws str PortalSetting D} `{AESGCM} `{Config} `{Floats}.
Implicit Types (m : SettingsManager) (now : Z) (s : settings D).

(** The callbacks of the administration leave the settings alone. *)
Lemma admin_hooks_untouched m : untouched_by (D := D) (admin_hooks m).
Proof.
  unfold admin_hooks. repeat apply untouched_on_change; [intros d p; try reflexivity.. | apply untouched_no_hooks].
  unfold admin_on_proxy_change, on_address, io_zoom. by destruct (on_proxy_change d (ap_address p.2)).
Qed.

(** Anything true of the settings that the manager keeps, the whole request keeps. *)
Lemma put_sections_keeps {A} (hooks : str → list (dict → io (settings D * A) unit)) (I : settings D → Prop) m now nonce values :
  untouched_by hooks → (∀ key, keeps I (get m now nonce key)) →
  Forall (λ kv, ∀ v, keeps I (save_section m now nonce (strip kv.1) v)) values →
  (∀ key, keeps I (note_published key)) → keeps (λ p, I p.1) (put_sections hooks m now nonce values).
Proof.
  intros Hq Hg Hs Hn. induction Hs as [|[k v] rest Hs _ IH]; cbn [put_sections]; [apply keeps_ret|]. cbn [fst] in Hs.
  apply keeps_if; [exact IH|]. apply keeps_if; [apply keeps_raise|]. apply keeps_bind; [|by intros _].
  assert (∀ {X} (x : io (settings D) X), keeps I x → keeps (λ p, I p.1) (on_settings (A := A) x)) as Hz.
  { intros X x Hx. by apply (zoom_keeps fst (λ s p, (s, p.2)) x I). }
  unfold save. apply keeps_bind; [by apply Hz|]. intros _. apply keeps_bind; [|intros _; by apply Hz].
  unfold run_hooks_of. apply keeps_bind; [by apply Hz|]. intros data p Hp.
  destruct (run_callbacks_quiet (hooks (strip k)) data p (Hq _)) as [a ->]. exact Hp.
Qed.

Lemma put_sections_app {A} (hooks : str → list (dict → io (settings D * A) unit)) m now nonce l1 l2 p :
  put_sections hooks m now nonce (l1 ++ l2) p = (_ ← put_sections hooks m now nonce l1; put_sections hooks m now nonce l2) p.
Proof.
  revert p. induction l1 as [|[k v] l1 IH]; intros p; [done|]. cbn [app put_sections].
  destruct (bool_decide _); [apply IH|]. destruct (negb _ && negb _); [done|].
  rewrite !io_bind_run. destruct (save _ _ _ _ _ _ _ p) as [[[]|e] p']; [apply IH | done].
Qed.

(** *** Loading is all that seeding leaves to do *)

Definition seeded s : Prop := se_seeded s = true.
Lemma seeded_modify (f : settings D → settings D) : (∀ s, se_seeded (f s) = se_seeded s) → keeps seeded (io_modify f).
Proof. intros Hf s Hs. unfold io_modify, seeded. cbn [snd]. by rewrite Hf. Qed.
Lemma seeded_on_table {X} (x : io D X) : keeps seeded (on_table x).
Proof. intros s Hs. unfold on_table, io_zoom. by destruct (io_transaction x (se_db s)). Qed.
Lemma seeded_load m now nonce : keeps seeded (load m now nonce).
Proof. intros s Hs. by rewrite load_again. Qed.
Lemma seeded_get m now nonce key : keeps seeded (get m now nonce key).
Proof.
  unfold get. apply keeps_get. intros s Hs. revert Hs. apply keeps_bind; [apply keeps_if; [apply seeded_load | apply keeps_ret]|].
  intros _. apply keeps_get. intros s' Hs'. destruct (se_cache s' !! key); [|done]. revert Hs'.
  apply keeps_if; [|apply keeps_ret]. apply keeps_bind; [apply keeps_lift|]. intros. apply keeps_ret.
Qed.
Lemma seeded_save m now nonce key v : keeps seeded (save_section m now nonce key v).
Proof.
  unfold save_section. apply keeps_bind; [apply keeps_lift|]. intros x. apply keeps_get. intros s Hs. revert Hs.
  apply keeps_bind; [apply seeded_on_table|]. intros _. apply keeps_bind; [by apply seeded_modify|]. intros _. by apply seeded_modify.
Qed.

Lemma put_sections_seeded {A} (hooks : str → list (dict → io (settings D * A) unit)) m now nonce values :
  untouched_by hooks → keeps (λ p, sealed p.1 ∧ seeded p.1) (put_sections hooks m now nonce values).
Proof.
  intros Hq. apply (put_sections_keeps hooks (λ s, sealed s ∧ seeded s)); [exact Hq| | |].
  - intros key s [Ha Hb]. split; [by apply get_sealed | by apply seeded_get].
  - apply Forall_true. intros kv v s [Ha Hb]. split; [by apply save_section_sealed | by apply seeded_save].
  - intros key s Hs. exact Hs.
Qed.

(** The row of a section stays as it is while others are saved. *)
Definition row_kept (key : str) (r : option PortalSetting) s : Prop :=
  sealed s ∧ seeded s ∧ rows (se_db s) !! key = r.

Definition table_at (d : D) s : Prop := seeded s ∧ se_db s = d.
Lemma load_rows m now nonce d : keeps (table_at d) (load m now nonce).
Proof. intros s [Hs Hd]. rewrite load_again by done. by split. Qed.

Lemma get_rows m now nonce key d : keeps (table_at d) (get m now nonce key).
Proof.
  unfold get. apply keeps_get. intros s Hs. revert Hs.
  apply (keeps_bind (table_at d)); [apply keeps_if; [apply load_rows | apply keeps_ret]|].
  intros _. apply keeps_get. intros s' Hs'. destruct (se_cache s' !! key); [|done]. revert Hs'.
  apply (keeps_if (table_at d)); [|apply keeps_ret]. apply keeps_bind; [apply keeps_lift|]. intros. apply keeps_ret.
Qed.

Lemma save_section_other key key' sv s :
  sealed s → key' ≠ key →
  let row := db_get key' (se_db s) in
  rows (se_db (on_table (match row with
    | None => db_insert (K := str) {| ps_key := key'; ps_value := JObj (stored_value key' sv None) |}
    | Some r => set_value key' (JObj (stored_value key' sv (Some r)))
    end) s).2) !! key = rows (se_db s) !! key.
Proof.
  intros (Hk & _) Hne. cbv zeta. unfold on_table, io_zoom, io_transaction. destruct (db_get key' (se_db s)) as [row|].
  - destruct (set_value_cases key' (JObj (stored_value key' sv (Some row))) (se_db s) Hk) as [(d' & -> & Hd')|[_ ->]]; [|done].
    cbn [snd se_db with_db]. by rewrite Hd', lookup_alter_ne.
  - destruct (insert_cases {| ps_key := key'; ps_value := JObj (stored_value key' sv None) |} (se_db s))
      as [(d' & -> & Hd' & _)|[e ->]]; [|done]. cbn [snd se_db with_db]. by rewrite Hd', lookup_insert_ne.
Qed.

Lemma save_section_row m now nonce key key' v r :
  key' ≠ key → keeps (row_kept key r) (save_section m now nonce key' v).
Proof.
  intros Hne s (Hs & Hse & Hr). split; [by apply save_section_sealed|]. split; [by apply seeded_save|].
  unfold save_section. rewrite io_bind_run. unfold io_lift. destruct (seal m nonce key' v) as [sv|e]; [|exact Hr].
  rewrite io_bind_run. unfold io_get.
  pose proof (save_section_other key key' sv s Hs Hne) as Hx. cbv zeta in Hx.
  rewrite io_bind_run. destruct (on_table _ s) as [[[]|e] s1]; cbn [snd] in Hx; rewrite Hr in Hx; exact Hx.
Qed.

Lemma put_sections_row m now nonce key values r :
  Forall (λ kv, strip kv.1 ≠ key) values →
  keeps (λ p : settings D * admin_process, row_kept key r p.1) (put_sections (admin_hooks m) m now nonce values).
Proof.
  intros Hv. apply (put_sections_keeps _ (row_kept key r)); [apply admin_hooks_untouched| | |].
  - intros key' s (Hs & Hse & Hr). split; [by apply get_sealed|].
    destruct (get_rows m now nonce key' (se_db s) s (conj Hse eq_refl)) as [Hse' Hd]. split; [exact Hse' | by rewrite Hd].
  - eapply Forall_impl; [exact Hv|]. intros kv Hne v. by apply save_section_row.
  - intros key' s Hs. exact Hs.
Qed.

(** *** The lifetimes in force *)

Lemma dict_get_int_items k l : dict_get k (int_items l) = JInt <$> param k l.
Proof. induction l as [|[k0 n] l IH]; [done|]. unfold param, int_items in *. cbn [map dict_get List.find fst snd]. by repeat case_bool_decide. Qed.

Lemma param_int_params k defaults raw :
  param k (int_params defaults raw) = (λ n, default n (d ← raw; dict_get k d ≫= number_int)) <$> param k defaults.
Proof.
  destruct raw as [raw|]; cbn [int_params]; [|by destruct (param k defaults)].
  induction defaults as [|[k0 n] l IH]; [done|]. unfold param in *. cbn [map List.find fst snd]. case_bool_decide; [by subst | exact IH].
Qed.

(** The lifetimes the settings ask for. *)
Definition asked_lifetimes m s : lifetimes := take_lifetimes (int_items (redis_ttl m s)) (configured_lifetimes (sm_base m)).

Definition LIFETIMES : list str := [u "web_session_ttl"; u "rdp_token_ttl"; u "web_idle_ttl"].
Definition lifetime (name : str) (t : lifetimes) : option json :=
  if bool_decide (name = u "web_session_ttl") then Some (lt_web_ttl t)
  else if bool_decide (name = u "rdp_token_ttl") then Some (lt_rdp_token_ttl t)
  else if bool_decide (name = u "web_idle_ttl") then Some (lt_web_idle_ttl t)
  else None.

Lemma redis_fallback_params (c : AppConfig) :
  param (u "web_session_ttl") (redis_fallback c) = Some (rc_web_session_ttl (c_redis c))
  ∧ param (u "rdp_token_ttl") (redis_fallback c) = Some (rc_rdp_token_ttl (c_redis c))
  ∧ param (u "web_idle_ttl") (redis_fallback c) = Some (rc_web_idle_ttl (c_redis c)).
Proof. vm_compute. auto. Qed.

Lemma asked_run m s t : take_lifetimes (int_items (redis_ttl m s)) t = asked_lifetimes m s.
Proof.
  unfold asked_lifetimes, take_lifetimes, dict_get_or, redis_ttl. rewrite !dict_get_int_items, !param_int_params.
  destruct (redis_fallback_params (sm_base m)) as (E1 & E2 & E3). by rewrite E1, E2, E3.
Qed.

Lemma asked_store m s key st :
  enc_key st = key → session_store key (asked_lifetimes m s) = Some (update_store (relay_settings_of m s) st).
Proof.
  intros <-. unfold asked_lifetimes, take_lifetimes, update_store, relay_settings_of, dict_get_or, redis_ttl.
  cbn [set_web_session_ttl set_rdp_token_ttl set_web_idle_ttl]. rewrite !dict_get_int_items, !param_int_params.
  destruct (redis_fallback_params (sm_base m)) as (E1 & E2 & E3). by rewrite E1, E2, E3.
Qed.

Lemma asked_item m s name n :
  name ∈ LIFETIMES → cache_item (u "redis_ttl") name (JInt n) s → lifetime name (asked_lifetimes m s) = Some (JInt n).
Proof.
  intros Hin (c & Hc & Hn).
  assert (param name (redis_fallback (sm_base m)) ≠ None) as Hp.
  { destruct (redis_fallback_params (sm_base m)) as (E1 & E2 & E3). unfold LIFETIMES in Hin.
    rewrite !elem_of_cons in Hin. destruct Hin as [->|[->|[->|[]%elem_of_nil]]]; rewrite ?E1, ?E2, ?E3; discriminate. }
  assert (dict_get name (int_items (redis_ttl m s)) = Some (JInt n)) as E.
  { unfold redis_ttl. rewrite dict_get_int_items, param_int_params, Hc. cbn [mbind option_bind]. rewrite Hn.
    by destruct (param name _). }
  unfold lifetime, asked_lifetimes, take_lifetimes, dict_get_or. cbn [lt_web_ttl lt_rdp_token_ttl lt_web_idle_ttl].
  destruct (bool_decide (name = u "web_session_ttl")) eqn:B1; [apply bool_decide_eq_true in B1; rewrite B1 in E; by rewrite E|].
  destruct (bool_decide (name = u "rdp_token_ttl")) eqn:B2; [apply bool_decide_eq_true in B2; rewrite B2 in E; by rewrite E|].
  destruct (bool_decide (name = u "web_idle_ttl")) eqn:B3; [apply bool_decide_eq_true in B3; rewrite B3 in E; by rewrite E|].
  exfalso. apply bool_decide_eq_false in B1, B2, B3. unfold LIFETIMES in Hin. rewrite !elem_of_cons in Hin.
  destruct Hin as [E1|[E1|[E1|E1%elem_of_nil]]]; [exact (B1 E1) | exact (B2 E1) | exact (B3 E1) | exact E1].
Qed.

(** *** Reloading *)

Definition loaded now s : settings D :=
  Settings (se_db s) (fix_proxy (fresh_cache (db_select (K := str) (λ _, true) (se_db s)))) now true (se_published s).

(** What depends on nothing but the table. *)
Lemma loaded_views m now now' s s' :
  se_db s = se_db s' → redis_ttl m (loaded now s) = redis_ttl m (loaded now' s') ∧ ldap m (loaded now s) = ldap m (loaded now' s').
Proof. intros E. unfold redis_ttl, ldap, loaded. cbn [se_cache]. by rewrite E. Qed.

Lemma reapply_run m now nonce s (a : admin_process) :
  seeded s → ∃ a', (reapply_portal_settings m now nonce (s, a)).2 = (loaded now s, a')
    ∧ ap_lifetimes a' = asked_lifetimes m (loaded now s) ∧ ap_ldap_auth a' = ldap m (loaded now s)
    ∧ ap_portal_name a' = None.
Proof.
  intros Hs. unfold reapply_portal_settings. rewrite io_bind_run, (on_settings_run _ s a _ _ (load_again m now nonce s Hs)).
  fold (loaded now s). rewrite io_bind_run. unfold admin_on_ldap_change, io_modify at 1. rewrite io_bind_run. unfold io_get at 1.
  rewrite io_bind_run. unfold admin_on_redis_ttl_change, io_modify at 1. rewrite io_bind_run. unfold set_portal_name, io_modify at 1.
  rewrite io_bind_run. unfold io_get at 1. cbn [fst snd ap_lifetimes ap_ldap_auth ap_portal_name ap_address].
  unfold on_address, io_zoom. destruct (note_public _ _) as [r x]. cbn [snd fst]. eexists. split; [reflexivity|].
  cbn [ap_lifetimes ap_ldap_auth ap_portal_name]. rewrite asked_run. auto.
Qed.

(** *** Saving *)

(** A section other than the directory's is always saved, whatever the callbacks do. *)
Lemma save_run {A} (hooks : str → list (dict → io (settings D * A) unit)) m now nonce key value s a :
  untouched_by hooks → tabled s → key ≠ u "ldap" → text_fits 128 key = true →
  ∃ s' a', save hooks m now nonce key value true (s, a) = (Ok tt, (s', a'))
    ∧ tabled s' ∧ se_seeded s' = se_seeded s
    ∧ ∃ r, rows (se_db s') !! key = Some r ∧ ps_value r = JObj (stored_value key value (rows (se_db s) !! key)).
Proof.
  intros Hq Hk Hne Hf. pose proof (bool_decide_eq_false_2 _ Hne) as Hb.
  destruct (save_section_run m now nonce key value value s Hk) as (s1 & E & Hk1 & Hs1 & Hl & Hraw & Hrow).
  { unfold seal. by rewrite Hb. }
  { exact Hf. }
  set (raw := drop_listen_port _ _ _) in Hraw. assert (get m now nonce key s1 = (Ok raw, s1)) as Eg.
  { unfold get. rewrite io_bind_run. unfold io_get at 1. rewrite Hl, Z.sub_diag. change (SETTINGS_TTL <? 0) with false.
    rewrite io_bind_run. unfold mret at 1, io_ret at 1. rewrite io_bind_run. unfold io_get. rewrite Hraw.
    unfold andb. by rewrite Hb. }
  destruct (run_callbacks_quiet (hooks key) raw (s1, a) (Hq _)) as [a' Ea].
  eexists (Settings (se_db s1) (se_cache s1) (se_loaded_at s1) (se_seeded s1) (se_published s1 ++ [key])), a'.
  split; [|split; [exact Hk1 | split; [exact Hs1 | exact Hrow]]].
  unfold save. rewrite io_bind_run, (on_settings_run _ s a _ _ E). rewrite io_bind_run.
  unfold run_hooks_of. rewrite io_bind_run, (on_settings_run _ s1 a _ _ Eg), Ea. reflexivity.
Qed.

Definition section_name (key : str) : bool :=
  bool_decide (strip key = key) && negb (bool_decide (key = [])) && bool_decide (key ∈ MERGE_KEYS)
  && negb (bool_decide (key = u "ldap")) && text_fits 128 key.

Lemma put_section_run {A} (hooks : str → list (dict → io (settings D * A) unit)) m now nonce key section s a :
  untouched_by hooks → tabled s → section_name key = true →
  ∃ s' a', put_sections hooks m now nonce [(key, JObj section)] (s, a) = (Ok tt, (s', a'))
    ∧ tabled s' ∧ se_seeded s' = se_seeded s
    ∧ ∃ r, rows (se_db s') !! key = Some r ∧ ps_value r = JObj (stored_value key (clean_dict section) (rows (se_db s) !! key)).
Proof.
  intros Hq Hk Hn. unfold section_name in Hn. apply andb_true_iff in Hn as [Hn Hf]. apply andb_true_iff in Hn as [Hn Hl].
  apply andb_true_iff in Hn as [Hn Hin]. apply andb_true_iff in Hn as [Hst He]. apply bool_decide_eq_true in Hst.
  apply negb_true_iff in He, Hl. apply bool_decide_eq_false in Hl.
  destruct (save_run hooks m now nonce key (clean_dict section) s a Hq Hk Hl Hf) as (s' & a' & E & Hrest).
  exists s', a'. split; [|exact Hrest]. cbn [put_sections]. rewrite Hst, He, Hin. cbn [negb andb]. by rewrite io_bind_run, E.
Qed.

(** What a section keeps of the values that are put. *)
Lemma dict_get_clean k v d :
  dict_get k d = Some v → match v with JNull => false | JStr s => negb (bool_decide (strip s = [])) | _ => true end = true →
  dict_get k (clean_dict d) = Some v.
Proof.
  intros Hd Hv. induction d as [|[k0 v0] d IH]; [done|]. unfold clean_dict in *. cbn [dict_get List.filter snd] in *.
  case_bool_decide as E.
  - injection Hd as ->. rewrite Hv. cbn [dict_get]. by rewrite bool_decide_eq_true_2.
  - destruct (match v0 with JNull => _ | _ => _ end); [|by apply IH]. cbn [dict_get]. rewrite bool_decide_eq_false_2 by done. by apply IH.
Qed.
Lemma dict_get_here k v d : dict_get k ((k, v) :: d) = Some v.
Proof. cbn [dict_get]. by rewrite bool_decide_eq_true_2. Qed.
Lemma stored_item key k v section row :
  dict_get k section = Some v → NoDup section.*1 → (key = u "proxy" → k ≠ u "listen_port") →
  dict_get k (stored_value key section row) = Some v.
Proof.
  intros Hv Hn Hne. assert (∀ d, dict_get k d = Some v → dict_get k (drop_listen_port key section d) = Some v) as Hdrop.
  { intros d Hd. unfold drop_listen_port. destruct (bool_decide (key = u "proxy")) eqn:Hk; [|exact Hd].
    apply bool_decide_eq_true in Hk. cbn [andb]. destruct (dict_has _ section); [|exact Hd].
    rewrite dict_get_pop_ne; [exact Hd | exact (Hne Hk)]. }
  unfold stored_value. destruct row as [r|]; [|by apply Hdrop].
  destruct (ps_value r); try exact Hv. apply Hdrop. by rewrite dict_get_merge, Hv.
Qed.

(** A request leaves the items of a section in the table, unless it names the
    section again. *)
Lemma put_item m now nonce before key section after k v s (a : admin_process) p' :
  sealed s → seeded s → section_name key = true → NoDup section.*1 → (key = u "proxy" → k ≠ u "listen_port") →
  dict_get k section = Some v →
  match v with JNull => false | JStr s => negb (bool_decide (strip s = [])) | _ => true end = true →
  Forall (λ kv, strip kv.1 ≠ key) after →
  admin_put_settings m now nonce (before ++ (key, JObj section) :: after) (s, a) = (Ok tt, p') →
  ∃ s' a', tabled s' ∧ seeded s' ∧ row_item key k v s' ∧ p' = (reapply_portal_settings m now nonce (s', a')).2.
Proof.
  intros Hs Hse Hn Hnd Hne Hv Hkeep Hafter E. pose proof (admin_hooks_untouched m) as Hq.
  unfold admin_put_settings, put_settings in E. rewrite io_bind_run, put_sections_app, io_bind_run in E.
  pose proof (put_sections_seeded (admin_hooks m) m now nonce before Hq (s, a) (conj Hs Hse)) as [Hs1 Hse1].
  destruct (put_sections (admin_hooks m) m now nonce before (s, a)) as [[[]|e] [s1 a1]]; [|discriminate]. cbn [snd fst] in Hs1, Hse1.
  change ((key, JObj section) :: after) with ([(key, JObj section)] ++ after) in E. rewrite put_sections_app, io_bind_run in E.
  pose proof (put_sections_seeded (admin_hooks m) m now nonce [(key, JObj section)] Hq (s1, a1) (conj Hs1 Hse1)) as [Hs2 Hse2].
  destruct (put_section_run (admin_hooks m) m now nonce key section s1 a1 Hq (proj1 Hs1) Hn)
    as (s2 & a2 & E2 & _ & _ & r & Hr & Hd). rewrite E2 in E, Hs2, Hse2. cbn [snd fst] in Hs2, Hse2.
  assert (row_item key k v s2) as Hrow.
  { exists r, (stored_value key (clean_dict section) (rows (se_db s1) !! key)). split; [exact Hr|]. split; [exact Hd|].
    apply stored_item; [by apply dict_get_clean | by apply NoDup_clean | exact Hne]. }
  destruct (put_sections_row m now nonce key after (rows (se_db s2) !! key) Hafter (s2, a2)) as (Hs3 & Hse3 & Hr3); [done|].
  destruct (put_sections (admin_hooks m) m now nonce after (s2, a2)) as [[[]|e] [s3 a3]]; [|discriminate]. cbn [snd fst] in Hs3, Hse3, Hr3.
  exists s3, a3. split; [exact (proj1 Hs3)|]. split; [exact Hse3|]. split.
  - unfold row_item. by rewrite Hr3.
  - unfold io_try in E. destruct (reapply_portal_settings m now nonce (s3, a3)) as [[[]|e] q]; by injection E as <-.
Qed.

(** A reload of another process gives it what the administration has after a
    request. *)
Lemma portal_reload_run {DA} m now nonce sq (pq : portal_process DA) :
  seeded sq → portal_reload m now nonce (sq, pq)
  = (Ok tt, (loaded now sq, PortalProcess (asked_lifetimes m (loaded now sq)) (ldap m (loaded now sq)) (pp_admins pq))).
Proof.
  intros Hs. unfold portal_reload. rewrite io_bind_run, (on_settings_run _ sq pq _ _ (load_again m now nonce sq Hs)).
  fold (loaded now sq). rewrite io_bind_run. unfold portal_on_ldap_change, io_modify at 1. rewrite io_bind_run. unfold io_get at 1.
  unfold portal_on_redis_ttl_change, io_modify. cbn [fst snd pp_lifetimes pp_ldap_auth pp_admins]. by rewrite asked_run.
Qed.
Lemma relay_reload_run m now nonce sq (rq : relay_service) :
  seeded sq → relay_reload m now nonce (sq, rq)
  = (Ok tt, (loaded now sq, RelayService (settings_message (relay_settings_of m (loaded now sq)) (rs_process rq))
                              (new_resolver (dns m (loaded now sq))))).
Proof.
  intros Hs. unfold relay_reload. rewrite io_bind_run, (on_settings_run _ sq rq _ _ (load_again m now nonce sq Hs)).
  fold (loaded now sq). rewrite io_bind_run. reflexivity.
Qed.
Lemma listen_once {S} (reload : Z → bytes → io S unit) now nonce q q' :
  reload now nonce q = (Ok tt, q') → settings_listener reload [Some (Notice now nonce)] q = (Ok tt, q').
Proof. intros E. unfold settings_listener, io_try. cbn [listen nt_now nt_nonce]. rewrite io_bind_run, E. reflexivity. Qed.

(** A request of one section always returns: what is wrong with it is only logged. *)
Lemma put_one m now nonce key section s (a : admin_process) :
  tabled s → seeded s → section_name key = true →
  ∃ s' a', admin_put_settings m now nonce [(key, JObj section)] (s, a) = (Ok tt, (s', a')) ∧ tabled s'
    ∧ ∃ r, rows (se_db s') !! key = Some r ∧ ps_value r = JObj (stored_value key (clean_dict section) (rows (se_db s) !! key)).
Proof.
  intros Hk Hse Hn. destruct (put_section_run (admin_hooks m) m now nonce key section s a (admin_hooks_untouched m) Hk Hn)
    as (s1 & a1 & E & Hk1 & Hse1 & Hrow).
  destruct (reapply_run m now nonce s1 a1 (eq_trans Hse1 Hse)) as (a' & Er & _).
  exists (loaded now s1), a'. split; [|by split].
  unfold admin_put_settings, put_settings. rewrite io_bind_run, E. unfold io_try.
  destruct (reapply_portal_settings m now nonce (s1, a1)) as [[[]|e] q]; cbn [snd] in Er; by subst q.
Qed.

(** A port that is no number stops the start of the administration. *)
Lemma bad_port_start m later nonce port q :
  tabled q.1 → row_item (u "proxy") (u "public_port") (JStr port) q.1 → port ≠ [] → int_of_str port = None →
  ∃ e, (load_settings m later nonce q).1 = Err e.
Proof.
  intros Hk Hrow Hp Hi. destruct q as [s a]. unfold load_settings. rewrite io_bind_run.
  assert (u "proxy" = u "proxy" → u "public_port" ≠ u "listen_port") as Hne by (intros _ Hc; vm_compute in Hc; discriminate Hc).
  pose proof (load_item m later nonce _ _ _ s Hne Hk Hrow) as (_ & _ & (c & Hc & Hv)).
  unfold on_settings, io_zoom. cbn [fst snd]. destruct (load m later nonce s) as [[[]|e] s1]; [|by exists e]. cbn [snd] in Hc.
  rewrite io_bind_run. unfold io_get at 1. cbn [fst]. rewrite io_bind_run.
  assert (∀ p : settings D * admin_process, ∃ e, (on_address (note_public (proxy_params m s1)) p).1 = Err e) as Hend.
  { intros p. assert (new_port (proxy_params m s1) = JStr port) as Eport.
    { assert (∀ x y, dict_get_or (u "public_port") JNull [(u "public_host", x); (u "public_port", y)] = y) as Eget
        by (intros; vm_compute; reflexivity).
      unfold proxy_params. rewrite Hc. unfold new_port. rewrite Eget. unfold dict_get_or. rewrite Hv.
      cbn [default from_option id truthy]. unfold default, from_option, id. cbn [truthy]. by rewrite bool_decide_eq_false_2. }
    unfold on_address, io_zoom, note_public. rewrite io_bind_run. unfold io_lift at 1.
    destruct (new_host _) as [host|e]; [|by exists e]. rewrite io_bind_run. unfold io_modify at 1. rewrite io_bind_run.
    unfold note_port at 1. rewrite io_bind_run. unfold io_get at 1. rewrite io_bind_run. unfold io_modify at 1.
    rewrite Eport. cbn [mret io_ret]. rewrite io_bind_run. unfold io_lift, port_int, py_int. rewrite Hi. by eexists. }
  destruct (ldap m s1); [unfold admin_on_ldap_change, io_modify at 1 | unfold mret at 1, io_ret at 1];
    rewrite io_bind_run; unfold admin_on_redis_ttl_change, io_modify at 1; apply Hend.
Qed.

Lemma relay_limit m s n :
  cache_item (u "relay") (u "max_connections") (JInt n) s → set_max_connections (relay_settings_of m s) = Some n.
Proof.
  intros (c & Hc & Hv). cbn [set_max_connections relay_settings_of]. unfold relay_params. rewrite param_int_params, Hc.
  cbn [mbind option_bind]. rewrite Hv.
  assert (param (u "max_connections") (relay_fallback (sm_base m)) = Some (rl_max_connections (c_rdp_relay (sm_base m)))) as ->
    by (vm_compute; reflexivity). reflexivity.
Qed.

Lemma bad_limit_start {R DS DH DE} `{Redis R} `{!Table uuid RdpServer DS} `{!Table uuid ConnectionHistory DH} `{!Log ConnectionEvent DE}
    m tk key later nonce n (q : settings D * tracking R DS DH DE) :
  tabled q.1 → row_item (u "relay") (u "max_connections") (JInt n) q.1 → n < 0 →
  ∃ e, (run_server m tk key later nonce q).1 = Err e.
Proof.
  intros Hk Hrow Hn. destruct q as [s t]. unfold run_server. rewrite io_bind_run.
  assert (u "relay" = u "proxy" → u "max_connections" ≠ u "listen_port") as Hne by (intros Hc; vm_compute in Hc; discriminate Hc).
  pose proof (load_item m later nonce _ _ _ s Hne Hk Hrow) as (_ & _ & Hc).
  unfold on_settings, io_zoom at 1. cbn [fst snd]. destruct (load m later nonce s) as [[[]|e] s1]; [|by exists e]. cbn [snd] in Hc.
  rewrite io_bind_run. unfold io_get at 1. cbn [fst]. rewrite io_bind_run. unfold io_zoom. cbn [snd].
  destruct (reconcile_stale_active_on_startup tk later t) as [[x|e] t']; [|by exists e].
  rewrite io_bind_run. unfold io_lift. rewrite (relay_limit m s1 n Hc). cbn [default from_option id].
  unfold admission_init. rewrite (proj2 (Z.ltb_lt n 0) Hn). by eexists.
Qed.
End Reach.

(** ** Properties *)



(** C22: what the settings route accepts can stop the next start. A public port
    that is no number, or a negative limit of connections, is saved and answered
    with success, the failures of the callbacks being only logged; from then on no
    start of the administration, or of the relay, gets past the settings in the
    table. *)
Theorem settings_stop_start {D R DS DH DE : Type} `{!Table str PortalSetting D} `{!TableLaws str PortalSetting D}
    `{AESGCM} `{Config} `{Floats} `{Redis R} `{!Table uuid RdpServer DS} `{!Table uuid ConnectionHistory DH} `{!Log ConnectionEvent DE}
    (m : SettingsManager) (now : Z) (nonce : bytes) (tk : ConnectionTracker) (key : bytes) (port : str) (n : Z)
    (s : settings D) (a : admin_process) :
  sealed s → se_seeded s = true → strip port ≠ [] → int_of_str port = None → n < 0 →
  (∃ p', admin_put_settings m now nonce [(u "proxy", JObj [(u "public_port", JStr port)])] (s, a) = (Ok tt, p')
     ∧ ∀ later nonce' (q : settings D * admin_process), se_db q.1 = se_db p'.1 →
         ∃ e, (load_settings m later nonce' q).1 = Err e)
  ∧ (∃ p', admin_put_settings m now nonce [(u "relay", JObj [(u "max_connections", JInt n)])] (s, a) = (Ok tt, p')
     ∧ ∀ later nonce' (q : settings D * tracking R DS DH DE), se_db q.1 = se_db p'.1 →
         ∃ e, (run_server m tk key later nonce' q).1 = Err e).
Proof.
  intros Hs Hse Hp Hi Hn. destruct Hs as (Hk & _).
  assert (port ≠ []) as Hne by (intros ->; by apply Hp).
  split.
  - assert (section_name (u "proxy") = true) as Hname by (vm_compute; reflexivity).
    destruct (put_one m now nonce _ [(u "public_port", JStr port)] s a Hk Hse Hname) as (s' & a' & E & Hk' & r & Hr & Hd).
    exists (s', a'). split; [exact E|]. intros later nonce' q Hq. cbn [fst] in Hq.
    apply (bad_port_start m later nonce' port); [unfold tabled; by rewrite Hq | | exact Hne | exact Hi].
    eexists r, _. rewrite Hq. split; [exact Hr|]. split; [exact Hd|]. apply stored_item.
    + apply dict_get_clean; [apply dict_get_here | by rewrite bool_decide_eq_false_2].
    + apply NoDup_clean, NoDup_singleton.
    + intros _ Hc. vm_compute in Hc. discriminate Hc.
  - assert (section_name (u "relay") = true) as Hname by (vm_compute; reflexivity).
    destruct (put_one m now nonce _ [(u "max_connections", JInt n)] s a Hk Hse Hname) as (s' & a' & E & Hk' & r & Hr & Hd).
    exists (s', a'). split; [exact E|]. intros later nonce' q Hq. cbn [fst] in Hq.
    apply (bad_limit_start m tk key later nonce' n); [unfold tabled; by rewrite Hq | | exact Hn].
    eexists r, _. rewrite Hq. split; [exact Hr|]. split; [exact Hd|]. apply stored_item.
    + apply dict_get_clean; [apply dict_get_here | reflexivity].
    + apply NoDup_clean, NoDup_singleton.
    + intros Hc. vm_compute in Hc. discriminate Hc.
Qed.

#[local] Transparent u.


Lemma settings_stop_start_witness :
  let s := Settings (D := gmap str PortalSetting) ∅ ∅ 0 true [] in
  let a := create_admin demo_manager None true in
  (∃ p', admin_put_settings demo_manager 5000 [] [(u "proxy", JObj [(u "public_port", JStr (u "https"))])] (s, a) = (Ok tt, p')
     ∧ ∀ later nonce' (q : settings (gmap str PortalSetting) * admin_process), se_db q.1 = se_db p'.1 →
         ∃ e, (load_settings demo_manager later nonce' q).1 = Err e)
  ∧ (∃ p', admin_put_settings demo_manager 5000 [] [(u "relay", JObj [(u "max_connections", JInt (-1))])] (s, a) = (Ok tt, p')
     ∧ ∀ later nonce' (q : settings (gmap str PortalSetting) * tracking store (gmap uuid RdpServer) (gmap uuid ConnectionHistory) (list ConnectionEvent)),
         se_db q.1 = se_db p'.1 →
         ∃ e, (run_server demo_manager demo_tracker (replicate 32 (z2b 7)) later nonce' q).1 = Err e).
Proof.
  intros s a. apply (settings_stop_start demo_manager 5000 [] demo_tracker (replicate 32 (z2b 7)) (u "https") (-1) s a).
  - exact demo_settings_sealed.
  - reflexivity.
  - vm_compute. discriminate.
  - vm_compute. reflexivity.
  - reflexivity.
Defined.
Close Scope Z_scope.
