(* ===== verification/Services.v ===== *)
(** The services as programs: what their entry points do from the configuration
    file to the first request ([services/portal/main.py], [services/admin/main.py],
    [services/rdp_relay/main.py], with the [create_app]s they call), the clients they
    make ([libs/db/engine.py], [libs/redis_store/client.py]) and the parts of an
    application that the routes ask for ([dependencies.py] of both). Uvicorn, the
    drivers of PostgreSQL and Redis, and Alembic are not part of the repository. *)

From stdpp Require Import prelude gmap list strings.
From Stdlib Require Import ZArith Lia.
From Stdlib Require Strings.String.
From S2P Require Import Prelude PySeq PyBytes PyStr Json PyUuid Encodings Encryption Redis Sessions RelayServer Database Models Tracker Config Dns Settings Portal Accounts Certificates Processes.

Open Scope Z_scope.

(** ** Clients *)

(** What [create_async_engine] and [redis.Redis] are called with. *)
Record engine_options : Type := EngineOptions {
  eo_url : str; eo_pool_pre_ping : bool; eo_pool_size : Z; eo_max_overflow : Z; eo_echo : bool }.
Definition create_engine (cfg : DatabaseConfig) : engine_options :=
  EngineOptions (db_url cfg) true (db_pool_size cfg) (db_max_overflow cfg) (db_echo cfg).

Record redis_options : Type := RedisOptions {
  ro_host : str; ro_port : Z; ro_db : Z; ro_password : option str; ro_decode_responses : bool }.
Definition create_redis_client (cfg : RedisConfig) : redis_options :=
  RedisOptions (rc_host cfg) (rc_port cfg) (rc_db cfg)
    (if bool_decide (rc_password cfg = []) then None else Some (rc_password cfg)) true.

(** ** [session_scope] *)

(** A session of the database: what it sees, what is stored, and whether its
    connection is out of the pool. *)
Class DbSession (T : Type) : Type := {
  session_commit : io T unit;
  session_rollback : io T unit;
  session_close : io T unit;
}.
Class DbSessionLaws (T D : Type) `{DbSession T} : Type := {
  seen : T → D;
  stored : T → D;
  checked_out : T → bool;
  commit_law t : match session_commit t with
                 | (Ok _, t') => stored t' = seen t ∧ checked_out t' = checked_out t
                 | (Err _, t') => stored t' = stored t end;
  rollback_law t : stored (session_rollback t).2 = stored t;
  close_law t : ∃ t', session_close t = (Ok tt, t') ∧ stored t' = stored t ∧ seen t' = stored t ∧ checked_out t' = false;
}.

(** [async with session_scope(factory) as session: body] *)
Definition session_scope {T A} `{DbSession T} (body : io T A) : io T A :=
  io_finally
    (io_try (a ← body; _ ← session_commit; mret a) (λ e, _ ← session_rollback; io_raise e))
    session_close.

(** ** Dependencies *)

(** [app.state]: an attribute that has not been set is missing. [F] is the session
    factory and [C] the Redis client. *)
Record app_state (F C : Type) : Type := AppState {
  st_config : option AppConfig;
  st_settings_manager : option SettingsManager;
  st_session_store : option (C * SessionStore);
  st_db_sessionmaker : option F;
  st_ldap_auth : option LdapConfig;
}.
Arguments AppState {F C}. Arguments st_config {F C}. Arguments st_settings_manager {F C}. Arguments st_session_store {F C}.
Arguments st_db_sessionmaker {F C}. Arguments st_ldap_auth {F C}.

Section Dependencies.
Context {F C : Type}.
Implicit Types (st : app_state F C).

Definition get_config st : res AppConfig := st_config st ?? HTTPException 500.
Definition get_settings_manager st : res SettingsManager := st_settings_manager st ?? HTTPException 500.
Definition get_session_store st : res (C * SessionStore) := st_session_store st ?? HTTPException 500.
Definition get_db_sessionmaker st : res F := st_db_sessionmaker st ?? HTTPException 500.
Definition get_redis_client st : res C := store ← get_session_store st; Ok store.1.
Definition get_ldap st : res LdapConfig := st_ldap_auth st ?? HTTPException 503.

(** [SessionStore.__init__] with [AESEncryptor.__init__] *)
Definition new_session_store (r : RedisConfig) (s : SecurityConfig) : res SessionStore :=
  key ← aes_encryptor (sc_encryption_key s);
  Ok {| web_ttl := rc_web_session_ttl r; rdp_token_ttl := rc_rdp_token_ttl r; web_idle_ttl := rc_web_idle_ttl r; enc_key := key |}.
(** [SettingsManager.__init__] *)
Definition new_settings_manager (base : AppConfig) (encryption_key : str) : res SettingsManager :=
  key ← aes_encryptor encryption_key; Ok {| sm_base := base; sm_key := key |}.

(** [create_app] up to the routes, the same in both applications. *)
Definition create_app (factory : engine_options → F) (client : redis_options → C) (config : AppConfig) : res (app_state F C) :=
  let db_sessionmaker := factory (create_engine (c_database config)) in
  let redis_client := client (create_redis_client (c_redis config)) in
  store ← new_session_store (c_redis config) (c_security config);
  manager ← new_settings_manager config (sc_encryption_key (c_security config));
  Ok (AppState (Some config) (Some manager) (Some (redis_client, store)) (Some db_sessionmaker) (c_ldap config)).
End Dependencies.

(** ** Entry points *)

Section EntryPoints.
Context {D : Type} `{!Table str PortalSetting D} `{AESGCM} `{Config} `{Floats} `{ConfigFile}.
Implicit Types (file : res str) (now : Z) (nonce : bytes).

(** A manager that has not loaded anything. *)
Definition fresh_settings (d : D) : settings D := Settings d ∅ 0 false [].

(** A process of its own on what the services share, the tables and [T]: what it
    returns with, and what it leaves. *)
Definition in_process {T P X Y} (start : io (settings D * P) X) (enter : T → P) (leave : P → T) (keep : X → settings D * P → Y) :
    io (D * T) Y := λ s,
  let '(r, q) := start (fresh_settings s.1, enter s.2) in
  (match r with Ok x => Ok (keep x q) | Err e => Err e end, (se_db q.1, leave q.2)).

(** [services/portal/main.py]: up to the first request. *)
Definition portal_main {DA} `{!Table uuid AdminUser DA} `{PasswordHasher} file now nonce (new_id : uuid) (salt : bytes) :
    io (D * DA) (settings D * portal_process DA) :=
  config ← io_lift (load_config file);
  app ← io_lift (create_app id id config);
  m ← io_lift (get_settings_manager app);
  in_process (portal_bootstrap m now nonce new_id salt) (create_portal m) pp_admins (λ _ q, q).

(** [services/admin/main.py]: a migration that raises is logged, and the service
    starts anyway. It shares the [.env] file. *)
Definition admin_main (upgrade_head : io D unit) file now nonce : io (D * (option str * bool)) (settings D * admin_process) :=
  config ← io_lift (load_config file);
  _ ← io_try (io_zoom fst (λ d s, (d, s.2)) upgrade_head) (λ _, mret tt);
  app ← io_lift (create_app id id config);
  m ← io_lift (get_settings_manager app);
  in_process (load_settings m now nonce) (λ env, create_admin m env.1 env.2)
    (λ p, (pa_env (ap_address p), pa_writable (ap_address p))) (λ _ q, q).

(** [services/rdp_relay/main.py]: up to the listening socket. *)
Definition relay_main {R DS DH DE} `{Redis R} `{!Table uuid RdpServer DS} `{!Table uuid ConnectionHistory DH} `{!Log ConnectionEvent DE}
    file now nonce : io (D * tracking R DS DH DE) relay_service :=
  config ← io_lift (load_config file);
  store ← io_lift (new_session_store (c_redis config) (c_security config));
  m ← io_lift (new_settings_manager config (sc_encryption_key (c_security config)));
  let tracker := {| has_db := true; has_redis := true; tk_instance_id := in_id (c_instance config) |} in
  in_process (run_server m tracker (enc_key store) now nonce) id id (λ service _, service).
End EntryPoints.

(** ** Lemmas *)

#[local] Opaque u.

(** A session's scope is a transaction: what is stored changes only when the body
    has returned and the commit has gone through, and the connection goes back to
    the pool in any case. *)
Theorem session_scope_atomic {T D A : Type} `{DbSessionLaws T D} (body : io T A) (t : T) :
  stored (body t).2 = stored t →
  let '(r, t') := session_scope body t in
  checked_out t' = false ∧ seen t' = stored t'
  ∧ match r with
    | Ok a => (body t).1 = Ok a ∧ stored t' = seen (body t).2
    | Err _ => stored t' = stored t
    end.
Proof.
  intros Hb. unfold session_scope, io_finally, io_try. rewrite io_bind_run. destruct (body t) as [[a|e] t1]; cbn [fst snd] in *.
  - rewrite io_bind_run. pose proof (commit_law t1) as Hc. destruct (session_commit t1) as [[[]|e] t2].
    + destruct Hc as [Hc _]. destruct (close_law t2) as (t3 & E & Hs & Hv & Ho). cbn [mret io_ret]. rewrite E. by rewrite Hs, Hv, Hc.
    + rewrite io_bind_run. pose proof (rollback_law t2) as Hr. destruct (session_rollback t2) as [[[]|e'] t3];
        destruct (close_law t3) as (t4 & E & Hs & Hv & Ho); cbn [io_raise snd] in *; rewrite E; by rewrite Hs, Hv, Hr, Hc, Hb.
  - rewrite io_bind_run. pose proof (rollback_law t1) as Hr. destruct (session_rollback t1) as [[[]|e'] t3];
      destruct (close_law t3) as (t4 & E & Hs & Hv & Ho); cbn [io_raise snd] in *; rewrite E; by rewrite Hs, Hv, Hr, Hb.
Qed.

(** An application that has been created has everything that its routes ask for but
    a directory. *)
Lemma create_app_complete {F C} (factory : engine_options → F) (client : redis_options → C) config st :
  create_app factory client config = Ok st →
  get_config st = Ok config ∧ get_db_sessionmaker st = Ok (factory (create_engine (c_database config)))
  ∧ get_redis_client st = Ok (client (create_redis_client (c_redis config)))
  ∧ (∃ store, get_session_store st = Ok store) ∧ (∃ m, get_settings_manager st = Ok m ∧ sm_base m = config)
  ∧ get_ldap st = c_ldap config ?? HTTPException 503.
Proof.
  unfold create_app, new_session_store, new_settings_manager.
  destruct (aes_encryptor (sc_encryption_key (c_security config))) as [key|e]; [|discriminate]. intros [= <-].
  repeat split; by eexists.
Qed.

Section Starts.
Context {D : Type} `{!Table str PortalSetting D} `{!TableLaws str PortalSetting D} `{AESGCM} `{Config} `{Floats} `{ConfigFile}.
Implicit Types (m : SettingsManager) (file : res str) (now : Z) (nonce : bytes) (name : str).
Abbreviation ttl_stored := (λ name n d, row_item (D := D) (u "redis_ttl") name (JInt n) (fresh_settings d)).

(** A process that has loaded asks for the lifetime that is stored. *)
Lemma load_asks m now nonce name n d :
  name ∈ LIFETIMES → tabled (fresh_settings d) → ttl_stored name n d →
  lifetime name (asked_lifetimes m (load m now nonce (fresh_settings d)).2) = Some (JInt n).
Proof.
  intros Hin Hk Hrow. apply asked_item; [exact Hin|].
  assert (u "redis_ttl" = u "proxy" → name ≠ u "listen_port") as Hne by (intros Hc; vm_compute in Hc; discriminate Hc).
  exact (proj2 (proj2 (load_item m now nonce _ _ _ (fresh_settings d) Hne Hk Hrow))).
Qed.

Lemma portal_start {DA} `{!Table uuid AdminUser DA} `{PasswordHasher} m now nonce new_id salt s (pq : portal_process DA) q :
  portal_bootstrap m now nonce new_id salt (s, pq) = (Ok tt, q) →
  pp_lifetimes q.2 = asked_lifetimes m (load m now nonce s).2.
Proof.
  unfold portal_bootstrap, portal_reload. rewrite io_bind_run, io_bind_run. unfold on_settings, io_zoom at 1. cbn [fst snd].
  destruct (load m now nonce s) as [[[]|e] s1]; [|discriminate]. cbn [snd].
  rewrite io_bind_run. unfold portal_on_ldap_change, io_modify at 1. rewrite io_bind_run. unfold io_get at 1.
  unfold portal_on_redis_ttl_change, io_modify. cbn [fst snd pp_lifetimes pp_ldap_auth pp_admins]. unfold io_zoom.
  destruct (bootstrap_default_admin new_id salt _) as [r d]. intros E. apply (f_equal snd) in E. cbn [snd] in E. subst q.
  cbn [fst snd pp_lifetimes]. apply asked_run.
Qed.

Lemma admin_start m now nonce s (a : admin_process) q :
  load_settings m now nonce (s, a) = (Ok tt, q) → ap_lifetimes q.2 = asked_lifetimes m (load m now nonce s).2.
Proof.
  unfold load_settings. rewrite io_bind_run. unfold on_settings, io_zoom at 1. cbn [fst snd].
  destruct (load m now nonce s) as [[[]|e] s1]; [|discriminate]. cbn [snd]. rewrite io_bind_run. unfold io_get at 1. cbn [fst].
  assert (∀ p : settings D * admin_process, (_ ← admin_on_redis_ttl_change (int_items (redis_ttl m s1));
    on_address (note_public (proxy_params m s1))) p = (Ok tt, q) → ap_lifetimes q.2 = asked_lifetimes m s1) as Hend.
  { intros p. rewrite io_bind_run. unfold admin_on_redis_ttl_change, io_modify at 1. unfold on_address, io_zoom.
    destruct (note_public _ _) as [r x]. intros E. apply (f_equal snd) in E. cbn [snd] in E. subst q.
    cbn [fst snd ap_lifetimes]. apply asked_run. }
  rewrite io_bind_run. destruct (ldap m s1); [unfold admin_on_ldap_change, io_modify at 1 | unfold mret at 1, io_ret at 1]; apply Hend.
Qed.

Lemma relay_start {R DS DH DE} `{Redis R} `{!Table uuid RdpServer DS} `{!Table uuid ConnectionHistory DH} `{!Log ConnectionEvent DE}
    m tk key now nonce (s : settings D) (t : tracking R DS DH DE) service q :
  run_server m tk key now nonce (s, t) = (Ok service, q) →
  session_store key (asked_lifetimes m (load m now nonce s).2) = Some (rp_store (rs_process service)).
Proof.
  unfold run_server. rewrite io_bind_run. unfold on_settings, io_zoom at 1. cbn [fst snd].
  destruct (load m now nonce s) as [[[]|e] s1]; [|discriminate]. cbn [snd]. rewrite io_bind_run. unfold io_get at 1. cbn [fst].
  rewrite io_bind_run. unfold io_zoom. cbn [snd]. destruct (reconcile_stale_active_on_startup tk now t) as [[x|e] t']; [|discriminate].
  rewrite io_bind_run. unfold io_lift. destruct (admission_init _) as [adm|e]; [|discriminate]. intros [= <- _].
  cbn [rs_process rp_store]. by apply asked_store.
Qed.

Lemma session_store_key key lt st : session_store key lt = Some st → enc_key st = key.
Proof. destruct lt as [[] [] []]; try discriminate. by intros [= <-]. Qed.

(** A migration does not keep the service from starting. *)
Lemma migrated {E} (upgrade_head : io D unit) d (env : E) :
  io_try (io_zoom fst (λ d s, (d, s.2)) upgrade_head) (λ _, mret tt) (d, env) = (Ok tt, ((upgrade_head d).2, env)).
Proof. unfold io_try, io_zoom. cbn [fst snd]. by destruct (upgrade_head d) as [[[]|e] d']. Qed.

(** A process that starts well has its manager started well. *)
Lemma in_process_Ok {T P X Y} (start : io (settings D * P) X) (enter : T → P) leave (keep : X → settings D * P → Y) d t y d' :
  in_process start enter leave keep (d, t) = (Ok y, d') →
  ∃ x q, start (fresh_settings d, enter t) = (Ok x, q) ∧ y = keep x q.
Proof.
  unfold in_process. cbn [fst snd]. destruct (start _) as [[x|e] q]; [|discriminate]. intros [= <- _]. by eexists x, q.
Qed.

(** A key that is not sixty-four hexadecimal digits stops every service that seals
    something before it has touched what the services share, the migrations of the
    administration apart. *)
Lemma services_need_key {DA R DS DH DE} `{!Table uuid AdminUser DA} `{PasswordHasher} `{Redis R} `{!Table uuid RdpServer DS}
    `{!Table uuid ConnectionHistory DH} `{!Log ConnectionEvent DE} (upgrade_head : io D unit) file now nonce config e d :
  load_config file = Ok config → aes_encryptor (sc_encryption_key (c_security config)) = Err e →
  (∀ new_id salt (admins : DA), portal_main file now nonce new_id salt (d, admins) = (Err e, (d, admins)))
  ∧ (∀ env, admin_main upgrade_head file now nonce (d, env) = (Err e, ((upgrade_head d).2, env)))
  ∧ ∀ t : tracking R DS DH DE, relay_main file now nonce (d, t) = (Err e, (d, t)).
Proof.
  intros Hc He. assert (∀ config', c_security config' = c_security config → create_app (F := engine_options) id (@id redis_options) config' = Err e) as Happ.
  { intros config' E. unfold create_app, new_session_store. by rewrite E, He. }
  split; [|split].
  - intros new_id salt admins. unfold portal_main. rewrite io_bind_run. unfold io_lift at 1. rewrite Hc.
    rewrite io_bind_run. unfold io_lift at 1. by rewrite Happ.
  - intros env. unfold admin_main. rewrite io_bind_run. unfold io_lift at 1. rewrite Hc, io_bind_run, migrated.
    rewrite io_bind_run. unfold io_lift at 1. by rewrite Happ.
  - intros t. unfold relay_main. rewrite io_bind_run. unfold io_lift at 1. rewrite Hc, io_bind_run. unfold io_lift at 1.
    unfold new_session_store. by rewrite He.
Qed.
End Starts.

(** ** Properties *)

(** C21: settings survive a restart. Once a request that saves a lifetime has
    returned, in a section [redis_ttl] with any other sections before and after it
    (none after it of the same name), every service that starts on the same
    database has it, whatever its configuration file says and whatever else is
    stored: the portal, the administration, also when its migrations raise, and the
    relay. The migrations are taken to leave the rows of the settings alone. *)
Theorem settings_survive_restart {D DA R DS DH DE : Type} `{!Table str PortalSetting D} `{!TableLaws str PortalSetting D}
    `{AESGCM} `{Config} `{Floats} `{ConfigFile} `{!Table uuid AdminUser DA} `{PasswordHasher} `{Redis R}
    `{!Table uuid RdpServer DS} `{!Table uuid ConnectionHistory DH} `{!Log ConnectionEvent DE}
    (m : SettingsManager) (now : Z) (nonce : bytes) (before section after : dict) (name : str) (n : Z)
    (s : settings D) (a : admin_process) p' (upgrade_head : io D unit) :
  sealed s → se_seeded s = true → NoDup section.*1 → name ∈ LIFETIMES → dict_get name section = Some (JInt n) →
  Forall (λ kv, strip kv.1 ≠ u "redis_ttl") after →
  (∀ d, rows (K := str) (Row := PortalSetting) (upgrade_head d).2 = rows d) →
  admin_put_settings m now nonce (before ++ (u "redis_ttl", JObj section) :: after) (s, a) = (Ok tt, p') →
  ∀ file later nonce',
    (∀ new_id salt (admins : DA) q d', portal_main file later nonce' new_id salt (se_db p'.1, admins) = (Ok q, d') →
       lifetime name (pp_lifetimes q.2) = Some (JInt n))
    ∧ (∀ env q d', admin_main upgrade_head file later nonce' (se_db p'.1, env) = (Ok q, d') →
         lifetime name (ap_lifetimes q.2) = Some (JInt n))
    ∧ (∀ (t : tracking R DS DH DE) service d', relay_main file later nonce' (se_db p'.1, t) = (Ok service, d') →
         ∃ lt, lifetime name lt = Some (JInt n)
           ∧ session_store (enc_key (rp_store (rs_process service))) lt = Some (rp_store (rs_process service))).
Proof.
  intros Hs Hse Hnd Hin Hv Hafter Hup E file later nonce'.
  assert (section_name (u "redis_ttl") = true) as Hname by (vm_compute; reflexivity).
  assert (u "redis_ttl" = u "proxy" → name ≠ u "listen_port") as Hne by (intros Hc; vm_compute in Hc; discriminate Hc).
  destruct (put_item m now nonce before _ section after name (JInt n) s a p' Hs Hse Hname Hnd Hne Hv eq_refl Hafter E)
    as (s1 & a1 & Hk1 & Hse1 & Hrow & ->).
  destruct (reapply_run m now nonce s1 a1 Hse1) as (a' & -> & _). cbn [fst snd]. change (se_db (loaded now s1)) with (se_db s1).
  assert (∀ d, rows d = rows (se_db s1) → tabled (fresh_settings d) ∧ row_item (u "redis_ttl") name (JInt n) (fresh_settings d)) as Hd.
  { intros d Ed. unfold tabled, row_item, fresh_settings. cbn [se_db]. rewrite Ed. by split. }
  assert (∀ d m' now', rows d = rows (se_db s1) →
    lifetime name (asked_lifetimes m' (load m' now' nonce' (fresh_settings d)).2) = Some (JInt n)) as Hask.
  { intros d m' now' Ed. apply load_asks; [exact Hin | apply Hd, Ed | apply Hd, Ed]. }
  split; [|split].
  - intros new_id salt admins q d'. unfold portal_main. rewrite io_bind_run. unfold io_lift at 1.
    destruct (load_config file) as [config|e]; [|discriminate]. rewrite io_bind_run. unfold io_lift at 1.
    destruct (create_app id id config) as [app|e]; [|discriminate]. rewrite io_bind_run. unfold io_lift at 1.
    destruct (get_settings_manager app) as [m'|e]; [|discriminate]. intros ([] & q' & Eq & ->)%in_process_Ok.
    rewrite (portal_start _ _ _ _ _ _ _ _ Eq). by apply Hask.
  - intros env q d'. unfold admin_main. rewrite io_bind_run. unfold io_lift at 1.
    destruct (load_config file) as [config|e]; [|discriminate]. rewrite io_bind_run, migrated.
    rewrite io_bind_run. unfold io_lift at 1. destruct (create_app id id config) as [app|e]; [|discriminate].
    rewrite io_bind_run. unfold io_lift at 1. destruct (get_settings_manager app) as [m'|e]; [|discriminate].
    intros ([] & q' & Eq & ->)%in_process_Ok. rewrite (admin_start _ _ _ _ _ _ Eq). by apply Hask.
  - intros t service d'. unfold relay_main. rewrite io_bind_run. unfold io_lift at 1.
    destruct (load_config file) as [config|e]; [|discriminate]. rewrite io_bind_run. unfold io_lift at 1.
    destruct (new_session_store _ _) as [store|e]; [|discriminate]. rewrite io_bind_run. unfold io_lift at 1.
    destruct (new_settings_manager _ _) as [m'|e]; [|discriminate]. cbv zeta. intros (x & q' & Eq & ->)%in_process_Ok.
    pose proof (relay_start _ _ _ _ _ _ _ _ _ Eq) as Est. eexists. split; [by apply (Hask (se_db s1) m' later)|].
    by rewrite (session_store_key _ _ _ Est).
Qed.

(** ** Witnesses *)

#[local] Transparent u.
Definition demo_key : str := concat (replicate 32 (u "07")).
Definition demo_file : ConfigFile := {|
  yaml_load text := Ok (JObj []); app_config d := Ok (default_config (u "postgresql+asyncpg://db") demo_key) |}.
#[local] Existing Instance demo_file.
(** The sections that the settings page sends together, a lifetime of ten minutes
    the first of them. *)
Definition demo_rest : dict :=
  [(u "security", JObj [(u "max_login_attempts", JInt 5)]); (u "relay", JObj [(u "max_connections", JInt 50)])].
Definition demo_saved : settings (gmap str PortalSetting) * admin_process :=
  (admin_put_settings demo_manager 5000 [] ((u "redis_ttl", JObj [(u "web_session_ttl", JInt 600)]) :: demo_rest)
     (Settings (D := gmap str PortalSetting) ∅ ∅ 0 true [], create_admin demo_manager None true)).2.

Example demo_restart :
  lt_web_ttl ∘ pp_lifetimes ∘ snd
    <$> (portal_main (DA := gmap uuid AdminUser) (Ok []) 9000 [] 1%N [] (se_db demo_saved.1, ∅)).1 = Ok (JInt 600)
  ∧ web_ttl ∘ rp_store ∘ rs_process
    <$> (relay_main (R := store) (DS := gmap uuid RdpServer) (DH := gmap uuid ConnectionHistory) (DE := list ConnectionEvent)
           (Ok []) 9000 [] (se_db demo_saved.1, demo_tracking)).1 = Ok 600.
Proof. vm_compute. done. Qed.

Lemma settings_survive_restart_witness :
  (∀ new_id salt (admins : gmap uuid AdminUser) q d',
       portal_main (Ok []) 9000 [] new_id salt (se_db demo_saved.1, admins) = (Ok q, d') →
       lifetime (u "web_session_ttl") (pp_lifetimes q.2) = Some (JInt 600))
    ∧ (∀ env q d', admin_main (io_raise OtherError) (Ok []) 9000 [] (se_db demo_saved.1, env) = (Ok q, d') →
         lifetime (u "web_session_ttl") (ap_lifetimes q.2) = Some (JInt 600))
    ∧ (∀ (t : tracking store (gmap uuid RdpServer) (gmap uuid ConnectionHistory) (list ConnectionEvent)) service d',
         relay_main (Ok []) 9000 [] (se_db demo_saved.1, t) = (Ok service, d') →
         ∃ lt, lifetime (u "web_session_ttl") lt = Some (JInt 600)
           ∧ session_store (enc_key (rp_store (rs_process service))) lt = Some (rp_store (rs_process service))).
Proof.
  apply (settings_survive_restart demo_manager 5000 [] [] [(u "web_session_ttl", JInt 600)] demo_rest (u "web_session_ttl") 600
    (Settings (D := gmap str PortalSetting) ∅ ∅ 0 true []) (create_admin demo_manager None true) demo_saved (io_raise OtherError)).
  - exact demo_settings_sealed.
  - reflexivity.
  - apply NoDup_singleton.
  - apply elem_of_cons. by left.
  - reflexivity.
  - repeat constructor; vm_compute; discriminate.
  - reflexivity.
  - vm_compute. reflexivity.
Defined.

(** A session over a number, whose commits fail when it sees a negative one. *)
Record demo_session : Type := DemoSession { ds_seen : Z; ds_stored : Z; ds_out : bool }.
#[local] Instance demo_db_session : DbSession demo_session := {|
  session_commit t := if ds_seen t <? 0 then (Err IntegrityError, t) else (Ok tt, DemoSession (ds_seen t) (ds_seen t) (ds_out t));
  session_rollback t := (Ok tt, DemoSession (ds_stored t) (ds_stored t) (ds_out t));
  session_close t := (Ok tt, DemoSession (ds_stored t) (ds_stored t) false) |}.
#[local] Instance demo_db_session_laws : DbSessionLaws demo_session Z.
Proof.
  refine {| seen := ds_seen; stored := ds_stored; checked_out := ds_out |}.
  - intros t. cbn. by destruct (_ <? _).
  - done.
  - intros t. by eexists.
Defined.

Lemma session_scope_atomic_witness :
  let t' := (session_scope (io_modify (λ t, DemoSession (-1) (ds_stored t) true)) (DemoSession 5 5 true)).2 in
  ds_out t' = false ∧ ds_seen t' = ds_stored t' ∧ ds_stored t' = 5.
Proof.
  exact (session_scope_atomic (D := Z) (io_modify (λ t, DemoSession (-1) (ds_stored t) true)) (DemoSession 5 5 true) eq_refl).
Defined.
Close Scope Z_scope.
