(* ===== verification/Metrics.v ===== *)
(** The metrics collector, [services/metrics/collector.py]: what one tick reads of
    the host, publishes in Redis and writes into the table of nodes. [psutil] and
    the files of [/proc] are what a reading holds; floating point is the binary64
    arithmetic of the standard library's [SpecFloat]. The list of a series is a
    part of Redis of its own, since no string is ever written under its key. *)

From stdpp Require Import prelude gmap list strings.
From Stdlib Require Import ZArith Lia.
From Stdlib Require Import Floats.SpecFloat.
From Stdlib Require Strings.String.
From S2P Require Import Prelude PySeq PyBytes PyStr Json PyUuid Redis Keys Sessions Database Models.

Open Scope Z_scope.

(** ** Python's floats *)

Definition float : Type := spec_float.
(** [float(n)] of an integer: too large a one is an OverflowError. *)
Definition float_of_int (z : Z) : res float :=
  match binary_normalize 53 1024 z 0 false with S754_infinity _ => Err OtherError | x => Ok x end.
Definition fsub (x y : float) : float := SFsub 53 1024 x y.
Definition fgt (x y : float) : bool := SFltb y x.
(** [x / y]; zero is not divided by here. *)
Definition fdiv (x y : float) : float := SFdiv 53 1024 x y.
Definition signed (negative : bool) (z : Z) : Z := if negative then - z else z.
(** [int(x)] and [round(x)]: toward zero, and to the nearest with ties to even. *)
Definition int_of_float (x : float) : res Z :=
  match x with
  | S754_zero _ => Ok 0
  | S754_finite s m e => Ok (signed s (if 0 <=? e then Z.pos m * 2 ^ e else Z.pos m / 2 ^ (- e)))
  | _ => Err OtherError
  end.
Definition round_half_even (m d : Z) : Z :=
  let q := m / d in let r := m mod d in
  if 2 * r <? d then q else if d <? 2 * r then q + 1 else if Z.even q then q else q + 1.
Definition round_float (x : float) : res Z :=
  match x with
  | S754_zero _ => Ok 0
  | S754_finite s m e => Ok (signed s (if 0 <=? e then Z.pos m * 2 ^ e else round_half_even (Z.pos m) (2 ^ (- e))))
  | _ => Err OtherError
  end.

(** ** The lists of Redis *)

Class RedisLists (L : Type) : Type := {
  redis_lpush : str → str → io L Z;
  redis_ltrim : str → Z → Z → io L unit;
  redis_lrange : str → Z → Z → L → list str;
}.
(** The elements from the first to an index, which is one of them. *)
Definition upto {A} (stop : Z) (l : list A) : list A := take (S (Z.to_nat stop)) l.
Class RedisListLaws (L : Type) `{RedisLists L} : Type := {
  lists : L → gmap str (list str);
  lpush_law k v l :
    let old := default [] (lists l !! k) in
    ∃ l', redis_lpush k v l = (Ok (Z.of_nat (S (length old))), l') ∧ lists l' = <[k := v :: old]> (lists l);
  ltrim_law k stop l :
    0 <= stop → ∃ l', redis_ltrim k 0 stop l = (Ok tt, l') ∧ lists l' = alter (upto stop) k (lists l);
  lrange_law k stop l : 0 <= stop → redis_lrange k 0 stop l = upto stop (default [] (lists l !! k));
}.
#[export] Instance map_lists : RedisLists (gmap str (list str)) := {|
  redis_lpush k v m := let l := v :: default [] (m !! k) in (Ok (Z.of_nat (length l)), <[k := l]> m);
  redis_ltrim k start stop m := (Ok tt, alter (λ l, upto stop l) k m);
  redis_lrange k start stop m := upto stop (default [] (m !! k)) |}.
#[export] Instance map_lists_laws : RedisListLaws (gmap str (list str)).
Proof. refine {| lists m := m |}; intros; cbn; eauto. Defined.

(** ** What a tick reads *)

Record sizes : Type := { sz_total : Z; sz_used : Z; sz_percent : json }.
Record host_reading : Type := {
  (** the memory, the swap, the disk, and the load averages to two places *)
  hr_memory : res (sizes * sizes * sizes * (json * json * json));
  (** the lines of [/host/proc/1/net/dev], and the counters of psutil: received, sent *)
  hr_net_dev : res (list str);
  hr_net_io : res (Z * Z);
  hr_time : float;
  (** the share of the processors, and their number *)
  hr_cpu : res (json * option Z);
}.

Definition ends_with (p s : str) : bool := starts_with (reverse p) (reverse s).
Definition rstrip_by (f : N → bool) (s : str) : str := reverse (drop_while f (reverse s)).
Definition net_line (line : str) : res (option (Z * Z)) :=
  let parts := split_ws line in
  let name := nth 0 parts [] in
  if (length parts <? 10)%nat || negb (ends_with (u ":") name) then Ok None
  else if bool_decide (rstrip_by (λ c, c =? 58)%N name = u "lo") then Ok None
  else match int_of_str (nth 1 parts []), int_of_str (nth 9 parts []) with
       | Some received, Some sent => Ok (Some (received, sent))
       | _, _ => Err ValueError
       end.
Fixpoint sum_lines (total : Z * Z) (lines : list str) : res (Z * Z) :=
  match lines with
  | [] => Ok total
  | line :: lines' =>
      counted ← net_line line;
      sum_lines (match counted with Some (r, s) => (total.1 + r, total.2 + s) | None => total end) lines'
  end.
(** [_read_host_net]: received and sent. *)
Definition read_host_net (h : host_reading) : res (Z * Z) :=
  match (lines ← hr_net_dev h; sum_lines (0, 0) lines) with Ok total => Ok total | Err _ => hr_net_io h end.

(** [_detect_cpu_name], of [platform.processor()], the lines of [/proc/cpuinfo] and
    [platform.machine()]. *)
Fixpoint model_name (lines : list str) : option (option str) :=
  match lines with
  | [] => None
  | line :: lines' =>
      if starts_with (u "model name") line
      then Some (match split_first 58%N line with Some (_, name) => Some (strip name) | None => None end)
      else model_name lines'
  end.
Definition detect_cpu_name (processor : str) (cpuinfo : res (list str)) (machine : str) : str :=
  let fallback := if bool_decide (machine = []) then u "Unknown" else machine in
  if negb (bool_decide (processor = [])) then processor
  else match cpuinfo with
       | Ok lines => match model_name lines with Some (Some name) => name | _ => fallback end
       | Err _ => fallback
       end.

(** ** The collector *)

Record MetricsCollector : Type := {
  mc_instance_id : str;
  mc_lan_ip : str;
  mc_interval : Z;
  mc_cpu_name : str;
  mc_cpu_freq_mhz : Z;
  (** [socket.gethostname()] *)
  mc_hostname : str;
}.
Definition make_collector (instance_id lan_ip hostname cpu_name : str) (interval_sec freq : Z) : MetricsCollector :=
  {| mc_instance_id := instance_id; mc_lan_ip := lan_ip; mc_interval := Z.max 5 interval_sec; mc_cpu_name := cpu_name;
     mc_cpu_freq_mhz := freq; mc_hostname := hostname |}.

Definition SERIES_MAX_LEN : Z := 24 * 60 * 6.
Definition HEARTBEAT_REDIS_TTL : Z := 60.

(** Redis with its lists, the table of nodes, and the last counters: sent and
    received, with the time they were read. *)
Record metrics_site (R L D : Type) : Type := MetricsSite {
  mt_redis : world R; mt_lists : L; mt_nodes : D; mt_prev_net : option (Z * Z); mt_prev_ts : float }.
Arguments MetricsSite {R L D}. Arguments mt_redis {R L D}. Arguments mt_lists {R L D}. Arguments mt_nodes {R L D}.
Arguments mt_prev_net {R L D}. Arguments mt_prev_ts {R L D}.

(** [INSERT ... ON CONFLICT (instance_id) DO UPDATE SET ...]: the new row, or the
    old one changed. *)
Class NodeUpsert (D : Type) : Type := { node_upsert : ClusterNode → (ClusterNode → ClusterNode) → io D unit }.
Definition upserted (r : ClusterNode) (f : ClusterNode → ClusterNode) (m : gmap str ClusterNode) : gmap str ClusterNode :=
  <[n_instance_id r := match m !! n_instance_id r with Some old => f old | None => r end]> m.
Class NodeUpsertLaws (D : Type) `{!Table str ClusterNode D} `{!TableLaws str ClusterNode D} `{!NodeUpsert D} : Prop := {
  node_upsert_law r f d :
    row_fits r = true → (∀ old, row_key old = row_key r → row_key (f old) = row_key r) →
    ∃ d', node_upsert r f d = (Ok tt, d') ∧ rows d' = upserted r f (rows d);
  node_upsert_unfit r f d : row_fits r = false → node_upsert r f d = (Err DataError, d);
  node_upsert_fails r f d e d' : node_upsert r f d = (Err e, d') → d' = d;
}.

(** The rates of a snapshot, per second: sent, then received. *)
Definition rate (now prev : Z) (dt : float) : res float := x ← float_of_int (now - prev); Ok (fdiv x dt).
Definition rates (prev : option (Z * Z)) (prev_ts now_ts : float) (received sent : Z) : res (float * float) :=
  match prev with
  | Some (prev_sent, prev_received) =>
      let dt := fsub now_ts prev_ts in
      if fgt dt (S754_zero false)
      then s ← rate sent prev_sent dt; r ← rate received prev_received dt; Ok (s, r)
      else Ok (S754_zero false, S754_zero false)
  | None => Ok (S754_zero false, S754_zero false)
  end.

(** The row of the node of a collector. *)
Definition resources_of (snap : dict) : dict :=
  List.filter (λ kv, negb (bool_decide (kv.1 = u "ts") || bool_decide (kv.1 = u "instance_id"))) snap.
Definition detect_services : dict := [(u "metrics", JStr (u "running"))].
Definition node_of (mc : MetricsCollector) (now registered_at : Z) (snap : dict) : ClusterNode :=
  {| n_instance_id := mc_instance_id mc; n_hostname := mc_hostname mc; n_ip := mc_lan_ip mc; n_services := detect_services;
     n_resources := resources_of snap; n_last_heartbeat := now; n_registered_at := registered_at |}.

Section Collector.
Context {R L D : Type} `{Redis R} `{RedisLists L} `{!NodeUpsert D}.
Abbreviation state := (metrics_site R L D).
Implicit Types (mc : MetricsCollector).

Definition mt_on_redis {A} (m : io (world R) A) : io state A :=
  io_zoom mt_redis (λ w s, MetricsSite w (mt_lists s) (mt_nodes s) (mt_prev_net s) (mt_prev_ts s)) m.
Definition mt_on_lists {A} (m : io L A) : io state A :=
  io_zoom mt_lists (λ l s, MetricsSite (mt_redis s) l (mt_nodes s) (mt_prev_net s) (mt_prev_ts s)) m.
Definition mt_transaction {A} (m : io D A) : io state A :=
  io_zoom mt_nodes (λ d s, MetricsSite (mt_redis s) (mt_lists s) d (mt_prev_net s) (mt_prev_ts s)) (io_transaction m).

Definition count_active_sessions (now : Z) : io state Z :=
  mt_on_redis (io_try (ks ← client_scan now ACTIVE_SCAN; mret (Z.of_nat (length ks))) (λ _, mret 0)).

Definition snapshot mc (now : Z) (h : host_reading) : io state dict :=
  memory ← io_lift (hr_memory h);
  net ← io_lift (read_host_net h);
  s ← io_get;
  speeds ← io_lift (rates (mt_prev_net s) (mt_prev_ts s) (hr_time h) net.1 net.2);
  _ ← io_modify (λ s, MetricsSite (mt_redis s) (mt_lists s) (mt_nodes s) (Some (net.2, net.1)) (hr_time h));
  ts ← io_lift (int_of_float (hr_time h));
  cpu ← io_lift (hr_cpu h);
  sent_sec ← io_lift (round_float speeds.1);
  recv_sec ← io_lift (round_float speeds.2);
  active ← count_active_sessions now;
  let '(vm, sw, disk, (load1, load5, load15)) := memory in
  mret [
    (u "ts", JInt ts); (u "instance_id", JStr (mc_instance_id mc)); (u "cpu_percent", cpu.1);
    (u "cpu_count", JInt (match cpu.2 with Some n => if n =? 0 then 1 else n | None => 1 end));
    (u "cpu_name", JStr (mc_cpu_name mc)); (u "cpu_freq_mhz", JInt (mc_cpu_freq_mhz mc));
    (u "cpu_load_1", load1); (u "cpu_load_5", load5); (u "cpu_load_15", load15);
    (u "mem_total", JInt (sz_total vm)); (u "mem_used", JInt (sz_used vm)); (u "mem_percent", sz_percent vm);
    (u "swap_total", JInt (sz_total sw)); (u "swap_used", JInt (sz_used sw)); (u "swap_percent", sz_percent sw);
    (u "disk_total", JInt (sz_total disk)); (u "disk_used", JInt (sz_used disk)); (u "disk_percent", sz_percent disk);
    (u "net_bytes_sent_sec", JInt sent_sec); (u "net_bytes_recv_sec", JInt recv_sec);
    (u "active_sessions", JInt active)].

Definition publish_redis mc (now : Z) (snap : dict) : io state unit :=
  let raw := json_dumps false (JObj snap) in
  let iid := mc_instance_id mc in
  _ ← mt_on_redis (client_setex now (METRICS_LATEST iid) METRICS_LATEST_TTL raw);
  _ ← mt_on_lists (redis_lpush (METRICS_SERIES iid) raw);
  _ ← mt_on_lists (redis_ltrim (METRICS_SERIES iid) 0 SERIES_MAX_LEN);
  mt_on_redis (client_setex now (HEARTBEAT iid) HEARTBEAT_REDIS_TTL raw).

Definition heartbeat_pg mc (now : Z) (snap : dict) : io state unit :=
  mt_transaction (node_upsert (node_of mc now now snap) (λ old,
    {| n_instance_id := n_instance_id old; n_hostname := mc_hostname mc; n_ip := mc_lan_ip mc; n_services := detect_services;
       n_resources := resources_of snap; n_last_heartbeat := now; n_registered_at := n_registered_at old |})).

(** One turn of [_loop]: whatever fails is logged. *)
Definition tick mc (now : Z) (h : host_reading) : io state unit :=
  io_try (snap ← snapshot mc now h; _ ← publish_redis mc now snap; heartbeat_pg mc now snap) (λ _, mret tt).
Fixpoint loop mc (readings : list (Z * host_reading)) : io state unit :=
  match readings with
  | [] => mret tt
  | (now, h) :: readings' => _ ← tick mc now h; loop mc readings'
  end.
End Collector.

(** ** Lemmas *)

#[local] Opaque u.

(** A float without a minus sign. *)
Definition unsigned (x : float) : Prop :=
  match x with S754_zero s | S754_infinity s | S754_finite s _ _ => s = false | S754_nan => True end.

Lemma round_aux_unsigned m e l : unsigned (binary_round_aux 53 1024 false m e l).
Proof.
  unfold binary_round_aux. destruct (shr_fexp _ _ m e l) as [mrs e']. destruct (shr_fexp _ _ _ e' _) as [mrs' e''].
  destruct (shr_m mrs'); [done | by destruct (e'' <=? 1024 - 53) | done].
Qed.

Lemma float_of_int_unsigned z x : 0 <= z → float_of_int z = Ok x → unsigned x.
Proof.
  intros Hz. unfold float_of_int. assert (unsigned (binary_normalize 53 1024 z 0 false)) as Hu.
  { destruct z as [|p|p]; [done| |lia]. cbn [binary_normalize]. unfold binary_round.
    destruct (shl_align _ _ _) as [m e]. apply round_aux_unsigned. }
  by destruct (binary_normalize _ _ _ _ _); intros [= <-].
Qed.

Lemma fdiv_unsigned x y : unsigned x → unsigned y → unsigned (fdiv x y).
Proof.
  unfold fdiv, SFdiv. destruct x as [s| s| |s m e], y as [s'|s'| |s' m' e']; cbn [unsigned]; try done; try (by intros -> ->).
  intros -> ->. destruct (SFdiv_core_binary _ _ _ _ _ _) as [[q e''] l]. apply round_aux_unsigned.
Qed.

Lemma round_unsigned x n : unsigned x → round_float x = Ok n → 0 <= n.
Proof.
  destruct x as [s|s| |s m e]; cbn [unsigned round_float]; try done; [by intros _ [= <-]|].
  intros -> [= <-]. cbn [signed]. destruct (Z.leb_spec 0 e); [pose proof (Z.pow_nonneg 2 e); lia|].
  unfold round_half_even. assert (0 <= Z.pos m / 2 ^ (- e)) by (apply Z.div_pos; [lia | by apply Z.pow_pos_nonneg; lia]).
  destruct (_ <? _); [done|]. destruct (_ <? _); [lia|]. destruct (Z.even _); lia.
Qed.

(** The rates are not negative while the counters do not go back. *)
Lemma rates_nonneg prev_sent prev_received prev_ts now_ts received sent s r n :
  prev_sent <= sent → prev_received <= received →
  rates (Some (prev_sent, prev_received)) prev_ts now_ts received sent = Ok (s, r) →
  (round_float s = Ok n → 0 <= n) ∧ (round_float r = Ok n → 0 <= n).
Proof.
  intros Hs Hr. unfold rates. destruct (fgt _ _) eqn:Hdt; [|by intros [= <- <-]; split; intros [= <-]].
  assert (unsigned (fsub now_ts prev_ts)) as Hu.
  { revert Hdt. unfold fgt, SFltb. generalize (fsub now_ts prev_ts). intros [b|b| |b m e]; cbn; try done; by destruct b. }
  unfold rate. destruct (float_of_int (sent - prev_sent)) as [x|] eqn:Ex; [|discriminate].
  destruct (float_of_int (received - prev_received)) as [y|] eqn:Ey; [|discriminate]. intros [= <- <-].
  apply float_of_int_unsigned in Ex, Ey; [|lia..]. split; apply round_unsigned; by apply fdiv_unsigned.
Qed.

Section CollectorLemmas.
Context {R L D : Type} `{RedisLaws R} `{RedisListLaws L} `{!Table str ClusterNode D} `{!TableLaws str ClusterNode D}
  `{!NodeUpsert D} `{!NodeUpsertLaws D}.
Implicit Types (mc : MetricsCollector) (s : metrics_site R L D).

(** What a publication leaves in Redis when nobody else writes there. *)
Definition published mc (now : Z) (snap : dict) (w : world R) (l : L) (w' : world R) (l' : L) : Prop :=
  let raw := json_dumps false (JObj snap) in
  let iid := mc_instance_id mc in
  ∃ r', w' = with_store w r'
    ∧ live now r' = <[HEARTBEAT iid := Entry raw (Some (now + 1000 * HEARTBEAT_REDIS_TTL))]>
                      (<[METRICS_LATEST iid := Entry raw (Some (now + 1000 * METRICS_LATEST_TTL))]> (live now (w_store w)))
    ∧ lists l' = <[METRICS_SERIES iid := upto SERIES_MAX_LEN (raw :: default [] (lists l !! METRICS_SERIES iid))]> (lists l).

Lemma publish_run mc now snap s :
  w_env (mt_redis s) = [] →
  ∃ w l, publish_redis mc now snap s = (Ok tt, MetricsSite w l (mt_nodes s) (mt_prev_net s) (mt_prev_ts s))
    ∧ published mc now snap (mt_redis s) (mt_lists s) w l.
Proof.
  intros Hw. unfold publish_redis, published. cbv zeta. set (raw := json_dumps false (JObj snap)). set (iid := mc_instance_id mc).
  rewrite io_bind_run. unfold mt_on_redis at 1, io_zoom.
  destruct (client_setex_alone now (METRICS_LATEST iid) METRICS_LATEST_TTL raw (mt_redis s) Hw) as (r1 & -> & L1); [done|].
  rewrite io_bind_run. unfold mt_on_lists at 1, io_zoom. cbn [mt_lists].
  destruct (lpush_law (METRICS_SERIES iid) raw (mt_lists s)) as (l1 & -> & Hl1).
  rewrite io_bind_run. unfold mt_on_lists, io_zoom. cbn [mt_lists].
  destruct (ltrim_law (METRICS_SERIES iid) SERIES_MAX_LEN l1) as (l2 & -> & Hl2); [done|].
  unfold mt_on_redis, io_zoom. cbn [mt_redis mt_lists mt_nodes mt_prev_net mt_prev_ts].
  destruct (client_setex_alone now (HEARTBEAT iid) HEARTBEAT_REDIS_TTL raw (with_store (mt_redis s) r1)) as (r2 & -> & L2); [done..|].
  exists (with_store (mt_redis s) r2), l2. split; [done|]. exists r2. split; [done|]. split.
  - rewrite L2. cbn [w_store with_store]. by rewrite L1.
  - rewrite Hl2, Hl1. apply map_eq. intros k. destruct (decide (k = METRICS_SERIES iid)) as [->|Hk].
    + by rewrite lookup_alter_eq, !lookup_insert_eq.
    + by rewrite lookup_alter_ne, !lookup_insert_ne by done.
Qed.

(** Reading the host writes nothing into Redis and the table. *)
Lemma snapshot_frame mc now h s :
  w_env (mt_redis s) = [] → ∃ a prev ts, snapshot mc now h s = (a, MetricsSite (mt_redis s) (mt_lists s) (mt_nodes s) prev ts).
Proof.
  intros Hw. unfold snapshot. assert (∀ (e : exn) s, ∃ a prev ts, ((Err e : res dict), s)
    = (a, MetricsSite (mt_redis s) (mt_lists s) (mt_nodes s) prev ts)) as He by (intros e s0; exists (Err e), (mt_prev_net s0), (mt_prev_ts s0); by destruct s0).
  rewrite io_bind_run. unfold io_lift at 1. destruct (hr_memory h) as [[[[vm sw] disk] [[load1 load5] load15]]|e]; [|apply He].
  rewrite io_bind_run. unfold io_lift at 1. destruct (read_host_net h) as [net|e]; [|apply He].
  rewrite io_bind_run. cbn [io_get]. rewrite io_bind_run. unfold io_lift at 1. destruct (rates _ _ _ _ _) as [[a b]|e]; [|apply He].
  rewrite io_bind_run. cbn [io_modify].
  set (s1 := MetricsSite _ _ _ _ _). assert (∀ e : exn, ∃ a prev ts, ((Err e : res dict), s1)
    = (a, MetricsSite (mt_redis s) (mt_lists s) (mt_nodes s) prev ts)) as He1 by (intros e; eexists _, _, _; reflexivity).
  rewrite io_bind_run. unfold io_lift at 1. destruct (int_of_float _) as [ts|e]; [|apply He1].
  rewrite io_bind_run. unfold io_lift at 1. destruct (hr_cpu h) as [cpu|e]; [|apply He1].
  rewrite io_bind_run. unfold io_lift at 1. destruct (round_float (a, b).1) as [x|e]; [|apply He1].
  rewrite io_bind_run. unfold io_lift at 1. destruct (round_float (a, b).2) as [y|e]; [|apply He1].
  rewrite io_bind_run. unfold count_active_sessions, mt_on_redis, io_zoom, io_try. rewrite io_bind_run.
  rewrite client_scan_alone by exact Hw. cbn. eexists _, _, _. reflexivity.
Qed.

(** The row that a heartbeat leaves keeps the time of the first one. *)
Lemma heartbeat_run mc now snap s :
  keyed (rows (mt_nodes s)) →
  ∃ a d, heartbeat_pg mc now snap s = (a, MetricsSite (mt_redis s) (mt_lists s) d (mt_prev_net s) (mt_prev_ts s))
    ∧ (row_fits (node_of mc now now snap) = true →
       rows d = <[mc_instance_id mc := node_of mc now (from_option n_registered_at now (rows (mt_nodes s) !! mc_instance_id mc)) snap]>
                  (rows (mt_nodes s)))
    ∧ (row_fits (node_of mc now now snap) = false → d = mt_nodes s).
Proof.
  intros Hkeyed. unfold heartbeat_pg, mt_transaction, io_zoom, io_transaction.
  set (f := λ old : ClusterNode, _). destruct (row_fits (node_of mc now now snap)) eqn:Hfit.
  - destruct (node_upsert_law (node_of mc now now snap) f (mt_nodes s) Hfit) as (d & -> & E).
    { intros old Hk. exact Hk. }
    exists (Ok tt), d. split; [done|]. split; [|done]. intros _. rewrite E. unfold upserted. cbn [n_instance_id node_of].
    f_equal. destruct (rows (mt_nodes s) !! mc_instance_id mc) as [old|] eqn:Eo; [|done].
    cbn [from_option]. unfold f, node_of. f_equal. exact (Hkeyed _ _ Eo).
  - rewrite (node_upsert_unfit _ _ _ Hfit). eexists _, _. split; [reflexivity|]. by split.
Qed.

(** A turn publishes the snapshot, when one could be taken, and whatever the
    database does afterwards. *)
Lemma tick_published mc now h s :
  w_env (mt_redis s) = [] →
  ∃ s', tick mc now h s = (Ok tt, s') ∧
    match (snapshot mc now h s).1 with
    | Ok snap => published mc now snap (mt_redis s) (mt_lists s) (mt_redis s') (mt_lists s')
    | Err _ => mt_redis s' = mt_redis s ∧ mt_lists s' = mt_lists s
    end.
Proof.
  intros Hw. unfold tick, io_try. rewrite io_bind_run. destruct (snapshot_frame mc now h s Hw) as (a & prev & ts & ->).
  cbn [fst]. destruct a as [snap|e]; [|by eexists]. set (s1 := MetricsSite _ _ _ prev ts). rewrite io_bind_run.
  destruct (publish_run mc now snap s1 Hw) as (w & l & -> & Hp). unfold heartbeat_pg, mt_transaction, io_zoom.
  destruct (io_transaction _ _) as [[[]|e] d]; by eexists.
Qed.
End CollectorLemmas.

(** The snapshots that the loop takes, newest first: the turns in which the host
    could not be read take none. *)
Fixpoint taken {R L D : Type} `{Redis R} `{RedisLists L} `{!NodeUpsert D} (mc : MetricsCollector)
    (readings : list (Z * host_reading)) (s : metrics_site R L D) : list (Z * dict) :=
  match readings with
  | [] => []
  | (now, h) :: readings' =>
      taken mc readings' (tick mc now h s).2
      ++ match (snapshot mc now h s).1 with Ok snap => [(now, snap)] | Err _ => [] end
  end.

(** ** Properties *)

(** A turn of the collector never raises. When the host cannot be read
    nothing is written; otherwise the snapshot is the latest one and the newest of
    the series, and the row of the node, if it fits, holds it with the time of this
    heartbeat and of the first one, while the rows of other nodes stay. *)
Theorem metrics_tick {R L D : Type} `{RedisLaws R} `{RedisListLaws L} `{!Table str ClusterNode D} `{!TableLaws str ClusterNode D}
    `{!NodeUpsert D} `{!NodeUpsertLaws D} (mc : MetricsCollector) (now : Z) (h : host_reading) (s : metrics_site R L D) :
  w_env (mt_redis s) = [] → keyed (rows (mt_nodes s)) →
  ∃ s', tick mc now h s = (Ok tt, s') ∧
    match (snapshot mc now h s).1 with
    | Err _ => mt_redis s' = mt_redis s ∧ mt_lists s' = mt_lists s ∧ mt_nodes s' = mt_nodes s
    | Ok snap =>
        published mc now snap (mt_redis s) (mt_lists s) (mt_redis s') (mt_lists s')
        ∧ (row_fits (node_of mc now now snap) = true →
           rows (mt_nodes s') = <[mc_instance_id mc :=
             node_of mc now (from_option n_registered_at now (rows (mt_nodes s) !! mc_instance_id mc)) snap]> (rows (mt_nodes s)))
        ∧ (row_fits (node_of mc now now snap) = false → mt_nodes s' = mt_nodes s)
    end.
Proof.
  intros Hw Hkeyed. unfold tick, io_try. rewrite io_bind_run. destruct (snapshot_frame mc now h s Hw) as (a & prev & ts & ->).
  cbn [fst]. destruct a as [snap|e]; [|eexists; split; [reflexivity | done]].
  set (s1 := MetricsSite _ _ _ prev ts). rewrite io_bind_run.
  destruct (publish_run mc now snap s1 Hw) as (w & l & -> & Hp).
  destruct (heartbeat_run mc now snap (MetricsSite w l (mt_nodes s1) (mt_prev_net s1) (mt_prev_ts s1)) Hkeyed) as (a & d & -> & Hd).
  destruct a as [[]|e]; (eexists; split; [reflexivity|]; split; [exact Hp | exact Hd]).
Qed.

(** ** Witnesses *)

#[local] Instance demo_upsert : NodeUpsert (gmap str ClusterNode) := {|
  node_upsert r f m := if row_fits r then (Ok tt, upserted r f m) else (Err DataError, m) |}.
#[local] Instance demo_upsert_laws : NodeUpsertLaws (gmap str ClusterNode).
Proof.
  constructor.
  - intros r f d Hf _. exists (upserted r f d). cbn [node_upsert demo_upsert]. by rewrite Hf.
  - intros r f d Hf. cbn [node_upsert demo_upsert]. by rewrite Hf.
  - intros r f d e d'. cbn [node_upsert demo_upsert]. by destruct (row_fits r); intros [=].
Qed.

Definition demo_collector : MetricsCollector := make_collector (u "node-1") (u "10.0.0.1") (u "metrics") (u "cpu") 10 2400.
Definition demo_sizes : sizes := {| sz_total := 100; sz_used := 40; sz_percent := JFloat (u "40.0") |}.
Definition demo_reading : host_reading := {|
  hr_memory := Ok (demo_sizes, demo_sizes, demo_sizes, (JFloat (u "0.5"), JFloat (u "0.25"), JFloat (u "0.1")));
  hr_net_dev := Ok [u "Inter-| Receive"; u "  lo: 7 1 0 0 0 0 0 0 7 1"; u " eth0: 3000 1 0 0 0 0 0 0 1500 9 0"];
  hr_net_io := Err OtherError; hr_time := S754_finite false 10 0; hr_cpu := Ok (JFloat (u "3.5"), Some 8) |}.
Definition demo_metrics : metrics_site store (gmap str (list str)) (gmap str ClusterNode) :=
  MetricsSite (quiet ∅) ∅ ∅ (Some (500, 1000)) (S754_finite false 4 0).


(** The loopback interface is left out; a second is what the counters grew in six,
    divided and rounded. *)
Example demo_snapshot :
  read_host_net demo_reading = Ok (3000, 1500)
  ∧ dict_get (u "net_bytes_sent_sec") (match (snapshot demo_collector 0 demo_reading demo_metrics).1 with Ok d => d | _ => [] end) = Some (JInt 167)
  ∧ dict_get (u "net_bytes_recv_sec") (match (snapshot demo_collector 0 demo_reading demo_metrics).1 with Ok d => d | _ => [] end) = Some (JInt 333).
Proof. vm_compute. done. Qed.

Lemma metrics_tick_witness :
  ∃ s', tick demo_collector 5000 demo_reading demo_metrics = (Ok tt, s') ∧
    match (snapshot demo_collector 5000 demo_reading demo_metrics).1 with
    | Err _ => mt_redis s' = mt_redis demo_metrics ∧ mt_lists s' = mt_lists demo_metrics ∧ mt_nodes s' = mt_nodes demo_metrics
    | Ok snap =>
        published demo_collector 5000 snap (mt_redis demo_metrics) (mt_lists demo_metrics) (mt_redis s') (mt_lists s')
        ∧ (row_fits (node_of demo_collector 5000 5000 snap) = true →
           rows (mt_nodes s') = <[mc_instance_id demo_collector :=
             node_of demo_collector 5000 (from_option n_registered_at 5000 (rows (mt_nodes demo_metrics) !! mc_instance_id demo_collector)) snap]>
             (rows (mt_nodes demo_metrics)))
        ∧ (row_fits (node_of demo_collector 5000 5000 snap) = false → mt_nodes s' = mt_nodes demo_metrics)
    end.
Proof. refine (metrics_tick demo_collector 5000 demo_reading demo_metrics _ _); [reflexivity|].
  change (keyed (∅ : gmap str ClusterNode)). apply map_Forall_empty.
Defined.
Close Scope Z_scope.
