(* ===== verification/AdminOverview.v ===== *)
(** What the administration shows of the installation, from
    [services/admin/routes/cluster.py], [services_mgmt.py] and [stats.py]: the
    nodes and services that Redis names, the health of the services, the signal
    to restart, the counts of the dashboard and the series of the metrics. The time
    a probe took, rounded to a tenth of a millisecond, comes with its answer. *)

From stdpp Require Import prelude gmap list strings.
From Stdlib Require Import ZArith Lia.
From Stdlib Require Strings.String.
From S2P Require Import Prelude PySeq PyBytes PyStr Json PyUuid Redis Keys Sessions Database Models Certificates Metrics.

Open Scope Z_scope.

(** ** Services *)

(** How a service is looked at, with what its peer answered and how long it took:
    a connection that opens, the first bytes of a page, the first bytes of the
    statistics. *)
Inductive service_check : Type :=
  | CheckSelf
  | CheckHeartbeat
  | CheckTcp (opened : res unit) (latency : json)
  | CheckHttp (reply : res bytes) (latency : json)
  | CheckHaproxy (reply : res bytes) (latency : json).

Definition RUNNING : str := u "running".
Definition STOPPED : str := u "stopped".
Definition UNHEALTHY : str := u "unhealthy".

Definition check_tcp (opened : res unit) (latency : json) : str * json :=
  match opened with Ok _ => (RUNNING, latency) | Err _ => (STOPPED, JInt 0) end.

(** [response.split(b CRLF, 1)\[0\]] *)
Definition status_line (response : bytes) : bytes :=
  match find (bz [13; 10]) response 0 with Some i => take i response | None => response end.
Definition check_http (reply : res bytes) (latency : json) : str * json :=
  match reply with
  | Ok response => (if contains (u " 200 ") (utf8_decode_replace (status_line response)) then RUNNING else UNHEALTHY, latency)
  | Err _ => (STOPPED, JInt 0)
  end.
Definition check_haproxy_stats (reply : res bytes) (latency : json) : str * json :=
  match reply with Ok data => (if contains (bl "Uptime") data then RUNNING else UNHEALTHY, latency) | Err _ => (STOPPED, JInt 0) end.

Section Overview.
Context {R : Type} `{Redis R}.

(** The first key with a time to live decides. *)
Fixpoint any_heartbeat (now : Z) (ks : list str) : io (world R) bool :=
  match ks with
  | [] => mret false
  | k :: ks' => ttl ← client_ttl now k; if 0 <? ttl then mret true else any_heartbeat now ks'
  end.
Definition HEARTBEAT_SCAN : str := u "rdp:heartbeat:*".
Definition check_redis_heartbeat (now : Z) : io (world R) str :=
  io_try (ks ← client_scan now HEARTBEAT_SCAN; alive ← any_heartbeat now ks; mret (if alive : bool then RUNNING else STOPPED))
         (λ _, mret STOPPED).

Definition check_one (now : Z) (name : str) (c : service_check) : io (world R) dict :=
  checked ← match c with
            | CheckSelf => mret (RUNNING, JInt 0)
            | CheckHeartbeat => status ← check_redis_heartbeat now; mret (status, JInt 0)
            | CheckHaproxy reply latency => mret (check_haproxy_stats reply latency)
            | CheckHttp reply latency => mret (check_http reply latency)
            | CheckTcp opened latency => mret (check_tcp opened latency)
            end;
  mret [(u "name", JStr name); (u "status", JStr checked.1); (u "latency_ms", checked.2)].
Fixpoint service_health (now : Z) (checks : list (str * service_check)) : io (world R) (list dict) :=
  match checks with
  | [] => mret []
  | (name, c) :: checks' => entry ← check_one now name c; rest ← service_health now checks'; mret (entry :: rest)
  end.

(** ** Nodes *)

(** What the keys hold that can be read, in the order of the keys. *)
Fixpoint read_nodes (now : Z) (ks : list str) : io (world R) (list (str * json)) :=
  match ks with
  | [] => mret []
  | k :: ks' =>
      raw ← client_get now k;
      rest ← read_nodes now ks';
      mret (match some_text raw with
            | Some text => match json_loads text with Ok data => (k, data) :: rest | Err _ => rest end
            | None => rest
            end)
  end.
Definition list_nodes (now : Z) : io (world R) (list json) :=
  ks ← client_scan now NODE_SCAN; nodes ← read_nodes now ks; mret (map snd nodes).

Definition get_node (now : Z) (instance_id : str) : io (world R) json :=
  raw ← client_get now (NODE instance_id);
  mret (match some_text raw with
        | None => JObj [(u "error", JStr (u "Node not found"))]
        | Some text => match json_loads text with Ok data => data | Err _ => JObj [(u "error", JStr (u "Invalid data"))] end
        end).

(** The services one node reports: anything but a dict raises. *)
Definition service_entry (node_id hostname : json) (svc : str * json) : res dict :=
  match svc.2 with
  | JObj info => Ok [
      (u "node", node_id); (u "instance_id", hostname); (u "service", JStr svc.1);
      (u "status", dict_get_or (u "status") (JStr (u "unknown")) info);
      (u "port", dict_get_or (u "port") JNull info); (u "pid", dict_get_or (u "pid") JNull info)]
  | _ => Err OtherError
  end.
Fixpoint service_entries (node_id hostname : json) (svcs : list (str * json)) : res (list dict) :=
  match svcs with
  | [] => Ok []
  | svc :: svcs' => e ← service_entry node_id hostname svc; es ← service_entries node_id hostname svcs'; Ok (e :: es)
  end.
Definition node_services (node : str * json) : res (list dict) :=
  match node.2 with
  | JObj data =>
      let hostname := dict_get_or (u "hostname") JNull data in
      let node_id := dict_get_or (u "hostname") (JStr node.1) data in
      let services := dict_get_or (u "services") JNull data in
      match services with
      | JObj svcs => service_entries node_id hostname svcs
      | v => if truthy v then Err OtherError else Ok []
      end
  | _ => Err OtherError
  end.
(** The nodes one by one: the first that cannot be shown ends the request. *)
Fixpoint services_of (now : Z) (ks : list str) : io (world R) (list dict) :=
  match ks with
  | [] => mret []
  | k :: ks' =>
      raw ← client_get now k;
      match some_text raw with
      | Some text =>
          match json_loads text with
          | Ok data => es ← io_lift (node_services (k, data)); rest ← services_of now ks'; mret (es ++ rest)
          | Err _ => services_of now ks'
          end
      | None => services_of now ks'
      end
  end.
Definition list_services (now : Z) : io (world R) (list dict) :=
  ks ← client_scan now NODE_SCAN; services_of now ks.

Definition restart_service (now : Z) : io (world R) unit :=
  client_setex now SIGNAL_RESTART SIGNAL_RESTART_TTL (u "1").
End Overview.

(** ** The dashboard *)

Definition overview {R DH} `{Redis R} `{!Table uuid ConnectionHistory DH} (now today_start : Z) (history : DH) : io (world R) (nat * nat) :=
  active_keys ← client_scan now ACTIVE_SCAN;
  mret (length active_keys, length (db_select (K := uuid) (λ r, today_start <=? h_started_at r) history)).

(** The readable points of a series, and the latest snapshot or nothing. *)
Definition readable_points (points_raw : list str) : list json :=
  omap (λ p, match json_loads p with Ok v => Some v | Err _ => None end) points_raw.
Definition latest_of (raw : option str) : json :=
  match some_text raw with
  | Some text => match json_loads text with Ok v => v | Err _ => JObj [] end
  | None => JObj []
  end.
Definition PERIOD_POINTS : list (str * Z) := [(u "1h", 360); (u "6h", 2160); (u "24h", 8640)].
Definition points_for (period : str) : Z := from_option snd 360 (List.find (λ kv, bool_decide (kv.1 = period)) PERIOD_POINTS).
Definition resources {R L} `{Redis R} `{RedisLists L} (now : Z) (iid period : str) (l : L) : io (world R) dict :=
  raw ← client_get now (METRICS_LATEST iid);
  let points_raw := redis_lrange (METRICS_SERIES iid) 0 (points_for period) l in
  mret [(u "latest", latest_of raw); (u "points", JList (readable_points points_raw))].

(** ** Lemmas *)

#[local] Opaque u.
Section OverviewLemmas.
Context {R : Type} `{RedisLaws R}.
Implicit Types (w : world R).

Lemma read_nodes_run now ks w :
  w_env w = [] →
  read_nodes now ks w = (Ok (omap (λ k,
    match some_text (e_value <$> live now (w_store w) !! k) with
    | Some text => match json_loads text with Ok data => Some (k, data) | Err _ => None end
    | None => None
    end) ks), w).
Proof.
  intros Hw. induction ks as [|k ks IH]; [done|]. cbn [read_nodes omap list_omap]. rewrite io_bind_run, client_get_alone by done.
  rewrite io_bind_run, IH. cbn [mret io_ret].
  destruct (some_text _) as [text|]; [destruct (json_loads text)|]; reflexivity.
Qed.

(** The metrics service looks alive exactly when some heartbeat has half a second
    left or more. *)
Lemma heartbeat_running now w :
  w_env w = [] →
  check_redis_heartbeat now w
  = (Ok (if existsb (λ k, 0 <? ttl_of now (live now (w_store w) !! k)) (redis_scan now HEARTBEAT_SCAN (w_store w)) then RUNNING else STOPPED), w).
Proof.
  intros Hw. unfold check_redis_heartbeat, io_try. rewrite io_bind_run, client_scan_alone by done. rewrite io_bind_run.
  assert (∀ ks, any_heartbeat now ks w = (Ok (existsb (λ k, 0 <? ttl_of now (live now (w_store w) !! k)) ks), w)) as Ha.
  { induction ks as [|k ks IH]; [done|]. cbn [any_heartbeat existsb]. rewrite io_bind_run. unfold client_ttl, reading.
    rewrite interfere_alone by done. rewrite ttl_live. destruct (0 <? _); [done | exact IH]. }
  by rewrite Ha.
Qed.

(** Without a live key of a node there is nothing to list. *)
Lemma no_nodes now w :
  w_env w = [] → (∀ k, starts_with (u "rdp:node:") k = true → live now (w_store w) !! k = None) →
  list_nodes now w = (Ok [], w) ∧ list_services now w = (Ok [], w).
Proof.
  intros Hw Hn.
  assert (redis_scan now NODE_SCAN (w_store w) = []) as Hs.
  { destruct (redis_scan now NODE_SCAN (w_store w)) as [|k ks] eqn:E; [done|]. exfalso.
    assert (k ∈ redis_scan now (u "rdp:node:" ++ u "*") (w_store w)) as Hk.
    { replace (u "rdp:node:" ++ u "*") with NODE_SCAN by (vm_compute; reflexivity). rewrite E. left. }
    apply scan_live in Hk as [[e He] Hp].
    - rewrite Hn in He by done. discriminate.
    - apply (bool_decide_eq_true_1 (Forall _ _)). vm_compute. reflexivity. }
  unfold list_nodes, list_services. by rewrite !io_bind_run, client_scan_alone, Hs by done.
Qed.
End OverviewLemmas.

(** ** What the collector publishes *)

Section Shown.
Context {R L : Type} `{RedisLaws R} `{RedisListLaws L}.
Implicit Types (w : world R) (l : L) (mc : MetricsCollector).

(** Snapshots published one after the other, newest first. *)
Inductive publications mc (w0 : world R) (l0 : L) : list (Z * dict) → world R → L → Prop :=
  | no_publication : publications mc w0 l0 [] w0 l0
  | next_publication snaps now snap w l w' l' :
      publications mc w0 l0 snaps w l → published mc now snap w l w' l' → publications mc w0 l0 ((now, snap) :: snaps) w' l'.

Lemma published_env mc now snap w l w' l' : published mc now snap w l w' l' → w_env w = [] → w_env w' = [].
Proof. intros (r' & -> & _) Hw. exact Hw. Qed.

Lemma series_of mc w0 l0 snaps w l :
  lists l0 !! METRICS_SERIES (mc_instance_id mc) = None → publications mc w0 l0 snaps w l →
  default [] (lists l !! METRICS_SERIES (mc_instance_id mc))
  = upto SERIES_MAX_LEN (map (λ p, json_dumps false (JObj p.2)) snaps).
Proof.
  intros Hno. induction 1 as [|snaps now snap w l w' l' _ IH (r' & _ & _ & ->)]; [by rewrite Hno|].
  rewrite lookup_insert_eq. cbn [default from_option id map]. rewrite IH. unfold upto. cbn [take]. rewrite take_take.
  by replace (S (Z.to_nat SERIES_MAX_LEN) `min` Z.to_nat SERIES_MAX_LEN)%nat with (Z.to_nat SERIES_MAX_LEN) by lia.
Qed.

Lemma readable_dumps snaps :
  Forall (λ p : Z * dict, json_ok (JObj p.2)) snaps →
  readable_points (map (λ p, json_dumps false (JObj p.2)) snaps) = map (λ p, JObj p.2) snaps.
Proof.
  induction 1 as [|p snaps Hp _ IH]; [done|]. unfold readable_points in *. cbn [map omap list_omap].
  by rewrite json_loads_dumps, IH.
Qed.

Lemma points_for_bound period : 0 <= points_for period <= SERIES_MAX_LEN.
Proof.
  unfold points_for, PERIOD_POINTS, SERIES_MAX_LEN. cbn [List.find].
  repeat (case_bool_decide; [cbn [from_option snd]; lia|]). cbn [from_option]. lia.
Qed.

Lemma upto_upto {A} m n (xs : list A) : m <= n → upto m (upto n xs) = upto m xs.
Proof. intros Hmn. unfold upto. rewrite take_take. f_equal. lia. Qed.

(** What is left of an entry after some time. *)
Lemma live_after now t key v d (r : R) :
  now <= t → live now r !! key = Some (Entry v (Some d)) → live t r !! key = if t <=? d then Some (Entry v (Some d)) else None.
Proof.
  intros Hle Hk. rewrite (live_later now t) by done. rewrite Hk. cbn. unfold alive. cbn [e_deadline].
  rewrite Z.ltb_antisym. by destruct (t <=? d).
Qed.

Lemma publications_last mc w0 l0 now snap snaps w l :
  publications mc w0 l0 ((now, snap) :: snaps) w l → ∃ w1 l1, published mc now snap w1 l1 w l.
Proof. inversion 1; subst; eauto. Qed.

Lemma publications_env mc w0 l0 snaps w l : w_env w0 = [] → publications mc w0 l0 snaps w l → w_env w = [].
Proof. intros Hw. induction 1; [exact Hw | by eapply published_env]. Qed.

(** The loop publishes what it takes. *)
Lemma loop_published {D} `{!NodeUpsert D} mc readings w0 l0 snaps (s : metrics_site R L D) :
  w_env w0 = [] → publications mc w0 l0 snaps (mt_redis s) (mt_lists s) →
  ∃ s', loop mc readings s = (Ok tt, s') ∧ publications mc w0 l0 (taken mc readings s ++ snaps) (mt_redis s') (mt_lists s').
Proof.
  intros Hw0. revert snaps s. induction readings as [|[now h] readings IH]; intros snaps s Hp; [by exists s|].
  cbn [loop taken]. rewrite io_bind_run.
  destruct (tick_published mc now h s (publications_env _ _ _ _ _ _ Hw0 Hp)) as (s1 & -> & Ht). cbn [snd].
  destruct (snapshot mc now h s).1 as [snap|e].
  - rewrite <- app_assoc. apply IH. by eapply next_publication.
  - rewrite app_nil_r. apply IH. by destruct Ht as [-> ->].
Qed.
End Shown.

(** ** Properties *)

(** C39: what the collector of an instance gathers is what the page of the
    administration shows of it. Its loop outlives whatever the host or the database
    does in a turn; and after any turns, from an empty series, while Redis answers
    and nobody else writes there and the snapshots are proper JSON, the page has the last snapshot that could be taken, for as long
    as it lives, of the series the newest snapshots in their order and one more
    than the period names; and the metrics service is shown as running until half a
    second before the heartbeat of that snapshot expires. *)
Theorem metrics_shown {R L D : Type} `{RedisLaws R} `{RedisListLaws L} `{!NodeUpsert D} (mc : MetricsCollector)
    (readings : list (Z * host_reading)) (s0 : metrics_site R L D) (now t : Z) (snap : dict) (older : list (Z * dict)) (period : str) :
  w_env (mt_redis s0) = [] → lists (mt_lists s0) !! METRICS_SERIES (mc_instance_id mc) = None →
  taken mc readings s0 = (now, snap) :: older → Forall (λ p, json_ok (JObj p.2)) ((now, snap) :: older) → now <= t →
  ∃ s, loop mc readings s0 = (Ok tt, s)
    ∧ resources t (mc_instance_id mc) period (mt_lists s) (mt_redis s)
      = (Ok [(u "latest", if t <=? now + 1000 * METRICS_LATEST_TTL then JObj snap else JObj []);
             (u "points", JList (take (S (Z.to_nat (points_for period))) (map (λ p, JObj p.2) ((now, snap) :: older))))], mt_redis s)
    ∧ (t + 500 <= now + 1000 * HEARTBEAT_REDIS_TTL → check_redis_heartbeat t (mt_redis s) = (Ok RUNNING, mt_redis s)).
Proof.
  intros Hw0 Hno Htaken Hok Hle.
  destruct (loop_published mc readings (mt_redis s0) (mt_lists s0) [] s0 Hw0) as (s & E & Hpub); [apply no_publication|].
  rewrite app_nil_r, Htaken in Hpub. exists s. split; [exact E|]. clear E Htaken. revert Hpub.
  generalize (mt_redis s) as w, (mt_lists s) as l. intros w l Hpub. set (iid := mc_instance_id mc) in *.
  pose proof (publications_env _ _ _ _ _ _ Hw0 Hpub) as Hw. pose proof (series_of _ _ _ _ _ _ Hno Hpub) as Hseries.
  assert (live now (w_store w) !! METRICS_LATEST iid = Some (Entry (json_dumps false (JObj snap)) (Some (now + 1000 * METRICS_LATEST_TTL)))
    ∧ live now (w_store w) !! HEARTBEAT iid = Some (Entry (json_dumps false (JObj snap)) (Some (now + 1000 * HEARTBEAT_REDIS_TTL)))) as [Hl Hh].
  { destruct (publications_last _ _ _ _ _ _ _ _ Hpub) as (w1 & l1 & r' & -> & E & _). cbn [w_store with_store]. rewrite E. fold iid. split.
    - rewrite lookup_insert_ne by (unfold HEARTBEAT, METRICS_LATEST; intros Hk; vm_compute in Hk; discriminate). apply lookup_insert_eq.
    - apply lookup_insert_eq. }
  apply (live_after now t) in Hl, Hh; [|done..]. split.
  - unfold resources. rewrite io_bind_run, client_get_alone, Hl by exact Hw. cbv zeta.
    pose proof (points_for_bound period) as [Hp0 Hp]. rewrite lrange_law by exact Hp0. fold iid in Hseries. rewrite Hseries, upto_upto by exact Hp.
    unfold upto. rewrite !firstn_map, readable_dumps by by apply Forall_take.
    destruct (t <=? now + 1000 * METRICS_LATEST_TTL); [|done]. cbn [fmap option_fmap option_map e_value]. unfold latest_of.
    rewrite some_text_dumps, json_loads_dumps; [done|]. by apply Forall_cons in Hok as [Hok _].
  - intros Ht. rewrite (proj2 (Z.leb_le _ _)) in Hh by lia. rewrite heartbeat_running by exact Hw.
    assert (HEARTBEAT iid ∈ redis_scan t HEARTBEAT_SCAN (w_store w)) as Hin.
    { replace HEARTBEAT_SCAN with (u "rdp:heartbeat:" ++ u "*") by (vm_compute; reflexivity). apply scan_live.
      - apply (bool_decide_eq_true_1 (Forall _ _)). vm_compute. reflexivity.
      - split; [by rewrite Hh | apply starts_with_app]. }
    assert (existsb (λ k, 0 <? ttl_of t (live t (w_store w) !! k)) (redis_scan t HEARTBEAT_SCAN (w_store w)) = true) as ->; [|done].
    apply existsb_exists. exists (HEARTBEAT iid). split; [by apply list_elem_of_In|]. rewrite Hh. cbn [ttl_of e_deadline].
    apply Z.ltb_lt. apply Z.div_str_pos. lia.
Qed.

(** ** Witnesses *)

#[local] Transparent u.
(** A host that can be read, and then one that cannot. *)
Definition demo_readings : list (Z * host_reading) :=
  [(5000, demo_reading); (6000, {| hr_memory := Err OtherError; hr_net_dev := hr_net_dev demo_reading; hr_net_io := Err OtherError;
                                   hr_time := hr_time demo_reading; hr_cpu := hr_cpu demo_reading |})].
#[local] Existing Instance demo_upsert.
Definition demo_taken : dict := match taken demo_collector demo_readings demo_metrics with [(_, snap)] => snap | _ => [] end.

Example demo_page :
  match resources 9000 (u "node-1") (u "6h") (mt_lists (loop demo_collector demo_readings demo_metrics).2)
          (mt_redis (loop demo_collector demo_readings demo_metrics).2) with
  | (Ok page, _) => dict_get (u "points") page
  | _ => None
  end = Some (JList [JObj demo_taken]) ∧ dict_get (u "cpu_count") demo_taken = Some (JInt 8).
Proof. vm_compute. done. Qed.

Definition digit_b (c : N) : bool := (48 <=? c)%N && (c <? 58)%N.
Definition decimal_b (s : str) : bool :=
  match split_first 46%N s with
  | Some (c :: i, d :: f) =>
      (bool_decide (c :: i = [48%N]) || (49 <=? c)%N && forallb digit_b (c :: i)) && forallb digit_b (d :: f)
  | _ => false
  end.
Lemma digits_b l : forallb digit_b l = true → digits l.
Proof.
  intros Hl. apply Forall_forall. intros c Hc. rewrite forallb_forall in Hl. apply list_elem_of_In, Hl, andb_true_iff in Hc as [H1 H2].
  apply N.leb_le in H1. apply N.ltb_lt in H2. done.
Qed.
Lemma decimal_ok s : decimal_b s = true → json_ok (JFloat s).
Proof.
  unfold decimal_b. destruct (split_first 46%N s) as [[[|c i] [|d f]]|] eqn:E; try done.
  apply split_first_Some in E as [-> _]. intros [Hi Hf%digits_b]%andb_true_iff.
  exists [], (c :: i), (46%N :: d :: f), []. split; [by rewrite app_nil_r|]. split; [by left|]. split.
  - apply orb_true_iff in Hi as [Hi%bool_decide_eq_true|Hi]; [by left|]. right. apply andb_true_iff in Hi as [Hc%N.leb_le Hi%digits_b].
    apply Forall_cons in Hi as [Hc' Hi]. exists c, i. split; [done|]. split; [cbv beta in Hc'; lia | exact Hi].
  - split; [right; by exists d, f|]. split; by left.
Qed.

Lemma metrics_shown_witness :
  ∃ s, loop demo_collector demo_readings demo_metrics = (Ok tt, s)
    ∧ resources 9000 (u "node-1") (u "6h") (mt_lists s) (mt_redis s)
      = (Ok [(u "latest", if 9000 <=? 5000 + 1000 * METRICS_LATEST_TTL then JObj demo_taken else JObj []);
             (u "points", JList (take (S (Z.to_nat (points_for (u "6h")))) (map (λ p, JObj p.2) [(5000, demo_taken)])))], mt_redis s)
    ∧ (9000 + 500 <= 5000 + 1000 * HEARTBEAT_REDIS_TTL → check_redis_heartbeat 9000 (mt_redis s) = (Ok RUNNING, mt_redis s)).
Proof.
  apply (metrics_shown demo_collector demo_readings demo_metrics 5000 9000 demo_taken [] (u "6h")).
  - reflexivity.
  - vm_compute. reflexivity.
  - vm_compute. reflexivity.
  - apply Forall_singleton. cbn [snd].
    match goal with |- json_ok (JObj ?d) => let d' := eval vm_compute in d in replace d with d' by (vm_compute; reflexivity) end.
    apply json_ok_items; [apply (bool_decide_unpack _); vm_compute; exact I|].
    repeat (apply Forall_cons_2; [split; [reflexivity|]; cbn [snd];
      first [apply decimal_ok; vm_compute; reflexivity | apply scalar_b_spec; vm_compute; reflexivity
            | apply Nat.ltb_lt; vm_compute; reflexivity]|]).
    apply Forall_nil_2.
  - discriminate.
Defined.
Close Scope Z_scope.
