(* ===== verification/EndToEnd.v ===== *)
(** The whole way of a user: what the portal writes when it hands out a file is
    what the relay's door opens for ([services/portal/routes/servers.py],
    [libs/redis_store/sessions.py], [services/rdp_relay/handler.py]). The two
    processes share Redis and the key that encrypts passwords, and nothing else. *)

From stdpp Require Import prelude gmap list strings.
From Stdlib Require Import ZArith Lia.
From Stdlib Require Strings.String.
From S2P Require Import Prelude PySeq PyBytes PyStr Json Encodings Sha256 PyUuid Stream Tpkt X224 Redis Keys Encryption Sessions Plugins Mcs Quality Database Models Config Dns Settings Ldap Tracker Handler RdpFile Http Portal.

Open Scope Z_scope.

(** Binding a token fills in the one field that was null. *)
Lemma bind_payload username penc host port fp sid disp d :
  dict_set (u "fingerprint") (JStr d) (token_payload username penc host port fp sid disp)
  = token_payload username penc host port (JStr d) sid disp.
Proof.
  assert (u "username" ≠ u "fingerprint" ∧ u "password_enc" ≠ u "fingerprint" ∧ u "target_host" ≠ u "fingerprint"
    ∧ u "target_port" ≠ u "fingerprint") as (H1 & H2 & H3 & H4) by (vm_compute; repeat split; discriminate).
  unfold token_payload. cbn [dict_set]. rewrite !(bool_decide_eq_false_2) by congruence.
  by rewrite bool_decide_eq_true_2.
Qed.
#[local] Opaque u.

(** The door sends a client away: aborted, sent nothing, not tracked, and the
    stores as they were. *)
Definition turned_away {R DS DH DE} `{Redis R} `{!Table uuid RdpServer DS} `{!Table uuid ConnectionHistory DH} `{!Log ConnectionEvent DE}
    `{AESGCM} (h : RdpConnectionHandler) (mo : moment) (peer : option str) (c : conn R DS DH DE) : Prop :=
  ∀ net : Network R DS DH DE, ∃ c', handle h net mo peer c = (Ok tt, c')
    ∧ cn_aborted c' = true ∧ cn_written c' = cn_written c ∧ cn_cid c' = None
    ∧ tr_db (cn_tracking c') = tr_db (cn_tracking c) ∧ tr_redis (cn_tracking c') = tr_redis (cn_tracking c).

(** The record of a token is gone, or has the value that another store holds. *)
Definition kept_or_gone {R} `{RedisLaws R} (key : str) (now : Z) (r : R) (now2 : Z) (r2 : R) : Prop :=
  live now2 r2 !! key = None ∨ e_value <$> live now2 r2 !! key = e_value <$> live now r !! key.

(** Two requests with a token are a client's with one fingerprint. *)
Definition same_client (token : str) (req req2 : bytes) : Prop :=
  ∃ fp fp2 digest, build_rdp_client_fingerprint req token = Ok fp ∧ build_rdp_client_fingerprint req2 token = Ok fp2
    ∧ fingerprint_digest fp = Ok digest ∧ fingerprint_digest fp2 = Ok digest.

Section Door.
Context {R DS DH DE : Type} `{RedisLaws R} `{!Table uuid RdpServer DS}
  `{!Table uuid ConnectionHistory DH} `{!Log ConnectionEvent DE} `{AESGCM}.
Implicit Types (h : RdpConnectionHandler) (mo : moment) (c : conn R DS DH DE).

Lemma cookie_text ms l v : first_cookie ms l = Some v → text v.
Proof.
  induction ms as [|m ms IH]; [discriminate|]. cbn [first_cookie]. unfold cookie_value.
  destruct (find m l 0); [|exact IH]. cbv zeta. destruct (strip _) as [|x s] eqn:E; [exact IH|]. intros [= <-].
  rewrite <- E. apply Forall_forall. intros c Hc. apply strip_by_sub in Hc.
  pose proof (utf8_decode_ignore_scalar) as Hs. setoid_rewrite Forall_forall in Hs. by eapply Hs.
Qed.

(** The fingerprint of a client exists. *)
Lemma client_fingerprint req token : text token → ∃ fp d, build_rdp_client_fingerprint req token = Ok fp ∧ fingerprint_digest fp = Ok d.
Proof.
  intros Ht. unfold build_rdp_client_fingerprint. destruct (utf8_encode_scalar token Ht) as (b & Eb & _). rewrite Eb.
  eexists. cbn [mbind res_bind]. set (fp := _ ++ _).
  assert (text fp) as Hfp.
  { unfold fp. apply Forall_app. split; [|apply Forall_app; split].
    - unfold extract_rdp_client_hint. destruct (first_cookie _ _) as [v|] eqn:E; [by eapply cookie_text | constructor].
    - apply scalar_b_spec. vm_compute. reflexivity.
    - apply hex_text. }
  destruct (fingerprint_digest_text fp Hfp) as (l & Ed & _). eexists. split; [reflexivity | exact Ed].
Qed.

(** A digest is text, and is not empty. *)
Lemma digest_hex fp d : fingerprint_digest fp = Ok d → text d ∧ d ≠ [].
Proof.
  unfold fingerprint_digest. destruct (utf8_encode fp) as [l|e]; [|discriminate]. intros [= <-].
  split; [apply hex_text | apply hex_sha256_ne].
Qed.

(** The columns of a server's row. *)
Lemma row_texts (server : RdpServer) :
  row_fits server = true → text (s_display_name server) ∧ text (s_address server) ∧ small_int (s_port server).
Proof.
  intros Hfits. cbn [row_fits server_schema] in Hfits. rewrite !andb_true_iff in Hfits.
  destruct Hfits as [[[[_ Hd] Haddr] Hport] _].
  assert (∀ n x, text_fits n x = true → text x) as Htext.
  { intros n x Hx. unfold text_fits in Hx. rewrite !andb_true_iff in Hx. apply scalar_b_spec. tauto. }
  split; [by apply (Htext 255%nat)|]. split; [by apply (Htext 255%nat) | by apply int32_small].
Qed.

(** Binding a token that has half a second left or more. *)
Lemma set_token_fingerprint_quiet now token fp digest payload deadline (r : R) :
  json_ok (JObj payload) → stored now r (TOKEN token) payload deadline → fingerprint_digest fp = Ok digest →
  now + 500 <= deadline →
  ∃ r', set_token_fingerprint now token fp (quiet r) = (Ok true, quiet r')
    ∧ live now r' = <[TOKEN token := Entry (json_dumps true (JObj (dict_set (u "fingerprint") (JStr digest) payload)))
                        (Some (now + 1000 * ((deadline - now + 500) / 1000)))]> (live now r).
Proof.
  intros Hok Hs Hd Ht. assert (0 < (deadline - now + 500) / 1000) as Httl by (apply Z.div_str_pos; lia).
  destruct (setex_live now (TOKEN token) ((deadline - now + 500) / 1000)
    (json_dumps true (JObj (dict_set (u "fingerprint") (JStr digest) payload))) r Httl) as (r' & E & L).
  exists r'. split; [|exact L]. unfold set_token_fingerprint, with_pipeline. cbn [w_env quiet length set_fingerprint_loop].
  assert (set_fingerprint_once now (TOKEN token) fp (quiet r) = (Ok true, World r' [] None false)) as ->; [|done].
  unfold set_fingerprint_once. rewrite io_bind_run. unfold pipe_watch. cbn [interfere w_env quiet w_store].
  rewrite io_bind_run, client_get_alone by done. cbn [w_store]. unfold stored in Hs. rewrite Hs. cbn [fmap option_fmap option_map e_value].
  assert (∀ j, some_text (Some (json_dumps true (JObj j))) = Some (json_dumps true (JObj j))) as Hst by reflexivity.
  rewrite Hst. rewrite io_bind_run. unfold io_lift at 1. rewrite load_dumps by exact Hok. rewrite io_bind_run. unfold io_lift at 1.
  rewrite Hd. cbv zeta. rewrite io_bind_run. unfold client_ttl, reading. cbn [interfere w_env w_store].
  rewrite ttl_live, Hs. cbn [ttl_of e_deadline]. rewrite (proj2 (Z.leb_gt _ _)) by exact Httl. rewrite io_bind_run.
  unfold pipe_execute. cbn [interfere w_env w_dirty w_store]. by rewrite E.
Qed.

(** What the door reads of a token that was made for a user and a server. *)
Lemma admit_opens h mo peer c req token (r : R) username penc host port sid disp deadline aad password :
  tr_faults (cn_tracking c) = [] → tr_redis (cn_tracking c) = quiet r → Handler.request h peer c req token → text token →
  let payload fp := token_payload username penc host port fp sid disp in
  json_ok (JObj (payload JNull)) → stored (mo_start mo) r (TOKEN token) (payload JNull) deadline →
  password_aad (u "rdp:token") token username = Ok aad → decrypt (enc_key (hd_sessions h)) penc aad = Ok password →
  mo_start mo + 500 <= deadline →
  ∃ flags ip c' r', admit_client h mo peer c
    = (Ok (Some ({| sd_token := token; sd_username := username; sd_target_host := host; sd_target_port := port;
                    sd_password := password; sd_fingerprint := JNull; sd_server_id := json_str_opt sid;
                    sd_server_display := json_str_opt disp |}, token, flags, ip)), c')
    ∧ cn_aborted c' = cn_aborted c ∧ tr_redis (cn_tracking c') = quiet r'
    ∧ (enforced h = true → ∃ fp d deadline', build_rdp_client_fingerprint req token = Ok fp ∧ fingerprint_digest fp = Ok d
        ∧ stored (mo_start mo) r' (TOKEN token) (payload (JStr d)) deadline').
Proof.
  intros Hf Hq (ip & s1 & s2 & Eip & Ereq & Etok) Ht payload Hok Hst Haad Hdec Hd.
  destruct c as [[w db fs] stream written aborted cid plugins dns].
  cbn [cn_tracking tr_redis tr_faults cn_aborted cn_stream] in *. subst w fs.
  unfold admit_client. rewrite io_bind_run.
  unfold on_stream at 1, io_zoom. cbn [cn_stream] in Eip |- *. rewrite Eip, io_bind_run.
  unfold on_stream, io_zoom. cbn [cn_stream]. rewrite Ereq, io_bind_run. unfold io_lift at 1. rewrite Etok, io_bind_run.
  destruct (extract_requested_protocols_Ok req) as (flags & Eflags & _). unfold io_lift at 1. rewrite Eflags, io_bind_run.
  unfold on_store at 1, on_tracking, io_zoom. rewrite on_redis_run by done. cbn [cn_tracking tr_redis].
  rewrite (get_session_stored (hd_sessions h) _ _ _ _ _ Hok Hst).
  unfold payload at 1. rewrite (session_of_token _ _ _ _ _ _ _ _ _ _ _ Hok Haad Hdec). cbn [fmap res_fmap]. cbn [fst snd]. fold (enforced h).
  exists flags, ip. destruct (enforced h) eqn:Henf.
  - destruct (client_fingerprint req token Ht) as (fp & d & Efp & Ed). rewrite io_bind_run. unfold io_lift at 1. rewrite Efp.
    cbn [sd_fingerprint truthy]. rewrite io_bind_run. unfold on_store, on_tracking, io_zoom. rewrite on_redis_run by done. cbn [cn_tracking tr_redis].
    destruct (set_token_fingerprint_quiet (mo_start mo) token fp d (payload JNull) deadline r Hok Hst Ed Hd) as (r' & -> & L). cbn [fst snd].
    eexists _, r'. split; [reflexivity|]. split; [reflexivity|]. split; [reflexivity|]. intros _.
    exists fp, d. eexists. split; [reflexivity|]. split; [exact Ed|]. unfold stored. rewrite L, lookup_insert_eq.
    unfold payload. by rewrite bind_payload.
  - eexists _, r. split; [reflexivity|]. split; [reflexivity|]. by split.
Qed.

(** A bound token turns away whoever comes later with another fingerprint. *)
Lemma later_refused h now mo peer c req token (r r2 : R) username penc host port d sid disp deadline aad password :
  tr_redis (cn_tracking c) = quiet r2 → cn_cid c = None → Handler.request h peer c req token → text token → enforced h = true →
  let payload := token_payload username penc host port (JStr d) sid disp in
  json_ok (JObj payload) → d ≠ [] → stored now r (TOKEN token) payload deadline →
  kept_or_gone (TOKEN token) now r (mo_start mo) r2 →
  password_aad (u "rdp:token") token username = Ok aad → decrypt (enc_key (hd_sessions h)) penc aad = Ok password →
  (∃ fp, build_rdp_client_fingerprint req token = Ok fp ∧ fingerprint_digest fp = Ok d)
  ∨ turned_away h mo peer c.
Proof.
  intros Hq Hcid Hreq Ht Henf payload Hok Hd Hst Hkept Haad Hdec.
  destruct (client_fingerprint req token Ht) as (fp & d2 & Efp & Ed). destruct (decide (d = d2)) as [->|Hne]; [left; eauto|right].
  intros net. apply (handle_refused h net mo peer c r2 Hq Hcid). intros req' token' Hreq' (e & session & He & Hs & Hfp).
  destruct (request_unique _ _ _ _ _ _ _ Hreq Hreq') as [<- <-].
  assert (e_value e = json_dumps true (JObj payload)) as Ev.
  { destruct Hkept as [Hgone|Hkept]; [congruence|]. rewrite He in Hkept. unfold stored in Hst. rewrite Hst in Hkept.
    by injection Hkept. }
  rewrite Ev in Hs. unfold payload in Hs. rewrite (session_of_token _ _ _ _ _ _ _ _ _ _ _ Hok Haad Hdec) in Hs.
  injection Hs as <-. cbn [sd_fingerprint] in Hfp. destruct (Hfp Henf) as (fp' & d' & Efp' & Ed' & Hdd).
  { unfold truthy. by rewrite bool_decide_eq_false_2. }
  apply Hne. congruence.
Qed.

(** A token's way at the door, from the record that the portal wrote. *)
Lemma token_door h mo peer c req tok_random now deadline (r : R) username penc host port sid disp aad password :
  let token := token_urlsafe tok_random in
  let payload fp := token_payload username penc host port fp sid disp in
  (∀ fp, json_ok fp → json_ok (JObj (payload fp))) → stored now r (TOKEN token) (payload JNull) deadline →
  password_aad (u "rdp:token") token username = Ok aad → decrypt (enc_key (hd_sessions h)) penc aad = Ok password →
  tr_faults (cn_tracking c) = [] → tr_redis (cn_tracking c) = quiet r → Handler.request h peer c req token →
  now <= mo_start mo → mo_start mo + 500 <= deadline →
  ∃ flags ip c' r', admit_client h mo peer c
    = (Ok (Some ({| sd_token := token; sd_username := username; sd_target_host := host; sd_target_port := port;
                    sd_password := password; sd_fingerprint := JNull; sd_server_id := json_str_opt sid;
                    sd_server_display := json_str_opt disp |}, token, flags, ip)), c')
    ∧ cn_aborted c' = cn_aborted c ∧ tr_redis (cn_tracking c') = quiet r'
    ∧ (enforced h = true → ∀ mo2 peer2 (c2 : conn R DS DH DE) r2 req2,
         tr_redis (cn_tracking c2) = quiet r2 → cn_cid c2 = None →
         kept_or_gone (TOKEN token) (mo_start mo) r' (mo_start mo2) r2 → Handler.request h peer2 c2 req2 token →
         same_client token req req2 ∨ turned_away h mo2 peer2 c2).
Proof.
  intros token payload Hok Hst0 Haad Hdec Hf Hq Hreq Hle Hlate.
  assert (stored (mo_start mo) r (TOKEN token) (payload JNull) deadline) as Hst.
  { pose proof (stored_later _ (mo_start mo) _ _ _ _ Hst0 Hle) as Hl. by rewrite (proj2 (Z.leb_le _ _)) in Hl by lia. }
  pose proof (token_text tok_random) as Htok. fold token in Htok.
  destruct (admit_opens h mo peer c req token r _ _ _ _ _ _ _ _ _ Hf Hq Hreq Htok (Hok JNull I) Hst Haad Hdec Hlate)
    as (flags & ip & c' & r' & E & Hab & Hq' & Hbound).
  exists flags, ip, c', r'. split; [exact E|]. split; [exact Hab|]. split; [exact Hq'|].
  intros Henf mo2 peer2 c2 r2 req2 Hq2 Hcid2 Hkept Hreq2.
  destruct (Hbound Henf) as (fp & d & deadline' & Efp & Ed & Hst'). pose proof (digest_hex fp d Ed) as [Hhex Hne].
  destruct (later_refused h (mo_start mo) mo2 peer2 c2 req2 token r' r2 _ _ _ _ d _ _ _ _ _ Hq2 Hcid2 Hreq2 Htok Henf
    (Hok (JStr d) Hhex) Hne Hst' Hkept Haad Hdec) as [(fp2 & Efp2 & Ed2)|Hr]; [left; by exists fp, fp2, d | by right].
Qed.
End Door.

(** ** Properties *)


#[local] Transparent u.
#[local] Existing Instance ascii_lower.
Definition door_moment : moment :=
  {| mo_start := 60000; mo_end := 90000; mo_mono_start := 0; mo_mono_end := 7000; mo_id := 7%N |}.
Definition door_conn (r : store) : demo_conn_type :=
  Conn (Tracking (quiet r) (TrackingDb ∅ ∅ []) []) demo_request [] false None
    (PS mcs_init (monitor_init 3600 0) ∅) {| dr_cache_ttl := 300; dr_cache := ∅ |}.

Close Scope Z_scope.
